(* ===== verification/_CoqProject ===== *)
-Q . S2P
Prelude.v
GoNet.v
Crc32.v
Protocol.v
Messages.v
MessagesData.v
MessagesPeer.v
NetUtil.v
RateLimit.v
Float64.v
Bandwidth.v
GoTime.v
SendQueue.v
Sha256.v
Auth.v
Cipher.v
I18n.v
Client.v
Room.v
RoomHandlers.v
RoomIP.v
RoomInv.v
RoomSafe.v
RoomExample.v
RoomSpec.v
RoomEntry.v
RoomCap.v
RoomRelay.v
RoomLife.v
RoomAuthFlow.v
Persist.v
Subnet.v
Server.v
ServerExample.v
TcpAccept.v
ServerSpec.v
ServerEntry.v
ServerRebind.v
ServerLife.v
Sends.v
StateFile.v
ServerProc.v
Metrics.v
Status.v
Route.v
NatProbe.v
ClientLimit.v
Tunnel.v
TunnelReg.v
TunnelLife.v
Handshake.v
Delivery.v
TunnelSpec.v
TunnelSend.v
ClientConfig.v
TunCommon.v
TunLinux.v
TunWindows.v
NetIO.v
Paths.v
Startup.v
ClientMain.v
App.v
RunLoops.v
SingleInstance.v
