(* ===== verification/Prelude.v ===== *)
(** * GameTunnel: a verification library

    GameTunnel joins the machines of a few players into one virtual LAN.  A client
    registers with a server, gets a virtual IPv4 address, reads the packets of its
    TUN device and sends them to the server, which relays them to the other
    players of the room; clients whose NAT allows it send to each other directly.
    This library models the Go code under src/internal and src/cmd as executable
    definitions and proves what makes it correct, and, where the code does not do what its
    comments say, the fact as a theorem with a concrete run.

    ** Parts and files

    Common ground.  This file: bytes, machine words, Go results ([go]: a value, an
    error or a panic), slices, map iteration.  [GoNet]: net, strconv and strings as
    the sources use them.  [Float64], [GoTime]: double-precision arithmetic with
    its rounding, and durations.  [Crc32], [Sha256]: the hashes of Go's library.

    Wire protocol (internal/protocol).  [Protocol]: the packet envelope, versions,
    disconnect reasons.  [Messages], [MessagesData], [MessagesPeer]: every payload,
    both directions, with the panics that missing guards would allow.
    [NetUtil] (internal/netutil, internal/pool): map keys, relay targets, TCP
    framing, buffer pools.  [I18n] (internal/i18n): both tables of messages.
    [Auth] (internal/auth) and [Cipher] (internal/crypto): challenge-response codes,
    packet encryption, the replay window.

    Server (internal/server).  [RateLimit], [Bandwidth], [SendQueue]: the limiters
    and the prioritised queue all rooms share.  [Client], [Room], [RoomHandlers]:
    a room as a record of its tables with clients as shared locations, its packet
    handlers and ticks.  [Subnet], [Persist], [Server], [TcpAccept], [Metrics],
    [Status]: the networks of the rooms, the state file, dispatch and clean-up,
    TCP clients, the samples and the status page.  The theorems about rooms are in
    [RoomIP] (bitmap search), [RoomInv] and [RoomSafe] (the invariant and its
    preservation), [RoomSpec], [RoomEntry], [RoomCap], [RoomRelay], [RoomLife],
    [RoomAuthFlow]; those about servers in [ServerSpec] (the invariant),
    [ServerEntry], [ServerRebind], [ServerLife], [Sends] (what an operation does to
    the send queue).  [StateFile]: the system calls of saveState.  [ServerProc]: a
    server process, with the goroutines of cmd/server/main.go, Run, Close,
    persistLoop and the send queue as moves in any order.  [RoomExample] and
    [ServerExample] are the concrete histories the witnesses run.

    Client (internal/client, internal/nat, internal/tun).  [Route]: packets read
    from the TUN device.  [Tunnel]: the state, the data path, peers and hole
    punching.  [TunnelReg]: the handshake, keepalive and rebind.  [TunnelLife]: the
    life of a connection and of the TUN device.  [TunCommon], [TunLinux],
    [TunWindows]: the devices, what they ask of the operating system to be
    configured, and the firewall.  [NatProbe], [ClientLimit], [ClientConfig],
    [App]: NAT detection, send limiter and delays, the configuration file, the
    connection manager.  [RunLoops]: the goroutines of a connection with the control
    flow of their bodies, and what a reconnect leaves of them.  Theorems: [TunnelSpec] (what a client accepts),
    [TunnelSend] (sending, rebind), [Handshake] and [Delivery] (client and server
    composed: a login that succeeds, a packet from one TUN device to another).

    Programs (cmd, internal/paths, logfile, crashlog, singleinstance).  [Paths]: path
    arithmetic, directories, log rotation, crash logs.  [Startup]: the server from its
    flags to Run, with the sockets and files New asks for.  [ClientMain]: the client
    from its configuration to its exit, with the firewall set-up.  [NetIO]
    (internal/netutil): the calls that set up sockets.  [SingleInstance]: the lock file
    of Unix and the named mutex of Windows.  What these ask of the system is a
    history of calls, as for the TUN devices ([TunCommon]).

    ** What the theorems show

    Composition: a packet crosses client, server - handlePacket, with the bandwidth
    limiter that New installs - and client unchanged (Delivery.game_packet_delivered);
    the right password makes the client a player and the address sendAssignIP sends is
    accepted (Handshake); a rebind moves one player and keeps its session
    (ServerRebind, TunnelSend).
    Safety: nobody enters a room or a server with a password without a fresh code
    (RoomEntry, ServerEntry); nobody sends for another player's address
    or with a token that is not its player's (RoomRelay); a direct packet reaches the TUN device only from the peer it names
    (TunnelSpec); replayed packets are dropped, by refinement of a set of seen
    counters (Cipher).  Invariants over all reachable states: distinct addresses
    across rooms, disjoint networks, limits (RoomSpec, RoomCap, ServerSpec).
    The TUN device: at most one socket and one device are open (TunnelLife), a device
    that cannot be configured is closed, and what is routed to it is the game traffic
    (TunLinux).  Functional behaviour: registration with the least free address,
    relay, clean-up, leaving, subnets, peer lists, the send queues, TCP clients with
    writes that can fail half-way (NetUtil, TcpAccept).
    Programs: the shutdown of a server ends whatever the order of its goroutines,
    what Close queues is written, one packet is written or waits for each request the
    send queue accepted, the state file is replaced as a whole by a lone saver; a
    signal starts two savers and can silence the notices (ServerProc, StateFile); the server main runs is the one New makes of its flags
    (Startup); a cancelled connection ends, but for reads of a silent device, and so
    does one that loses its socket or device (RunLoops); one instance runs while no
    lock is lost (SingleInstance); firewall rules go with the client (ClientMain).
    Termination: registration over UDP, the search for a network, accepting a TCP
    client, the shutdown, the end of a connection.  Round trips: payloads, packets,
    the state file, the configuration file, encrypted streams, TCP framing.  Bounds:
    rate limiters with their rounding errors.  Error behaviour: branches that leak
    counts, unmap players, retry for ever, or ignore every later request.

    ** Conventions

    A handler runs to completion before the next: its work on shared state is one
    critical section of the source.  Interleaving is the order of the events; where
    an operation of the source is not atomic (the send queue, the relay of a packet
    through two machines, saving, closing, locking) its steps are separate.  The
    clock, the language and the random bytes of an event are the class [Env]; the
    order of a range over a map is [MapRange], any permutation of its entries; random
    delays are [Rand]; the contents of recycled buffers are [PktBufs].  Code that is not in the repository
    is an interface with its documented laws: [AEAD] (ChaCha20-Poly1305: what Seal
    makes Open accepts), [NetResolver] (names and services).  Addresses are byte
    strings, as in Go; integers are Z reduced where the source's types wrap.
    Shared mutable objects are locations in a store.

    ** Fuel

    Recursion that is not structural takes fuel, computed from its input: a decimal
    has at most 20 digits, the parsers and stream loops consume a byte in every
    round, a bitmap word has at most 64 free bits, the networks of a /16 are 256,
    the carries of a checksum fit two foldings of a 32-bit sum.  The theorems about
    these functions are stated at the fuel the definitions use, and say that the
    result is produced.

    ** Not modelled

    Sockets and deadlines as such (their datagrams, read errors and timeouts are
    events); the JSON text of the state file and of the status page, and the HTML
    template (the values they encode are modelled); what the system calls, the
    functions of the IP Helper library, the WireGuard driver and the command line
    tools do (they are calls whose answers are an argument, [Answers]); the scheduling
    of goroutines that wait for tickers only (a tick is an event that can come at any
    time, and theorems that a shutdown or a connection ends count the moves between
    two ticks); waiting for locks; the parsing of flags, the banner and log lines; paths of Windows; the HTTP
    servers of the status page and the profiler. *)

From Stdlib Require Export ZArith Lia Bool Init.Byte Strings.Byte Strings.String.
From stdpp Require Export prelude gmap fin_maps.

(** [String] shadows the list operations of the same name. *)
Abbreviation length := Datatypes.length.
Abbreviation concat := List.concat.
Abbreviation index_of_string := String.index.

#[global] Open Scope Z_scope.

(** ** Notation scope of the development *)

Declare Scope go_scope.
Delimit Scope go_scope with go.

(** Go string literal: the UTF-8 bytes between the quotes. *)
Notation "'str' s" := (list_byte_of_string s%string) (at level 5, s at level 0) : go_scope.
#[global] Open Scope go_scope.

(** ** Results of Go calls

    A call returns a value, returns an error, or panics at run time (a slice
    or index out of range).  [E] is the error type of the package. *)

Inductive go (E A : Type) : Type :=
| Ok (a : A)
| Err (e : E)
| Panic.
Arguments Ok {E A} a.
Arguments Err {E A} e.
Arguments Panic {E A}.

#[global] Instance go_ret E : MRet (go E) := fun A a => Ok a.
#[global] Instance go_bind E : MBind (go E) := fun A B f m =>
  match m with Ok a => f a | Err e => Err e | Panic => Panic end.
#[global] Instance go_fmap E : FMap (go E) := fun A B f m =>
  match m with Ok a => Ok (f a) | Err e => Err e | Panic => Panic end.
#[global] Instance go_eq_dec E A `{EqDecision E, EqDecision A} : EqDecision (go E A).
Proof. solve_decision. Defined.

(** The call does not panic. *)
Definition no_panic {E A} (r : go E A) : Prop := r ≠ Panic.

Lemma go_bind_ok {E A B} (a : A) (f : A → go E B) : (Ok a ≫= f) = f a.
Proof. reflexivity. Qed.

(** ** Machine bytes *)

#[global] Instance byte_eq_dec : EqDecision byte := Byte.byte_eq_dec.
#[global] Program Instance byte_countable : Countable byte :=
  inj_countable Byte.to_N Byte.of_N _.
Next Obligation. intros b. apply Byte.of_to_N. Qed.
#[global] Instance byte_inhabited : Inhabited byte := populate x00.

(** Go strings and byte slices are both sequences of bytes. *)
Abbreviation bytes := (list byte) (only parsing).

Definition b2z (b : byte) : Z := Z.of_N (Byte.to_N b).

(** [byte(z)]: conversion truncates to the low eight bits. *)
Definition z2b (z : Z) : byte :=
  match Byte.of_N (Z.to_N (z mod 256)) with Some b => b | None => x00 end.

Lemma b2z_range b : 0 ≤ b2z b < 256.
Proof. unfold b2z. pose proof (Byte.to_N_bounded b). lia. Qed.

Lemma z2b_b2z b : z2b (b2z b) = b.
Proof.
  unfold z2b, b2z. pose proof (Byte.to_N_bounded b).
  rewrite Z.mod_small by lia. rewrite N2Z.id, Byte.of_to_N. done.
Qed.

Lemma b2z_z2b z : b2z (z2b z) = z mod 256.
Proof.
  unfold z2b, b2z. pose proof (Z.mod_pos_bound z 256 ltac:(lia)).
  destruct (Byte.of_N (Z.to_N (z mod 256))) as [b|] eqn:E.
  - apply Byte.to_of_N in E. rewrite E. lia.
  - apply Byte.of_N_None_iff in E. lia.
Qed.

Lemma b2z_inj b1 b2 : b2z b1 = b2z b2 → b1 = b2.
Proof. intros H. rewrite <- (z2b_b2z b1), H. apply z2b_b2z. Qed.

#[global] Instance b2z_inj' : Inj (=) (=) b2z.
Proof. exact b2z_inj. Qed.

Lemma z2b_mod z : z2b (z mod 256) = z2b z.
Proof. unfold z2b. by rewrite Z.mod_mod by lia. Qed.

(** Byte operators used by the source: [a & b], [a | b], [a ^ b], [^a]. *)
Definition byte_and (a b : byte) : byte := z2b (Z.land (b2z a) (b2z b)).
Definition byte_or (a b : byte) : byte := z2b (Z.lor (b2z a) (b2z b)).
Definition byte_not (a : byte) : byte := z2b (255 - b2z a).

(** ** Unsigned machine integers *)

Definition u16 (z : Z) : Z := z mod 2 ^ 16.
Definition u32 (z : Z) : Z := z mod 2 ^ 32.
Definition u64 (z : Z) : Z := z mod 2 ^ 64.
(** Reinterpretation of a 64-bit word as [int64]. *)
Definition i64 (z : Z) : Z := (z + 2 ^ 63) mod 2 ^ 64 - 2 ^ 63.

Lemma u64_range z : 0 ≤ u64 z < 2 ^ 64.
Proof. apply Z.mod_pos_bound. lia. Qed.
Lemma i64_range z : - 2 ^ 63 ≤ i64 z < 2 ^ 63.
Proof. unfold i64. pose proof (Z.mod_pos_bound (z + 2 ^ 63) (2 ^ 64) ltac:(lia)). lia. Qed.
Lemma i64_u64 z : - 2 ^ 63 ≤ z < 2 ^ 63 → i64 (u64 z) = z.
Proof.
  intros H. unfold i64, u64. rewrite Zplus_mod_idemp_l.
  rewrite Z.mod_small by lia. lia.
Qed.

(** ** Byte order: [encoding/binary] *)

(** [put_le n v]: the [n] low bytes of [v], least significant first. *)
Fixpoint put_le (n : nat) (v : Z) : list byte :=
  match n with
  | O => []
  | S n => z2b v :: put_le n (Z.shiftr v 8)
  end.

Fixpoint get_le (l : list byte) : Z :=
  match l with
  | [] => 0
  | b :: l => b2z b + 256 * get_le l
  end.

Definition put_be (n : nat) (v : Z) : list byte := reverse (put_le n v).
Definition get_be (l : list byte) : Z := get_le (reverse l).

Lemma length_put_le n v : length (put_le n v) = n.
Proof. revert v. induction n as [|n IH]; intros v; simpl; [done|]. by rewrite IH. Qed.

Lemma length_put_be n v : length (put_be n v) = n.
Proof. unfold put_be. by rewrite length_reverse, length_put_le. Qed.

Lemma get_put_le n v : get_le (put_le n v) = v mod 256 ^ Z.of_nat n.
Proof.
  revert v. induction n as [|n IH]; intros v; simpl.
  - by rewrite Z.mod_1_r.
  - rewrite IH, b2z_z2b, Z.shiftr_div_pow2 by lia.
    change (2 ^ 8) with 256.
    replace (Z.of_nat (S n)) with (1 + Z.of_nat n) by lia.
    rewrite Z.pow_add_r, Z.pow_1_r by lia.
    rewrite Z.rem_mul_r by lia. lia.
Qed.

Lemma get_put_le_small n v :
  0 ≤ v < 256 ^ Z.of_nat n → get_le (put_le n v) = v.
Proof. intros H. by rewrite get_put_le, Z.mod_small. Qed.

Lemma get_le_range l : 0 ≤ get_le l < 256 ^ Z.of_nat (length l).
Proof.
  induction l as [|b l IH]; [simpl; lia|].
  cbn [get_le]. pose proof (b2z_range b).
  change (length (b :: l)) with (S (length l)).
  replace (Z.of_nat (S (length l))) with (1 + Z.of_nat (length l)) by lia.
  rewrite Z.pow_add_r, Z.pow_1_r by lia. nia.
Qed.

Lemma put_get_le l : put_le (length l) (get_le l) = l.
Proof.
  induction l as [|b l IH]; simpl; [done|].
  pose proof (b2z_range b).
  rewrite Z.shiftr_div_pow2 by lia. change (2 ^ 8) with 256.
  assert ((b2z b + 256 * get_le l) / 256 = get_le l) as ->
    by (rewrite Z.mul_comm, Z.div_add, Z.div_small by lia; lia).
  rewrite IH. f_equal.
  apply b2z_inj. rewrite b2z_z2b.
  rewrite Z.mul_comm, Z.mod_add, Z.mod_small by lia. done.
Qed.

Lemma put_get_le_n n l : length l = n → put_le n (get_le l) = l.
Proof. intros <-. apply put_get_le. Qed.

Lemma get_le_inj l1 l2 :
  length l1 = length l2 → get_le l1 = get_le l2 → l1 = l2.
Proof. intros Hl H. by rewrite <- (put_get_le l1), Hl, H, put_get_le. Qed.

Lemma get_le_16 a b : get_le [a; b] = b2z a + 256 * b2z b.
Proof. simpl. lia. Qed.

(** ** Slices

    [slice l a b] is [l[a:b]]; it panics unless [a <= b <= len(l)].  The
    decoders slice buffers whose capacity may exceed their length, and their
    guards keep every bound within the length. *)

Definition slice {E} (l : list byte) (a b : nat) : go E (list byte) :=
  if (a <=? b)%nat && (b <=? length l)%nat then Ok (take (b - a) (drop a l)) else Panic.

(** [l[i]]. *)
Definition index {E} (l : list byte) (i : nat) : go E byte :=
  match l !! i with Some b => Ok b | None => Panic end.

(** [binary.LittleEndian.Uint16(l[off:])], as a length or offset. *)
Definition u16_at {E} (l : list byte) (off : nat) : go E nat :=
  Z.to_nat ∘ get_le <$> slice l off (off + 2).

(** [copy(dst, src)]: overwrites the common prefix, keeps the length of [dst]. *)
Definition copy_into (dst src : list byte) : list byte :=
  take (length dst) src ++ drop (length src) dst.

(** [copy(dst[off:], src)]. *)
Definition copy_at (dst : list byte) (off : nat) (src : list byte) : list byte :=
  take off dst ++ copy_into (drop off dst) src.

Definition zeros (n : nat) : list byte := replicate n x00.

Lemma slice_ok {E} l (a b : nat) :
  (a ≤ b)%nat → (b ≤ length l)%nat →
  slice (E:=E) l a b = Ok (take (b - a) (drop a l)).
Proof.
  intros Ha Hb. unfold slice.
  destruct (Nat.leb_spec a b); [|lia]. destruct (Nat.leb_spec b (length l)); [done|lia].
Qed.

Lemma u16_at_ok {E} l (off : nat) :
  (off + 2 ≤ length l)%nat →
  u16_at (E:=E) l off = Ok (Z.to_nat (get_le (take 2 (drop off l)))).
Proof.
  intros H. unfold u16_at. rewrite slice_ok by lia.
  by replace (off + 2 - off)%nat with 2%nat by lia.
Qed.

Lemma index_ok {E} l (i : nat) :
  (i < length l)%nat → ∃ b, index (E:=E) l i = Ok b ∧ l !! i = Some b.
Proof.
  intros H. unfold index. destruct (lookup_lt_is_Some_2 l i H) as [b Hb].
  exists b. by rewrite Hb.
Qed.

Lemma length_copy_into dst src : length (copy_into dst src) = length dst.
Proof. unfold copy_into. rewrite length_app, length_take, length_drop. lia. Qed.

Lemma copy_into_exact dst src : length dst = length src → copy_into dst src = src.
Proof.
  intros H. unfold copy_into. rewrite take_ge by lia. rewrite drop_ge by lia.
  apply app_nil_r.
Qed.

Lemma length_zeros n : length (zeros n) = n.
Proof. apply length_replicate. Qed.

Lemma drop_zeros k n : drop k (zeros n) = zeros (n - k).
Proof. apply drop_replicate. Qed.

Lemma copy_into_zeros n src :
  (length src ≤ n)%nat → copy_into (zeros n) src = src ++ zeros (n - length src).
Proof.
  intros H. unfold copy_into. rewrite length_zeros, take_ge by lia.
  by rewrite drop_zeros.
Qed.

(** The buffer [pre ++ zeros] being filled at its write offset. *)
Lemma copy_at_zeros pre n src (off : nat) :
  off = length pre → (length src ≤ n)%nat →
  copy_at (pre ++ zeros n) off src = (pre ++ src) ++ zeros (n - length src).
Proof.
  intros -> H. unfold copy_at. rewrite take_app_length, drop_app_length.
  rewrite copy_into_zeros by done. by rewrite app_assoc.
Qed.

(** ** Iteration over Go maps

    [range m] visits every entry of a map once, in an order the language leaves
    open.  The handlers are parameterised by that order. *)

Class MapRange := {
  go_range : ∀ {K A : Type} `{Countable K}, gmap K A → list (K * A);
  go_range_perm : ∀ {K A : Type} `{Countable K} (m : gmap K A),
    go_range m ≡ₚ map_to_list m
}.

(** One admissible order, used to run the handlers on concrete states. *)
Definition canonical_range : MapRange := {|
  go_range := fun K A _ _ m => map_to_list m;
  go_range_perm := fun K A _ _ m => reflexivity _
|}.

Lemma elem_of_go_range `{MapRange} {K A} `{Countable K} (m : gmap K A) k x :
  (k, x) ∈ go_range m ↔ m !! k = Some x.
Proof. by rewrite go_range_perm, elem_of_map_to_list. Qed.

Lemma NoDup_go_range `{MapRange} {K A} `{Countable K} (m : gmap K A) :
  NoDup (go_range m).*1.
Proof. rewrite go_range_perm. apply NoDup_fst_map_to_list. Qed.

(** [first_such p l]: the entry a [for ... if p { ...; break }] loop stops at. *)
Fixpoint first_such {A} (p : A → bool) (l : list A) : option A :=
  match l with
  | [] => None
  | x :: l => if p x then Some x else first_such p l
  end.

Lemma first_such_Some {A} (p : A → bool) l x :
  first_such p l = Some x → x ∈ l ∧ p x = true.
Proof.
  induction l as [|y l IH]; simpl; [done|].
  destruct (p y) eqn:E; intros Hx.
  - simplify_eq. split; [constructor|done].
  - destruct (IH Hx). split; [by constructor|done].
Qed.

Lemma first_such_None {A} (p : A → bool) l :
  first_such p l = None ↔ ∀ x, x ∈ l → p x = false.
Proof.
  induction l as [|y l IH]; simpl.
  - split; [intros _ x Hx; by apply not_elem_of_nil in Hx|done].
  - destruct (p y) eqn:E.
    + split; [done|]. intros Hall. rewrite (Hall y) in E; [done|constructor].
    + rewrite IH. split.
      * intros Hall x [->|Hx]%elem_of_cons; eauto.
      * intros Hall x Hx. apply Hall. by constructor.
Qed.

(** ** Automation *)

(** Discharges the slice accesses of a decoder that its guards make safe. *)
Ltac go_step :=
  match goal with
  | |- context [slice ?l ?a ?b] => rewrite (slice_ok l a b) by (rewrite ?length_app in *; lia)
  | |- context [u16_at ?l ?o] => rewrite (u16_at_ok l o) by (rewrite ?length_app in *; lia)
  | |- context [@index ?T ?l ?i] =>
      let b := fresh "b" in let E := fresh "E" in let Hb := fresh "Hb" in
      destruct (@index_ok T l i) as (b & E & Hb); [rewrite ?length_app in *; lia|rewrite E]
  | |- context [if (?a <? ?b)%nat then _ else _] => destruct (Nat.ltb_spec a b)
  | |- context [if (?a <=? ?b)%nat then _ else _] => destruct (Nat.leb_spec a b)
  | |- context [(?a <? ?b)%nat || _] => destruct (Nat.ltb_spec a b)
  end.
Ltac go_run := repeat (go_step; cbn [mbind mret go_bind go_ret fmap go_fmap orb andb compose]).

Create HintDb gotunnel.
Create Rewrite HintDb gotunnel.
#[export] Hint Rewrite length_put_le length_put_be length_zeros length_copy_into : gotunnel.
#[export] Hint Resolve b2z_range u64_range : gotunnel.
