(* ===== verification/GoNet.v ===== *)
(** * GoNet: what the sources use of package net, strconv and strings

    Addresses are byte strings as in Go ([net.IP] is a byte slice); the parsers
    and printers follow the standard library.  Name resolution that leaves the
    process (services file, DNS) is the class [NetResolver]. *)

From S2P Require Import Prelude.

(** ** ASCII *)

Definition ch (z : Z) : byte := z2b z.
Definition c_dot : byte := "."%byte.
Definition c_colon : byte := ":"%byte.
Definition c_lbr : byte := "["%byte.
Definition c_rbr : byte := "]"%byte.
Definition c_pct : byte := "%"%byte.
Definition c_plus : byte := "+"%byte.
Definition c_minus : byte := "-"%byte.

Definition is_digit (b : byte) : bool := (48 <=? b2z b) && (b2z b <=? 57).
Definition digit_val (b : byte) : Z := b2z b - 48.

(** ** strconv *)

(** [strconv.AppendInt] / [strconv.Itoa] in base 10: digits of a natural, most
    significant first.  Twenty digits hold every 64-bit integer. *)
Fixpoint digits_fuel (fuel : nat) (n : Z) (acc : list byte) : list byte :=
  match fuel with
  | O => acc
  | S fuel =>
      let acc := ch (48 + n mod 10) :: acc in
      if n / 10 =? 0 then acc else digits_fuel fuel (n / 10) acc
  end.

Definition itoa (n : Z) : list byte :=
  if n <? 0 then c_minus :: digits_fuel 20 (- n) [] else digits_fuel 20 n [].

(** Value of a digit string read left to right; [None] at a non-digit. *)
Fixpoint digits_val (l : list byte) (acc : Z) : option Z :=
  match l with
  | [] => Some acc
  | b :: l => if is_digit b then digits_val l (acc * 10 + digit_val b) else None
  end.

(** [strconv.Atoi]: an optional sign, at least one digit, within [int64]. *)
Definition Atoi (s : list byte) : option Z :=
  let go (neg : bool) (l : list byte) :=
    match l with
    | [] => None
    | _ => v ← digits_val l 0;
           let v := if neg then - v else v in
           if (- 2 ^ 63 <=? v) && (v <? 2 ^ 63) then Some v else None
    end in
  match s with
  | b :: l => if bool_decide (b = c_minus) then go true l
              else if bool_decide (b = c_plus) then go false l
              else go false s
  | [] => None
  end.

(** ** Byte search *)

Fixpoint index_byte (l : list byte) (b : byte) : option nat :=
  match l with
  | [] => None
  | x :: l => if bool_decide (x = b) then Some O else S <$> index_byte l b
  end.

Fixpoint last_index_byte (l : list byte) (b : byte) : option nat :=
  match l with
  | [] => None
  | x :: l => match last_index_byte l b with
              | Some i => Some (S i)
              | None => if bool_decide (x = b) then Some O else None
              end
  end.

Definition has_byte (l : list byte) (b : byte) : bool :=
  match index_byte l b with Some _ => true | None => false end.

(** ** IP addresses *)

Abbreviation IP := (list byte).

Definition v4in6_prefix : list byte := zeros 10 ++ [xff; xff].

(** [ip.To4()]. *)
Definition To4 (ip : IP) : option IP :=
  if (length ip =? 4)%nat then Some ip
  else if (length ip =? 16)%nat && bool_decide (take 12 ip = v4in6_prefix)
  then Some (drop 12 ip) else None.

(** [net.IPv4(a, b, c, d)]: the 16-byte form. *)
Definition IPv4 (a b c d : byte) : IP := v4in6_prefix ++ [a; b; c; d].

(** [ip.To16()]; nil for any other length. *)
Definition To16 (ip : IP) : option IP :=
  if (length ip =? 4)%nat then Some (v4in6_prefix ++ ip)
  else if (length ip =? 16)%nat then Some ip else None.

(** [ip.Equal(x)]: an IPv4 address equals its IPv4-in-IPv6 form. *)
Definition IP_Equal (ip x : IP) : bool :=
  if (length ip =? length x)%nat then bool_decide (ip = x)
  else if (length ip =? 4)%nat && (length x =? 16)%nat
  then bool_decide (take 12 x = v4in6_prefix) && bool_decide (ip = drop 12 x)
  else if (length ip =? 16)%nat && (length x =? 4)%nat
  then bool_decide (take 12 ip = v4in6_prefix) && bool_decide (drop 12 ip = x)
  else false.

Record IPNet := mkIPNet { net_IP : IP; net_Mask : list byte }.
#[global] Instance IPNet_eq_dec : EqDecision IPNet.
Proof. solve_decision. Defined.

Definition and_mask (ip mask : list byte) : list byte := zip_with byte_and ip mask.

(** [n.Contains(ip)] (networkNumberAndMask then a masked comparison). *)
Definition Contains (n : IPNet) (ip : IP) : bool :=
  let nn := match To4 (net_IP n) with Some x => x | None => net_IP n end in
  let m := if (length (net_Mask n) =? 16)%nat && (length nn =? 4)%nat
           then drop 12 (net_Mask n) else net_Mask n in
  let x := match To4 ip with Some x => x | None => ip end in
  (((length nn =? 4)%nat || (length nn =? 16)%nat) && (length m =? length nn)%nat)
  && (length x =? length nn)%nat
  && bool_decide (and_mask nn m = and_mask x m).

(** Dotted decimal. *)
Definition v4_string (ip4 : IP) : list byte :=
  match ip4 with
  | [a; b; c; d] => itoa (b2z a) ++ [c_dot] ++ itoa (b2z b) ++ [c_dot]
                    ++ itoa (b2z c) ++ [c_dot] ++ itoa (b2z d)
  | _ => []
  end.

(** *** IPv6 text (netip.Addr.appendTo6) *)

Definition hex_digit (n : Z) : byte := if n <? 10 then ch (48 + n) else ch (87 + n).
Definition hex16 (n : Z) : list byte :=
  (if 4096 <=? n then [hex_digit (n / 4096)] else [])
  ++ (if 256 <=? n then [hex_digit (n / 256 mod 16)] else [])
  ++ (if 16 <=? n then [hex_digit (n / 16 mod 16)] else [])
  ++ [hex_digit (n mod 16)].

Definition v6_groups (ip : IP) : list Z :=
  (fun i => get_be (take 2 (drop (2 * i) ip))) <$> seq 0 8.

Fixpoint zero_run (l : list Z) : nat :=
  match l with
  | 0 :: l => S (zero_run l)
  | _ => O
  end.

(** The first longest run of at least two zero groups: start and end. *)
Definition longest_zeros (g : list Z) : nat * nat :=
  foldl (fun '(s, e) i =>
           let n := zero_run (drop i g) in
           if (2 <=? n)%nat && (e - s <? n)%nat then (i, (i + n)%nat) else (s, e))
        (255%nat, 255%nat) (seq 0 8).

Fixpoint v6_join (fuel : nat) (g : list Z) (s e i : nat) : list byte :=
  match fuel with
  | O => []
  | S fuel =>
      if (8 <=? i)%nat then []
      else if (i =? s)%nat then
        [c_colon; c_colon] ++
        (if (8 <=? e)%nat then [] else hex16 (g !!! e) ++ v6_join fuel g s e (S e))
      else (if (0 <? i)%nat then [c_colon] else []) ++ hex16 (g !!! i) ++ v6_join fuel g s e (S i)
  end.

Definition v6_string (ip : IP) : list byte :=
  let g := v6_groups ip in
  let '(s, e) := longest_zeros g in v6_join 8 g s e 0.

Definition hex_string (l : list byte) : list byte :=
  l ≫= fun b => [hex_digit (b2z b / 16); hex_digit (b2z b mod 16)].

(** [ip.String()]. *)
Definition IP_String (ip : IP) : list byte :=
  match ip with
  | [] => str "<nil>"
  | _ => match To4 ip with
         | Some ip4 => v4_string ip4
         | None => if (length ip =? 16)%nat then v6_string ip
                   else "?"%byte :: hex_string ip
         end
  end.

(** *** Networks *)

(** The one bits at the head of a byte and what follows them. *)
Fixpoint lead_ones (fuel : nat) (v : Z) : Z * Z :=
  match fuel with
  | O => (0, v)
  | S fuel => if Z.testbit v 7 then let '(n, r) := lead_ones fuel (v * 2 mod 256) in (1 + n, r) else (0, v)
  end.

(** net.simpleMaskLength; [None] for a mask that is not ones followed by zeros. *)
Fixpoint simpleMaskLength (m : list byte) : option Z :=
  match m with
  | [] => Some 0
  | v :: m =>
      if bool_decide (v = xff) then Z.add 8 <$> simpleMaskLength m
      else let '(n, r) := lead_ones 8 (b2z v) in
           if (r =? 0) && forallb (fun b => bool_decide (b = x00)) m then Some n else None
  end.

(** [n.String()]. *)
Definition IPNet_String (n : IPNet) : list byte :=
  let nn := match To4 (net_IP n) with Some x => x | None => net_IP n end in
  let m := if (length (net_Mask n) =? 16)%nat && (length nn =? 4)%nat
           then drop 12 (net_Mask n) else net_Mask n in
  if ((length nn =? 4)%nat || (length nn =? 16)%nat) && (length m =? length nn)%nat then
    match simpleMaskLength m with
    | Some l => IP_String nn ++ str "/" ++ itoa l
    | None => IP_String nn ++ str "/" ++ hex_string m
    end
  else str "<nil>".

(** [ip.Mask(mask)]; nil when the lengths do not fit. *)
Definition IP_Mask (ip mask : list byte) : IP :=
  let mask := if (length mask =? 16)%nat && (length ip =? 4)%nat && bool_decide (take 12 mask = replicate 12 xff)
              then drop 12 mask else mask in
  let ip := if (length mask =? 4)%nat && (length ip =? 16)%nat && bool_decide (take 12 ip = v4in6_prefix)
            then drop 12 ip else ip in
  if (length ip =? length mask)%nat then and_mask ip mask else [].

(** [mask.Size()], the ones; 0 for a mask that is not canonical. *)
Definition Mask_ones (mask : list byte) : Z := default 0 (simpleMaskLength mask).

(** [net.CIDRMask(ones, 8 * n)], 0 <= ones <= 8 * n. *)
Fixpoint CIDRMask (ones : Z) (n : nat) : list byte :=
  match n with
  | O => []
  | S n => if 8 <=? ones then xff :: CIDRMask (ones - 8) n
           else byte_not (z2b (Z.shiftr 255 ones)) :: CIDRMask 0 n
  end.

(** *** Parsing *)

(** netip.parseIPv4Fields over a string: state is the fields read (reversed),
    the value and length of the current octet, and the previous byte. *)
Fixpoint parse_v4 (s : list byte) (first : bool) (prev_dot : bool)
    (fields : list byte) (val : Z) (len : nat) : option (list byte) :=
  match s with
  | [] => if (length fields =? 3)%nat then Some (reverse (z2b val :: fields)) else None
  | b :: s =>
      if is_digit b then
        if (len =? 1)%nat && (val =? 0) then None
        else let val := val * 10 + digit_val b in
             if 255 <? val then None
             else parse_v4 s false false fields val (S len)
      else if bool_decide (b = c_dot) then
        if first || bool_decide (s = []) || prev_dot then None
        else if (length fields =? 3)%nat then None
        else parse_v4 s false true (z2b val :: fields) 0 O
      else None
  end.

Definition parse_v4_fields (s : list byte) : option (list byte) := parse_v4 s true false [] 0 O.

Definition hex_val (b : byte) : option Z :=
  let z := b2z b in
  if (48 <=? z) && (z <=? 57) then Some (z - 48)
  else if (97 <=? z) && (z <=? 102) then Some (z - 87)
  else if (65 <=? z) && (z <=? 70) then Some (z - 55)
  else None.

(** One hexadecimal group: digits read, value, rest; [None] past four digits. *)
Fixpoint hex_group (s : list byte) (off : nat) (acc : Z) : option (nat * Z * list byte) :=
  match s with
  | [] => Some (off, acc, [])
  | b :: s' => match hex_val b with
               | Some d => if (3 <? off)%nat then None else hex_group s' (S off) (acc * 16 + d)
               | None => Some (off, acc, s)
               end
  end.

(** netip.parseIPv6, the loop over groups: [ip] holds the bytes read, [ell]
    the position of an ellipsis. *)
Fixpoint parse_v6_loop (fuel : nat) (s ip : list byte) (ell : option nat)
    : option (list byte * option nat * list byte) :=
  match fuel with
  | O => Some (ip, ell, s)
  | S fuel =>
      if (16 <=? length ip)%nat then Some (ip, ell, s) else
      '(off, acc, rest) ← hex_group s O 0;
      if (off =? 0)%nat then None else
      match rest with
      | [] => Some (ip ++ put_be 2 acc, ell, [])
      | b :: rest' =>
          if bool_decide (b = c_dot) then
            if bool_decide (ell = None) && negb (length ip =? 12)%nat then None
            else if (16 <? length ip + 4)%nat then None
            else v4 ← parse_v4_fields s; Some (ip ++ v4, ell, [])
          else
            let ip := ip ++ put_be 2 acc in
            if negb (bool_decide (b = c_colon)) then None
            else match rest' with
                 | [] => None
                 | b2 :: rest2 =>
                     if bool_decide (b2 = c_colon) then
                       match ell with
                       | Some _ => None
                       | None => match rest2 with
                                 | [] => Some (ip, Some (length ip), [])
                                 | _ => parse_v6_loop fuel rest2 ip (Some (length ip))
                                 end
                       end
                     else parse_v6_loop fuel rest' ip ell
                 end
      end
  end.

Definition parse_v6 (s : list byte) : option (list byte) :=
  let '(s, ell) := match s with
                   | a :: b :: r => if bool_decide (a = c_colon) && bool_decide (b = c_colon)
                                    then (r, Some O) else (s, None)
                   | _ => (s, None)
                   end in
  if bool_decide (s = []) && bool_decide (ell = Some O) then Some (zeros 16) else
  '(ip, ell, rest) ← parse_v6_loop 9 s [] ell;
  if negb (bool_decide (rest = [])) then None
  else if (length ip <? 16)%nat then
    e ← ell; Some (take e ip ++ zeros (16 - length ip) ++ drop e ip)
  else match ell with Some _ => None | None => Some ip end.

(** netip.ParseAddr: the first of the three separators decides the family.
    The result is the 16-byte form and the zone. *)
Fixpoint addr_family (s : list byte) : option bool :=
  match s with
  | [] => None
  | b :: s => if bool_decide (b = c_dot) then Some true
              else if bool_decide (b = c_colon) then Some false
              else if bool_decide (b = c_pct) then None else addr_family s
  end.

Definition ParseAddr (s : list byte) : option (IP * list byte) :=
  match addr_family s with
  | None => None
  | Some true => ip ← parse_v4_fields s; Some (v4in6_prefix ++ ip, [])
  | Some false =>
      match index_byte s c_pct with
      | None => ip ← parse_v6 s; Some (ip, [])
      | Some i => let zone := drop (S i) s in
                  if bool_decide (zone = []) then None
                  else ip ← parse_v6 (take i s); Some (ip, zone)
      end
  end.

(** [net.ParseIP]: nil on failure or when a zone is present. *)
Definition ParseIP (s : list byte) : option IP :=
  match ParseAddr s with
  | Some (ip, []) => Some ip
  | _ => None
  end.

(** [net.SplitHostPort]; [None] stands for its errors. *)
Definition SplitHostPort (hp : list byte) : option (list byte * list byte) :=
  i ← last_index_byte hp c_colon;
  if bool_decide (head hp = Some c_lbr) then
    e ← index_byte hp c_rbr;
    if negb (S e =? i)%nat then None
    else if has_byte (drop 1 hp) c_lbr || has_byte (drop (S e) hp) c_rbr then None
    else Some (take (e - 1) (drop 1 hp), drop (S i) hp)
  else
    let host := take i hp in
    if has_byte host c_colon then None
    else if has_byte hp c_lbr || has_byte hp c_rbr then None
    else Some (host, drop (S i) hp).

(** [net.JoinHostPort]. *)
Definition JoinHostPort (host port : list byte) : list byte :=
  if has_byte host c_colon then [c_lbr] ++ host ++ [c_rbr; c_colon] ++ port
  else host ++ [c_colon] ++ port.

(** ** UDP addresses *)

Record UDPAddr := mkUDPAddr { ua_IP : IP; ua_Port : Z; ua_Zone : list byte }.
#[global] Instance UDPAddr_eq_dec : EqDecision UDPAddr.
Proof. solve_decision. Defined.

(** [addr.String()]. *)
Definition UDPAddr_String (a : UDPAddr) : list byte :=
  let ip := match ua_IP a with [] => [] | _ => IP_String (ua_IP a) end in
  let host := match ua_Zone a with [] => ip | z => ip ++ [c_pct] ++ z end in
  JoinHostPort host (itoa (ua_Port a)).

(** The operating system's view: service names and host names. *)
Class NetResolver := {
  lookup_port : list byte → option Z;
  lookup_host : list byte → option IP
}.

(** resolver that knows no name. *)
Definition no_resolver : NetResolver :=
  {| lookup_port := fun _ => None; lookup_host := fun _ => None |}.

(** net.parsePort: the number saturates at 2^30 and the flag asks for a
    service lookup. *)
Fixpoint parse_port_digits (s : list byte) (n : Z) : option Z :=
  match s with
  | [] => Some n
  | b :: s => if is_digit b then
                if 2 ^ 30 <=? n then Some (2 ^ 32 - 1)
                else parse_port_digits s (n * 10 + digit_val b)
              else None
  end.

Definition parse_port (s : list byte) : option Z :=
  let sat (neg : bool) (n : Z) :=
    let p := if neg then (if 2 ^ 30 <? n then 2 ^ 30 else n)
             else (if 2 ^ 30 <=? n then 2 ^ 30 - 1 else n) in
    if neg then - p else p in
  match s with
  | [] => Some 0
  | b :: l => if bool_decide (b = c_plus) then sat false <$> parse_port_digits l 0
              else if bool_decide (b = c_minus) then sat true <$> parse_port_digits l 0
              else sat false <$> parse_port_digits s 0
  end.

(** [net.ResolveUDPAddr] on the udp network; [None] stands for its errors. *)
Definition ResolveUDPAddr `{NetResolver} (s : list byte) : option UDPAddr :=
  '(host, port) ← SplitHostPort s;
  p ← match parse_port port with Some p => Some p | None => lookup_port port end;
  if (p <? 0) || (65535 <? p) then None else
  match host with
  | [] => Some (mkUDPAddr [] p [])
  | _ => match ParseAddr host with
         | Some (ip, zone) => Some (mkUDPAddr ip p zone)
         | None => ip ← lookup_host host; Some (mkUDPAddr ip p [])
         end
  end.

(** ** Decimal round trip *)

Lemma digits_fuel_app f n acc : digits_fuel f n acc = digits_fuel f n [] ++ acc.
Proof.
  revert n acc. induction f as [|f IH]; intros n acc; cbn [digits_fuel]; [done|].
  destruct (n / 10 =? 0); [done|].
  rewrite (IH _ (_ :: acc)), (IH _ [_]), <- app_assoc. done.
Qed.

Lemma digits_val_app l1 l2 a :
  digits_val (l1 ++ l2) a = (v ← digits_val l1 a; digits_val l2 v).
Proof.
  revert a. induction l1 as [|b l1 IH]; intros a; simpl; [done|].
  destruct (is_digit b); [apply IH|done].
Qed.

Lemma is_digit_ch d : 0 ≤ d < 10 → is_digit (ch (48 + d)) = true ∧ digit_val (ch (48 + d)) = d.
Proof.
  intros H. unfold is_digit, digit_val, ch. rewrite b2z_z2b, Z.mod_small by lia. lia.
Qed.

Lemma digits_fuel_spec (f : nat) n :
  0 ≤ n < 10 ^ Z.of_nat f → (0 < f)%nat →
  digits_val (digits_fuel f n []) 0 = Some n ∧
  Forall (fun b => is_digit b = true) (digits_fuel f n []) ∧ digits_fuel f n [] ≠ [].
Proof.
  revert n. induction f as [|f IH]; intros n Hn Hf; [lia|].
  pose proof (Z.mod_pos_bound n 10 ltac:(lia)) as Hm.
  destruct (is_digit_ch (n mod 10) Hm) as [Hd Hv].
  pose proof (Z.div_mod n 10 ltac:(lia)) as Hdm.
  cbn [digits_fuel]. destruct (Z.eqb_spec (n / 10) 0) as [E|E].
  - cbn [digits_val]. rewrite Hd. split_and!; [cbn; f_equal; lia|by repeat constructor|done].
  - rewrite digits_fuel_app.
    replace (Z.of_nat (S f)) with (1 + Z.of_nat f) in Hn by lia.
    rewrite Z.pow_add_r, Z.pow_1_r in Hn by lia.
    assert (0 < n / 10) by (pose proof (Z.div_pos n 10 ltac:(lia) ltac:(lia)); lia).
    destruct (IH (n / 10)) as (Hval & Hall & Hne).
    { split; [lia|]. apply Z.div_lt_upper_bound; lia. }
    { destruct f; [|lia]. simpl in Hn. lia. }
    split_and!.
    + rewrite digits_val_app, Hval. cbn. rewrite Hd. f_equal. lia.
    + apply Forall_app. split; [done|by repeat constructor].
    + intros [? _]%app_eq_nil. done.
Qed.

Lemma itoa_nonneg n :
  0 ≤ n < 2 ^ 63 →
  digits_val (itoa n) 0 = Some n ∧ Forall (fun b => is_digit b = true) (itoa n) ∧ itoa n ≠ [].
Proof.
  intros H. unfold itoa. destruct (Z.ltb_spec n 0); [lia|].
  apply (digits_fuel_spec 20); lia.
Qed.

Lemma is_digit_not b c : is_digit b = true → is_digit c = false → b ≠ c.
Proof. intros H1 H2 ->. congruence. Qed.

Lemma Atoi_itoa n : 0 ≤ n < 2 ^ 63 → Atoi (itoa n) = Some n.
Proof.
  intros H. destruct (itoa_nonneg n H) as (Hv & Hall & Hne).
  unfold Atoi. destruct (itoa n) as [|b l]; [done|].
  apply Forall_cons_1 in Hall as [Hb _].
  assert (b ≠ c_minus) by (by apply is_digit_not). assert (b ≠ c_plus) by (by apply is_digit_not).
  rewrite !bool_decide_eq_false_2 by done.
  rewrite Hv. cbn. destruct (Z.leb_spec (- 2 ^ 63) n), (Z.ltb_spec n (2 ^ 63)); done || lia.
Qed.

(** ** Searching text that lacks the byte *)

Lemma index_byte_None l b : index_byte l b = None ↔ b ∉ l.
Proof.
  induction l as [|x l IH]; simpl; [split; [intros _; apply not_elem_of_nil|done]|].
  rewrite not_elem_of_cons. case_bool_decide as E; [split; [done|intros [Hne _]; congruence]|].
  rewrite fmap_None, IH. split; [by intros ?; split|by intros [_ ?]].
Qed.

Lemma index_byte_app key v b : b ∉ key → index_byte (key ++ b :: v) b = Some (length key).
Proof.
  induction key as [|x key IH]; cbn [app index_byte length]; intros Hn; [by rewrite bool_decide_eq_true_2|].
  apply not_elem_of_cons in Hn as [Hx Hn]. rewrite bool_decide_eq_false_2 by congruence. by rewrite IH.
Qed.

Lemma has_byte_false l b : has_byte l b = false ↔ b ∉ l.
Proof. unfold has_byte. rewrite <- index_byte_None. destruct (index_byte l b); naive_solver. Qed.

Lemma last_index_byte_app l b r :
  b ∉ r → last_index_byte (l ++ b :: r) b = Some (length l).
Proof.
  intros Hr. induction l as [|x l IH]; simpl.
  - assert (last_index_byte r b = None) as ->.
    { induction r as [|y r IHr]; simpl; [done|].
      apply not_elem_of_cons in Hr as [Hy Hr]. rewrite IHr by done.
      by rewrite bool_decide_eq_false_2 by congruence. }
    by rewrite bool_decide_eq_true_2.
  - by rewrite IH.
Qed.

Lemma digits_no l c : Forall (fun b => is_digit b = true) l → is_digit c = false → c ∉ l.
Proof. intros Hall Hc Hin. rewrite Forall_forall in Hall. apply Hall in Hin. congruence. Qed.

(** ** IPv4 text round trip *)

Lemma To4_length ip x : To4 ip = Some x → length x = 4%nat.
Proof.
  unfold To4. destruct (Nat.eqb_spec (length ip) 4); [naive_solver|].
  destruct (Nat.eqb_spec (length ip) 16); simpl; [|done].
  case_bool_decide; [|done]. intros. simplify_eq. rewrite length_drop. lia.
Qed.

Lemma To4_quad ip x : To4 ip = Some x → ∃ a b c d, x = [a; b; c; d].
Proof.
  intros H%To4_length. destruct x as [|a [|b [|c [|d [|? ?]]]]]; try discriminate. by eauto.
Qed.

Lemma To4_IPv4 a b c d : To4 (IPv4 a b c d) = Some [a; b; c; d].
Proof. reflexivity. Qed.

Lemma To4_4 ip : length ip = 4%nat → To4 ip = Some ip.
Proof. intros H. unfold To4. by rewrite H. Qed.

Lemma IP_Equal_refl ip : IP_Equal ip ip = true.
Proof. unfold IP_Equal. by rewrite Nat.eqb_refl, bool_decide_eq_true_2. Qed.

(** *** Masks *)

Lemma byte_and_xff b : byte_and b xff = b.
Proof. by destruct b. Qed.
Lemma byte_and_x00 b : byte_and b x00 = x00.
Proof. by destruct b. Qed.

Lemma lead_ones_byte v : v ≠ xff → snd (lead_ones 8 (b2z v)) = 0 →
  let n := fst (lead_ones 8 (b2z v)) in 0 ≤ n < 8 ∧ v = byte_not (z2b (Z.shiftr 255 n)).
Proof. intros Hv Hr. destruct v; first [done|by split]. Qed.

Lemma CIDRMask_0 m : forallb (fun b => bool_decide (b = x00)) m = true → m = CIDRMask 0 (length m).
Proof.
  induction m as [|b m IH]; [done|]. cbn. intros [Hb%bool_decide_eq_true Hm]%andb_prop.
  subst b. by rewrite <- (IH Hm).
Qed.

(** A canonical mask is the mask of its size. *)
Lemma simpleMaskLength_CIDR m n : simpleMaskLength m = Some n →
  0 ≤ n ≤ 8 * Z.of_nat (length m) ∧ m = CIDRMask n (length m).
Proof.
  revert n. induction m as [|v m IH]; intros n; cbn [simpleMaskLength]; [by intros [= <-]|].
  case_bool_decide as Hv.
  - destruct (simpleMaskLength m) as [k|] eqn:E; [|done]. cbn. intros [= <-].
    destruct (IH k eq_refl) as [Hk Hm]. split; [lia|]. subst v.
    destruct (Z.leb_spec 8 (8 + k)); [|lia]. replace (8 + k - 8) with k by lia. by rewrite <- Hm.
  - pose proof (lead_ones_byte v Hv) as Hl. destruct (lead_ones 8 (b2z v)) as [k r]. cbn in Hl.
    destruct (Z.eqb_spec r 0) as [->|]; [|done]. destruct (forallb _ m) eqn:Em; [|done]. cbn.
    intros [= <-]. destruct (Hl eq_refl) as [Hk Hvk]. split; [lia|].
    destruct (Z.leb_spec 8 k); [lia|]. by rewrite Hvk, <- (CIDRMask_0 m Em) at 1.
Qed.

(** The digits of one octet, read without error: its value and length. *)
Fixpoint octet_run (l : list byte) (val : Z) (len : nat) : option (Z * nat) :=
  match l with
  | [] => Some (val, len)
  | b :: l => if is_digit b then
                if (len =? 1)%nat && (val =? 0) then None
                else let val := val * 10 + digit_val b in
                     if 255 <? val then None else octet_run l val (S len)
              else None
  end.

Lemma parse_v4_run l rest first pd fields val len v n :
  octet_run l val len = Some (v, n) →
  parse_v4 (l ++ rest) first pd fields val len
  = parse_v4 rest (first && bool_decide (l = [])) (pd && bool_decide (l = [])) fields v n.
Proof.
  revert first pd val len. induction l as [|b l IH]; intros first pd val len; cbn [octet_run app].
  - intros [= -> ->]. by rewrite bool_decide_eq_true_2, !andb_true_r.
  - cbn [parse_v4]. destruct (is_digit b); [|done].
    destruct (_ && _); [done|]. destruct (255 <? _); [done|].
    intros H. rewrite (IH _ _ _ _ H). by rewrite (bool_decide_eq_false_2 (b :: l = [])), !andb_false_r.
Qed.

Lemma octet_run_itoa (o : byte) :
  octet_run (itoa (b2z o)) 0 0 = Some (b2z o, length (itoa (b2z o))).
Proof. destruct o; vm_compute; reflexivity. Qed.

Lemma parse_v4_digits (o : byte) rest first pd fields :
  parse_v4 (itoa (b2z o) ++ rest) first pd fields 0 0
  = parse_v4 rest false false fields (b2z o) (length (itoa (b2z o))).
Proof.
  rewrite (parse_v4_run _ _ _ _ _ _ _ _ _ (octet_run_itoa o)).
  destruct (itoa_nonneg (b2z o)) as (_ & _ & Hne); [pose proof (b2z_range o); lia|].
  by rewrite bool_decide_eq_false_2, !andb_false_r.
Qed.

Lemma parse_v4_octet (o : byte) rest first pd fields :
  rest ≠ [] → (length fields < 3)%nat →
  parse_v4 (itoa (b2z o) ++ c_dot :: rest) first pd fields 0 0
  = parse_v4 rest false true (o :: fields) 0 0.
Proof.
  intros Hr Hf. rewrite parse_v4_digits. cbn [parse_v4].
  change (is_digit c_dot) with false. cbn iota.
  rewrite (bool_decide_eq_true_2 (c_dot = c_dot)) by done.
  rewrite (bool_decide_eq_false_2 (rest = [])) by done. cbn [orb].
  destruct (Nat.eqb_spec (length fields) 3); [lia|]. by rewrite z2b_b2z.
Qed.

Lemma parse_v4_last (o : byte) first pd fields :
  length fields = 3%nat →
  parse_v4 (itoa (b2z o)) first pd fields 0 0 = Some (reverse (o :: fields)).
Proof.
  intros H. rewrite <- (app_nil_r (itoa _)), parse_v4_digits. cbn [parse_v4].
  rewrite H. cbn. by rewrite z2b_b2z.
Qed.

Lemma itoa_ne n l : 0 ≤ n < 2 ^ 63 → itoa n ++ l ≠ [].
Proof. intros H [? _]%app_eq_nil. by apply (proj2 (proj2 (itoa_nonneg n H))). Qed.

Lemma parse_v4_string a b c d :
  parse_v4_fields (v4_string [a; b; c; d]) = Some [a; b; c; d].
Proof.
  assert (∀ x, 0 ≤ b2z x < 2 ^ 63) as B by (intros x; pose proof (b2z_range x); lia).
  unfold parse_v4_fields, v4_string. cbn [app].
  rewrite parse_v4_octet by (try apply itoa_ne; done || (simpl; lia)).
  rewrite parse_v4_octet by (try apply itoa_ne; done || (simpl; lia)).
  rewrite parse_v4_octet by (first [exact (proj2 (proj2 (itoa_nonneg _ (B _))))|simpl; lia]).
  by rewrite parse_v4_last.
Qed.

Lemma v4_string_chars a b c d x :
  x ∈ v4_string [a; b; c; d] → is_digit x = true ∨ x = c_dot.
Proof.
  unfold v4_string. rewrite !elem_of_app, !list_elem_of_singleton.
  assert (∀ o, x ∈ itoa (b2z o) → is_digit x = true) as Hd.
  { intros o Ho. destruct (itoa_nonneg (b2z o)) as (_ & Hall & _);
      [pose proof (b2z_range o); lia|].
    rewrite Forall_forall in Hall. by apply Hall. }
  naive_solver.
Qed.

Lemma v4_string_no a b c d x :
  is_digit x = false → x ≠ c_dot → x ∉ v4_string [a; b; c; d].
Proof. intros H1 H2 [?|?]%v4_string_chars; congruence. Qed.

Lemma addr_family_v4 a b c d : addr_family (v4_string [a; b; c; d]) = Some true.
Proof. unfold v4_string. destruct a; reflexivity. Qed.

Lemma ParseAddr_v4_string a b c d :
  ParseAddr (v4_string [a; b; c; d]) = Some (IPv4 a b c d, []).
Proof. unfold ParseAddr. by rewrite addr_family_v4, parse_v4_string. Qed.

Lemma ParseIP_v4_string a b c d : ParseIP (v4_string [a; b; c; d]) = Some (IPv4 a b c d).
Proof. unfold ParseIP. by rewrite ParseAddr_v4_string. Qed.

Lemma v4_string_head a b c d : head (v4_string [a; b; c; d]) ≠ Some c_lbr.
Proof.
  intros H. assert (c_lbr ∈ v4_string [a; b; c; d]) as Hin.
  { destruct (v4_string _); [done|]. simpl in H. simplify_eq. constructor. }
  revert Hin. by apply v4_string_no.
Qed.

Lemma SplitHostPort_v4 a b c d p :
  0 ≤ p < 2 ^ 63 →
  SplitHostPort (v4_string [a; b; c; d] ++ [c_colon] ++ itoa p)
  = Some (v4_string [a; b; c; d], itoa p).
Proof.
  intros Hp. destruct (itoa_nonneg p Hp) as (_ & Hall & _).
  assert (∀ x, is_digit x = false → x ∉ itoa p) as Hn by (intros; by eapply digits_no).
  assert (head (v4_string [a; b; c; d] ++ c_colon :: itoa p) ≠ Some c_lbr) as Hhd.
  { pose proof (v4_string_head a b c d) as Hh. destruct (v4_string [a; b; c; d]); [done|exact Hh]. }
  unfold SplitHostPort. cbn [app].
  rewrite last_index_byte_app by (by apply Hn). cbn [mbind option_bind].
  rewrite bool_decide_eq_false_2 by exact Hhd.
  rewrite take_app_length.
  rewrite (proj2 (has_byte_false _ _)) by (by apply v4_string_no).
  assert (∀ x, is_digit x = false → x ≠ c_dot → x ≠ c_colon →
            has_byte (v4_string [a; b; c; d] ++ c_colon :: itoa p) x = false) as Hh.
  { intros x H1 H2 H3. apply has_byte_false. rewrite elem_of_app, elem_of_cons.
    intros [Hx|[Hx|Hx]]; [revert Hx; by apply v4_string_no|done|revert Hx; by apply Hn]. }
  rewrite !Hh by done. cbn [orb].
  rewrite drop_app_ge by lia.
  by replace (S (length (v4_string [a; b; c; d])) - length (v4_string [a; b; c; d]))%nat with 1%nat by lia.
Qed.

Lemma ParseIP_length s ip : ParseIP s = Some ip → (12 ≤ length ip)%nat.
Proof.
  unfold ParseIP, ParseAddr. destruct (addr_family s) as [[]|]; [| |done].
  - destruct (parse_v4_fields s); [|done]. cbn. intros [= <-]. cbn. lia.
  - assert (∀ x y, parse_v6 x = Some y → (12 ≤ length y)%nat) as Hv6.
    { intros x y. unfold parse_v6. destruct (match x with [] => _ | _ => _ end) as [x' ell].
      destruct (_ && _); [intros [= <-]; cbn; lia|]. destruct (parse_v6_loop _ _ _ _) as [[[l e] r]|]; [|done].
      cbn. destruct (negb _); [done|]. destruct (Nat.leb_spec (length l) 15).
      - destruct e as [e|]; [|done]. cbn. intros [= <-].
        rewrite !length_app, length_take, length_drop. unfold zeros. rewrite length_replicate. lia.
      - destruct e; [done|]. intros [= <-]. lia. }
    destruct (index_byte s c_pct).
    + case_bool_decide; [done|]. destruct (parse_v6 _); [|done]. cbn. by destruct (drop _ s).
    + destruct (parse_v6 s) eqn:E; [|done]. cbn. intros [= <-]. by eapply Hv6.
Qed.

(** An IPv4 address read by ParseIP is in the 16-byte form. *)
Lemma ParseIP_To4 s ip a b c d : ParseIP s = Some ip → To4 ip = Some [a; b; c; d] → ip = IPv4 a b c d.
Proof.
  intros Hl%ParseIP_length. unfold To4. destruct (Nat.eqb_spec (length ip) 4); [lia|].
  destruct (_ && _) eqn:E; [|done]. apply andb_true_iff in E as [_ E%bool_decide_eq_true].
  intros [= Hd]. unfold IPv4. by rewrite <- E, <- Hd, take_drop.
Qed.
