(* ===== verification/Crc32.v ===== *)
(** * Crc32: hash/crc32 with the IEEE polynomial

    The bit-by-bit form of the reflected CRC-32 the standard library computes
    with tables, and the detection lemmas the packet checksum rests on. *)

From S2P Require Import Prelude.

Definition crc_poly : Z := 0xEDB88320.

(** One bit of the reflected division. *)
Definition crc_step (s : Z) : Z :=
  if Z.odd s then Z.lxor (Z.shiftr s 1) crc_poly else Z.shiftr s 1.

Definition crc_steps (s : Z) : Z :=
  crc_step (crc_step (crc_step (crc_step
    (crc_step (crc_step (crc_step (crc_step s))))))).

Definition crc_update (s : Z) (b : byte) : Z := crc_steps (Z.lxor s (b2z b)).

Definition crc_fold (s : Z) (l : list byte) : Z := foldl crc_update s l.

(** [crc32.ChecksumIEEE]. *)
Definition ChecksumIEEE (l : list byte) : Z :=
  Z.lxor 0xFFFFFFFF (crc_fold 0xFFFFFFFF l).

Example ChecksumIEEE_check : ChecksumIEEE (str "123456789") = 0xCBF43926.
Proof. vm_compute. reflexivity. Qed.

(** ** Range *)

Definition word32 (s : Z) : Prop := 0 ≤ s < 2 ^ 32.

Lemma word32_bits s : word32 s ↔ 0 ≤ s ∧ ∀ i, 32 ≤ i → Z.testbit s i = false.
Proof.
  unfold word32. split.
  - intros [H0 H1]. split; [done|]. intros i Hi.
    destruct (Z.eq_dec s 0) as [->|]; [apply Z.testbit_0_l|].
    apply Z.bits_above_log2; [done|].
    assert (Z.log2 s < 32) by (apply Z.log2_lt_pow2; lia). lia.
  - intros [H0 Hb]. split; [done|].
    destruct (Z.eq_dec s 0) as [->|]; [lia|].
    apply Z.log2_lt_pow2; [lia|].
    destruct (Z.lt_ge_cases (Z.log2 s) 32) as [|Hge]; [done|].
    specialize (Hb _ Hge). rewrite Z.bit_log2 in Hb by lia. done.
Qed.

Lemma word32_lxor a b : word32 a → word32 b → word32 (Z.lxor a b).
Proof.
  rewrite !word32_bits. intros [Ha Hba] [Hb Hbb]. split.
  - by apply Z.lxor_nonneg.
  - intros i Hi. by rewrite Z.lxor_spec, Hba, Hbb.
Qed.

Lemma word32_shiftr a : word32 a → word32 (Z.shiftr a 1).
Proof.
  unfold word32. rewrite Z.shiftr_div_pow2 by lia. change (2 ^ 1) with 2. intros [H0 H1].
  split; [by apply Z.div_pos|apply Z.div_lt_upper_bound; lia].
Qed.

Lemma word32_byte b : word32 (b2z b).
Proof. pose proof (b2z_range b). unfold word32. lia. Qed.

Lemma word32_step s : word32 s → word32 (crc_step s).
Proof.
  intros H. unfold crc_step. destruct (Z.odd s); [|by apply word32_shiftr].
  apply word32_lxor; [by apply word32_shiftr|]. unfold word32, crc_poly. lia.
Qed.

Lemma word32_steps s : word32 s → word32 (crc_steps s).
Proof. intros H. unfold crc_steps. by do 8 apply word32_step. Qed.

Lemma word32_update s b : word32 s → word32 (crc_update s b).
Proof. intros H. apply word32_steps, word32_lxor; [done|apply word32_byte]. Qed.

Lemma word32_fold s l : word32 s → word32 (crc_fold s l).
Proof.
  revert s. induction l as [|b l IH]; intros s H; simpl; [done|].
  apply IH. by apply word32_update.
Qed.

Lemma word32_init : word32 0xFFFFFFFF.
Proof. unfold word32. lia. Qed.

Lemma word32_ChecksumIEEE l : word32 (ChecksumIEEE l).
Proof. apply word32_lxor; [|apply word32_fold]; apply word32_init. Qed.

(** ** Injectivity: the register never forgets a difference *)

Lemma lxor_cancel_l a b c : Z.lxor a b = Z.lxor a c → b = c.
Proof.
  intros H. apply (f_equal (Z.lxor a)) in H.
  rewrite <- !Z.lxor_assoc, Z.lxor_nilpotent, !Z.lxor_0_l in H. done.
Qed.

(** Bit 31 of the successor is the bit shifted out. *)
Lemma crc_step_bit31 s : word32 s → Z.testbit (crc_step s) 31 = Z.odd s.
Proof.
  intros H. apply word32_bits in H as [_ Hb].
  assert (Z.testbit (Z.shiftr s 1) 31 = false) as Hs
    by (rewrite Z.shiftr_spec by lia; apply Hb; lia).
  unfold crc_step. destruct (Z.odd s); [|done].
  rewrite Z.lxor_spec, Hs. reflexivity.
Qed.

Lemma crc_step_inj s t : word32 s → word32 t → crc_step s = crc_step t → s = t.
Proof.
  intros Hs Ht H.
  assert (Z.odd s = Z.odd t) as Ho
    by (rewrite <- !crc_step_bit31 by done; by rewrite H).
  assert (Z.shiftr s 1 = Z.shiftr t 1) as Hsh.
  { unfold crc_step in H. rewrite Ho in H. destruct (Z.odd t); [|done].
    rewrite !(Z.lxor_comm _ crc_poly) in H. by apply lxor_cancel_l in H. }
  rewrite !Z.shiftr_div_pow2 in Hsh by lia. change (2 ^ 1) with 2 in Hsh.
  rewrite (Z.div_mod s 2), (Z.div_mod t 2), Hsh by lia.
  rewrite !Zmod_odd, Ho. done.
Qed.

Lemma crc_steps_inj s t : word32 s → word32 t → crc_steps s = crc_steps t → s = t.
Proof.
  intros Hs Ht H. unfold crc_steps in H.
  do 8 (apply crc_step_inj in H; [|by repeat apply word32_step..]). done.
Qed.

Lemma crc_update_inj_state s t b :
  word32 s → word32 t → crc_update s b = crc_update t b → s = t.
Proof.
  intros Hs Ht H. apply crc_steps_inj in H;
    [|apply word32_lxor; [done|apply word32_byte]..].
  rewrite !(Z.lxor_comm _ (b2z b)) in H. by apply lxor_cancel_l in H.
Qed.

Lemma crc_update_inj_byte s b1 b2 :
  word32 s → crc_update s b1 = crc_update s b2 → b1 = b2.
Proof.
  intros Hs H. apply crc_steps_inj in H;
    [|apply word32_lxor; [done|apply word32_byte]..].
  apply lxor_cancel_l in H. by apply b2z_inj.
Qed.

Lemma crc_fold_inj_state s t l :
  word32 s → word32 t → crc_fold s l = crc_fold t l → s = t.
Proof.
  revert s t. induction l as [|b l IH]; intros s t Hs Ht H; simpl in H; [done|].
  apply IH in H; [|by apply word32_update..].
  by apply crc_update_inj_state in H.
Qed.

(** Changing one byte always changes the checksum. *)
Lemma ChecksumIEEE_one_byte l1 l2 b1 b2 :
  b1 ≠ b2 → ChecksumIEEE (l1 ++ b1 :: l2) ≠ ChecksumIEEE (l1 ++ b2 :: l2).
Proof.
  intros Hne H. unfold ChecksumIEEE in H. apply lxor_cancel_l in H. unfold crc_fold in H.
  rewrite !foldl_app in H. simpl in H.
  assert (word32 (foldl crc_update 0xFFFFFFFF l1)) as Hw
    by (apply word32_fold, word32_init).
  apply crc_fold_inj_state in H; [|by apply word32_update..].
  by apply crc_update_inj_byte in H.
Qed.
