(* ===== verification/Protocol.v ===== *)
(** * Protocol: the packet envelope and version rules

    src/internal/protocol/protocol.go and errors.go.  A packet is
    [version][type][payload][CRC32], multi-byte integers little-endian. *)

From S2P Require Import Prelude GoNet Crc32.

(** ** Constants *)

Definition ProtocolVersion : byte := x01.
Definition AppVersion : Z := 0x0110.
Definition MinTokenVersion : Z := 0x0107.
Definition HeaderLen : nat := 2.
Definition ChecksumLen : nat := 4.

Definition TypeRegister : byte := x01.
Definition TypeAssignIP : byte := x02.
Definition TypePeerInfo : byte := x03.
Definition TypePeerRequest : byte := x04.
Definition TypeHolePunch : byte := x05.
Definition TypeData : byte := x06.
Definition TypeKeepAlive : byte := x07.
Definition TypeAuthChallenge : byte := x08.
Definition TypeAuthResponse : byte := x09.
Definition TypeKick : byte := x0a.
Definition TypeDisconnect : byte := x0b.
Definition TypePing : byte := x0c.
Definition TypePong : byte := x0d.
Definition TypeNATProbe : byte := x0e.
Definition TypeNATResponse : byte := x0f.
Definition TypeRebind : byte := x10.
Definition TypeRebindAck : byte := x11.

(** ** Errors of the package *)

Inductive perr : Type :=
| ErrPacketTooShort
| ErrUnsupportedVersion (got : byte)
| ErrChecksumMismatch
| ErrTooManyPeers.
#[global] Instance perr_eq_dec : EqDecision perr.
Proof. solve_decision. Defined.

(** ** Base message *)

Record Message := mkMessage { Type_ : byte; Payload : list byte }.
#[global] Instance Message_eq_dec : EqDecision Message.
Proof. solve_decision. Defined.

(** [buf := make(...); buf[0] = ...; buf[1] = ...; copy(buf[2:], payload)]. *)
Definition Encode (typ : byte) (payload : list byte) : list byte :=
  let buf := zeros (HeaderLen + length payload) in
  let buf := <[0%nat := ProtocolVersion]> buf in
  let buf := <[1%nat := typ]> buf in
  copy_at buf HeaderLen payload.

Definition AppendChecksum (packet : list byte) : list byte :=
  packet ++ put_le 4 (ChecksumIEEE packet).

Definition VerifyChecksum (data : list byte) : go perr (list byte) :=
  if (length data <? HeaderLen + ChecksumLen)%nat then Err ErrPacketTooShort else
  body ← slice data 0 (length data - ChecksumLen);
  tail ← slice data (length data - ChecksumLen) (length data);
  let checksum := get_le tail in
  if negb (ChecksumIEEE body =? checksum) then Err ErrChecksumMismatch
  else mret body.

Definition Decode (data : list byte) : go perr Message :=
  if (length data <? HeaderLen)%nat then Err ErrPacketTooShort else
  v ← index data 0;
  if negb (bool_decide (v = ProtocolVersion)) then Err (ErrUnsupportedVersion v) else
  rest ← slice data HeaderLen (length data);
  let payload := copy_into (zeros (length data - HeaderLen)) rest in
  typ ← index data 1;
  mret (mkMessage typ payload).

Definition DecodeChecked (data : list byte) : go perr Message :=
  body ← VerifyChecksum data;
  Decode body.

Definition EncodeChecked (typ : byte) (payload : list byte) : list byte :=
  let buf := [] ++ [ProtocolVersion; typ] in
  let buf := buf ++ payload in
  let crc := ChecksumIEEE buf in
  buf ++ put_le 4 crc.

Definition AppendEncodeChecked (dst : list byte) (typ : byte) (payload : list byte) : list byte :=
  let start := length dst in
  let dst := dst ++ [ProtocolVersion; typ] in
  let dst := dst ++ payload in
  let crc := ChecksumIEEE (drop start dst) in
  dst ++ [z2b crc; z2b (Z.shiftr crc 8); z2b (Z.shiftr crc 16); z2b (Z.shiftr crc 24)].

(** ** Version compatibility *)

Definition VersionMajor (v : Z) : Z := Z.shiftr v 8.
Definition VersionMinor (v : Z) : Z := Z.land v 0xFF.

Definition IsCompatible (clientVer serverVer : Z) : bool :=
  if (clientVer =? 0) || (serverVer =? 0) then true
  else if negb (VersionMajor clientVer =? VersionMajor serverVer) then false
  else VersionMinor clientVer <=? VersionMinor serverVer.

Definition FormatVersion (v : Z) : list byte :=
  str "v" ++ itoa (VersionMajor v) ++ str "." ++ itoa (VersionMinor v).

(** ** Kick classification (errors.go) *)

Inductive DisconnectReason :=
| ReasonUnknown | ReasonWrongPassword | ReasonVersionMismatch
| ReasonRoomFull | ReasonServerShutdown | ReasonKickGeneric.
#[global] Instance DisconnectReason_eq_dec : EqDecision DisconnectReason.
Proof. solve_decision. Defined.

(** [KickCode] is a byte; the four named codes. *)
Definition KickCodeNone : byte := x00.
Definition KickCodeWrongPassword : byte := x01.
Definition KickCodeVersionMismatch : byte := x02.
Definition KickCodeShutdown : byte := x03.

Record KickPayload := mkKick { kick_Reason : list byte; kick_Code : byte }.
#[global] Instance KickPayload_eq_dec : EqDecision KickPayload.
Proof. solve_decision. Defined.

Record DisconnectError := mkDisconnectError {
  de_Reason : DisconnectReason; de_Message : list byte; de_Code : byte }.

Definition IsFatal (e : DisconnectError) : bool :=
  bool_decide (de_Reason e = ReasonWrongPassword)
  || bool_decide (de_Reason e = ReasonVersionMismatch).

Definition fatalKeywords : list (list byte) :=
  [str "password"; str "密码错误"; str "wrong password"].
Definition versionKeywords : list (list byte) :=
  [str "version"; str "版本不兼容"; str "incompatible"].
Definition fullKeywords : list (list byte) := [str "room full"; str "房间已满"].
Definition shutdownKeywords : list (list byte) := [str "shutdown"; str "关闭"].

(** [if c >= 'A' && c <= 'Z' { c += 32 }]. *)
Definition fold_case (c : byte) : byte :=
  if (65 <=? b2z c) && (b2z c <=? 90) then z2b (b2z c + 32) else c.

(** The inner loop at position [i]: every byte of [substr] matches. *)
Fixpoint match_at (s substr : list byte) : bool :=
  match substr with
  | [] => true
  | k :: substr =>
      match s with
      | [] => false
      | c :: s => if bool_decide (fold_case c = fold_case k) then match_at s substr else false
      end
  end.

(** [for i := 0; i <= len(s)-len(substr); i++]. *)
Definition containsIgnoreCase (s substr : list byte) : bool :=
  existsb (fun i => match_at (drop i s) substr)
    (seq 0 (length s + 1 - length substr)).

Definition classifyKickMessage (msg : list byte) : DisconnectReason :=
  if existsb (containsIgnoreCase msg) fatalKeywords then ReasonWrongPassword
  else if existsb (containsIgnoreCase msg) versionKeywords then ReasonVersionMismatch
  else if existsb (containsIgnoreCase msg) fullKeywords then ReasonRoomFull
  else if existsb (containsIgnoreCase msg) shutdownKeywords then ReasonServerShutdown
  else ReasonUnknown.

Definition NewDisconnectError (kick : KickPayload) : DisconnectError :=
  let reason :=
    if bool_decide (kick_Code kick = KickCodeWrongPassword) then ReasonWrongPassword
    else if bool_decide (kick_Code kick = KickCodeVersionMismatch) then ReasonVersionMismatch
    else if bool_decide (kick_Code kick = KickCodeShutdown) then ReasonServerShutdown
    else if bool_decide (kick_Code kick = KickCodeNone) then classifyKickMessage (kick_Reason kick)
    else ReasonKickGeneric in
  mkDisconnectError reason (kick_Reason kick) (kick_Code kick).

(** ** Envelope lemmas *)

Lemma Encode_eq typ payload : Encode typ payload = ProtocolVersion :: typ :: payload.
Proof.
  unfold Encode, HeaderLen. cbn [Nat.add]. change (zeros (S (S ?n))) with (x00 :: x00 :: zeros n).
  cbn [insert list_insert]. change (?a :: ?b :: zeros ?n) with ([a; b] ++ zeros n).
  rewrite (copy_at_zeros [_; _]) by done. rewrite Nat.sub_diag. cbn. by rewrite app_nil_r.
Qed.

Lemma EncodeChecked_eq typ payload :
  EncodeChecked typ payload = AppendChecksum (ProtocolVersion :: typ :: payload).
Proof. reflexivity. Qed.

Lemma AppendChecksum_length p : length (AppendChecksum p) = (length p + 4)%nat.
Proof. unfold AppendChecksum. by rewrite length_app, length_put_le. Qed.

Lemma EncodeChecked_length typ payload :
  length (EncodeChecked typ payload) = (length payload + 6)%nat.
Proof. rewrite EncodeChecked_eq, AppendChecksum_length. simpl. lia. Qed.

Lemma get_le_crc l : get_le (put_le 4 (ChecksumIEEE l)) = ChecksumIEEE l.
Proof.
  apply get_put_le_small. pose proof (word32_ChecksumIEEE l) as H.
  unfold word32 in H. change (256 ^ Z.of_nat 4) with (2 ^ 32). done.
Qed.

(** The decoder of a packet whose body and tail are known. *)
Lemma VerifyChecksum_split body tail :
  (2 ≤ length body)%nat → length tail = 4%nat →
  VerifyChecksum (body ++ tail)
  = if ChecksumIEEE body =? get_le tail then Ok body else Err ErrChecksumMismatch.
Proof.
  intros Hb Ht. unfold VerifyChecksum, HeaderLen, ChecksumLen. rewrite length_app, Ht.
  destruct (Nat.ltb_spec (length body + 4) (2 + 4)); [lia|].
  rewrite !slice_ok by (rewrite ?length_app; lia). cbn [mbind go_bind].
  replace (length body + 4 - 4)%nat with (length body) by lia.
  rewrite Nat.sub_0_r, drop_0, take_app_length, drop_app_length.
  rewrite take_ge by lia. by destruct (ChecksumIEEE body =? get_le tail).
Qed.

Lemma VerifyChecksum_AppendChecksum p :
  (2 ≤ length p)%nat → VerifyChecksum (AppendChecksum p) = Ok p.
Proof.
  intros H. unfold AppendChecksum. rewrite VerifyChecksum_split by (done || apply length_put_le).
  by rewrite get_le_crc, Z.eqb_refl.
Qed.

Lemma Decode_header v typ payload :
  Decode (v :: typ :: payload)
  = if bool_decide (v = ProtocolVersion) then Ok (mkMessage typ payload)
    else Err (ErrUnsupportedVersion v).
Proof.
  unfold Decode, HeaderLen. cbn [length Nat.ltb Nat.leb]. cbn [index lookup list_lookup mbind go_bind].
  case_bool_decide; [|done]. cbn [negb]. rewrite slice_ok by (simpl; lia).
  change (drop 2 (v :: typ :: payload)) with payload.
  replace (S (S (length payload)) - 2)%nat with (length payload) by lia.
  cbn [mbind go_bind]. rewrite take_ge by lia.
  by rewrite copy_into_exact by apply length_zeros.
Qed.

Lemma VerifyChecksum_no_panic data : no_panic (VerifyChecksum data).
Proof.
  unfold no_panic, VerifyChecksum, HeaderLen, ChecksumLen. go_run; [done|].
  by destruct (negb _).
Qed.

Lemma Decode_no_panic data : no_panic (Decode data).
Proof.
  unfold no_panic, Decode, HeaderLen. go_run; [done|].
  destruct (negb _); [done|]. go_run. done.
Qed.

(** verified packet is its body followed by the body's checksum. *)
Lemma VerifyChecksum_Ok data body :
  VerifyChecksum data = Ok body → data = AppendChecksum body ∧ (2 ≤ length body)%nat.
Proof.
  unfold VerifyChecksum, HeaderLen, ChecksumLen. go_run; [done|].
  destruct (ChecksumIEEE _ =? _) eqn:E; [|done]. cbn [negb]. intros [= <-].
  apply Z.eqb_eq in E. rewrite Nat.sub_0_r, drop_0 in *.
  assert (length (take (length data - 4) data) = length data - 4)%nat as Hl
    by (rewrite length_take; lia).
  split; [|lia]. unfold AppendChecksum. rewrite E.
  replace (length data - (length data - 4))%nat with 4%nat by lia.
  rewrite put_get_le_n by (rewrite length_take, length_drop; lia).
  rewrite (take_ge (drop _ _)) by (rewrite length_drop; lia). by rewrite take_drop.
Qed.

(** ** Version lemmas *)

Lemma VersionMajor_div v : VersionMajor v = v / 256.
Proof. unfold VersionMajor. rewrite Z.shiftr_div_pow2 by lia. done. Qed.

Lemma VersionMinor_mod v : VersionMinor v = v mod 256.
Proof. unfold VersionMinor. change 0xFF with (Z.ones 8). rewrite Z.land_ones by lia. done. Qed.

(** ** Properties *)

(** What EncodeChecked sends, DecodeChecked returns: the same
    type and payload, for every message type and every payload. *)
Theorem DecodeChecked_EncodeChecked typ payload :
  DecodeChecked (EncodeChecked typ payload) = Ok (mkMessage typ payload).
Proof.
  unfold DecodeChecked. rewrite EncodeChecked_eq, VerifyChecksum_AppendChecksum by (simpl; lia).
  cbn [mbind go_bind]. by rewrite Decode_header.
Qed.

(** Corrupting any single byte of a checked packet, header, payload or
    checksum, is always detected by VerifyChecksum. *)
Theorem VerifyChecksum_detects_byte pkt body i b :
  VerifyChecksum pkt = Ok body → pkt !! i ≠ Some b → (i < length pkt)%nat →
  VerifyChecksum (<[i := b]> pkt) = Err ErrChecksumMismatch.
Proof.
  intros [-> Hlen]%VerifyChecksum_Ok Hne Hi. unfold AppendChecksum in *.
  rewrite length_app, length_put_le in Hi.
  destruct (Nat.lt_ge_cases i (length body)) as [Hib|Hib].
  - rewrite insert_app_l by done.
    rewrite VerifyChecksum_split by (rewrite ?length_insert, ?length_put_le; done).
    rewrite get_le_crc. destruct (Z.eqb_spec (ChecksumIEEE (<[i:=b]> body)) (ChecksumIEEE body)) as [E|]; [|done].
    rewrite lookup_app_l in Hne by done.
    destruct (lookup_lt_is_Some_2 body i Hib) as [c Hc].
    rewrite (insert_take_drop body i) in E by done.
    rewrite <- (take_drop_middle body i c) in E at 3 by done.
    exfalso. eapply (ChecksumIEEE_one_byte _ _ b c); [congruence|exact E].
  - rewrite insert_app_r_alt by done.
    rewrite VerifyChecksum_split by (rewrite ?length_insert, ?length_put_le; done).
    destruct (Z.eqb_spec (ChecksumIEEE body) (get_le (<[(i - length body)%nat:=b]> (put_le 4 (ChecksumIEEE body))))) as [E|]; [|done].
    rewrite <- (get_le_crc body) in E at 1.
    apply get_le_inj in E; [|by rewrite length_insert].
    exfalso. apply Hne. rewrite lookup_app_r by done. rewrite E.
    apply list_lookup_insert_eq. rewrite length_put_le. lia.
Qed.

Lemma VerifyChecksum_detects_byte_witness :
  VerifyChecksum (EncodeChecked TypePing [x2a]) = Ok [x01; x0c; x2a] ∧
  VerifyChecksum (<[1%nat := x0d]> (EncodeChecked TypePing [x2a])) = Err ErrChecksumMismatch.
Proof.
  split; [vm_compute; reflexivity|].
  apply (VerifyChecksum_detects_byte _ [x01; x0c; x2a] 1 x0d).
  - vm_compute; reflexivity.
  - vm_compute; discriminate.
  - vm_compute; lia.
Defined.

(** the allocation-saving encoders agree with Encode followed by
    AppendChecksum, and AppendEncodeChecked leaves what precedes it alone. *)
Theorem encoders_agree dst typ payload :
  EncodeChecked typ payload = AppendChecksum (Encode typ payload) ∧
  AppendEncodeChecked dst typ payload = dst ++ EncodeChecked typ payload.
Proof.
  split; [by rewrite EncodeChecked_eq, Encode_eq|].
  unfold AppendEncodeChecked, EncodeChecked. rewrite app_nil_l.
  rewrite <- (app_assoc dst), drop_app_length, <- (app_assoc dst).
  cbn [put_le]. by rewrite !Z.shiftr_shiftr by lia.
Qed.

(** the compatibility rule on 16-bit versions: unknown (zero) versions are
    always accepted; otherwise the major halves are equal and the client's minor
    half is at most the server's, so a client is accepted exactly by servers of
    its own major version that are not older. *)
Theorem IsCompatible_spec c s :
  0 ≤ c < 2 ^ 16 → 0 ≤ s < 2 ^ 16 →
  IsCompatible c s = true ↔ c = 0 ∨ s = 0 ∨ (c / 256 = s / 256 ∧ c ≤ s).
Proof.
  intros Hc Hs. unfold IsCompatible. rewrite !VersionMajor_div, !VersionMinor_mod.
  pose proof (Z.div_mod c 256 ltac:(lia)). pose proof (Z.div_mod s 256 ltac:(lia)).
  destruct (Z.eqb_spec c 0), (Z.eqb_spec s 0); cbn [orb]; [tauto..|].
  destruct (Z.eqb_spec (c / 256) (s / 256)) as [E|E]; cbn [negb]; rewrite ?Z.leb_le; lia.
Qed.

Lemma IsCompatible_spec_witness :
  IsCompatible 0x0107 AppVersion = true ↔
  0x0107 = 0 ∨ AppVersion = 0 ∨ (0x0107 / 256 = AppVersion / 256 ∧ 0x0107 ≤ AppVersion).
Proof. apply (IsCompatible_spec 0x0107 AppVersion); vm_compute; intuition congruence. Defined.
