(* ===== verification/Messages.v ===== *)
(** * Messages: the payload codecs

    src/internal/protocol/messages*.go, one section of the file per message.  A [Marshal]
    fills a zeroed buffer at explicit offsets, as the source does; an
    [Unmarshal] slices its input and may panic where its guards are missing. *)

From S2P Require Import Prelude GoNet Crc32 Protocol.

(** [uint16(len(x))] in little-endian order. *)
Definition len16 (l : list byte) : list byte := put_le 2 (Z.of_nat (length l)).

Lemma length_len16 l : length (len16 l) = 2%nat.
Proof. apply length_put_le. Qed.
#[export] Hint Rewrite length_len16 : gotunnel.

Lemma get_len16 l : Z.of_nat (length l) < 65536 → Z.to_nat (get_le (len16 l)) = length l.
Proof. intros H. unfold len16. rewrite get_put_le_small by (change (256 ^ Z.of_nat 2) with 65536; lia). lia. Qed.

(** One write into the part of the buffer still zero. *)
Ltac fill_step :=
  first
  [ rewrite (copy_at_zeros []) by (autorewrite with gotunnel; simpl; lia)
  | rewrite copy_at_zeros by (rewrite ?length_app; autorewrite with gotunnel; simpl; lia) ].

(** ** Reads at a known layout: skip the fields before the offset, then read. *)

Lemma u16_skip {E} (p r : list byte) (off : nat) :
  (length p ≤ off)%nat → u16_at (E:=E) (p ++ r) off = u16_at r (off - length p).
Proof.
  intros H. unfold u16_at, slice. rewrite length_app, drop_app_ge by done.
  destruct (Nat.leb_spec off (off + 2)), (Nat.leb_spec (off - length p) (off - length p + 2)),
    (Nat.leb_spec (off + 2) (length p + length r)), (Nat.leb_spec (off - length p + 2) (length r));
    try lia; cbn [andb]; [|done]. do 3 f_equal. lia.
Qed.

Lemma slice_skip {E} (p r : list byte) (a b : nat) :
  (length p ≤ a)%nat → (length p ≤ b)%nat →
  slice (E:=E) (p ++ r) a b = slice r (a - length p) (b - length p).
Proof.
  intros Ha Hb. unfold slice. rewrite length_app, drop_app_ge by done.
  destruct (Nat.leb_spec a b), (Nat.leb_spec (a - length p) (b - length p)),
    (Nat.leb_spec b (length p + length r)), (Nat.leb_spec (b - length p) (length r));
    try lia; cbn [andb]; try done. do 2 f_equal. lia.
Qed.

Lemma index_skip {E} (p r : list byte) (i : nat) :
  (length p ≤ i)%nat → index (E:=E) (p ++ r) i = index r (i - length p).
Proof. intros H. unfold index. by rewrite lookup_app_r. Qed.

Lemma u16_here {E} v r : u16_at (E:=E) (put_le 2 v ++ r) 0 = Ok (Z.to_nat (v mod 65536)).
Proof.
  rewrite u16_at_ok by (rewrite length_app, length_put_le; lia).
  rewrite drop_0, take_app_le by (rewrite length_put_le; lia).
  rewrite take_ge by (rewrite length_put_le; lia). by rewrite get_put_le.
Qed.

Lemma len16_here {E} l r (off : nat) :
  off = 0%nat → Z.of_nat (length l) < 65536 → u16_at (E:=E) (len16 l ++ r) off = Ok (length l).
Proof. intros -> Hl. unfold len16. rewrite u16_here, Z.mod_small by lia. f_equal. lia. Qed.

Lemma slice_here {E} (l r : list byte) (a b : nat) :
  a = 0%nat → b = length l → slice (E:=E) (l ++ r) a b = Ok l.
Proof.
  intros -> ->. rewrite slice_ok by (rewrite ?length_app; lia).
  rewrite drop_0. by rewrite take_app_length' by lia.
Qed.

Lemma slice_all {E} (l : list byte) (a b : nat) :
  a = 0%nat → b = length l → slice (E:=E) l a b = Ok l.
Proof. intros -> ->. rewrite slice_ok by lia. rewrite drop_0. by rewrite take_ge by lia. Qed.

Lemma len16_last {E} l (off : nat) :
  off = 0%nat → Z.of_nat (length l) < 65536 → u16_at (E:=E) (len16 l) off = Ok (length l).
Proof. intros. rewrite <- (app_nil_r (len16 l)). by apply len16_here. Qed.

Ltac lens := rewrite ?length_app; autorewrite with gotunnel; cbn [Datatypes.length]; lia.

(** Runs one read of a decoder on [field ++ field ++ ...]. *)
Ltac read :=
  repeat first [rewrite u16_skip by lens | rewrite slice_skip by lens | rewrite index_skip by lens];
  first [rewrite len16_here by lens | rewrite slice_here by lens
  | rewrite slice_all by lens];
  cbn [mbind mret go_bind go_ret fmap go_fmap compose].

(** Decides the length guard at the head of the goal. *)
Ltac len_guard :=
  match goal with
  | |- context [if (?a <? ?b)%nat then _ else _] =>
      destruct (Nat.ltb_spec a b) as [?Hg|?Hg];
        [exfalso; revert Hg; rewrite ?length_app; autorewrite with gotunnel; cbn [Datatypes.length]; lia|clear Hg]
  | |- context [if (?a <=? ?b)%nat then _ else _] =>
      destruct (Nat.leb_spec a b) as [?Hg|?Hg];
        [clear Hg|exfalso; revert Hg; rewrite ?length_app; autorewrite with gotunnel; cbn [Datatypes.length]; lia]
  end.

(** ** Register *)

Record RegisterPayload := mkRegister {
  rp_RoomID : list byte; rp_Username : list byte; rp_Version : Z }.
#[export] Instance RegisterPayload_eq_dec : EqDecision RegisterPayload.
Proof. solve_decision. Defined.

Definition RegisterPayload_Marshal (r : RegisterPayload) : list byte :=
  let roomBytes := rp_RoomID r in
  let userBytes := rp_Username r in
  let buf := zeros (2 + length roomBytes + 2 + length userBytes + 2) in
  let off := 0%nat in
  let buf := copy_at buf off (len16 roomBytes) in
  let off := (off + 2)%nat in
  let buf := copy_at buf off roomBytes in
  let off := (off + length roomBytes)%nat in
  let buf := copy_at buf off (len16 userBytes) in
  let off := (off + 2)%nat in
  let buf := copy_at buf off userBytes in
  let off := (off + length userBytes)%nat in
  copy_at buf off (put_le 2 (rp_Version r)).

Definition UnmarshalRegister (data : list byte) : go perr RegisterPayload :=
  if (length data <? 4)%nat then Err ErrPacketTooShort else
  let off := 0%nat in
  roomLen ← u16_at data off;
  let off := (off + 2)%nat in
  if (length data <? off + roomLen + 2)%nat then Err ErrPacketTooShort else
  roomID ← slice data off (off + roomLen);
  let off := (off + roomLen)%nat in
  userLen ← u16_at data off;
  let off := (off + 2)%nat in
  if (length data <? off + userLen)%nat then Err ErrPacketTooShort else
  username ← slice data off (off + userLen);
  let off := (off + userLen)%nat in
  if (off + 2 <=? length data)%nat then
    v ← u16_at data off; mret (mkRegister roomID username (Z.of_nat v))
  else mret (mkRegister roomID username 0).

Lemma RegisterPayload_Marshal_eq r :
  RegisterPayload_Marshal r = len16 (rp_RoomID r) ++ rp_RoomID r ++ len16 (rp_Username r) ++ rp_Username r
              ++ put_le 2 (rp_Version r).
Proof.
  unfold RegisterPayload_Marshal. cbn zeta. rewrite <- (app_nil_l (zeros _)). repeat fill_step.
  autorewrite with gotunnel. cbn [app].
  replace (_ - _)%nat with 0%nat by lia. cbn [zeros replicate].
  by rewrite app_nil_r, <- !app_assoc.
Qed.

Lemma UnmarshalRegister_no_panic data : no_panic (UnmarshalRegister data).
Proof. unfold no_panic, UnmarshalRegister. go_run; done. Qed.

Theorem Register_roundtrip r :
  Z.of_nat (length (rp_RoomID r)) < 65536 → Z.of_nat (length (rp_Username r)) < 65536 →
  0 ≤ rp_Version r < 65536 →
  UnmarshalRegister (RegisterPayload_Marshal r) = Ok r.
Proof.
  intros Hr Hu Hv. rewrite RegisterPayload_Marshal_eq. unfold UnmarshalRegister.
  len_guard. read. len_guard. read. read. len_guard. read. len_guard.
  rewrite <- (app_nil_r (put_le 2 _)). repeat rewrite u16_skip by lens.
  replace (_ - _)%nat with 0%nat by lens. rewrite u16_here. cbn.
  rewrite Z.mod_small, Z2Nat.id by lia. by destruct r.
Qed.

(** ** Assign IP *)

Record AssignIPPayload := mkAssignIP {
  ap_VirtualIP : IP; ap_SubnetMask : list byte; ap_ServerIP : IP;
  ap_Version : Z; ap_SessionToken : list byte }.
#[export] Instance AssignIPPayload_eq_dec : EqDecision AssignIPPayload.
Proof. solve_decision. Defined.

(** [None] is the nil slice. *)
Definition AssignIPPayload_Marshal (a : AssignIPPayload) : option (list byte) :=
  match To4 (ap_VirtualIP a), To4 (ap_SubnetMask a), To4 (ap_ServerIP a) with
  | Some vip, Some mask, Some srv =>
      let buf := zeros (14 + 16) in
      let buf := copy_at buf 0 vip in
      let buf := copy_at buf 4 mask in
      let buf := copy_at buf 8 srv in
      let buf := copy_at buf 12 (put_le 2 (ap_Version a)) in
      Some (copy_at buf 14 (ap_SessionToken a))
  | _, _, _ => None
  end.

Definition UnmarshalAssignIP (data : list byte) : go perr AssignIPPayload :=
  if (length data <? 12)%nat then Err ErrPacketTooShort else
  vip ← slice data 0 4;
  mask ← slice data 4 8;
  srv ← slice data 8 12;
  version ← (if (14 <=? length data)%nat then Z.of_nat <$> u16_at data 12 else mret 0);
  token ← (if (30 <=? length data)%nat
           then copy_into (zeros 16) <$> slice data 14 30 else mret (zeros 16));
  mret (mkAssignIP vip mask srv version token).

Lemma AssignIPPayload_Marshal_eq a vip mask srv :
  To4 (ap_VirtualIP a) = Some vip → To4 (ap_SubnetMask a) = Some mask → To4 (ap_ServerIP a) = Some srv →
  length (ap_SessionToken a) = 16%nat →
  AssignIPPayload_Marshal a = Some (vip ++ mask ++ srv ++ put_le 2 (ap_Version a) ++ ap_SessionToken a).
Proof.
  intros H1 H2 H3 Ht. unfold AssignIPPayload_Marshal. rewrite H1, H2, H3.
  pose proof (To4_length _ _ H1). pose proof (To4_length _ _ H2). pose proof (To4_length _ _ H3).
  f_equal. rewrite <- (app_nil_l (zeros _)). repeat fill_step.
  autorewrite with gotunnel. cbn [app].
  replace (_ - _)%nat with 0%nat by lia. cbn [zeros replicate].
  by rewrite app_nil_r, <- !app_assoc.
Qed.

Lemma UnmarshalAssignIP_no_panic data : no_panic (UnmarshalAssignIP data).
Proof. unfold no_panic, UnmarshalAssignIP. go_run; done. Qed.

(** Addresses come back in their 4-byte form. *)
Theorem AssignIP_roundtrip a vip mask srv :
  To4 (ap_VirtualIP a) = Some vip → To4 (ap_SubnetMask a) = Some mask → To4 (ap_ServerIP a) = Some srv →
  length (ap_SessionToken a) = 16%nat → 0 ≤ ap_Version a < 65536 →
  ∃ data, AssignIPPayload_Marshal a = Some data ∧
    UnmarshalAssignIP data = Ok (mkAssignIP vip mask srv (ap_Version a) (ap_SessionToken a)).
Proof.
  intros H1 H2 H3 Ht Hv. eexists. split; [by apply AssignIPPayload_Marshal_eq|].
  apply To4_length in H1, H2, H3. unfold UnmarshalAssignIP.
  len_guard. read. read. read. len_guard. repeat rewrite u16_skip by lens.
  replace (12 - _ - _ - _)%nat with 0%nat by lens. rewrite u16_here. cbn [fmap go_fmap mbind go_bind].
  len_guard. read.
  rewrite copy_into_exact by lens. by rewrite Z.mod_small, Z2Nat.id by lia.
Qed.

(** ** Kick *)

(** [buf[i] = x] at the write offset. *)
Lemma insert_zeros (p : list byte) n (x : byte) (off : nat) :
  off = length p → (0 < n)%nat → <[off := x]> (p ++ zeros n) = (p ++ [x]) ++ zeros (n - 1).
Proof.
  intros -> Hn. rewrite insert_app_r_alt by lia. rewrite Nat.sub_diag.
  destruct n; [lia|]. simpl. rewrite Nat.sub_0_r, <- app_assoc. done.
Qed.

Definition KickPayload_Marshal (k : KickPayload) : list byte :=
  let reasonBytes := kick_Reason k in
  let buf := zeros (2 + length reasonBytes + 1) in
  let buf := copy_at buf 0 (len16 reasonBytes) in
  let buf := copy_at buf 2 reasonBytes in
  <[(2 + length reasonBytes)%nat := kick_Code k]> buf.

Definition UnmarshalKick (data : list byte) : go perr KickPayload :=
  if (length data <? 2)%nat then Err ErrPacketTooShort else
  reasonLen ← u16_at data 0;
  if (length data <? 2 + reasonLen)%nat then Err ErrPacketTooShort else
  reason ← slice data 2 (2 + reasonLen);
  if (2 + reasonLen + 1 <=? length data)%nat then
    code ← index data (2 + reasonLen); mret (mkKick reason code)
  else mret (mkKick reason KickCodeNone).

Lemma KickPayload_Marshal_eq k :
  KickPayload_Marshal k = len16 (kick_Reason k) ++ kick_Reason k ++ [kick_Code k].
Proof.
  unfold KickPayload_Marshal. cbn zeta. rewrite <- (app_nil_l (zeros _)). repeat fill_step.
  autorewrite with gotunnel. cbn [app]. rewrite insert_zeros by lens.
  replace (_ - 1)%nat with 0%nat by lia. cbn [zeros replicate].
  by rewrite app_nil_r, <- !app_assoc.
Qed.

Lemma UnmarshalKick_no_panic data : no_panic (UnmarshalKick data).
Proof. unfold no_panic, UnmarshalKick. go_run; done. Qed.

Theorem Kick_roundtrip k :
  Z.of_nat (length (kick_Reason k)) < 65536 → UnmarshalKick (KickPayload_Marshal k) = Ok k.
Proof.
  intros Hr. rewrite KickPayload_Marshal_eq. unfold UnmarshalKick.
  len_guard. read. len_guard. read. len_guard.
  replace (2 + _ - _ - _)%nat with 0%nat by lens. by destruct k.
Qed.

(** packet of an older server, without the code byte. *)
Lemma UnmarshalKick_legacy reason :
  Z.of_nat (length reason) < 65536 →
  UnmarshalKick (len16 reason ++ reason) = Ok (mkKick reason KickCodeNone).
Proof.
  intros Hr. unfold UnmarshalKick. len_guard. read. len_guard. read.
  destruct (Nat.leb_spec (2 + length reason + 1) (length (len16 reason ++ reason))) as [H|H]; [|done].
  exfalso. revert H. lens.
Qed.

(** ** Ping and Pong *)

Record PingPayload := mkPing { Timestamp : Z }.

Definition PingPayload_Marshal (p : PingPayload) : list byte :=
  copy_at (zeros 8) 0 (put_le 8 (u64 (Timestamp p))).

Definition UnmarshalPing (data : list byte) : go perr PingPayload :=
  if (length data <? 8)%nat then Err ErrPacketTooShort else
  w ← slice data 0 8;
  mret (mkPing (i64 (get_le w))).

Lemma UnmarshalPing_no_panic data : no_panic (UnmarshalPing data).
Proof. unfold no_panic, UnmarshalPing. go_run; done. Qed.

Theorem Ping_roundtrip p :
  - 2 ^ 63 ≤ Timestamp p < 2 ^ 63 → UnmarshalPing (PingPayload_Marshal p) = Ok p.
Proof.
  intros Hp. unfold PingPayload_Marshal. rewrite <- (app_nil_l (zeros _)). fill_step.
  autorewrite with gotunnel. cbn [Nat.sub zeros replicate app]. unfold UnmarshalPing.
  len_guard. read. destruct p as [t]. cbn [Timestamp] in *.
  rewrite get_put_le_small by (pose proof (u64_range t); change (256 ^ Z.of_nat 8) with (2 ^ 64); lia).
  by rewrite i64_u64.
Qed.

(** ** Authentication *)

Record AuthChallengePayload := mkAuthChallenge { Challenge : list byte; ClientAddr : list byte }.

Definition AuthChallengePayload_Marshal (a : AuthChallengePayload) : list byte :=
  let addrBytes := ClientAddr a in
  let buf := zeros (2 + length (Challenge a) + 2 + length addrBytes) in
  let buf := copy_at buf 0 (len16 (Challenge a)) in
  let buf := copy_at buf 2 (Challenge a) in
  let off := (2 + length (Challenge a))%nat in
  let buf := copy_at buf off (len16 addrBytes) in
  copy_at buf (off + 2) addrBytes.

Definition UnmarshalAuthChallenge (data : list byte) : go perr AuthChallengePayload :=
  if (length data <? 2)%nat then Err ErrPacketTooShort else
  clen ← u16_at data 0;
  if (length data <? 2 + clen + 2)%nat then Err ErrPacketTooShort else
  challenge ← copy_into (zeros clen) <$> slice data 2 (2 + clen);
  let off := (2 + clen)%nat in
  addrLen ← u16_at data off;
  if (length data <? off + 2 + addrLen)%nat then Err ErrPacketTooShort else
  clientAddr ← slice data (off + 2) (off + 2 + addrLen);
  mret (mkAuthChallenge challenge clientAddr).

Lemma AuthChallengePayload_Marshal_eq a :
  AuthChallengePayload_Marshal a
  = len16 (Challenge a) ++ Challenge a ++ len16 (ClientAddr a) ++ ClientAddr a.
Proof.
  unfold AuthChallengePayload_Marshal. cbn zeta. rewrite <- (app_nil_l (zeros _)). repeat fill_step.
  autorewrite with gotunnel. cbn [app].
  replace (_ - length (ClientAddr a))%nat with 0%nat by lia. cbn [zeros replicate].
  by rewrite app_nil_r, <- !app_assoc.
Qed.

Lemma UnmarshalAuthChallenge_no_panic data : no_panic (UnmarshalAuthChallenge data).
Proof. unfold no_panic, UnmarshalAuthChallenge. go_run; done. Qed.

Theorem AuthChallenge_roundtrip a :
  Z.of_nat (length (Challenge a)) < 65536 → Z.of_nat (length (ClientAddr a)) < 65536 →
  UnmarshalAuthChallenge (AuthChallengePayload_Marshal a) = Ok a.
Proof.
  intros Hc Ha. rewrite AuthChallengePayload_Marshal_eq. unfold UnmarshalAuthChallenge.
  len_guard. read. len_guard. read. read. len_guard. read.
  rewrite copy_into_exact by lens. by destruct a.
Qed.

Record AuthResponsePayload := mkAuthResponse {
  ar_RoomID : list byte; ar_Username : list byte; ar_HMAC : list byte }.

Definition AuthResponsePayload_Marshal (a : AuthResponsePayload) : list byte :=
  let roomBytes := ar_RoomID a in
  let userBytes := ar_Username a in
  let buf := zeros (2 + length roomBytes + 2 + length userBytes + 2 + length (ar_HMAC a)) in
  let off := 0%nat in
  let buf := copy_at buf off (len16 roomBytes) in
  let off := (off + 2)%nat in
  let buf := copy_at buf off roomBytes in
  let off := (off + length roomBytes)%nat in
  let buf := copy_at buf off (len16 userBytes) in
  let off := (off + 2)%nat in
  let buf := copy_at buf off userBytes in
  let off := (off + length userBytes)%nat in
  let buf := copy_at buf off (len16 (ar_HMAC a)) in
  let off := (off + 2)%nat in
  copy_at buf off (ar_HMAC a).

Definition UnmarshalAuthResponse (data : list byte) : go perr AuthResponsePayload :=
  if (length data <? 4)%nat then Err ErrPacketTooShort else
  let off := 0%nat in
  roomLen ← u16_at data off;
  let off := (off + 2)%nat in
  if (length data <? off + roomLen + 2)%nat then Err ErrPacketTooShort else
  roomID ← slice data off (off + roomLen);
  let off := (off + roomLen)%nat in
  userLen ← u16_at data off;
  let off := (off + 2)%nat in
  if (length data <? off + userLen + 2)%nat then Err ErrPacketTooShort else
  username ← slice data off (off + userLen);
  let off := (off + userLen)%nat in
  hmacLen ← u16_at data off;
  let off := (off + 2)%nat in
  if (length data <? off + hmacLen)%nat || (hmacLen <? 32)%nat then Err ErrPacketTooShort else
  hmacVal ← copy_into (zeros hmacLen) <$> slice data off (off + hmacLen);
  mret (mkAuthResponse roomID username hmacVal).

Lemma AuthResponsePayload_Marshal_eq a :
  AuthResponsePayload_Marshal a
  = len16 (ar_RoomID a) ++ ar_RoomID a ++ len16 (ar_Username a) ++ ar_Username a
    ++ len16 (ar_HMAC a) ++ ar_HMAC a.
Proof.
  unfold AuthResponsePayload_Marshal. cbn zeta. rewrite <- (app_nil_l (zeros _)). repeat fill_step.
  autorewrite with gotunnel. cbn [app].
  replace (_ - length (ar_HMAC a))%nat with 0%nat by lia. cbn [zeros replicate].
  by rewrite app_nil_r, <- !app_assoc.
Qed.

Lemma UnmarshalAuthResponse_no_panic data : no_panic (UnmarshalAuthResponse data).
Proof. unfold no_panic, UnmarshalAuthResponse. go_run; done. Qed.

Theorem AuthResponse_roundtrip a :
  Z.of_nat (length (ar_RoomID a)) < 65536 → Z.of_nat (length (ar_Username a)) < 65536 →
  32 ≤ Z.of_nat (length (ar_HMAC a)) < 65536 →
  UnmarshalAuthResponse (AuthResponsePayload_Marshal a) = Ok a.
Proof.
  intros Hr Hu Hh. rewrite AuthResponsePayload_Marshal_eq. unfold UnmarshalAuthResponse.
  len_guard. read. len_guard. read. read. len_guard. read. read.
  destruct (Nat.ltb_spec (length (ar_HMAC a)) 32); [lia|]. rewrite orb_false_r.
  len_guard. read. rewrite copy_into_exact by lens. by destruct a.
Qed.
