(* ===== verification/MessagesData.v ===== *)
(** * MessagesData: relayed data and rebinding

    src/internal/protocol/messages_data.go and messages_rebind.go.  The pooled
    decoder works on recycled objects, so its slices are modelled with their
    backing arrays. *)

From S2P Require Import Prelude GoNet Crc32 Protocol Messages.

(** ** The data payload *)

Definition DataFlagHasToken : byte := x02.
Definition DataFormatVersion : byte := x01.
Definition DataHeaderLen : nat := 10.
Definition DataTokenLen : nat := 16.

(** [flags&DataFlagHasToken != 0]. *)
Definition has_token (flags : byte) : bool :=
  negb (bool_decide (byte_and flags DataFlagHasToken = x00)).

Record DataPayload := mkData {
  dp_SrcIP : IP; dp_DstIP : IP; dp_FormatVer : byte; dp_Flags : byte;
  dp_Token : list byte; dp_Data : list byte }.
#[export] Instance DataPayload_eq_dec : EqDecision DataPayload.
Proof. solve_decision. Defined.

Definition ParseDataHeader {E} (data : list byte) : go E (byte * nat * bool) :=
  if (length data <=? 8)%nat then Ok (x00, 0%nat, false) else
  b8 ← index data 8;
  if bool_decide (b8 = DataFormatVersion) then
    if (10 <=? length data)%nat then b9 ← index data 9; mret (b9, DataHeaderLen, true)
    else mret (x00, DataHeaderLen, true)
  else mret (b8, 9%nat, false).

Definition dataOffset {E} (data : list byte) : go E nat :=
  if (9 <=? length data)%nat then
    b8 ← index data 8;
    if bool_decide (b8 = DataFormatVersion) then
      if (10 <=? length data)%nat then
        b9 ← index data 9;
        mret (if has_token b9 then DataHeaderLen + DataTokenLen else DataHeaderLen)%nat
      else mret DataHeaderLen
    else mret 8%nat
  else mret 8%nat.

Definition MarshalSize (d : DataPayload) : nat :=
  let size := (DataHeaderLen + length (dp_Data d))%nat in
  if has_token (dp_Flags d) then (size + DataTokenLen)%nat else size.

(** [None] is the nil slice. *)
Definition DataPayload_Marshal (d : DataPayload) : option (list byte) :=
  match To4 (dp_SrcIP d), To4 (dp_DstIP d) with
  | Some src, Some dst =>
      let size := (DataHeaderLen + length (dp_Data d))%nat in
      let size := if has_token (dp_Flags d) then (size + DataTokenLen)%nat else size in
      let buf := zeros size in
      let buf := copy_at buf 0 src in
      let buf := copy_at buf 4 dst in
      let buf := <[8%nat := DataFormatVersion]> buf in
      let buf := <[9%nat := dp_Flags d]> buf in
      let off := DataHeaderLen in
      let '(buf, off) := if has_token (dp_Flags d)
                         then (copy_at buf off (dp_Token d), (off + DataTokenLen)%nat)
                         else (buf, off) in
      Some (copy_at buf off (dp_Data d))
  | _, _ => None
  end.

(** The destination after the call and the number of bytes written.  [dst[off:]]
    panics when the token does not fit. *)
Definition MarshalTo {E} (d : DataPayload) (dst : list byte) : go E (list byte * nat) :=
  match To4 (dp_SrcIP d), To4 (dp_DstIP d) with
  | Some src, Some dstIP =>
      if (length dst <? DataHeaderLen)%nat then Ok (dst, 0%nat) else
      let buf := copy_at dst 0 src in
      let buf := copy_at buf 4 dstIP in
      let buf := <[8%nat := DataFormatVersion]> buf in
      let buf := <[9%nat := dp_Flags d]> buf in
      let off := DataHeaderLen in
      let '(buf, off) := if has_token (dp_Flags d)
                         then (copy_at buf off (dp_Token d), (off + DataTokenLen)%nat)
                         else (buf, off) in
      if (length buf <? off)%nat then Panic else
      Ok (copy_at buf off (dp_Data d), (off + Nat.min (length buf - off) (length (dp_Data d)))%nat)
  | _, _ => Ok (dst, 0%nat)
  end.

Definition UnmarshalData (data : list byte) : go perr DataPayload :=
  if (length data <? 8)%nat then Err ErrPacketTooShort else
  src ← slice data 0 4;
  dst ← slice data 4 8;
  off ← dataOffset data;
  if (length data <? off)%nat then Err ErrPacketTooShort else
  '(flags, fmt) ← (if (off =? 8)%nat then mret (x00, x00)
                   else f ← index data 9; v ← index data 8; mret (f, v));
  token ← (if has_token flags && (DataHeaderLen + DataTokenLen <=? length data)%nat
           then copy_into (zeros DataTokenLen) <$> slice data DataHeaderLen (DataHeaderLen + DataTokenLen)
           else mret (zeros DataTokenLen));
  pkt ← slice data off (length data);
  mret (mkData src dst fmt flags token (copy_into (zeros (length data - off)) pkt)).

(** ** Recycled objects

    A Go slice over its backing array: [cap] is the length of the array from the
    slice's start. *)

Record gslice := mkSlice { backing : list byte; glen : nat }.

Definition contents (s : gslice) : list byte := take (glen s) (backing s).
Definition gcap (s : gslice) : nat := length (backing s).
(** [s[:n]], for [n <= cap(s)]. *)
Definition reslice (s : gslice) (n : nat) : gslice := mkSlice (backing s) n.
(** [make([]byte, n)]. *)
Definition gmake (n : nat) : gslice := mkSlice (zeros n) n.
(** [copy(s, src)]: writes through to the backing array. *)
Definition gcopy (s : gslice) (src : list byte) : gslice :=
  mkSlice (copy_into (contents s) src ++ drop (glen s) (backing s)) (glen s).

(** [if cap(s) < n { s = make([]byte, n) } else { s = s[:n] }]. *)
Definition grow (s : gslice) (n : nat) : gslice :=
  if (gcap s <? n)%nat then gmake n else reslice s n.

Record PooledData := mkPooled {
  pd_SrcIP : gslice; pd_DstIP : gslice; pd_FormatVer : byte; pd_Flags : byte;
  pd_Token : list byte; pd_Data : gslice }.

(** The pool's New function: [make([]byte, 0, 4)] twice, a nil Data. *)
Definition dataPayloadPool_New : PooledData :=
  mkPooled (mkSlice (zeros 4) 0) (mkSlice (zeros 4) 0) x00 x00 (zeros DataTokenLen) (mkSlice [] 0).

(** The object [PutDataPayload] hands back to the pool. *)
Definition PutDataPayload (dp : PooledData) : PooledData :=
  mkPooled (reslice (pd_SrcIP dp) 0) (reslice (pd_DstIP dp) 0) x00 x00 (zeros DataTokenLen)
           (reslice (pd_Data dp) 0).

(** What a caller reads from the object. *)
Definition pooled_view (dp : PooledData) : DataPayload :=
  mkData (contents (pd_SrcIP dp)) (contents (pd_DstIP dp)) (pd_FormatVer dp) (pd_Flags dp)
         (pd_Token dp) (contents (pd_Data dp)).

(** [dp] is the object [dataPayloadPool.Get] returned. *)
Definition UnmarshalDataPooled (dp : PooledData) (data : list byte) : go perr PooledData :=
  if (length data <? 8)%nat then Err ErrPacketTooShort else
  s ← slice data 0 4;
  d ← slice data 4 8;
  let srcIP := gcopy (grow (pd_SrcIP dp) 4) s in
  let dstIP := gcopy (grow (pd_DstIP dp) 4) d in
  off ← dataOffset data;
  if (length data <? off)%nat then Err ErrPacketTooShort else
  '(flags, fmt) ← (if (off =? 8)%nat then mret (x00, x00)
                   else f ← index data 9; v ← index data 8; mret (f, v));
  token ← (if has_token flags && (DataHeaderLen + DataTokenLen <=? length data)%nat
           then copy_into (pd_Token dp) <$> slice data DataHeaderLen (DataHeaderLen + DataTokenLen)
           else mret (pd_Token dp));
  rawData ← slice data off (length data);
  mret (mkPooled srcIP dstIP fmt flags token (gcopy (grow (pd_Data dp) (length rawData)) rawData)).

(** The objects the pool can hand out: new ones, and whatever was put back. *)
Inductive in_pool : PooledData → Prop :=
| in_pool_new : in_pool dataPayloadPool_New
| in_pool_put dp : in_pool (PutDataPayload dp).

(** ** Facts *)

Lemma in_pool_token dp : in_pool dp → pd_Token dp = zeros DataTokenLen.
Proof. by intros []. Qed.

Lemma contents_grow_copy s src n :
  n = length src → contents (gcopy (grow s n) src) = src.
Proof.
  intros ->. unfold gcopy, grow, contents, gcap, gmake, reslice.
  destruct (Nat.ltb_spec (length (backing s)) (length src)); cbn [backing glen].
  - rewrite (take_ge (zeros _)) by lens. rewrite copy_into_exact by lens.
    by rewrite take_app_length.
  - rewrite copy_into_exact by (rewrite length_take; lia). by rewrite take_app_length.
Qed.

Lemma dataOffset_ok {E} data :
  ∃ off, dataOffset (E:=E) data = Ok off ∧
    (off = 8 ∨ (off = 10 ∨ off = 26) ∧ 9 ≤ length data)%nat.
Proof.
  unfold dataOffset.
  repeat (go_run; first [case_bool_decide | case_match | idtac]); eauto 6.
  all: try (eexists; split; [done|]; unfold DataHeaderLen, DataTokenLen; lia).
Qed.

(** The tail of both decoders, as the caller sees it. *)
Lemma UnmarshalData_inv data :
  (∃ e, UnmarshalData data = Err e ∧ ∀ dp, UnmarshalDataPooled dp data = Err e) ∨
  (∃ off flags fmt, dataOffset (E:=perr) data = Ok off ∧ (8 ≤ off ≤ length data)%nat ∧
    let tok t := if has_token flags && (DataHeaderLen + DataTokenLen <=? length data)%nat
                 then copy_into t (take DataTokenLen (drop DataHeaderLen data)) else t in
    UnmarshalData data = Ok (mkData (take 4 data) (take 4 (drop 4 data)) fmt flags
                              (tok (zeros DataTokenLen)) (drop off data)) ∧
    ∀ dp, UnmarshalDataPooled dp data =
      Ok (mkPooled (gcopy (grow (pd_SrcIP dp) 4) (take 4 data))
                   (gcopy (grow (pd_DstIP dp) 4) (take 4 (drop 4 data))) fmt flags
                   (tok (pd_Token dp))
                   (gcopy (grow (pd_Data dp) (length (drop off data))) (drop off data)))).
Proof.
  unfold UnmarshalData, UnmarshalDataPooled.
  destruct (Nat.ltb_spec (length data) 8) as [|H8]; [left; eauto|].
  rewrite (slice_ok data 0 4), (slice_ok data 4 8) by lia.
  destruct (dataOffset_ok (E:=perr) data) as (off & Hoff & Hcase).
  rewrite Hoff. cbn [mbind go_bind].
  destruct (Nat.ltb_spec (length data) off) as [|Ho]; [left; eauto|right].
  assert (slice (E:=perr) data off (length data) = Ok (drop off data)) as Hd.
  { rewrite slice_ok by lia. rewrite take_ge; [done|]. rewrite length_drop. lia. }
  assert (Hc : copy_into (zeros (length data - off)) (drop off data) = drop off data)
    by (apply copy_into_exact; rewrite length_zeros, length_drop; lia).
  assert (∃ flags fmt, (if (off =? 8)%nat then mret (x00, x00)
     else f ← index (E:=perr) data 9; v ← index data 8; mret (f, v)) = Ok (flags, fmt))
    as (flags & fmt & Hf).
  { destruct (Nat.eqb_spec off 8); [by exists x00, x00|].
    go_run; eauto. }
  rewrite Hf. cbn [mbind go_bind]. exists off, flags, fmt.
  split; [done|]. split; [lia|]. cbv zeta. clear Hf.
  destruct (has_token flags), (Nat.leb_spec (DataHeaderLen + DataTokenLen) (length data)) as [Ht|Ht];
    cbn [andb]; rewrite ?(slice_ok data DataHeaderLen) by (unfold DataTokenLen in *; lia);
    cbn [mbind go_bind fmap go_fmap]; rewrite Hd; cbn [mbind go_bind mret go_ret]; rewrite Hc;
    rewrite ?drop_0, ?Nat.sub_0_r; done.
Qed.

Lemma UnmarshalData_no_panic data : no_panic (UnmarshalData data).
Proof.
  destruct (UnmarshalData_inv data) as [(e & He & _)|(off & fl & fm & _ & _ & H & _)];
    unfold no_panic; congruence.
Qed.

Lemma UnmarshalDataPooled_no_panic dp data : no_panic (UnmarshalDataPooled dp data).
Proof.
  destruct (UnmarshalData_inv data) as [(e & _ & He)|(off & fl & fm & _ & _ & _ & H)];
    unfold no_panic; rewrite ?He, ?H; done.
Qed.

(** ** Properties *)

(** The pooled decoder used on the relay path gives, for whichever recycled
    object the pool hands out, exactly the payload (or the error) of the
    allocating decoder: nothing of an earlier packet is visible. *)
Theorem UnmarshalDataPooled_correct dp data :
  in_pool dp → pooled_view <$> UnmarshalDataPooled dp data = UnmarshalData data.
Proof.
  intros Hp%in_pool_token.
  destruct (UnmarshalData_inv data) as [(e & -> & He)|(off & fl & fm & _ & Hl & -> & H)].
  - by rewrite He.
  - rewrite H, Hp. cbn [fmap go_fmap]. unfold pooled_view. cbn. do 2 f_equal.
    + apply contents_grow_copy. rewrite length_take. lia.
    + apply contents_grow_copy. rewrite length_take, length_drop. lia.
    + by apply contents_grow_copy.
Qed.

(** An object that last carried a longer packet with a session token. *)
Lemma UnmarshalDataPooled_correct_witness :
  let old := mkPooled (mkSlice (zeros 4) 4) (mkSlice (zeros 4) 4) x01 x02
               (replicate 16 x2a) (mkSlice (replicate 40 x2a) 40) in
  let pkt := str "abcdefgh" ++ [x01; x00] ++ str "hello" in
  in_pool (PutDataPayload old) ∧
  pooled_view <$> UnmarshalDataPooled (PutDataPayload old) pkt = UnmarshalData pkt.
Proof. split; [constructor | apply UnmarshalDataPooled_correct; constructor]. Defined.

(** The bytes a data payload is encoded as. *)
Definition data_wire (src dst : IP) (flags : byte) (token pkt : list byte) : list byte :=
  src ++ dst ++ [DataFormatVersion] ++ [flags] ++ (if has_token flags then token else []) ++ pkt.

Lemma DataPayload_Marshal_eq d src dst :
  To4 (dp_SrcIP d) = Some src → To4 (dp_DstIP d) = Some dst → length (dp_Token d) = 16%nat →
  DataPayload_Marshal d = Some (data_wire src dst (dp_Flags d) (dp_Token d) (dp_Data d)).
Proof.
  intros H1 H2 Ht. unfold DataPayload_Marshal, data_wire. rewrite H1, H2.
  apply To4_length in H1, H2. cbn zeta. unfold DataHeaderLen, DataTokenLen in *.
  destruct (has_token (dp_Flags d)); rewrite <- (app_nil_l (zeros _));
    rewrite !copy_at_zeros by lens; rewrite !insert_zeros by lens;
    rewrite !copy_at_zeros by lens;
    f_equal; rewrite H1, H2, ?Ht;
    replace (_ - length (dp_Data d))%nat with 0%nat by lia; cbn [zeros replicate];
    by rewrite app_nil_r, <- !app_assoc.
Qed.

Lemma index_here {E} (x : byte) r (i : nat) : i = 0%nat → index (E:=E) ([x] ++ r) i = Ok x.
Proof. by intros ->. Qed.

Lemma length_data_wire src dst fl tok pkt :
  length src = 4%nat → length dst = 4%nat → length tok = 16%nat →
  length (data_wire src dst fl tok pkt)
  = ((if has_token fl then 26 else 10) + length pkt)%nat.
Proof. intros ???. unfold data_wire. destruct (has_token fl); lens. Qed.

Lemma data_wire_8 {E} src dst fl tok pkt :
  length src = 4%nat → length dst = 4%nat →
  index (E:=E) (data_wire src dst fl tok pkt) 8 = Ok DataFormatVersion
  ∧ index (E:=E) (data_wire src dst fl tok pkt) 9 = Ok fl.
Proof.
  intros Hs Hd. unfold data_wire.
  split; repeat rewrite index_skip by lens; rewrite index_here by lens; done.
Qed.

Lemma dataOffset_wire {E} src dst fl tok pkt :
  length src = 4%nat → length dst = 4%nat → length tok = 16%nat →
  dataOffset (E:=E) (data_wire src dst fl tok pkt)
  = Ok (if has_token fl then 26 else 10)%nat.
Proof.
  intros Hs Hd Ht. unfold dataOffset. rewrite length_data_wire by done.
  destruct (data_wire_8 (E:=E) src dst fl tok pkt Hs Hd) as [-> ->].
  destruct (has_token fl) eqn:Hf; cbn [Nat.add Nat.leb mbind go_bind mret go_ret];
    rewrite bool_decide_eq_true_2, Hf by done; done.
Qed.

Lemma data_wire_fields src dst fl tok pkt :
  length src = 4%nat → length dst = 4%nat → length tok = 16%nat →
  slice (E:=perr) (data_wire src dst fl tok pkt) 0 4 = Ok src ∧
  slice (E:=perr) (data_wire src dst fl tok pkt) 4 8 = Ok dst ∧
  (has_token fl = true → slice (E:=perr) (data_wire src dst fl tok pkt) 10 26 = Ok tok) ∧
  slice (E:=perr) (data_wire src dst fl tok pkt) (if has_token fl then 26 else 10)
    (length (data_wire src dst fl tok pkt)) = Ok pkt.
Proof.
  intros Hs Hd Ht. rewrite length_data_wire by done. unfold data_wire.
  split_and!; [by read|by read| |].
  - intros ->. by read.
  - destruct (has_token fl); cbn [Nat.add]; repeat rewrite slice_skip by lens;
      rewrite slice_all by lens; done.
Qed.

(** A data payload with IPv4 endpoints survives the wire: addresses in their
    4-byte form, flags, packet and (when the flag announces one) the session
    token all come back, and the format version is set. *)
Theorem Data_roundtrip d src dst :
  To4 (dp_SrcIP d) = Some src → To4 (dp_DstIP d) = Some dst → length (dp_Token d) = 16%nat →
  ∃ data, DataPayload_Marshal d = Some data ∧ length data = MarshalSize d ∧
    UnmarshalData data = Ok (mkData src dst DataFormatVersion (dp_Flags d)
      (if has_token (dp_Flags d) then dp_Token d else zeros 16) (dp_Data d)).
Proof.
  intros H1 H2 Ht. eexists. split; [by apply DataPayload_Marshal_eq|].
  apply To4_length in H1, H2. rewrite length_data_wire by done. split.
  { unfold MarshalSize, DataHeaderLen, DataTokenLen. destruct (has_token _); lia. }
  unfold UnmarshalData. rewrite dataOffset_wire by done.
  destruct (data_wire_8 (E:=perr) src dst (dp_Flags d) (dp_Token d) (dp_Data d) H1 H2) as [-> ->].
  destruct (data_wire_fields src dst (dp_Flags d) (dp_Token d) (dp_Data d) H1 H2 Ht)
    as (-> & -> & Hsl & Hpkt).
  cbn [mbind go_bind]. rewrite length_data_wire in * by done.
  destruct (has_token (dp_Flags d)) eqn:Hf;
    cbn [mbind go_bind mret go_ret fmap go_fmap Nat.add Nat.ltb Nat.leb Nat.eqb] in *; rewrite Hf; cbn [andb].
  - unfold DataHeaderLen, DataTokenLen. cbn [Nat.add Nat.leb]. rewrite Hsl by done.
    cbn [mbind go_bind mret go_ret fmap go_fmap]. rewrite Hpkt. cbn [mbind go_bind mret go_ret]. rewrite !copy_into_exact by lens. done.
  - cbn [mbind go_bind mret go_ret fmap go_fmap]. rewrite Hpkt. cbn [mbind go_bind mret go_ret]. rewrite copy_into_exact by lens. done.
Qed.

Lemma Data_roundtrip_witness :
  ∃ data, DataPayload_Marshal (mkData (IPv4 x0a x15 x00 x02) [x0a; x15; x00; x03] x00 x02
                                 (replicate 16 x07) (str "packet")) = Some data ∧
    length data = 32%nat ∧
    UnmarshalData data = Ok (mkData [x0a; x15; x00; x02] [x0a; x15; x00; x03] x01 x02
      (replicate 16 x07) (str "packet")).
Proof.
  apply (Data_roundtrip (mkData (IPv4 x0a x15 x00 x02) [x0a; x15; x00; x03] x00 x02
                          (replicate 16 x07) (str "packet"))); reflexivity.
Defined.

(** The first byte of a legacy payload's packet is an IP version nibble, so it is
    never taken for the format version. *)
Lemma UnmarshalData_legacy src dst b pkt :
  length src = 4%nat → length dst = 4%nat → b ≠ DataFormatVersion →
  UnmarshalData (src ++ dst ++ b :: pkt)
  = Ok (mkData src dst x00 x00 (zeros 16) (b :: pkt)).
Proof.
  intros Hs Hd Hb. set (data := src ++ dst ++ b :: pkt).
  assert (index (E:=perr) data 8 = Ok b) as H8
    by (unfold data; repeat rewrite index_skip by lens; replace (8 - _ - _)%nat with 0%nat by lia; done).
  assert (length data = 9 + length pkt)%nat as Hl by (unfold data; lens).
  assert (slice (E:=perr) data 0 4 = Ok src) as H04 by (unfold data; by read).
  assert (slice (E:=perr) data 4 8 = Ok dst) as H48 by (unfold data; by read).
  assert (slice (E:=perr) data 8 (length data) = Ok (b :: pkt)) as Hp
    by (rewrite Hl; unfold data; repeat rewrite slice_skip by lens; rewrite slice_all by lens; done).
  unfold UnmarshalData, dataOffset. rewrite H04, H48, H8.
  destruct (Nat.ltb_spec (length data) 8); [lia|]. destruct (Nat.leb_spec 9 (length data)); [|lia].
  cbn [mbind go_bind]. rewrite bool_decide_eq_false_2 by done. cbn [mbind go_bind mret go_ret].
  destruct (Nat.ltb_spec (length data) 8); [lia|]. cbn [Nat.eqb mbind go_bind mret go_ret].
  change (has_token x00) with false. cbn [andb mbind go_bind mret go_ret]. rewrite Hp.
  cbn [mbind go_bind mret go_ret]. rewrite copy_into_exact by (rewrite length_zeros; cbn [Datatypes.length]; lia).
  done.
Qed.

(** ** Writing in place *)

Lemma copy_at_app (p r src : list byte) (off : nat) :
  off = length p → (length src ≤ length r)%nat →
  copy_at (p ++ r) off src = (p ++ src) ++ drop (length src) r.
Proof.
  intros -> H. unfold copy_at. rewrite take_app_length, drop_app_length.
  unfold copy_into. rewrite take_ge by done. by rewrite app_assoc.
Qed.

Lemma insert_at_app (p r : list byte) (x : byte) (off : nat) :
  off = length p → (0 < length r)%nat → <[off := x]> (p ++ r) = (p ++ [x]) ++ drop 1 r.
Proof.
  intros -> H. rewrite insert_app_r_alt by lia. rewrite Nat.sub_diag.
  destruct r; simpl in *; [lia|]. by rewrite drop_0, <- app_assoc.
Qed.

(** [MarshalTo] into a buffer of at least [MarshalSize] bytes writes what
    [Marshal] allocates, reports its length, and leaves the rest of the buffer. *)
Theorem MarshalTo_correct d dst data :
  DataPayload_Marshal d = Some data → length (dp_Token d) = 16%nat →
  (MarshalSize d ≤ length dst)%nat →
  MarshalTo (E:=perr) d dst = Ok (data ++ drop (MarshalSize d) dst, MarshalSize d).
Proof.
  intros Hm Ht Hlen. pose proof Hm as Hm'. unfold DataPayload_Marshal in Hm'. unfold MarshalTo.
  destruct (To4 (dp_SrcIP d)) as [s4|] eqn:H1; [|done].
  destruct (To4 (dp_DstIP d)) as [d4|] eqn:H2; [|done]. clear Hm'.
  rewrite (DataPayload_Marshal_eq _ _ _ H1 H2 Ht) in Hm. simplify_eq.
  apply To4_length in H1, H2. unfold MarshalSize, data_wire, DataHeaderLen, DataTokenLen in *.
  destruct (Nat.ltb_spec (length dst) 10); [destruct (has_token _); lia|]. cbn zeta.
  change (copy_at dst 0 s4) with (copy_at ([] ++ dst) 0 s4).
  destruct (has_token (dp_Flags d)); repeat (first
    [rewrite (copy_at_app []) by (rewrite ?length_drop; lens)
    |rewrite copy_at_app by (rewrite ?length_drop; lens)
    |rewrite insert_at_app by (rewrite ?length_drop; lens)]); cbn [app];
  match goal with |- context [(?a <? ?b)%nat] => destruct (Nat.ltb_spec a b) as [Hx|_];
    [exfalso; revert Hx; rewrite ?length_app, ?length_drop; lens|] end;
  f_equal; f_equal; rewrite ?drop_drop, <- ?app_assoc; cbn [app];
  rewrite ?length_app; cbn [Datatypes.length]; rewrite ?length_app, ?length_drop;
  cbn [Datatypes.length]; try lia.
  all: rewrite <- ?app_assoc; repeat (match goal with |- ?a ++ _ = ?a ++ _ => f_equal | |- ?a :: _ = ?a :: _ => f_equal end).
  all: match goal with |- drop ?a _ = drop ?b _ => replace a with b; [done|lens] | _ => idtac end.
Qed.

Lemma MarshalTo_correct_witness :
  let d := mkData [x0a; x15; x00; x02] [x0a; x15; x00; x03] x00 x02 (replicate 16 x07) (str "ip") in
  ∃ data, DataPayload_Marshal d = Some data ∧
    MarshalTo (E:=perr) d (replicate 30 xff) = Ok (data ++ drop 28 (replicate 30 xff), 28%nat).
Proof.
  eexists. split; [reflexivity|].
  apply (MarshalTo_correct (mkData [x0a; x15; x00; x02] [x0a; x15; x00; x03] x00 x02
    (replicate 16 x07) (str "ip")) (replicate 30 xff)); vm_compute; try reflexivity. lia.
Defined.

(** ** Rebind *)

Record RebindPayload := mkRebind { rb_VirtualIP : IP; rb_HMAC : list byte }.

Definition RebindPayload_Marshal (r : RebindPayload) : option (list byte) :=
  match To4 (rb_VirtualIP r) with
  | Some vip =>
      let hmacLen := length (rb_HMAC r) in
      let buf := zeros (4 + 2 + hmacLen) in
      let buf := copy_at buf 0 vip in
      let buf := copy_at buf 4 (put_le 2 (Z.of_nat hmacLen)) in
      Some (copy_at buf 6 (rb_HMAC r))
  | None => None
  end.

Definition UnmarshalRebind (data : list byte) : go perr RebindPayload :=
  if (length data <? 6)%nat then Err ErrPacketTooShort else
  vip ← slice data 0 4;
  hmacLen ← u16_at data 4;
  if (length data <? 6 + hmacLen)%nat then Err ErrPacketTooShort else
  if (1 <=? hmacLen)%nat then
    h ← slice data 6 (6 + hmacLen);
    mret (mkRebind vip (copy_into (zeros hmacLen) h))
  else mret (mkRebind vip []).

(** [Success] as one byte. *)
Definition RebindAckPayload_Marshal (success : bool) : list byte :=
  if success then [x01] else [x00].

Definition UnmarshalRebindAck (data : list byte) : go perr bool :=
  if (length data <? 1)%nat then Err ErrPacketTooShort else
  b ← index data 0; mret (bool_decide (b = x01)).

Lemma RebindPayload_Marshal_eq r vip :
  To4 (rb_VirtualIP r) = Some vip →
  RebindPayload_Marshal r = Some (vip ++ len16 (rb_HMAC r) ++ rb_HMAC r).
Proof.
  intros H. unfold RebindPayload_Marshal. rewrite H. apply To4_length in H. cbn zeta.
  fold (len16 (rb_HMAC r)).
  rewrite <- (app_nil_l (zeros _)). rewrite !copy_at_zeros by lens. f_equal.
  replace (_ - length (rb_HMAC r))%nat with 0%nat by lens. cbn [zeros replicate app].
  by rewrite app_nil_r, <- app_assoc.
Qed.

Lemma UnmarshalRebind_no_panic data : no_panic (UnmarshalRebind data).
Proof. unfold no_panic, UnmarshalRebind. go_run; done. Qed.

Lemma UnmarshalRebindAck_no_panic data : no_panic (UnmarshalRebindAck data).
Proof. unfold no_panic, UnmarshalRebindAck. go_run; done. Qed.

Theorem Rebind_roundtrip r vip :
  To4 (rb_VirtualIP r) = Some vip → Z.of_nat (length (rb_HMAC r)) < 65536 →
  ∃ data, RebindPayload_Marshal r = Some data ∧
          UnmarshalRebind data = Ok (mkRebind vip (rb_HMAC r)).
Proof.
  intros H Hh. eexists. split; [by apply RebindPayload_Marshal_eq|]. apply To4_length in H.
  unfold UnmarshalRebind. len_guard. read. read. len_guard.
  destruct (Nat.leb_spec 1 (length (rb_HMAC r))) as [Hl|Hl].
  - read. by rewrite copy_into_exact by lens.
  - destruct (rb_HMAC r); [done|simpl in Hl; lia].
Qed.

Lemma RebindAck_roundtrip b : UnmarshalRebindAck (RebindAckPayload_Marshal b) = Ok b.
Proof. by destruct b. Qed.
