(* ===== verification/MessagesPeer.v ===== *)
(** * MessagesPeer: peer lists and NAT probes

    src/internal/protocol/messages_peer.go and messages_nat.go. *)

From S2P Require Import Prelude GoNet Crc32 Protocol Messages.

(** ** NAT types *)

Definition NATTypeUnknown : byte := x00.
Definition NATTypeFullCone : byte := x01.
Definition NATTypeRestrictedCone : byte := x02.
Definition NATTypePortRestricted : byte := x03.
Definition NATTypeSymmetric : byte := x04.
Definition NATTypeNoNAT : byte := x05.

(** ** Address text *)

Definition AddrStrLen (addr : UDPAddr) : Z :=
  match To4 (ua_IP addr) with
  | Some _ =>
      let n := 4 + 3 + 1 in
      let p := ua_Port addr in
      let n := if 10 <=? p then n + 1 else n in
      let n := if 100 <=? p then n + 1 else n in
      let n := if 1000 <=? p then n + 1 else n in
      if 10000 <=? p then n + 1 else n
  | None => Z.of_nat (length (UDPAddr_String addr))
  end.

Definition AppendAddrStr (buf : list byte) (addr : UDPAddr) : list byte :=
  match To4 (ua_IP addr) with
  | Some ip4 =>
      let octet i := itoa (b2z (nth i ip4 x00)) in
      let buf := buf ++ octet 0%nat in
      let buf := buf ++ [c_dot] in
      let buf := buf ++ octet 1%nat in
      let buf := buf ++ [c_dot] in
      let buf := buf ++ octet 2%nat in
      let buf := buf ++ [c_dot] in
      let buf := buf ++ octet 3%nat in
      let buf := buf ++ [c_colon] in
      buf ++ itoa (ua_Port addr)
  | None =>
      let buf := buf ++ [c_lbr] in
      let buf := buf ++ IP_String (ua_IP addr) in
      let buf := buf ++ [c_rbr; c_colon] in
      buf ++ itoa (ua_Port addr)
  end.

(** ** Peer lists *)

Record PeerInfoEntry := mkPeer {
  pe_VirtualIP : IP; pe_PublicAddr : option UDPAddr; pe_Username : list byte; pe_NATType : byte }.

(** [byte(n), byte(n>>8)]. *)
Definition two_bytes (n : nat) : list byte := [z2b (Z.of_nat n); z2b (Z.shiftr (Z.of_nat n) 8)].

(** The filtering loop of Marshal.  [valid] is [p.Peers[:0]], so appending to it
    overwrites the array the loop is reading; [arr] is that array, [i] the loop
    index, [nv] the length of [valid]. *)
Record FilterState := mkFilter {
  fs_arr : list PeerInfoEntry; fs_valid : nat; fs_total : Z; fs_hasNATInfo : bool }.

Definition filter_step (st : FilterState) (i : nat) : FilterState :=
  match fs_arr st !! i with
  | None => st
  | Some peer =>
      match To4 (pe_VirtualIP peer) with
      | None => st
      | Some _ =>
          let total := fs_total st + 4 + 2 in
          let total := match pe_PublicAddr peer with
                       | Some a => total + AddrStrLen a | None => total end in
          let total := total + 2 + Z.of_nat (length (pe_Username peer)) in
          mkFilter (<[fs_valid st := peer]> (fs_arr st)) (S (fs_valid st)) total
            (fs_hasNATInfo st || negb (bool_decide (pe_NATType peer = x00)))
      end
  end.

Definition filter_peers (peers : list PeerInfoEntry) : FilterState :=
  foldl filter_step (mkFilter peers 0 2 false) (seq 0 (length peers)).

(** One iteration of the writing loop. *)
Definition append_peer (buf : list byte) (peer : PeerInfoEntry) : list byte :=
  let buf := buf ++ default [] (To4 (pe_VirtualIP peer)) in
  let addrStart := length buf in
  let buf := buf ++ [x00; x00] in
  let buf := match pe_PublicAddr peer with
             | Some a => AppendAddrStr buf a | None => buf end in
  let addrLen := (length buf - addrStart - 2)%nat in
  let buf := <[addrStart := z2b (Z.of_nat addrLen)]> buf in
  let buf := <[(addrStart + 1)%nat := z2b (Z.shiftr (Z.of_nat addrLen) 8)]> buf in
  let userStart := length buf in
  let buf := buf ++ [x00; x00] in
  let buf := buf ++ pe_Username peer in
  let userLen := (length buf - userStart - 2)%nat in
  let buf := <[userStart := z2b (Z.of_nat userLen)]> buf in
  <[(userStart + 1)%nat := z2b (Z.shiftr (Z.of_nat userLen) 8)]> buf.

(** The encoded list, and the array of [p.Peers] after the call. *)
Definition PeerInfoPayload_Marshal (peers : list PeerInfoEntry) : list byte * list PeerInfoEntry :=
  let st := filter_peers peers in
  let valid := take (fs_valid st) (fs_arr st) in
  let buf := two_bytes (length valid) in
  let buf := foldl append_peer buf valid in
  let buf := if fs_hasNATInfo st
             then foldl (fun b p => b ++ [pe_NATType p]) buf valid else buf in
  (buf, fs_arr st).

(** The textual address of an entry; malformed text leaves it nil. *)
Definition parse_peer_addr (addrStr : list byte) : option UDPAddr :=
  '(host, portStr) ← SplitHostPort addrStr;
  port ← Atoi portStr;
  ip ← ParseIP host;
  Some (mkUDPAddr ip port []).

(** [n] iterations of the reading loop; returns the entries and the offset. *)
Fixpoint read_peers (n : nat) (data : list byte) (off : nat) (acc : list PeerInfoEntry)
    : go perr (list PeerInfoEntry * nat) :=
  match n with
  | O => Ok (acc, off)
  | S n =>
      if (length data <? off + 4 + 2)%nat then Err ErrPacketTooShort else
      vip ← slice data off (off + 4);
      let off := (off + 4)%nat in
      addrLen ← u16_at data off;
      let off := (off + 2)%nat in
      if (length data <? off + addrLen + 2)%nat then Err ErrPacketTooShort else
      addrStr ← slice data off (off + addrLen);
      let off := (off + addrLen)%nat in
      let pubAddr := match addrStr with [] => None | _ => parse_peer_addr addrStr end in
      userLen ← u16_at data off;
      let off := (off + 2)%nat in
      if (length data <? off + userLen)%nat then Err ErrPacketTooShort else
      username ← slice data off (off + userLen);
      let off := (off + userLen)%nat in
      read_peers n data off (acc ++ [mkPeer vip pubAddr username NATTypeUnknown])
  end.

(** [for i := 0; i < count && i < natLen; i++]. *)
Fixpoint set_nat_types (peers : list PeerInfoEntry) (types : list byte) : list PeerInfoEntry :=
  match peers, types with
  | p :: peers, t :: types =>
      mkPeer (pe_VirtualIP p) (pe_PublicAddr p) (pe_Username p) t :: set_nat_types peers types
  | peers, _ => peers
  end.

Definition UnmarshalPeerInfo (data : list byte) : go perr (list PeerInfoEntry) :=
  if (length data <? 2)%nat then Err ErrPacketTooShort else
  count ← u16_at data 0;
  if (256 <? count)%nat then Err ErrTooManyPeers else
  '(peers, off) ← read_peers count data 2 [];
  if (off <? length data)%nat then
    types ← slice data off (length data); mret (set_nat_types peers types)
  else mret peers.

(** ** NAT probe and response *)

Definition NATProbePayload_Marshal (probeID : byte) : list byte := [probeID].

Definition UnmarshalNATProbe (data : list byte) : go perr byte :=
  if (length data <? 1)%nat then Err ErrPacketTooShort else index data 0.

Record NATResponsePayload := mkNATResponse {
  nr_ProbeID : byte; nr_NATType : byte;
  nr_ObservedAddr : option UDPAddr; nr_AltAddr : option UDPAddr }.

Definition addrBytes (addr : option UDPAddr) : list byte :=
  match addr with None => [] | Some a => AppendAddrStr [] a end.

Definition parseAddrBytes `{NetResolver} (data : list byte) : option UDPAddr :=
  match data with [] => None | _ => ResolveUDPAddr data end.

Definition NATResponsePayload_Marshal (r : NATResponsePayload) : list byte :=
  let observed := addrBytes (nr_ObservedAddr r) in
  let alt := addrBytes (nr_AltAddr r) in
  let buf := zeros (1 + 1 + 2 + length observed + 2 + length alt) in
  let buf := <[0%nat := nr_ProbeID r]> buf in
  let buf := <[1%nat := nr_NATType r]> buf in
  let off := 2%nat in
  let buf := copy_at buf off (len16 observed) in
  let off := (off + 2)%nat in
  let buf := copy_at buf off observed in
  let off := (off + length observed)%nat in
  let buf := copy_at buf off (len16 alt) in
  copy_at buf (off + 2) alt.

Definition UnmarshalNATResponse `{NetResolver} (data : list byte) : go perr NATResponsePayload :=
  if (length data <? 4)%nat then Err ErrPacketTooShort else
  probeID ← index data 0;
  natType ← index data 1;
  let off := 2%nat in
  addrLen ← u16_at data off;
  let off := (off + 2)%nat in
  if (length data <? off + addrLen + 2)%nat then Err ErrPacketTooShort else
  observed ← slice data off (off + addrLen);
  let off := (off + addrLen)%nat in
  altLen ← u16_at data off;
  let off := (off + 2)%nat in
  if (length data <? off + altLen)%nat then Err ErrPacketTooShort else
  alt ← (if (1 <=? altLen)%nat
         then a ← slice data off (off + altLen); mret (parseAddrBytes a)
         else mret None);
  mret (mkNATResponse probeID natType (parseAddrBytes observed) alt).

(** ** The in-place filter *)

Definition is_v4 (p : PeerInfoEntry) : bool := bool_decide (is_Some (To4 (pe_VirtualIP p))).
Definition v4_peers (l : list PeerInfoEntry) : list PeerInfoEntry := List.filter is_v4 l.
Definition has_nat (l : list PeerInfoEntry) : bool :=
  existsb (fun p => negb (bool_decide (pe_NATType p = x00))) l.

(** What the loop has established after its first [i] iterations. *)
Record filter_inv (peers : list PeerInfoEntry) (i : nat) (st : FilterState) : Prop := {
  fi_valid : take (fs_valid st) (fs_arr st) = v4_peers (take i peers);
  fi_rest : drop i (fs_arr st) = drop i peers;
  fi_le : (fs_valid st ≤ i)%nat;
  fi_len : length (fs_arr st) = length peers;
  fi_nat : fs_hasNATInfo st = has_nat (v4_peers (take i peers)) }.

Lemma filter_step_inv peers i st :
  (i < length peers)%nat → filter_inv peers i st → filter_inv peers (S i) (filter_step st i).
Proof.
  intros Hi [Hv Hr Hle Hlen Hn].
  destruct (lookup_lt_is_Some_2 peers i Hi) as [p Hp].
  assert (fs_arr st !! i = Some p) as Ha.
  { replace i with (i + 0)%nat by lia. rewrite <- lookup_drop, Hr, lookup_drop.
    by rewrite Nat.add_0_r. }
  assert (∀ arr, drop i arr = drop i peers → drop (S i) arr = drop (S i) peers) as HS.
  { intros arr H. rewrite <- (Nat.add_1_r i), <- !drop_drop. by rewrite H. }
  assert (v4_peers (take (S i) peers) = v4_peers (take i peers) ++ (if is_v4 p then [p] else []))
    as HT.
  { unfold v4_peers. rewrite (take_S_r peers i p Hp), List.filter_app. cbn [List.filter].
    by destruct (is_v4 p). }
  unfold filter_step. rewrite Ha. unfold is_v4 in HT.
  destruct (To4 (pe_VirtualIP p)) as [v|] eqn:E.
  - rewrite bool_decide_eq_true_2 in HT by eauto.
    split; cbn [fs_arr fs_valid fs_hasNATInfo]; rewrite ?HT.
    + rewrite (take_S_r _ _ p) by (rewrite list_lookup_insert_eq; [done|lia]).
      rewrite take_insert_ge by lia. by rewrite Hv.
    + rewrite drop_insert_lt by lia. by apply HS.
    + lia.
    + by rewrite length_insert.
    + rewrite Hn. unfold has_nat. rewrite existsb_app. cbn. by rewrite orb_false_r.
  - rewrite bool_decide_eq_false_2, app_nil_r in HT by (intros [? ?]; done).
    split; rewrite ?HT; auto with lia.
Qed.

Lemma filter_peers_inv peers : filter_inv peers (length peers) (filter_peers peers).
Proof.
  unfold filter_peers.
  enough (∀ k, (k ≤ length peers)%nat →
    filter_inv peers k (foldl filter_step (mkFilter peers 0 2 false) (seq 0 k))) by auto.
  induction k as [|k IH]; intros Hk.
  - split; cbn; try done. all: by rewrite ?drop_0.
  - rewrite seq_S, foldl_app. cbn. apply filter_step_inv; [lia|]. apply IH. lia.
Qed.

Lemma filter_peers_valid peers :
  take (fs_valid (filter_peers peers)) (fs_arr (filter_peers peers)) = v4_peers peers ∧
  fs_hasNATInfo (filter_peers peers) = has_nat (v4_peers peers).
Proof.
  destruct (filter_peers_inv peers) as [Hv _ _ _ Hn]. rewrite firstn_all in *. done.
Qed.

(** ** The bytes of a peer list *)

Lemma AppendAddrStr_app buf a : AppendAddrStr buf a = buf ++ AppendAddrStr [] a.
Proof. unfold AppendAddrStr. destruct (To4 (ua_IP a)); by rewrite <- ?app_assoc. Qed.

Definition peer_wire (p : PeerInfoEntry) : list byte :=
  default [] (To4 (pe_VirtualIP p)) ++ len16 (addrBytes (pe_PublicAddr p))
  ++ addrBytes (pe_PublicAddr p) ++ len16 (pe_Username p) ++ pe_Username p.

(** length written over its placeholder. *)
Lemma patch_length (p : list byte) (s : list byte) :
  let buf := p ++ [x00; x00] ++ s in
  <[(length p + 1)%nat := z2b (Z.shiftr (Z.of_nat (length buf - length p - 2)) 8)]>
    (<[length p := z2b (Z.of_nat (length buf - length p - 2))]> buf)
  = p ++ len16 s ++ s.
Proof.
  cbn zeta. replace (length (p ++ [x00; x00] ++ s) - length p - 2)%nat with (length s) by lens.
  rewrite insert_app_r_alt by lia. rewrite Nat.sub_diag.
  rewrite insert_app_r_alt by lia. by replace (length p + 1 - length p)%nat with 1%nat by lia.
Qed.

Lemma append_peer_eq buf p : append_peer buf p = buf ++ peer_wire p.
Proof.
  unfold append_peer, peer_wire. cbn zeta.
  set (b0 := buf ++ default [] (To4 (pe_VirtualIP p))).
  assert ((match pe_PublicAddr p with
           | Some a => AppendAddrStr (b0 ++ [x00; x00]) a | None => b0 ++ [x00; x00] end)
          = b0 ++ [x00; x00] ++ addrBytes (pe_PublicAddr p)) as ->.
  { destruct (pe_PublicAddr p) as [a|]; cbn [addrBytes].
    - by rewrite AppendAddrStr_app, <- app_assoc.
    - by rewrite app_nil_r. }
  rewrite patch_length.
  rewrite <- (app_assoc _ [x00; x00]). rewrite patch_length.
  unfold b0. by rewrite <- !app_assoc.
Qed.

Lemma foldl_append {A} (f : A → list byte) l buf :
  foldl (fun b x => b ++ f x) buf l = buf ++ concat (map f l).
Proof.
  revert buf. induction l as [|x l IH]; intros buf; cbn; [by rewrite app_nil_r|].
  by rewrite IH, <- app_assoc.
Qed.

Lemma foldl_append_peer l buf : foldl append_peer buf l = buf ++ concat (map peer_wire l).
Proof.
  revert buf. induction l as [|x l IH]; intros buf; cbn; [by rewrite app_nil_r|].
  by rewrite append_peer_eq, IH, <- app_assoc.
Qed.

Lemma PeerInfoPayload_Marshal_eq peers :
  fst (PeerInfoPayload_Marshal peers)
  = put_le 2 (Z.of_nat (length (v4_peers peers))) ++ concat (map peer_wire (v4_peers peers))
    ++ (if has_nat (v4_peers peers) then map pe_NATType (v4_peers peers) else []).
Proof.
  unfold PeerInfoPayload_Marshal. destruct (filter_peers_valid peers) as [-> ->]. cbn [fst].
  rewrite foldl_append_peer. destruct (has_nat _).
  - rewrite (foldl_append (fun p => [pe_NATType p])). rewrite <- app_assoc. do 2 f_equal.
    generalize (v4_peers peers) as l. intros l. induction l as [|x l IH]; cbn; [done|]. by rewrite IH.
  - by rewrite app_nil_r.
Qed.

(** ** Well-formed peers *)

Definition v4_addr (a : UDPAddr) : Prop := is_Some (To4 (ua_IP a)) ∧ 0 ≤ ua_Port a < 65536.

(** [net.ParseIP] gives the 16-byte form of an IPv4 address. *)
Definition norm_addr (a : UDPAddr) : UDPAddr :=
  mkUDPAddr (v4in6_prefix ++ default [] (To4 (ua_IP a))) (ua_Port a) [].

Definition peer_ok (p : PeerInfoEntry) : Prop :=
  is_Some (To4 (pe_VirtualIP p)) ∧
  (∀ a, pe_PublicAddr p = Some a → v4_addr a) ∧
  Z.of_nat (length (pe_Username p)) < 65536.

(** The entry as it is decoded. *)
Definition norm_peer (p : PeerInfoEntry) : PeerInfoEntry :=
  mkPeer (default [] (To4 (pe_VirtualIP p))) (norm_addr <$> pe_PublicAddr p)
         (pe_Username p) (pe_NATType p).
Definition untyped (p : PeerInfoEntry) : PeerInfoEntry :=
  mkPeer (pe_VirtualIP p) (pe_PublicAddr p) (pe_Username p) NATTypeUnknown.

Lemma AppendAddrStr_v4 a b1 b2 b3 b4 :
  To4 (ua_IP a) = Some [b1; b2; b3; b4] →
  AppendAddrStr [] a = v4_string [b1; b2; b3; b4] ++ [c_colon] ++ itoa (ua_Port a).
Proof. intros H. unfold AppendAddrStr. rewrite H. cbn [nth app]. unfold v4_string. rewrite <- !app_assoc. done. Qed.

Lemma parse_peer_addr_string a : v4_addr a → parse_peer_addr (AppendAddrStr [] a) = Some (norm_addr a).
Proof.
  intros [[v Hv] Hp]. destruct (To4_quad _ _ Hv) as (b1 & b2 & b3 & b4 & ->).
  rewrite (AppendAddrStr_v4 _ _ _ _ _ Hv). unfold parse_peer_addr.
  rewrite SplitHostPort_v4 by lia. cbn [mbind option_bind].
  rewrite Atoi_itoa by lia. cbn [mbind option_bind]. rewrite ParseIP_v4_string.
  unfold norm_addr. by rewrite Hv.
Qed.

Lemma AppendAddrStr_ne a : v4_addr a → AppendAddrStr [] a ≠ [].
Proof.
  intros [[v Hv] _] H. destruct (To4_quad _ _ Hv) as (b1 & b2 & b3 & b4 & ->).
  rewrite (AppendAddrStr_v4 _ _ _ _ _ Hv) in H. apply app_eq_nil in H as [H _].
  revert H. apply itoa_ne. pose proof (b2z_range b1). lia.
Qed.

Lemma length_digits_fuel f n : (length (digits_fuel f n []) ≤ f)%nat.
Proof.
  revert n. induction f as [|f IH]; intros n; cbn [digits_fuel]; [done|].
  destruct (n / 10 =? 0); [simpl; lia|]. rewrite digits_fuel_app, length_app.
  specialize (IH (n / 10)). simpl. lia.
Qed.

Lemma length_itoa n : 0 ≤ n → (length (itoa n) ≤ 20)%nat.
Proof. intros H. unfold itoa. destruct (Z.ltb_spec n 0); [lia|]. apply length_digits_fuel. Qed.

Lemma length_AppendAddrStr a : v4_addr a → (length (AppendAddrStr [] a) ≤ 104)%nat.
Proof.
  intros [[v Hv] Hp]. destruct (To4_quad _ _ Hv) as (b1 & b2 & b3 & b4 & ->).
  rewrite (AppendAddrStr_v4 _ _ _ _ _ Hv). unfold v4_string. rewrite !length_app.
  pose proof (length_itoa (b2z b1)). pose proof (length_itoa (b2z b2)).
  pose proof (length_itoa (b2z b3)). pose proof (length_itoa (b2z b4)).
  pose proof (length_itoa (ua_Port a)).
  pose proof (b2z_range b1). pose proof (b2z_range b2). pose proof (b2z_range b3).
  pose proof (b2z_range b4). cbn [Datatypes.length]. lia.
Qed.

Lemma length_addrBytes (o : option UDPAddr) :
  (∀ a, o = Some a → v4_addr a) → Z.of_nat (length (addrBytes o)) < 65536.
Proof.
  intros H. destruct o as [a|]; cbn [addrBytes]; [|simpl; lia].
  pose proof (length_AppendAddrStr a (H a eq_refl)). lia.
Qed.

Lemma addr_text_back (o : option UDPAddr) :
  (∀ a, o = Some a → v4_addr a) →
  match addrBytes o with [] => None | _ => parse_peer_addr (addrBytes o) end = norm_addr <$> o.
Proof.
  intros H. destruct o as [a|]; cbn [addrBytes fmap option_fmap option_map]; [|done].
  specialize (H a eq_refl). pose proof (AppendAddrStr_ne a H).
  rewrite parse_peer_addr_string by done. by destruct (AppendAddrStr [] a).
Qed.

(** ** Reading the list back *)

Lemma read_peers_wire l p tail acc off :
  off = length p → Forall peer_ok l →
  read_peers (length l) (p ++ concat (map peer_wire l) ++ tail) off acc
  = Ok (acc ++ map (untyped ∘ norm_peer) l, (off + length (concat (map peer_wire l)))%nat).
Proof.
  intros -> Hl. revert p acc. induction Hl as [|x l (Hv & Ha & Hu) Hl IH]; intros p acc.
  - cbn. by rewrite app_nil_r, Nat.add_0_r.
  - destruct Hv as [v Hv]. pose proof (To4_length _ _ Hv) as Hv4.
    pose proof (length_addrBytes _ Ha) as Hal.
    set (ab := addrBytes (pe_PublicAddr x)) in *.
    assert (peer_wire x = v ++ len16 ab ++ ab ++ len16 (pe_Username x) ++ pe_Username x) as Hpw
      by (unfold peer_wire; rewrite Hv; done).
    cbn [Datatypes.length map concat]. rewrite <- (app_assoc (peer_wire x)).
    set (rest := concat (map peer_wire l) ++ tail).
    rewrite (length_app (peer_wire x)), Hpw, <- !app_assoc. cbn [read_peers].
    len_guard. read. read. len_guard. read. read. len_guard. read.
    unfold ab. rewrite addr_text_back by done. fold ab.
    replace (p ++ v ++ len16 ab ++ ab ++ len16 (pe_Username x) ++ pe_Username x ++ rest)
      with ((p ++ v ++ len16 ab ++ ab ++ len16 (pe_Username x) ++ pe_Username x) ++ rest)
      by (by rewrite <- !app_assoc).
    replace (length p + 4 + 2 + _ + 2 + _)%nat
      with (length (p ++ v ++ len16 ab ++ ab ++ len16 (pe_Username x) ++ pe_Username x)) by lens.
    unfold rest. rewrite IH. do 2 f_equal.
    + rewrite <- app_assoc. unfold norm_peer, untyped. cbn. by rewrite Hv.
    + lens.
Qed.

Lemma set_nat_types_spec l :
  set_nat_types (map (untyped ∘ norm_peer) l) (map pe_NATType l) = map norm_peer l.
Proof. induction l as [|x l IH]; cbn; [done|]. by rewrite IH. Qed.

Lemma untyped_unknown l : has_nat l = false → map (untyped ∘ norm_peer) l = map norm_peer l.
Proof.
  induction l as [|x l IH]; cbn; [done|]. intros [Hx Hl]%orb_false_iff.
  rewrite IH by done. f_equal. apply negb_false_iff, bool_decide_eq_true_1 in Hx.
  unfold untyped, norm_peer. cbn. by rewrite Hx.
Qed.

(** The list a client decodes is the list the server encoded, without the
    entries whose virtual address is not IPv4 (the encoder filters its argument
    in place while it reads it), with addresses in the form [net.ParseIP] gives
    them and every NAT type in place, for up to 256 peers. *)
Theorem PeerInfo_roundtrip peers :
  Forall peer_ok (v4_peers peers) → (length (v4_peers peers) ≤ 256)%nat →
  UnmarshalPeerInfo (fst (PeerInfoPayload_Marshal peers)) = Ok (map norm_peer (v4_peers peers)).
Proof.
  intros Hok Hlen. rewrite PeerInfoPayload_Marshal_eq. set (l := v4_peers peers) in *.
  unfold UnmarshalPeerInfo. len_guard.
  rewrite u16_here. cbn [mbind go_bind]. rewrite Z.mod_small by lia. rewrite Nat2Z.id.
  destruct (Nat.ltb_spec 256 (length l)); [lia|].
  rewrite (read_peers_wire l (put_le 2 _)) by (done || lens).
  cbn [mbind go_bind app]. set (off := (2 + length (concat (map peer_wire l)))%nat).
  destruct (has_nat l) eqn:Hn.
  - assert (0 < length l)%nat by (destruct l; [done|simpl; lia]).
    match goal with |- context [(?a <? ?b)%nat] => destruct (Nat.ltb_spec a b) as [_|Hx] end.
    + unfold off. rewrite !slice_skip by lens. rewrite slice_all by (rewrite ?length_app, ?length_map; lens).
      cbn [mbind go_bind]. by rewrite set_nat_types_spec.
    + exfalso. revert Hx. unfold off. rewrite !length_app, length_map. lens.
  - match goal with |- context [(?a <? ?b)%nat] => destruct (Nat.ltb_spec a b) as [Hx|_] end.
    + exfalso. revert Hx. unfold off. rewrite app_nil_r. lens.
    + by rewrite untyped_unknown.
Qed.

Definition sample_peers : list PeerInfoEntry :=
  [ mkPeer [x0a; x15; x00; x02] (Some (mkUDPAddr [xcb; x00; x71; x05] 40001 [])) (str "alice") NATTypeSymmetric;
    mkPeer (zeros 16) None (str "v6") NATTypeUnknown;
    mkPeer (IPv4 x0a x15 x00 x03) None (str "bob") NATTypeUnknown ].

Lemma PeerInfo_roundtrip_witness :
  Forall peer_ok (v4_peers sample_peers) ∧ length (v4_peers sample_peers) = 2%nat ∧
  UnmarshalPeerInfo (fst (PeerInfoPayload_Marshal sample_peers)) = Ok (map norm_peer (v4_peers sample_peers)).
Proof.
  assert (Forall peer_ok (v4_peers sample_peers)).
  { let l := eval vm_compute in (v4_peers sample_peers) in
      change (v4_peers sample_peers) with l.
    apply Forall_cons_2; [|apply Forall_cons_2; [|done]]; (split; [by eexists|split; [|cbn; lia]]);
      intros a Ha; cbn in Ha; [|done].
    injection Ha as <-. split; [by eexists|cbn; lia]. }
  split; [done|]. split; [reflexivity|]. apply PeerInfo_roundtrip; [done|]. vm_compute. lia.
Defined.

(** ** Totality of the decoders *)

Lemma read_peers_no_panic n data off acc :
  (off ≤ length data)%nat →
  no_panic (read_peers n data off acc) ∧
  ∀ l o, read_peers n data off acc = Ok (l, o) → (o ≤ length data)%nat.
Proof.
  revert off acc. induction n as [|n IH]; intros off acc Ho; cbn [read_peers].
  - split; [done|]. intros l o ?. by simplify_eq.
  - unfold no_panic. go_run; try (split; [done|]; intros; discriminate). apply IH. lia.
Qed.

Lemma UnmarshalPeerInfo_no_panic data : no_panic (UnmarshalPeerInfo data).
Proof.
  unfold no_panic, UnmarshalPeerInfo. go_run; try done.
  match goal with |- context [read_peers ?n ?d ?o ?a] =>
    destruct (read_peers_no_panic n d o a) as [Hp Ho]; [lia|];
    destruct (read_peers n d o a) as [[l off]| |]; try done end.
  cbn [mbind go_bind]. specialize (Ho _ _ eq_refl). go_run; done.
Qed.

Lemma UnmarshalNATProbe_no_panic data : no_panic (UnmarshalNATProbe data).
Proof. unfold no_panic, UnmarshalNATProbe. go_run; done. Qed.

Lemma UnmarshalNATResponse_no_panic `{NetResolver} data : no_panic (UnmarshalNATResponse data).
Proof. unfold no_panic, UnmarshalNATResponse. go_run; done. Qed.

(** ** NAT response round trip *)

Lemma parse_port_itoa n : 0 ≤ n < 65536 → parse_port (itoa n) = Some n.
Proof.
  intros Hn. destruct (itoa_nonneg n) as (Hv & Hall & Hne); [lia|].
  assert (∀ l acc v, Forall (fun b => is_digit b = true) l → 0 ≤ acc →
    digits_val l acc = Some v → v < 65536 → parse_port_digits l acc = Some v ∧ acc ≤ v) as Hd.
  { induction l as [|b l IH]; intros acc v Hl Hacc; cbn [digits_val parse_port_digits].
    - intros [= ->] ?. split; [done|lia].
    - apply Forall_cons_1 in Hl as [Hb Hl]. rewrite Hb. intros Hdv Hlt.
      assert (0 ≤ digit_val b) as Hb0 by (unfold is_digit, digit_val in *; lia).
      destruct (IH (acc * 10 + digit_val b) v Hl) as [E Hle]; [lia|done|done|].
      destruct (Z.leb_spec (2 ^ 30) acc); [lia|]. split; [done|lia]. }
  destruct (Hd _ _ _ Hall (Z.le_refl 0) Hv) as [E _]; [lia|]. unfold parse_port.
  destruct (itoa n) as [|b l]; [done|]. apply Forall_cons_1 in Hall as [Hb _].
  rewrite !bool_decide_eq_false_2 by (by apply is_digit_not).
  rewrite E. cbn. destruct (Z.leb_spec (2 ^ 30) n); [lia|done].
Qed.

Lemma ResolveUDPAddr_string `{NetResolver} a :
  v4_addr a → ResolveUDPAddr (AppendAddrStr [] a) = Some (norm_addr a).
Proof.
  intros [[v Hv] Hp]. destruct (To4_quad _ _ Hv) as (b1 & b2 & b3 & b4 & ->).
  rewrite (AppendAddrStr_v4 _ _ _ _ _ Hv). unfold ResolveUDPAddr.
  rewrite SplitHostPort_v4 by lia. cbn [mbind option_bind].
  rewrite parse_port_itoa by lia. cbn [mbind option_bind].
  destruct (Z.ltb_spec (ua_Port a) 0); [lia|]. destruct (Z.ltb_spec 65535 (ua_Port a)); [lia|].
  cbn [orb]. destruct (v4_string [b1; b2; b3; b4]) as [|c s] eqn:Es.
  - exfalso. revert Es. apply itoa_ne. pose proof (b2z_range b1). lia.
  - rewrite <- Es, ParseAddr_v4_string. unfold norm_addr. by rewrite Hv.
Qed.

Lemma parseAddrBytes_addrBytes `{NetResolver} (o : option UDPAddr) :
  (∀ a, o = Some a → v4_addr a) → parseAddrBytes (addrBytes o) = norm_addr <$> o.
Proof.
  intros Ho. destruct o as [a|]; cbn [addrBytes]; [|done]. specialize (Ho a eq_refl).
  unfold parseAddrBytes. rewrite ResolveUDPAddr_string by done.
  pose proof (AppendAddrStr_ne a Ho). by destruct (AppendAddrStr [] a).
Qed.

Lemma NATResponsePayload_Marshal_eq r :
  NATResponsePayload_Marshal r
  = [nr_ProbeID r] ++ [nr_NATType r] ++ len16 (addrBytes (nr_ObservedAddr r))
    ++ addrBytes (nr_ObservedAddr r) ++ len16 (addrBytes (nr_AltAddr r)) ++ addrBytes (nr_AltAddr r).
Proof.
  unfold NATResponsePayload_Marshal. cbn zeta. rewrite <- (app_nil_l (zeros _)).
  rewrite (insert_zeros []) by lens. cbn [app].
  change (nr_ProbeID r :: zeros ?n) with ([nr_ProbeID r] ++ zeros n).
  rewrite insert_zeros by lens. rewrite !copy_at_zeros by lens.
  replace (_ - length (addrBytes (nr_AltAddr r)))%nat with 0%nat by lens.
  cbn [zeros replicate]. by rewrite app_nil_r, <- !app_assoc.
Qed.

Theorem NATResponse_roundtrip `{NetResolver} r :
  (∀ a, nr_ObservedAddr r = Some a → v4_addr a) → (∀ a, nr_AltAddr r = Some a → v4_addr a) →
  UnmarshalNATResponse (NATResponsePayload_Marshal r)
  = Ok (mkNATResponse (nr_ProbeID r) (nr_NATType r)
         (norm_addr <$> nr_ObservedAddr r) (norm_addr <$> nr_AltAddr r)).
Proof.
  intros Ho Ha. rewrite NATResponsePayload_Marshal_eq. unfold UnmarshalNATResponse.
  pose proof (length_addrBytes _ Ho). pose proof (length_addrBytes _ Ha).
  len_guard.
  change (index ([nr_ProbeID r] ++ ?x) 0) with (Ok (E:=perr) (nr_ProbeID r)).
  change (index ([nr_ProbeID r] ++ [nr_NATType r] ++ ?x) 1) with (Ok (E:=perr) (nr_NATType r)).
  cbn [mbind go_bind]. read. len_guard. read. read. len_guard.
  rewrite parseAddrBytes_addrBytes by done.
  destruct (Nat.leb_spec 1 (length (addrBytes (nr_AltAddr r)))) as [Hl|Hl].
  - read. by rewrite parseAddrBytes_addrBytes by done.
  - cbn. destruct (nr_AltAddr r) as [a|]; [|done]. exfalso. cbn [addrBytes] in Hl.
    pose proof (AppendAddrStr_ne a (Ha a eq_refl)). destruct (AppendAddrStr [] a); [done|simpl in Hl; lia].
Qed.

Lemma digits_val_bound l acc v :
  Forall (fun b => is_digit b = true) l → 0 ≤ acc → digits_val l acc = Some v →
  v < (acc + 1) * 10 ^ Z.of_nat (length l).
Proof.
  intros Hl. revert acc. induction Hl as [|b l Hb Hl IH]; intros acc Hacc; cbn [digits_val].
  - intros [= ->]. cbn. lia.
  - rewrite Hb. assert (0 ≤ digit_val b < 10) as Hd by (unfold is_digit, digit_val in *; lia).
    intros Hv. apply IH in Hv; [|lia]. cbn [Datatypes.length].
    replace (Z.of_nat (S (length l))) with (1 + Z.of_nat (length l)) by lia.
    rewrite Z.pow_add_r by lia. pose proof (Z.pow_nonneg 10 (Z.of_nat (length l))). nia.
Qed.

Lemma length_itoa_lower n k :
  0 ≤ n < 2 ^ 63 → 0 ≤ k → 10 ^ k ≤ n → k + 1 ≤ Z.of_nat (length (itoa n)).
Proof.
  intros Hn Hk Hkn. destruct (itoa_nonneg n Hn) as (Hv & Hall & _).
  apply digits_val_bound in Hv; [|done|lia].
  assert (10 ^ k < 10 ^ Z.of_nat (length (itoa n))) as H by lia.
  apply Z.pow_lt_mono_r_iff in H; lia.
Qed.

(** AddrStrLen is documented to return the byte length of "ip:port"; for
    IPv4 it counts one digit per octet and none for a one-digit port, so it is
    a lower bound of the length and not its value.  It is only used to size
    buffers that grow on demand. *)
Theorem AddrStrLen_lower_bound a :
  v4_addr a → AddrStrLen a < Z.of_nat (length (AppendAddrStr [] a)).
Proof.
  intros [[v Hv] Hp]. destruct (To4_quad _ _ Hv) as (b1 & b2 & b3 & b4 & ->).
  rewrite (AppendAddrStr_v4 _ _ _ _ _ Hv). unfold AddrStrLen. rewrite Hv.
  assert (∀ n, 0 ≤ n < 2 ^ 63 → (1 ≤ length (itoa n))%nat) as Hpos.
  { intros n Hn. destruct (itoa_nonneg n Hn) as (_ & _ & Hne). destruct (itoa n); [done|simpl; lia]. }
  pose proof (Hpos (ua_Port a)) as Hp0.
  pose proof (length_itoa_lower (ua_Port a) 1). pose proof (length_itoa_lower (ua_Port a) 2).
  pose proof (length_itoa_lower (ua_Port a) 3). pose proof (length_itoa_lower (ua_Port a) 4).
  pose proof (Hpos (b2z b1)). pose proof (Hpos (b2z b2)). pose proof (Hpos (b2z b3)).
  pose proof (Hpos (b2z b4)). pose proof (b2z_range b1). pose proof (b2z_range b2).
  pose proof (b2z_range b3). pose proof (b2z_range b4).
  unfold v4_string. rewrite !length_app. cbn [Datatypes.length].
  destruct (Z.leb_spec 10 (ua_Port a)), (Z.leb_spec 100 (ua_Port a)),
    (Z.leb_spec 1000 (ua_Port a)), (Z.leb_spec 10000 (ua_Port a)); lia.
Qed.

Lemma AddrStrLen_lower_bound_witness :
  let a := mkUDPAddr [x01; x02; x03; x04] 5 [] in
  v4_addr a ∧ AddrStrLen a = 8 ∧ AppendAddrStr [] a = str "1.2.3.4:5" ∧
  AddrStrLen a < Z.of_nat (length (AppendAddrStr [] a)).
Proof.
  assert (v4_addr (mkUDPAddr [x01; x02; x03; x04] 5 [])) by (split; [by eexists|cbn; lia]).
  split; [done|]. split; [reflexivity|]. split; [vm_compute; reflexivity|].
  by apply AddrStrLen_lower_bound.
Defined.
