(* ===== verification/NetUtil.v ===== *)
(** * NetUtil: map keys, relay targets, TCP framing, packet buffers

    src/internal/netutil and src/internal/pool. *)

From S2P Require Import Prelude GoNet Crc32 Protocol Messages.

(** ** Keys *)

(** [[16]byte] map keys. *)
Definition ipkey : Type := list byte.

Definition IPKey (ip : IP) : ipkey :=
  if (length ip =? 4)%nat then
    let k := zeros 16 in
    let k := <[10%nat := xff]> k in
    let k := <[11%nat := xff]> k in
    copy_at k 12 ip
  else copy_into (zeros 16) ip.

Definition IPKey4 (ip : list byte) : ipkey :=
  let k := zeros 16 in
  let k := <[10%nat := xff]> k in
  let k := <[11%nat := xff]> k in
  copy_at k 12 ip.

Record RateKey := mkRateKey { rk_IP : list byte; rk_Port : Z }.
#[export] Instance RateKey_eq_dec : EqDecision RateKey.
Proof. solve_decision. Defined.
#[export] Program Instance RateKey_countable : Countable RateKey :=
  inj_countable' (fun k => (rk_IP k, rk_Port k)) (fun p => mkRateKey (fst p) (snd p)) _.
Next Obligation. by intros []. Qed.

Definition AddrToRateKey (addr : UDPAddr) : RateKey :=
  let k := zeros 16 in
  let k := if (length (ua_IP addr) =? 4)%nat then
             let k := <[10%nat := xff]> k in
             let k := <[11%nat := xff]> k in
             copy_at k 12 (ua_IP addr)
           else copy_into k (ua_IP addr) in
  mkRateKey k (u16 (ua_Port addr)).

(** ** Broadcast targets *)

(** [dst] is a [[4]byte]; [subnet] may be nil; indexing the mask panics when it
    is shorter than four bytes. *)
Definition IsRelayTargetRaw {E} (dst : list byte) (subnet : option IPNet) : go E bool :=
  if bool_decide (dst = [xff; xff; xff; xff]) then Ok true else
  let multicast := let d0 := b2z (nth 0 dst x00) in (224 <=? d0) && (d0 <=? 239) in
  match subnet with
  | None => Ok multicast
  | Some n =>
      match To4 (net_IP n) with
      | None => Ok multicast
      | Some subIP =>
          m0 ← index (net_Mask n) 0; m1 ← index (net_Mask n) 1;
          m2 ← index (net_Mask n) 2; m3 ← index (net_Mask n) 3;
          let bcast := zip_with (fun s m => byte_or s (byte_not m)) subIP [m0; m1; m2; m3] in
          if bool_decide (dst = bcast) then Ok true else Ok multicast
      end
  end.

(** ** TCP framing

    A connection is the byte stream written to it; the receiver holds what is
    left of the stream.  [tcp_room] is how many bytes the connection still takes
    before writing to it fails, [None] when it never does. *)

Inductive tcp_err := TCPClosed | TCPTooLarge | TCPWrite | TCPReadHeader | TCPBadLength | TCPReadData.

Record TCPTransport := mkTCP {
  tcp_out : list byte; tcp_in : list byte; tcp_closed : bool; tcp_room : option nat }.

(** [net.Buffers.WriteTo]: the bytes that reach the connection, the room left, and
    whether all of them did. *)
Definition conn_write (room : option nat) (bs : list byte) : list byte * option nat * bool :=
  match room with
  | None => (bs, None, true)
  | Some n => (take n bs, Some (n - length bs)%nat, (length bs <=? n)%nat)
  end.

(** TCPTransport.Send: its error, and the transport, which a failed write may leave with
    a part of the frame. *)
Definition TCP_Send (t : TCPTransport) (data : list byte) : option tcp_err * TCPTransport :=
  if tcp_closed t then (Some TCPClosed, t) else
  if (65535 <? Z.of_nat (length data)) then (Some TCPTooLarge, t) else
  let header := put_le 2 (Z.of_nat (length data)) in
  let '(written, room, ok) := conn_write (tcp_room t) (header ++ data) in
  (if ok then None else Some TCPWrite, mkTCP (tcp_out t ++ written) (tcp_in t) false room).

(** [io.ReadFull]: exactly [n] bytes or an error. *)
Definition ReadFull (e : tcp_err) (s : list byte) (n : nat) : go tcp_err (list byte * list byte) :=
  if (length s <? n)%nat then Err e else Ok (take n s, drop n s).

Definition TCP_Receive (t : TCPTransport) : go tcp_err (list byte * TCPTransport) :=
  if tcp_closed t then Err TCPClosed else
  '(header, s) ← ReadFull TCPReadHeader (tcp_in t) 2;
  let len := Z.to_nat (get_le header) in
  if (len =? 0)%nat || (65535 <? Z.of_nat len) then Err TCPBadLength else
  '(buf, s) ← ReadFull TCPReadData s len;
  Ok (buf, mkTCP (tcp_out t) s (tcp_closed t) (tcp_room t)).

Definition TCP_Close (t : TCPTransport) : TCPTransport :=
  if tcp_closed t then t else mkTCP (tcp_out t) (tcp_in t) true (tcp_room t).

(** UDPTCPBridge.ReceiveLoop: the packets handed to the handler, in order, and
    the error that ends the loop.  The stream shrinks at every packet, so its
    length is enough fuel. *)
Fixpoint ReceiveLoop (fuel : nat) (t : TCPTransport) : list (list byte) * option tcp_err :=
  match fuel with
  | O => ([], None)
  | S fuel =>
      match TCP_Receive t with
      | Ok (data, t) => let '(l, e) := ReceiveLoop fuel t in (data :: l, e)
      | Err e => ([], Some e)
      | Panic => ([], None)
      end
  end.

(** ** Packet buffer pools *)

Definition size_classes : list Z := [512; 2048; 16384; 65535].

(** The four pools: the recycled buffers each holds. *)
Abbreviation pktPools := (list (list (list byte))).

(** [sync.Pool.Get]: a recycled buffer, or a new one of the class size. *)
Definition pool_get (cls : Z) (p : list (list byte)) : list byte * list (list byte) :=
  match p with b :: p => (b, p) | [] => (zeros (Z.to_nat cls), []) end.

Definition PktBufGet (pools : pktPools) (n : Z) : list byte * pktPools :=
  let from (idx : nat) :=
    let '(b, p) := pool_get (nth idx size_classes 0) (nth idx pools []) in
    (b, <[idx := p]> pools) in
  if n <=? 512 then from 0%nat
  else if n <=? 2048 then from 1%nat
  else if n <=? 16384 then from 2%nat
  else if n <=? 65535 then from 3%nat
  else (zeros (Z.to_nat n), pools).

(** [buf] is given by its whole backing array. *)
Definition PktBufPut (pools : pktPools) (buf : list byte) : pktPools :=
  let put (idx : nat) := <[idx := buf :: nth idx pools []]> pools in
  let c := Z.of_nat (length buf) in
  if c =? 512 then put 0%nat
  else if c =? 2048 then put 1%nat
  else if c =? 16384 then put 2%nat
  else if c =? 65535 then put 3%nat
  else pools.

(** ** Keys: facts *)

Lemma IPKey_v4 ip : length ip = 4%nat → IPKey ip = v4in6_prefix ++ ip.
Proof. intros H. unfold IPKey. rewrite H. by destruct ip as [|a [|b [|c [|d [|]]]]]. Qed.

Lemma IPKey_v16 ip : length ip = 16%nat → IPKey ip = ip.
Proof.
  intros H. unfold IPKey. rewrite H. apply copy_into_exact. by rewrite length_zeros.
Qed.

(** The 4-byte and the 16-byte form of an IPv4 address have one key. *)
Lemma IPKey_To4 ip v : To4 ip = Some v → IPKey ip = v4in6_prefix ++ v.
Proof.
  intros H. pose proof (To4_length _ _ H) as Hl. unfold To4 in H.
  destruct (Nat.eqb_spec (length ip) 4); [simplify_eq; by apply IPKey_v4|].
  destruct (Nat.eqb_spec (length ip) 16) as [H16|]; cbn [andb] in H; [|done].
  case_bool_decide as E; [|done]. simplify_eq. rewrite IPKey_v16 by done.
  rewrite <- E. by rewrite take_drop.
Qed.

Lemma IPKey4_IPKey ip : length ip = 4%nat → IPKey4 ip = IPKey ip.
Proof. intros H. unfold IPKey, IPKey4. by rewrite H. Qed.

Lemma IPKey_inj_v4 ip1 ip2 v1 v2 :
  To4 ip1 = Some v1 → To4 ip2 = Some v2 → IPKey ip1 = IPKey ip2 → v1 = v2.
Proof. intros H1 H2. rewrite (IPKey_To4 _ _ H1), (IPKey_To4 _ _ H2). apply app_inv_head. Qed.

Lemma AddrToRateKey_IP addr : rk_IP (AddrToRateKey addr) = IPKey (ua_IP addr).
Proof. unfold AddrToRateKey, IPKey. by destruct (_ =? _)%nat. Qed.

(** ** Broadcast targets: specification *)

Lemma byte_or_low s : byte_or s (byte_not xff) = s.
Proof. unfold byte_or, byte_not. change (Z.lor _ _) with (Z.lor (b2z s) 0). rewrite Z.lor_0_r. apply z2b_b2z. Qed.

Lemma byte_or_high s : byte_or s (byte_not x00) = xff.
Proof. destruct s; reflexivity. Qed.

(** In a /24 subnet the relay fans a packet out to every peer exactly when
    its destination is the limited broadcast address, the broadcast address of
    the subnet or a multicast address; the mask accesses are in range. *)
Theorem IsRelayTargetRaw_spec net a b c d dst :
  To4 (net_IP net) = Some [a; b; c; d] → net_Mask net = [xff; xff; xff; x00] → length dst = 4%nat →
  IsRelayTargetRaw (E:=perr) dst (Some net)
  = Ok (bool_decide (dst = [xff; xff; xff; xff] ∨ dst = [a; b; c; xff] ∨
                     224 ≤ b2z (nth 0 dst x00) ≤ 239)).
Proof.
  intros Hip Hm Hd. destruct dst as [|d0 [|d1 [|d2 [|d3 [|]]]]]; try discriminate. clear Hd.
  unfold IsRelayTargetRaw. rewrite Hip, Hm. cbn [index lookup list_lookup mbind go_bind nth].
  cbn [zip_with]. rewrite !byte_or_low, byte_or_high.
  assert ((224 <=? b2z d0) && (b2z d0 <=? 239) = bool_decide (224 ≤ b2z d0 ≤ 239)) as ->.
  { apply eq_true_iff_eq. rewrite andb_true_iff, bool_decide_eq_true, !Z.leb_le. done. }
  destruct (decide ([d0; d1; d2; d3] = [xff; xff; xff; xff])) as [E|E].
  { rewrite (bool_decide_eq_true_2 _ E). f_equal. symmetry. apply bool_decide_eq_true_2. by left. }
  rewrite (bool_decide_eq_false_2 _ E).
  destruct (decide ([d0; d1; d2; d3] = [a; b; c; xff])) as [E2|E2].
  { rewrite (bool_decide_eq_true_2 _ E2). f_equal. symmetry. apply bool_decide_eq_true_2. by right; left. }
  rewrite (bool_decide_eq_false_2 _ E2). f_equal. apply bool_decide_ext. naive_solver.
Qed.

Lemma IsRelayTargetRaw_spec_witness :
  let net := mkIPNet (IPv4 x0a x0a x00 x00) [xff; xff; xff; x00] in
  IsRelayTargetRaw (E:=perr) [x0a; x0a; x00; xff] (Some net) = Ok true.
Proof.
  cbv zeta. rewrite (IsRelayTargetRaw_spec _ x0a x0a x00 x00); reflexivity.
Defined.

(** ** TCP framing: specification *)

(** The stream of a list of packets. *)
Definition frames (ps : list (list byte)) : list byte := concat (map (fun p => len16 p ++ p) ps).

Definition frame_ok (p : list byte) : Prop := 0 < Z.of_nat (length p) ≤ 65535.

(** Sending a list of packets, stopping at the first error. *)
Fixpoint send_all (t : TCPTransport) (ps : list (list byte)) : go tcp_err TCPTransport :=
  match ps with
  | [] => Ok t
  | p :: ps => match TCP_Send t p with (None, t) => send_all t ps | (Some e, _) => Err e end
  end.

(** Two writes in a row are one write. *)
Lemma conn_write_app room a b :
  let '(wa, room1, _) := conn_write room a in
  let '(wb, room2, _) := conn_write room1 b in
  fst (conn_write room (a ++ b)) = (wa ++ wb, room2).
Proof.
  destruct room as [n|]; cbn [conn_write fst]; [|done]. rewrite take_app, length_app. by rewrite Nat.sub_add_distr.
Qed.

Lemma send_all_frames ps out inp :
  Forall frame_ok ps →
  send_all (mkTCP out inp false None) ps = Ok (mkTCP (out ++ frames ps) inp false None).
Proof.
  intros H. revert out. induction H as [|p ps [_ Hp] Hps IH]; intros out; cbn [send_all frames map concat].
  - by rewrite app_nil_r.
  - unfold TCP_Send. cbn [tcp_closed tcp_out tcp_in]. destruct (Z.ltb_spec 65535 (Z.of_nat (length p))); [lia|].
    cbn [conn_write tcp_room]. rewrite IH. unfold len16, frames. by rewrite <- !app_assoc.
Qed.

(** Whatever the connection takes, when every Send succeeds all frames are written. *)
Lemma send_all_ok ps t t' :
  Forall frame_ok ps → send_all t ps = Ok t' → tcp_closed t = false → tcp_out t' = tcp_out t ++ frames ps.
Proof.
  intros H. revert t. induction H as [|p ps [_ Hp] Hps IH]; intros t; cbn [send_all frames map concat].
  { intros [= <-] _. by rewrite app_nil_r. }
  intros Hs Hc. unfold TCP_Send in Hs. rewrite Hc in Hs. destruct (Z.ltb_spec 65535 (Z.of_nat (length p))); [lia|].
  destruct (conn_write _ _) as [[w r] ok] eqn:Ew. destruct ok; [|done]. apply IH in Hs as ->; [|done]. cbn [tcp_out].
  assert (w = len16 p ++ p) as ->.
  { fold (len16 p) in Ew. set (bs := len16 p ++ p) in *. unfold conn_write in Ew.
    destruct (tcp_room t) as [n|]; [|by injection Ew]. destruct (Nat.leb_spec (length bs) n) as [Hl|]; [|done].
    injection Ew as <- <-. by rewrite take_ge. }
  unfold frames. by rewrite <- !app_assoc.
Qed.

Lemma TCP_Receive_frame p rest out room :
  frame_ok p →
  TCP_Receive (mkTCP out ((len16 p ++ p) ++ rest) false room) = Ok (p, mkTCP out rest false room).
Proof.
  intros Hp. unfold frame_ok in Hp. unfold TCP_Receive, ReadFull. cbn [tcp_closed tcp_in tcp_out tcp_room].
  rewrite <- app_assoc. len_guard. cbn [mbind go_bind].
  rewrite take_app_length' by lens. rewrite drop_app_length' by lens.
  rewrite get_len16 by lia. destruct (Nat.eqb_spec (length p) 0) as [E|_]; [rewrite E in Hp; lia|].
  destruct (Z.ltb_spec 65535 (Z.of_nat (length p))); [lia|]. cbn [orb].
  len_guard. cbn [mbind go_bind]. by rewrite take_app_length, drop_app_length.
Qed.

(** TCP fallback transport: whatever list of packets one end sends, the
    receive loop of the other end hands exactly these packets, in order, to its
    handler, and then waits for (here: fails on) the end of the stream. *)
Theorem TCP_framing_roundtrip ps :
  Forall frame_ok ps →
  ∃ t, send_all (mkTCP [] [] false None) ps = Ok t ∧
    ∀ fuel, (length ps < fuel)%nat →
      ReceiveLoop fuel (mkTCP [] (tcp_out t) false None) = (ps, Some TCPReadHeader).
Proof.
  intros H. rewrite send_all_frames by done. eexists. split; [done|]. cbn [tcp_out app].
  induction H as [|p ps Hp Hps IH]; intros fuel Hf; (destruct fuel as [|fuel]; [simpl in Hf; lia|]).
  - done.
  - cbn [ReceiveLoop]. unfold frames. cbn [map concat]. rewrite TCP_Receive_frame by done.
    fold (frames ps). rewrite IH by (simpl in Hf; lia). done.
Qed.

Lemma TCP_framing_roundtrip_witness :
  ∃ t, send_all (mkTCP [] [] false None) [str "one"; str "second"] = Ok t ∧
    ∀ fuel, (2 < fuel)%nat →
      ReceiveLoop fuel (mkTCP [] (tcp_out t) false None) = ([str "one"; str "second"], Some TCPReadHeader).
Proof.
  apply (TCP_framing_roundtrip [str "one"; str "second"]).
  repeat (apply Forall_cons_2; [cbv; split; congruence|]). done.
Defined.

(** The one packet Send accepts and Receive rejects. *)
Lemma empty_packet_breaks_stream out :
  ∃ t, TCP_Send (mkTCP out [] false None) [] = (None, t) ∧
       TCP_Receive (mkTCP [] (drop (length out) (tcp_out t)) false None) = Err TCPBadLength.
Proof. eexists. split; [done|]. cbn [tcp_out]. by rewrite drop_app_length. Qed.

(** ** Packet buffers: specification *)

Definition pools_ok (pools : pktPools) : Prop :=
  length pools = 4%nat ∧
  ∀ i b, (i < 4)%nat → b ∈ nth i pools [] → Z.of_nat (length b) = nth i size_classes 0.

Lemma pools_ok_insert pools i l :
  pools_ok pools → (i < 4)%nat →
  (∀ b, b ∈ l → Z.of_nat (length b) = nth i size_classes 0) →
  pools_ok (<[i := l]> pools).
Proof.
  intros [Hl Hp] Hi Hb. split; [by rewrite length_insert|]. intros j b Hj Hin.
  rewrite nth_lookup in Hin. destruct (decide (i = j)) as [->|Hij].
  - rewrite list_lookup_insert_eq in Hin by lia. by apply Hb.
  - rewrite list_lookup_insert_ne in Hin by done. rewrite <- nth_lookup in Hin. by apply Hp.
Qed.

Lemma pool_get_ok pools i b p :
  pools_ok pools → (i < 4)%nat → pool_get (nth i size_classes 0) (nth i pools []) = (b, p) →
  Z.of_nat (length b) = nth i size_classes 0 ∧ pools_ok (<[i := p]> pools).
Proof.
  intros Hok Hi Hg. destruct (nth i pools []) as [|b' p'] eqn:E; simpl in Hg; simplify_eq.
  - rewrite length_zeros. split.
    + do 4 (destruct i as [|i]; [done|]). lia.
    + apply pools_ok_insert; [done|done|]. intros b Hb. by apply not_elem_of_nil in Hb.
  - split.
    + apply Hok; [done|]. rewrite E. constructor.
    + apply pools_ok_insert; [done|done|]. intros b' Hb'. apply Hok; [done|]. rewrite E. by constructor.
Qed.

(** A pooled packet buffer always has room for the packet it was requested
    for, and the pools keep holding only buffers of their own size class,
    whatever buffers callers hand back. *)
Theorem PktBuf_sound pools n back :
  pools_ok pools →
  n ≤ Z.of_nat (length (fst (PktBufGet pools n))) ∧
  pools_ok (snd (PktBufGet pools n)) ∧ pools_ok (PktBufPut pools back).
Proof.
  intros Hok.
  assert (∀ i, (i < 4)%nat → ∀ b p, pool_get (nth i size_classes 0) (nth i pools []) = (b, p) →
    Z.of_nat (length b) = nth i size_classes 0 ∧ pools_ok (<[i := p]> pools)) as Hget
    by (intros; by apply pool_get_ok).
  assert (∀ i, (i < 4)%nat → Z.of_nat (length back) = nth i size_classes 0 →
    pools_ok (<[i := back :: nth i pools []]> pools)) as Hput.
  { intros i Hi Hb. apply pools_ok_insert; [done..|].
    intros b [->|Hin]%elem_of_cons; [done|by apply Hok]. }
  pose proof (Hget 0%nat ltac:(lia)). pose proof (Hget 1%nat ltac:(lia)).
  pose proof (Hget 2%nat ltac:(lia)). pose proof (Hget 3%nat ltac:(lia)).
  pose proof (Hput 0%nat ltac:(lia)). pose proof (Hput 1%nat ltac:(lia)).
  pose proof (Hput 2%nat ltac:(lia)). pose proof (Hput 3%nat ltac:(lia)).
  cbn [nth size_classes] in *. clear Hget Hput.
  assert (n ≤ Z.of_nat (length (fst (PktBufGet pools n))) ∧ pools_ok (snd (PktBufGet pools n))) as [? ?].
  { unfold PktBufGet. cbn [nth size_classes].
    assert (∀ i cls, n ≤ cls →
      (∀ b p, pool_get cls (nth i pools []) = (b, p) →
         Z.of_nat (length b) = cls ∧ pools_ok (<[i := p]> pools)) →
      let r := let '(b, p) := pool_get cls (nth i pools []) in (b, <[i := p]> pools) in
      n ≤ Z.of_nat (length (fst r)) ∧ pools_ok (snd r)) as Hcls.
    { intros i cls Hn Hg. destruct (pool_get cls (nth i pools [])) as [b p].
      destruct (Hg b p eq_refl) as [Hb Hp]. cbn [fst snd]. split; [lia|done]. }
    destruct (Z.leb_spec n 512); [by apply Hcls|]. destruct (Z.leb_spec n 2048); [by apply Hcls|].
    destruct (Z.leb_spec n 16384); [by apply Hcls|]. destruct (Z.leb_spec n 65535); [by apply Hcls|].
    cbn [fst snd]. rewrite length_zeros. split; [lia|done]. }
  split_and!; [done|done|]. unfold PktBufPut.
  destruct (Z.eqb_spec (Z.of_nat (length back)) 512); [auto|].
  destruct (Z.eqb_spec (Z.of_nat (length back)) 2048); [auto|].
  destruct (Z.eqb_spec (Z.of_nat (length back)) 16384); [auto|].
  destruct (Z.eqb_spec (Z.of_nat (length back)) 65535); auto.
Qed.

Lemma PktBuf_sound_witness :
  let pools := [[]; []; []; []] in
  pools_ok pools ∧ 1500 ≤ Z.of_nat (length (fst (PktBufGet pools 1500))).
Proof.
  assert (pools_ok [[]; []; []; []]).
  { split; [done|]. intros i b Hi Hin. exfalso. revert Hin.
    do 4 (destruct i as [|i]; [apply not_elem_of_nil|]). lia. }
  split; [done|]. by apply (PktBuf_sound [[]; []; []; []] 1500 []).
Defined.
