(* ===== verification/RateLimit.v ===== *)
(** * RateLimit: packet rate limiting

    src/internal/server/ratelimit.go.  Counters live in two maps that are
    swapped once per second; the same double buffer counts registrations in
    room.go. *)

From S2P Require Import Prelude GoNet Crc32 Protocol Messages NetUtil.

(** ** A double-buffered counter *)

Section double_buffer.
Context {K : Type} `{Countable K}.

(** [buf[0]] is active, [buf[1]] stale. *)
Record DoubleBuf := mkDoubleBuf { buf0 : gmap K Z; buf1 : gmap K Z }.

Definition buf_empty : DoubleBuf := mkDoubleBuf ∅ ∅.
Definition count_of (d : DoubleBuf) (k : K) : Z := default 0 (buf0 d !! k).

(** [buf[0][key]++; ok := buf[0][key] <= limit]. *)
Definition hit (limit : Z) (d : DoubleBuf) (k : K) : bool * DoubleBuf :=
  let n := count_of d k + 1 in
  (n <=? limit, mkDoubleBuf (<[k := n]> (buf0 d)) (buf1 d)).

(** [buf[0], buf[1] = buf[1], buf[0]; clear(buf[1])]. *)
Definition swap_clear (d : DoubleBuf) : DoubleBuf :=
  let d := mkDoubleBuf (buf1 d) (buf0 d) in
  mkDoubleBuf (buf0 d) ∅.

(** What happens to one buffer: a hit on a key, or the tick. *)
Inductive buf_op := Hit (k : K) | Tick.

Definition buf_step (limit : Z) (d : DoubleBuf) (o : buf_op) : DoubleBuf :=
  match o with Hit k => snd (hit limit d k) | Tick => swap_clear d end.
Definition buf_run (limit : Z) (d : DoubleBuf) (l : list buf_op) : DoubleBuf :=
  foldl (buf_step limit) d l.

(** Hits of [k] since the last tick of a trace. *)
Fixpoint hits_since_tick (k : K) (l : list buf_op) (acc : Z) : Z :=
  match l with
  | [] => acc
  | Hit k' :: l => hits_since_tick k l (if bool_decide (k = k') then acc + 1 else acc)
  | Tick :: l => hits_since_tick k l 0
  end.

Lemma count_hit limit d k k' :
  count_of (snd (hit limit d k')) k = if bool_decide (k = k') then count_of d k + 1 else count_of d k.
Proof.
  unfold count_of at 1, hit. cbn [snd buf0]. case_bool_decide as E.
  - subst. by rewrite lookup_insert_eq.
  - by rewrite lookup_insert_ne by congruence.
Qed.

(** The stale buffer is empty whenever no tick is in progress, so a tick resets
    every counter. *)
Lemma buf_run_inv limit l d k :
  buf1 d = ∅ →
  buf1 (buf_run limit d l) = ∅ ∧ count_of (buf_run limit d l) k = hits_since_tick k l (count_of d k).
Proof.
  revert d. induction l as [|[k'|] l IH]; intros d Hd; cbn [buf_run foldl hits_since_tick].
  - done.
  - fold (buf_run limit (buf_step limit d (Hit k')) l). rewrite <- count_hit with (limit := limit).
    by apply IH.
  - fold (buf_run limit (buf_step limit d Tick) l).
    assert (count_of (buf_step limit d Tick) k = 0) as <-.
    { cbn. unfold count_of. cbn. by rewrite Hd. }
    by apply IH.
Qed.

Lemma hit_spec limit l k :
  fst (hit limit (buf_run limit buf_empty l) k) = (hits_since_tick k l 0 + 1 <=? limit).
Proof.
  destruct (buf_run_inv limit l buf_empty k eq_refl) as [_ Hc].
  unfold hit. cbn [fst]. rewrite Hc. by unfold count_of; cbn; rewrite lookup_empty.
Qed.
End double_buffer.
Arguments DoubleBuf K {_ _}.
Arguments buf_op : clear implicits.

(** ** The sharded limiter *)

Definition rateLimit : Z := 500.
Definition rateShardCount : nat := 16.

Abbreviation rateShards := (list (DoubleBuf RateKey)).

Definition newRateShardsArray : rateShards := replicate rateShardCount buf_empty.

(** FNV-1a over the address bytes, on 32 bits. *)
Definition fnv1a (l : list byte) : Z :=
  foldl (fun h b => u32 (Z.lxor h (b2z b) * 16777619)) 2166136261 l.

Definition shard (key : RateKey) : nat := Z.to_nat (fnv1a (rk_IP key) mod Z.of_nat rateShardCount).

Definition checkRate (s : rateShards) (addr : UDPAddr) : bool * rateShards :=
  let key := AddrToRateKey addr in
  match s !! shard key with
  | Some sh => let '(ok, sh) := hit rateLimit sh key in (ok, <[shard key := sh]> s)
  | None => (false, s)
  end.

(** One tick of rateLimitLoop. *)
Definition rateTick (s : rateShards) : rateShards := map swap_clear s.

Inductive rate_op := CheckRate (addr : UDPAddr) | RateTick.

Definition rate_step (s : rateShards) (o : rate_op) : rateShards :=
  match o with CheckRate a => snd (checkRate s a) | RateTick => rateTick s end.
Definition rate_run (l : list rate_op) : rateShards := foldl rate_step newRateShardsArray l.

(** Packets of the endpoint since the last tick. *)
Fixpoint packets_in_window (key : RateKey) (l : list rate_op) (acc : Z) : Z :=
  match l with
  | [] => acc
  | CheckRate a :: l =>
      packets_in_window key l (if bool_decide (key = AddrToRateKey a) then acc + 1 else acc)
  | RateTick :: l => packets_in_window key l 0
  end.

Lemma shard_lt key : (shard key < rateShardCount)%nat.
Proof.
  unfold shard. pose proof (Z.mod_pos_bound (fnv1a (rk_IP key)) (Z.of_nat rateShardCount) ltac:(done)).
  unfold rateShardCount in *. lia.
Qed.

(** Every shard is present with a clear stale buffer, and the counter of a key is
    the one of its own shard. *)
Definition shards_inv (s : rateShards) : Prop :=
  length s = rateShardCount ∧ ∀ i d, s !! i = Some d → buf1 d = ∅.

Definition shard_count (s : rateShards) (key : RateKey) : Z :=
  match s !! shard key with Some d => count_of d key | None => 0 end.

Lemma rate_step_inv s o key :
  shards_inv s →
  shards_inv (rate_step s o) ∧
  shard_count (rate_step s o) key
  = match o with
    | CheckRate a => if bool_decide (key = AddrToRateKey a) then shard_count s key + 1 else shard_count s key
    | RateTick => 0
    end.
Proof.
  intros [Hl Hs]. destruct o as [a|]; cbn [rate_step].
  - unfold checkRate. set (k := AddrToRateKey a).
    destruct (lookup_lt_is_Some_2 s (shard k)) as [d Hd]; [rewrite Hl; apply shard_lt|].
    rewrite Hd. destruct (hit rateLimit d k) as [ok d'] eqn:E. cbn [snd].
    assert (d' = snd (hit rateLimit d k)) as Hd' by (by rewrite E).
    split; [split|].
    + by rewrite length_insert.
    + intros i x Hx. destruct (decide (shard k = i)) as [<-|Hne].
      * rewrite list_lookup_insert_eq in Hx by (rewrite Hl; apply shard_lt). simplify_eq.
        cbn [hit snd buf1]. by eapply Hs.
      * rewrite list_lookup_insert_ne in Hx by done. by eapply Hs.
    + unfold shard_count. destruct (decide (shard k = shard key)) as [Hsh|Hne].
      * rewrite <- Hsh, list_lookup_insert_eq by (rewrite Hl; apply shard_lt).
        by rewrite Hd, Hd', count_hit.
      * rewrite list_lookup_insert_ne by done.
        rewrite bool_decide_eq_false_2 by congruence. done.
  - split; [split|].
    + unfold rateTick. by rewrite length_map.
    + intros i x. unfold rateTick. rewrite list_lookup_fmap, fmap_Some. intros (y & _ & ->). done.
    + unfold shard_count, rateTick. rewrite list_lookup_fmap.
      destruct (s !! shard key) as [d|] eqn:E; cbn [fmap option_fmap option_map]; [|done].
      unfold swap_clear, count_of. cbn. by rewrite (Hs _ _ E).
Qed.

Lemma rate_run_inv l key :
  shards_inv (rate_run l) ∧ shard_count (rate_run l) key = packets_in_window key l 0.
Proof.
  assert (∀ s, shards_inv s →
    shards_inv (foldl rate_step s l) ∧
    shard_count (foldl rate_step s l) key = packets_in_window key l (shard_count s key)) as Hgen.
  { induction l as [|o l IH]; intros s Hs; cbn [foldl packets_in_window]; [done|].
    destruct (rate_step_inv s o key Hs) as [Hs' Hc]. destruct (IH _ Hs') as [Hi Hcc].
    split; [done|]. rewrite Hcc, Hc. by destruct o. }
  assert (shards_inv newRateShardsArray) as H0.
  { split; [done|]. intros i d. unfold newRateShardsArray.
    intros [-> _]%lookup_replicate. done. }
  destruct (Hgen _ H0) as [Hi Hc]. split; [done|]. unfold rate_run. rewrite Hc. f_equal.
  unfold shard_count, newRateShardsArray. rewrite lookup_replicate_2 by apply shard_lt. done.
Qed.

(** C24: After any history of packets and ticks, a packet is accepted exactly when
    its endpoint has sent fewer than 500 since the last tick: shards and
    double buffers neither lose a count nor charge one endpoint for another. *)
Theorem checkRate_exact l addr :
  fst (checkRate (rate_run l) addr) = (packets_in_window (AddrToRateKey addr) l 0 <? rateLimit).
Proof.
  destruct (rate_run_inv l (AddrToRateKey addr)) as [[Hl _] Hc]. unfold checkRate.
  unfold shard_count in Hc.
  destruct (lookup_lt_is_Some_2 (rate_run l) (shard (AddrToRateKey addr))) as [d Hd];
    [rewrite Hl; apply shard_lt|].
  rewrite Hd in *. unfold hit. cbn [fst]. rewrite <- Hc.
  apply eq_true_iff_eq. rewrite Z.leb_le, Z.ltb_lt. lia.
Qed.
