(* ===== verification/Float64.v ===== *)
(** * Float64: the double-precision arithmetic of the bandwidth limiter

    Finite float64 values as rationals, with every operation rounded to the
    nearest value of 53 significant bits, ties to even.  The magnitudes used
    (byte rates below 2^63, times from a nanosecond to centuries) stay inside the
    normal range, so exponents are not bounded. *)

From S2P Require Import Prelude.
From Stdlib Require Export QArith.
#[global] Open Scope Z_scope.

(** Nearest integer to [n / d], ties to even. *)
Definition round_half_even (n d : Z) : Z :=
  let q := n / d in
  let r := n mod d in
  if 2 * r <? d then q
  else if d <? 2 * r then q + 1
  else if Z.even q then q else q + 1.

(** The binary exponent of [n / d], for positive [n] and [d]. *)
Definition exponent (n d : Z) : Z :=
  let k := Z.log2 n - Z.log2 d in
  if (if 0 <=? k then 2 ^ k * d <=? n else d <=? n * 2 ^ (- k)) then k else k - 1.

Definition rnd_pos (n d : Z) : Q :=
  let s := exponent n d - 52 in
  if 0 <=? s then inject_Z (round_half_even n (d * 2 ^ s) * 2 ^ s)
  else round_half_even (n * 2 ^ (- s)) d # Z.to_pos (2 ^ (- s)).

(** Rounding to float64. *)
Definition rnd (x : Q) : Q :=
  let n := Qnum x in
  let d := Z.pos (Qden x) in
  if n =? 0 then 0%Q
  else if 0 <? n then rnd_pos n d
  else Qopp (rnd_pos (- n) d).

Definition fadd (x y : Q) : Q := rnd (x + y).
Definition fsub (x y : Q) : Q := rnd (x - y).
Definition fmul (x y : Q) : Q := rnd (x * y).
Definition fdiv (x y : Q) : Q := rnd (x / y).
(** [float64(n)]. *)
Definition fint (n : Z) : Q := rnd (inject_Z n).

(** [x < y]. *)
Definition Qlt_bool (x y : Q) : bool := negb (Qle_bool y x).

Lemma Qlt_bool_iff x y : Qlt_bool x y = true ↔ (x < y)%Q.
Proof.
  unfold Qlt_bool. rewrite negb_true_iff. split; intros H.
  - apply Qnot_le_lt. intros Hle%Qle_bool_iff. congruence.
  - apply not_true_is_false. intros Hle%Qle_bool_iff. by apply Qlt_not_le in H.
Qed.

Lemma round_half_even_nonneg n d : 0 ≤ n → 0 < d → 0 ≤ round_half_even n d.
Proof.
  intros Hn Hd. unfold round_half_even. pose proof (Z.div_pos n d Hn Hd).
  repeat case_match; lia.
Qed.

Lemma round_half_even_exact q d : 0 < d → round_half_even (q * d) d = q.
Proof.
  intros Hd. unfold round_half_even. rewrite Z.div_mul, Z.mod_mul by lia.
  destruct (Z.ltb_spec (2 * 0) d); [done|lia].
Qed.

(** Twice the distance to the rounded value is at most the divisor. *)
Lemma round_half_even_error n d : 0 < d → Z.abs (2 * (round_half_even n d * d - n)) ≤ d.
Proof.
  intros Hd. unfold round_half_even.
  pose proof (Z.div_mod n d ltac:(lia)). pose proof (Z.mod_pos_bound n d Hd).
  destruct (Z.ltb_spec (2 * (n mod d)) d); [nia|].
  destruct (Z.ltb_spec d (2 * (n mod d))); [nia|]. case_match; nia.
Qed.

Lemma exponent_spec n d :
  0 < n → 0 < d →
  let e := exponent n d in
  if 0 <=? e then 2 ^ e * d ≤ n else d ≤ n * 2 ^ (- e).
Proof.
  intros Hn Hd. cbn zeta. unfold exponent.
  pose proof (Z.log2_spec n Hn) as [Hn1 Hn2]. pose proof (Z.log2_spec d Hd) as [Hd1 Hd2].
  pose proof (Z.log2_nonneg n). pose proof (Z.log2_nonneg d).
  set (ln := Z.log2 n) in *. set (ld := Z.log2 d) in *.
  rewrite Z.pow_succ_r in Hd2 by lia.
  destruct (Z.leb_spec 0 (ln - ld)) as [Hk|Hk].
  - destruct (Z.leb_spec (2 ^ (ln - ld) * d) n) as [Hle|Hle].
    + destruct (Z.leb_spec 0 (ln - ld)); [done|lia].
    + assert (2 ^ ln = 2 ^ (ln - ld) * 2 ^ ld) as E by (rewrite <- Z.pow_add_r by lia; f_equal; lia).
      pose proof (Z.pow_pos_nonneg 2 (ln - ld) ltac:(lia) Hk).
      destruct (Z.leb_spec 0 (ln - ld - 1)) as [Hk1|Hk1].
      * assert (2 ^ (ln - ld) = 2 * 2 ^ (ln - ld - 1)) as E2
          by (rewrite <- Z.pow_succ_r by lia; f_equal; lia). nia.
      * replace (ln - ld) with 0 in * by lia. change (2 ^ (- (0 - 1))) with 2. nia.
  - destruct (Z.leb_spec d (n * 2 ^ (- (ln - ld)))) as [Hle|Hle].
    + destruct (Z.leb_spec 0 (ln - ld)); [lia|done].
    + destruct (Z.leb_spec 0 (ln - ld - 1)); [lia|].
      assert (2 ^ ld = 2 ^ (- (ln - ld)) * 2 ^ ln) as E by (rewrite <- Z.pow_add_r by lia; f_equal; lia).
      replace (- (ln - ld - 1)) with (Z.succ (- (ln - ld))) by lia.
      rewrite Z.pow_succ_r by lia.
      pose proof (Z.pow_pos_nonneg 2 (- (ln - ld)) ltac:(lia) ltac:(lia)). nia.
Qed.

Lemma rnd_pos_nonneg n d : 0 < n → 0 < d → (0 <= rnd_pos n d)%Q.
Proof.
  intros Hn Hd. unfold rnd_pos.
  set (s := exponent _ _ - 52). destruct (Z.leb_spec 0 s) as [Hs|Hs].
  - unfold Qle, inject_Z. cbn [Qnum Qden].
    pose proof (Z.pow_pos_nonneg 2 s ltac:(lia) Hs).
    pose proof (round_half_even_nonneg n (d * 2 ^ s) ltac:(lia) ltac:(nia)). nia.
  - unfold Qle. cbn [Qnum Qden].
    pose proof (Z.pow_pos_nonneg 2 (- s) ltac:(lia) ltac:(lia)).
    pose proof (round_half_even_nonneg (n * 2 ^ (- s)) d ltac:(nia) ltac:(lia)). nia.
Qed.

Lemma rnd_nonneg x : (0 <= x)%Q → (0 <= rnd x)%Q.
Proof.
  intros Hx. assert (0 ≤ Qnum x) as Hn by (unfold Qle in Hx; simpl in Hx; lia).
  unfold rnd. destruct (Z.eqb_spec (Qnum x) 0); [done|].
  destruct (Z.ltb_spec 0 (Qnum x)); [|lia]. by apply rnd_pos_nonneg.
Qed.

Lemma rnd_nonpos x : (x <= 0)%Q → (rnd x <= 0)%Q.
Proof.
  intros Hx. assert (Qnum x ≤ 0) as Hn by (unfold Qle in Hx; simpl in Hx; lia).
  unfold rnd. destruct (Z.eqb_spec (Qnum x) 0); [done|].
  destruct (Z.ltb_spec 0 (Qnum x)); [lia|].
  apply (Qopp_le_compat 0). apply rnd_pos_nonneg; lia.
Qed.

Lemma rnd_0 : rnd 0 = 0%Q.
Proof. done. Qed.

(** Integers below 2^53 are exact. *)
Lemma fint_exact n : 0 ≤ n < 2 ^ 53 → (fint n == inject_Z n)%Q.
Proof.
  intros Hn. unfold fint, rnd. cbn [Qnum Qden inject_Z].
  destruct (Z.eqb_spec n 0) as [->|Hn0]; [done|]. destruct (Z.ltb_spec 0 n); [|lia].
  unfold rnd_pos.
  assert (exponent n 1 = Z.log2 n) as ->.
  { unfold exponent. change (Z.log2 1) with 0. rewrite Z.sub_0_r.
    pose proof (Z.log2_nonneg n). destruct (Z.leb_spec 0 (Z.log2 n)); [|lia].
    pose proof (Z.log2_spec n ltac:(lia)). destruct (Z.leb_spec (2 ^ Z.log2 n * 1) n); [done|lia]. }
  assert (Z.log2 n < 53) by (apply Z.log2_lt_pow2; lia).
  destruct (Z.leb_spec 0 (Z.log2 n - 52)) as [Hs|Hs].
  - replace (Z.log2 n - 52) with 0 by (pose proof (Z.log2_nonneg n); lia).
    change (1 * 2 ^ 0) with 1. rewrite <- (Z.mul_1_r n) at 1. rewrite round_half_even_exact by lia.
    by rewrite Z.mul_1_r.
  - rewrite <- (Z.mul_1_r (n * _)), round_half_even_exact by lia.
    unfold Qeq, inject_Z. cbn [Qnum Qden]. rewrite Z.mul_1_r.
    rewrite Z2Pos.id by (apply Z.pow_pos_nonneg; lia). done.
Qed.

(** ** Rounding error *)

(** Half a unit in the last of 53 places. *)
Definition eps : Q := 1 # (2 ^ 53).

Lemma Q_num_den x : (x == inject_Z (Qnum x) / inject_Z (Z.pos (Qden x)))%Q.
Proof. destruct x as [n d]. rewrite <- Qmake_Qdiv. reflexivity. Qed.

Lemma rnd_upper x : (0 <= x)%Q → (rnd x <= x * (1 + eps))%Q.
Proof.
  destruct x as [n d]. intros Hx. assert (0 ≤ n) as Hn by (unfold Qle in Hx; simpl in Hx; lia).
  unfold rnd. cbn [Qnum Qden]. destruct (Z.eqb_spec n 0) as [->|].
  { unfold Qle. cbn. lia. }
  destruct (Z.ltb_spec 0 n); [|lia].
  pose proof (exponent_spec n (Z.pos d) ltac:(lia) ltac:(lia)) as He. cbn zeta in He.
  unfold rnd_pos.
  set (e := exponent n (Z.pos d)) in *.
  assert (∀ R, R * Z.pos d * 2 ^ 53 ≤ n * (2 ^ 53 + 1) → (inject_Z R <= (n # d) * (1 + eps))%Q) as Hint.
  { intros R HR. unfold Qle, eps. cbn. change (Z.pos_sub _ _) with 0. nia. }
  destruct (Z.leb_spec 0 (e - 52)) as [Hs|Hs].
  - destruct (Z.leb_spec 0 e); [|lia]. apply Hint.
    pose proof (round_half_even_error n (Z.pos d * 2 ^ (e - 52)) ltac:(nia)) as Herr.
    set (R := round_half_even _ _) in *.
    assert (2 ^ e = 2 ^ (e - 52) * 2 ^ 52) as E by (rewrite <- Z.pow_add_r by lia; f_equal; lia).
    set (p := 2 ^ (e - 52)) in *. change (2 ^ 53) with (2 * 2 ^ 52). nia.
  - pose proof (Z.pow_pos_nonneg 2 (- (e - 52)) ltac:(lia) ltac:(lia)) as Hp.
    pose proof (round_half_even_error (n * 2 ^ (- (e - 52))) (Z.pos d) ltac:(lia)) as Herr.
    set (R := round_half_even _ _) in *. set (p := 2 ^ (- (e - 52))) in *.
    assert (R * Z.pos d * 2 ^ 53 ≤ n * p * (2 ^ 53 + 1)) as Hmain.
    { assert (Z.pos d * 2 ^ 52 ≤ n * p) as Hbig.
      { destruct (Z.leb_spec 0 e) as [He0|He0].
        - assert (2 ^ 52 = p * 2 ^ e) as ->
            by (unfold p; rewrite <- Z.pow_add_r by lia; f_equal; lia). nia.
        - assert (p = 2 ^ (- e) * 2 ^ 52) as ->
            by (unfold p; rewrite <- Z.pow_add_r by lia; f_equal; lia). nia. }
      change (2 ^ 53) with (2 * 2 ^ 52). nia. }
    unfold Qle, eps. cbn [Qnum Qden Qmult Qplus]. rewrite Z2Pos.id by lia. cbn. nia.
Qed.

Lemma rnd_lower x : (0 <= x)%Q → (x * (1 - eps) <= rnd x)%Q.
Proof.
  destruct x as [n d]. intros Hx. assert (0 ≤ n) as Hn by (unfold Qle in Hx; simpl in Hx; lia).
  unfold rnd. cbn [Qnum Qden]. destruct (Z.eqb_spec n 0) as [->|].
  { unfold Qle. cbn. lia. }
  destruct (Z.ltb_spec 0 n); [|lia].
  pose proof (exponent_spec n (Z.pos d) ltac:(lia) ltac:(lia)) as He. cbn zeta in He.
  unfold rnd_pos.
  set (e := exponent n (Z.pos d)) in *.
  destruct (Z.leb_spec 0 (e - 52)) as [Hs|Hs].
  - destruct (Z.leb_spec 0 e); [|lia].
    pose proof (round_half_even_error n (Z.pos d * 2 ^ (e - 52)) ltac:(nia)) as Herr.
    set (R := round_half_even _ _) in *.
    assert (2 ^ e = 2 ^ (e - 52) * 2 ^ 52) as E by (rewrite <- Z.pow_add_r by lia; f_equal; lia).
    set (p := 2 ^ (e - 52)) in *.
    assert (n * (2 ^ 53 - 1) ≤ R * p * Z.pos d * 2 ^ 53) as Hmain by (change (2 ^ 53) with (2 * 2 ^ 52); nia).
    unfold Qle, eps. cbn. nia.
  - pose proof (Z.pow_pos_nonneg 2 (- (e - 52)) ltac:(lia) ltac:(lia)) as Hp.
    pose proof (round_half_even_error (n * 2 ^ (- (e - 52))) (Z.pos d) ltac:(lia)) as Herr.
    set (R := round_half_even _ _) in *. set (p := 2 ^ (- (e - 52))) in *.
    assert (n * p * (2 ^ 53 - 1) ≤ R * Z.pos d * 2 ^ 53) as Hmain.
    { assert (Z.pos d * 2 ^ 52 ≤ n * p) as Hbig.
      { destruct (Z.leb_spec 0 e) as [He0|He0].
        - assert (2 ^ 52 = p * 2 ^ e) as ->
            by (unfold p; rewrite <- Z.pow_add_r by lia; f_equal; lia). nia.
        - assert (p = 2 ^ (- e) * 2 ^ 52) as ->
            by (unfold p; rewrite <- Z.pow_add_r by lia; f_equal; lia). nia. }
      change (2 ^ 53) with (2 * 2 ^ 52). nia. }
    unfold Qle, eps. cbn [Qnum Qden Qmult Qplus Qminus Qopp]. rewrite Z2Pos.id by lia. cbn. nia.
Qed.

(** A value that is an integer below 2^53 is not rounded. *)
Lemma rnd_int x m : 0 ≤ m < 2 ^ 53 → (x == inject_Z m)%Q → (rnd x == inject_Z m)%Q.
Proof.
  destruct x as [n d]. intros Hm Hx. unfold Qeq, inject_Z in Hx. cbn in Hx. rewrite Z.mul_1_r in Hx. subst n.
  unfold rnd. cbn [Qnum Qden]. destruct (Z.eqb_spec (m * Z.pos d) 0) as [E|Hne].
  { assert (m = 0) as -> by lia. done. }
  destruct (Z.ltb_spec 0 (m * Z.pos d)); [|lia]. unfold rnd_pos.
  pose proof (exponent_spec (m * Z.pos d) (Z.pos d) ltac:(lia) ltac:(lia)) as He. cbn zeta in He.
  set (e := exponent _ _) in *.
  assert (e < 53) as Hlt.
  { destruct (Z.leb_spec 0 e); [|lia]. apply (Z.pow_lt_mono_r_iff 2); [lia..|]. nia. }
  destruct (Z.leb_spec 0 (e - 52)) as [Hs|Hs].
  - replace (e - 52) with 0 by lia. change (2 ^ 0) with 1. rewrite !Z.mul_1_r.
    by rewrite round_half_even_exact by lia.
  - pose proof (Z.pow_pos_nonneg 2 (- (e - 52)) ltac:(lia) ltac:(lia)) as Hp.
    replace (m * Z.pos d * 2 ^ (- (e - 52))) with (m * 2 ^ (- (e - 52)) * Z.pos d) by lia.
    rewrite round_half_even_exact by lia.
    unfold Qeq, inject_Z. cbn [Qnum Qden]. rewrite Z2Pos.id by lia. lia.
Qed.
