(* ===== verification/Bandwidth.v ===== *)
(** * Bandwidth: token buckets and the per-client limiter

    src/internal/server/tokenbucket.go and bandwidth.go.  Times are [time.Time]
    values as nanoseconds; the caller supplies [time.Now()]. *)

From S2P Require Import Prelude GoNet Crc32 Protocol Messages NetUtil Float64.
From Stdlib Require Import Lqa.
#[local] Open Scope Z_scope.

(** ** The token bucket *)

Record tokenBucket := mkBucket {
  tb_tokens : Q; tb_maxBurst : Q; tb_rate : Q; tb_lastTime : Z }.

Definition newTokenBucket (now : Z) (rate burst : Q) : tokenBucket :=
  mkBucket burst burst rate now.

Definition Second : Z := 1000000000.

(** [Duration.Seconds]: whole seconds and nanoseconds are converted apart. *)
Definition Seconds (d : Z) : Q :=
  fadd (fint (Z.quot d Second)) (fdiv (fint (Z.rem d Second)) (fint Second)).

Definition refill (now : Z) (b : tokenBucket) : tokenBucket :=
  let elapsed := Seconds (now - tb_lastTime b) in
  let elapsed := if Qlt_bool elapsed 0 then 0%Q else elapsed in
  let tokens := fadd (tb_tokens b) (fmul (tb_rate b) elapsed) in
  let tokens := if Qlt_bool (tb_maxBurst b) tokens then tb_maxBurst b else tokens in
  mkBucket tokens (tb_maxBurst b) (tb_rate b) now.

(** tokenBucket.Allow *)
Definition bucket_Allow (now : Z) (b : tokenBucket) (n : Z) : bool * tokenBucket :=
  let b := refill now b in
  if Qle_bool (fint n) (tb_tokens b)
  then (true, mkBucket (fsub (tb_tokens b) (fint n)) (tb_maxBurst b) (tb_rate b) (tb_lastTime b))
  else (false, b).

Definition LastUsed (b : tokenBucket) : Z := tb_lastTime b.

(** ** The limiter *)

Definition defaultBandwidthLimit : Z := 50 * 1024 * 1024 / 8.
Definition bandwidthBurst : Z := 512 * 1024.

Record BandwidthLimiter := mkLimiter {
  bl_limit : Z; bl_burst : Z; bl_buckets : gmap RateKey tokenBucket }.

Definition NewBandwidthLimiter (limitBytesPerSec : Z) : BandwidthLimiter :=
  let limit := if limitBytesPerSec <=? 0 then defaultBandwidthLimit else limitBytesPerSec in
  mkLimiter limit bandwidthBurst ∅.

(** The receiver may be nil. *)
Definition Enabled (bl : option BandwidthLimiter) : bool :=
  match bl with Some bl => 0 <? bl_limit bl | None => false end.

Definition getBucket (now : Z) (bl : BandwidthLimiter) (dest : UDPAddr) : tokenBucket :=
  match bl_buckets bl !! AddrToRateKey dest with
  | Some b => b
  | None => newTokenBucket now (fint (bl_limit bl)) (fint (bl_burst bl))
  end.

(** BandwidthLimiter.Allow *)
Definition Allow (now : Z) (bl : option BandwidthLimiter) (dest : UDPAddr) (size : Z)
    : bool * option BandwidthLimiter :=
  match bl with
  | Some l =>
      if Enabled bl then
        let '(ok, b) := bucket_Allow now (getBucket now l dest) size in
        (ok, Some (mkLimiter (bl_limit l) (bl_burst l) (<[AddrToRateKey dest := b]> (bl_buckets l))))
      else (true, bl)
  | None => (true, bl)
  end.

(** BandwidthLimiter.Remove *)
Definition limiter_Remove (bl : option BandwidthLimiter) (dest : UDPAddr) : option BandwidthLimiter :=
  match bl with
  | Some l => if Enabled bl
              then Some (mkLimiter (bl_limit l) (bl_burst l) (delete (AddrToRateKey dest) (bl_buckets l)))
              else bl
  | None => bl
  end.

(** BandwidthLimiter.Cleanup: visiting every bucket, deleting the stale ones. *)
Definition limiter_Cleanup `{MapRange} (now : Z) (bl : option BandwidthLimiter) (stale : Z)
    : option BandwidthLimiter :=
  match bl with
  | Some l =>
      if Enabled bl then
        let cutoff := now - stale in
        let buckets := foldl (fun m '(k, b) => if LastUsed b <? cutoff then delete k m else m)
                         (bl_buckets l) (go_range (bl_buckets l)) in
        Some (mkLimiter (bl_limit l) (bl_burst l) buckets)
      else bl
  | None => bl
  end.

(** BandwidthLimiter.Count *)
Definition limiter_Count (bl : option BandwidthLimiter) : Z :=
  match bl with
  | Some l => if Enabled bl then Z.of_nat (size (bl_buckets l)) else 0
  | None => 0
  end.

(** ** Arithmetic of the bucket *)

Lemma fadd_nonneg x y : (0 <= x)%Q → (0 <= y)%Q → (0 <= fadd x y)%Q.
Proof. intros. apply rnd_nonneg. lra. Qed.

Lemma fmul_nonneg x y : (0 <= x)%Q → (0 <= y)%Q → (0 <= fmul x y)%Q.
Proof. intros. apply rnd_nonneg. by apply Qmult_le_0_compat. Qed.

Lemma fsub_nonneg x y : (y <= x)%Q → (0 <= fsub x y)%Q.
Proof. intros. apply rnd_nonneg. lra. Qed.

Lemma fint_nonneg n : 0 ≤ n → (0 <= fint n)%Q.
Proof. intros. apply rnd_nonneg. unfold Qle, inject_Z. simpl. lia. Qed.

Lemma fint_nonpos n : n ≤ 0 → (fint n <= 0)%Q.
Proof. intros. apply rnd_nonpos. unfold Qle, inject_Z. simpl. lia. Qed.

(** Seconds in exact arithmetic. *)
Definition seconds (d : Z) : Q := inject_Z d / inject_Z Second.

Lemma eps_bounds : (0 < eps)%Q ∧ (eps <= 1 # 1000)%Q.
Proof. split; vm_compute; [done|discriminate]. Qed.

Lemma Seconds_nonneg d : 0 ≤ d → (0 <= Seconds d)%Q.
Proof.
  intros Hd. pose proof (Z.quot_pos d Second Hd ltac:(done)).
  pose proof (Z.rem_bound_pos d Second Hd ltac:(done)).
  apply fadd_nonneg; [by apply fint_nonneg|]. apply rnd_nonneg.
  apply Qle_shift_div_l; [done|]. rewrite Qmult_0_l. apply fint_nonneg. lia.
Qed.

Lemma Seconds_nonpos d : d ≤ 0 → (Seconds d <= 0)%Q.
Proof.
  intros Hd. assert (Z.quot d Second ≤ 0 ∧ Z.rem d Second ≤ 0) as [Hq Hr].
  { pose proof (Z.quot_pos (- d) Second ltac:(lia) ltac:(done)).
    pose proof (Z.rem_bound_pos (- d) Second ltac:(lia) ltac:(done)).
    rewrite Z.quot_opp_l in * by done. rewrite Z.rem_opp_l in * by done. lia. }
  unfold Seconds. apply rnd_nonpos.
  pose proof (fint_nonpos _ Hq). pose proof (fint_nonpos _ Hr) as Hr'.
  assert (fdiv (fint (Z.rem d Second)) (fint Second) <= 0)%Q; [|lra].
  apply rnd_nonpos. apply Qle_shift_div_r; [done|]. by rewrite Qmult_0_l.
Qed.

Lemma Seconds_upper d :
  0 ≤ d < 2 ^ 63 → (Seconds d <= seconds d * (1 + eps) * (1 + eps))%Q.
Proof.
  intros Hd. pose proof (Z.rem_bound_pos d Second ltac:(lia) ltac:(done)) as Hr.
  pose proof (Z.quot_rem' d Second) as Hqr. pose proof (Z.quot_pos d Second ltac:(lia) ltac:(done)) as Hq.
  unfold Second in Hr, Hqr.
  assert (Z.quot d 1000000000 < 2 ^ 53) as Hq53 by lia. fold Second in *.
  unfold Seconds. set (q := Z.quot d Second) in *. set (r := Z.rem d Second) in *.
  assert (fint Second == inject_Z Second)%Q as E1 by (apply fint_exact; done).
  assert (fint q == inject_Z q)%Q as E2 by (apply fint_exact; lia).
  assert (fint r == inject_Z r)%Q as E3 by (apply fint_exact; unfold Second in *; lia).
  assert (0 <= inject_Z q)%Q as Hq0 by (unfold Qle, inject_Z; simpl; lia).
  assert (0 <= inject_Z r)%Q as Hr0 by (unfold Qle, inject_Z; simpl; lia).
  assert (0 <= fint r / fint Second)%Q as Hf0.
  { rewrite E1, E3. apply Qle_shift_div_l; [done|]. lra. }
  pose proof (rnd_upper _ Hf0) as Hf. fold (fdiv (fint r) (fint Second)) in Hf.
  pose proof (rnd_nonneg _ Hf0) as Hfn. fold (fdiv (fint r) (fint Second)) in Hfn.
  set (f := fdiv _ _) in *.
  assert (0 <= fint q + f)%Q as Hs0 by (rewrite E2; lra).
  pose proof (rnd_upper _ Hs0) as Hs. fold (fadd (fint q) f) in Hs.
  assert (seconds d == inject_Z q + inject_Z r / inject_Z Second)%Q as ->.
  { unfold seconds. rewrite Hqr at 1. rewrite inject_Z_plus, inject_Z_mult. field. done. }
  rewrite E3, E1 in Hf. set (x := (inject_Z r / inject_Z Second)%Q) in *.
  destruct eps_bounds as [He _].
  assert (0 <= x)%Q as Hx0 by (apply Qle_shift_div_l; [done|lra]).
  apply (Qle_trans _ _ _ Hs). rewrite E2.
  assert (0 <= eps * x)%Q by (apply Qmult_le_0_compat; lra).
  assert (0 <= eps * inject_Z q)%Q by (apply Qmult_le_0_compat; lra).
  apply Qmult_le_compat_r; [|lra]. lra.
Qed.

(** ** Invariant *)

(** The quantities of a bucket are never negative. *)
Definition bucket_ok (b : tokenBucket) : Prop :=
  (0 <= tb_tokens b)%Q ∧ (0 <= tb_rate b)%Q ∧ (0 <= tb_maxBurst b)%Q.

(** The elapsed time that counts: a clock stepped back adds nothing. *)
Definition elapsed (now last : Z) : Z := Z.max 0 (now - last).

Lemma refill_spec now b :
  bucket_ok b → - 2 ^ 63 ≤ now - tb_lastTime b < 2 ^ 63 →
  bucket_ok (refill now b) ∧
  (tb_tokens (refill now b) <= tb_maxBurst b)%Q ∧
  (tb_tokens (refill now b) <= tb_tokens b
     + tb_rate b * seconds (elapsed now (tb_lastTime b)) * (1 + 4 * eps) + tb_maxBurst b * eps)%Q.
Proof.
  intros (Ht & Hr & Hm) Hrange. unfold refill, bucket_ok. cbn [tb_tokens tb_maxBurst tb_rate].
  set (d := now - tb_lastTime b) in *. set (x := Seconds d).
  set (e := if Qlt_bool x 0 then 0%Q else x).
  destruct eps_bounds as [He He3].
  assert (0 <= e ∧ e <= seconds (elapsed now (tb_lastTime b)) * (1 + eps) * (1 + eps))%Q as [He0 Heu].
  { unfold e, elapsed. fold d. destruct (Z.le_gt_cases 0 d) as [Hd|Hd].
    - rewrite Z.max_r by done. pose proof (Seconds_nonneg d Hd). fold x in H.
      pose proof (Seconds_upper d ltac:(lia)) as Hu. fold x in Hu.
      destruct (Qlt_bool x 0) eqn:E; [apply Qlt_bool_iff in E; lra|done].
    - rewrite Z.max_l by lia. assert (seconds 0 == 0)%Q as -> by done.
      pose proof (Seconds_nonpos d ltac:(lia)) as Hx. fold x in Hx.
      destruct (Qlt_bool x 0) eqn:E; [split; lra|].
      assert (0 <= x)%Q by (apply Qnot_lt_le; intros Hlt%Qlt_bool_iff; congruence). split; lra. }
  set (s := seconds (elapsed now (tb_lastTime b))) in *.
  pose proof (Qmult_le_0_compat _ _ Hr He0) as Hre.
  pose proof (rnd_upper _ Hre) as Hi. fold (fmul (tb_rate b) e) in Hi.
  pose proof (rnd_nonneg _ Hre) as Hi0. fold (fmul (tb_rate b) e) in Hi0.
  set (inc := fmul (tb_rate b) e) in *.
  assert (0 <= tb_tokens b + inc)%Q as Hsum by lra.
  pose proof (rnd_upper _ Hsum) as Ht'. fold (fadd (tb_tokens b) inc) in Ht'.
  pose proof (rnd_nonneg _ Hsum) as Ht0. fold (fadd (tb_tokens b) inc) in Ht0.
  set (t' := fadd (tb_tokens b) inc) in *.
  assert (0 <= s)%Q as Hs0 by (unfold s, seconds; apply Qle_shift_div_l; [done|];
    rewrite Qmult_0_l; unfold elapsed, Qle, inject_Z; simpl; lia).
  assert (inc <= tb_rate b * s * (1 + 4 * eps))%Q as Hinc.
  { apply (Qle_trans _ _ _ Hi).
    assert (e * tb_rate b <= s * (1 + eps) * (1 + eps) * tb_rate b)%Q as H1
      by (by apply Qmult_le_compat_r).
    assert ((1 + eps) * (1 + eps) * (1 + eps) <= 1 + 4 * eps)%Q as H3 by (vm_compute; discriminate).
    assert (0 <= tb_rate b * s)%Q as Hrs by (by apply Qmult_le_0_compat).
    pose proof (Qmult_le_compat_r _ _ _ H3 Hrs) as H4.
    assert (0 <= 1 + eps)%Q as H5 by lra.
    pose proof (Qmult_le_compat_r _ _ _ H1 H5) as H6. lra. }
  destruct (Qlt_bool (tb_maxBurst b) t') eqn:E.
  - apply Qlt_bool_iff in E. split; [done|]. split; [lra|].
    destruct (Qlt_le_dec (tb_maxBurst b) (tb_tokens b + inc)) as [Hbig|Hsmall].
    + pose proof (Qmult_le_0_compat _ _ Hm (Qlt_le_weak _ _ He)). lra.
    + pose proof (Qmult_le_compat_r _ _ _ Hsmall (Qlt_le_weak _ _ He)). lra.
  - assert (t' <= tb_maxBurst b)%Q by (apply Qnot_lt_le; intros Hlt%Qlt_bool_iff; congruence).
    split; [done|]. split; [done|].
    destruct (Qlt_le_dec (tb_maxBurst b) (tb_tokens b + inc)) as [Hbig|Hsmall].
    + pose proof (Qmult_le_0_compat _ _ Hm (Qlt_le_weak _ _ He)). lra.
    + pose proof (Qmult_le_compat_r _ _ _ Hsmall (Qlt_le_weak _ _ He)). lra.
Qed.

(** One call: what it grants, and what it leaves in the bucket. *)
Lemma bucket_Allow_spec now b n :
  bucket_ok b → 0 ≤ n < 2 ^ 53 → - 2 ^ 63 ≤ now - tb_lastTime b < 2 ^ 63 →
  let ok := fst (bucket_Allow now b n) in
  let b' := snd (bucket_Allow now b n) in
  bucket_ok b' ∧ tb_lastTime b' = now ∧ tb_rate b' = tb_rate b ∧ tb_maxBurst b' = tb_maxBurst b ∧
  (ok = true → inject_Z n <= tb_maxBurst b)%Q ∧
  (inject_Z (if ok then n else 0) + tb_tokens b' <= tb_tokens b
     + tb_rate b * seconds (elapsed now (tb_lastTime b)) * (1 + 4 * eps) + 2 * eps * tb_maxBurst b)%Q.
Proof.
  intros Hb Hn Hnow. cbn zeta. destruct (refill_spec now b Hb Hnow) as (Hok & Hmax & Hle).
  destruct eps_bounds as [He _]. destruct Hb as (Ht & Hr & Hm).
  pose proof (Qmult_le_0_compat _ _ Hm (Qlt_le_weak _ _ He)) as Hme.
  pose proof (fint_exact n Hn) as Hfn.
  unfold bucket_Allow. destruct (Qle_bool _ _) eqn:E; cbn [fst snd tb_tokens tb_rate tb_maxBurst tb_lastTime].
  - apply Qle_bool_iff in E. rewrite Hfn in E. pose proof (Hok) as (Ht' & Hr' & Hm').
    assert (0 <= tb_tokens (refill now b) - fint n)%Q as Hd by (rewrite Hfn; lra).
    pose proof (rnd_nonneg _ Hd) as Hs0. pose proof (rnd_upper _ Hd) as Hs.
    fold (fsub (tb_tokens (refill now b)) (fint n)) in Hs, Hs0.
    set (left := fsub _ _) in *. rewrite Hfn in Hd, Hs.
    split_and!; try done; [intros _; lra|].
    assert (0 <= inject_Z n)%Q by (unfold Qle, inject_Z; simpl; lia).
    assert (tb_tokens (refill now b) - inject_Z n <= tb_maxBurst b)%Q as Hx by lra.
    pose proof (Qmult_le_compat_r _ _ _ Hx (Qlt_le_weak _ _ He)). lra.
  - split_and!; try done. change (inject_Z 0) with 0%Q. lra.
Qed.

(** A bucket refilled at this instant, with a whole number of tokens that covers the
    packet: exactly its size is taken. *)
Lemma bucket_Allow_again now b m n :
  (tb_tokens b == inject_Z m)%Q → 0 ≤ n ≤ m ∧ m ≤ bandwidthBurst → tb_lastTime b = now →
  tb_maxBurst b = fint bandwidthBurst →
  ∃ b', bucket_Allow now b n = (true, b') ∧ (tb_tokens b' == inject_Z (m - n))%Q ∧ tb_lastTime b' = now ∧
        tb_maxBurst b' = fint bandwidthBurst.
Proof.
  intros Ht [Hn Hm] Hlast Hmax. unfold bandwidthBurst in Hm.
  unfold bucket_Allow, refill. rewrite Hlast, Z.sub_diag. change (Seconds 0) with 0%Q.
  change (Qlt_bool 0 0) with false. cbn iota.
  assert (fadd (tb_tokens b) (fmul (tb_rate b) 0) == inject_Z m)%Q as E.
  { apply rnd_int; [lia|]. unfold fmul. assert (rnd (tb_rate b * 0) == inject_Z 0)%Q as -> by (apply rnd_int; [lia|change (inject_Z 0) with 0%Q; lra]).
    rewrite Ht. change (inject_Z 0) with 0%Q. lra. }
  rewrite Hmax. destruct (Qlt_bool (fint bandwidthBurst) _) eqn:Eb.
  { apply Qlt_bool_iff in Eb. rewrite E, (fint_exact bandwidthBurst) in Eb by (unfold bandwidthBurst; lia).
    rewrite <- Zlt_Qlt in Eb. unfold bandwidthBurst in Eb. lia. }
  cbn [tb_tokens tb_maxBurst tb_rate tb_lastTime].
  destruct (Qle_bool (fint n) _) eqn:En.
  2: { exfalso. apply not_true_iff_false in En. apply En, Qle_bool_iff. rewrite E, fint_exact by lia. rewrite <- Zle_Qle. lia. }
  eexists. split; [reflexivity|]. cbn [tb_tokens tb_lastTime tb_maxBurst]. split_and!; [|done|done].
  apply rnd_int; [lia|]. rewrite E, fint_exact by lia. unfold Z.sub. by rewrite inject_Z_plus, inject_Z_opp.
Qed.

(** ** Runs *)

(** sequence of calls [(time, size)] on one bucket: the bytes it granted. *)
Fixpoint granted (b : tokenBucket) (calls : list (Z * Z)) : Z :=
  match calls with
  | [] => 0
  | (now, n) :: calls =>
      let r := bucket_Allow now b n in (if fst r then n else 0) + granted (snd r) calls
  end.

(** Nanoseconds the clock moved forward over the calls. *)
Fixpoint forward (last : Z) (calls : list (Z * Z)) : Z :=
  match calls with [] => 0 | (now, _) :: calls => elapsed now last + forward now calls end.

(** Sizes a packet can have, and clock readings of 64 bits. *)
Fixpoint calls_ok (last : Z) (calls : list (Z * Z)) : Prop :=
  match calls with
  | [] => True
  | (now, n) :: calls => 0 ≤ n < 2 ^ 53 ∧ - 2 ^ 63 ≤ now - last < 2 ^ 63 ∧ calls_ok now calls
  end.

Lemma granted_bound calls b :
  bucket_ok b → calls_ok (tb_lastTime b) calls →
  (inject_Z (granted b calls) <= tb_tokens b
     + tb_rate b * seconds (forward (tb_lastTime b) calls) * (1 + 4 * eps)
     + inject_Z (2 * Z.of_nat (length calls)) * eps * tb_maxBurst b)%Q.
Proof.
  revert b. induction calls as [|[now n] calls IH]; intros b Hb Hc.
  - cbn [granted forward]. change (inject_Z 0) with 0%Q. destruct Hb as (Ht & _ & _).
    change (inject_Z (2 * Z.of_nat (length []))) with 0%Q.
    assert (seconds 0 == 0)%Q as -> by done. lra.
  - destruct Hc as (Hn & Hnow & Hc).
    destruct (bucket_Allow_spec now b n Hb Hn Hnow) as (Hb' & Hl & Hr & Hm & _ & Hle).
    cbn [granted forward]. set (r := bucket_Allow now b n) in *.
    specialize (IH (snd r) Hb'). rewrite Hl, Hr, Hm in IH. specialize (IH Hc).
    rewrite inject_Z_plus. cbn [Datatypes.length].
    assert (seconds (elapsed now (tb_lastTime b) + forward now calls)
            == seconds (elapsed now (tb_lastTime b)) + seconds (forward now calls))%Q as ->.
    { unfold seconds. rewrite inject_Z_plus. field. done. }
    replace (2 * Z.of_nat (S (length calls))) with (2 + 2 * Z.of_nat (length calls)) by lia.
    rewrite inject_Z_plus. change (inject_Z 2) with 2%Q.
    lra.
Qed.

(** Bandwidth limit of one destination: over any sequence of packets, at any
    times and with any clock steps, the bucket grants at most its burst plus the
    rate times the time the clock moved forward; rounding adds at most 4/2^53 of
    the rate and 2/2^53 of the burst per call. *)
Theorem token_bucket_rate calls start limit burst :
  0 ≤ limit → 0 ≤ burst → calls_ok start calls →
  let b := newTokenBucket start (fint limit) (fint burst) in
  (inject_Z (granted b calls) <= fint burst
     + fint limit * seconds (forward start calls) * (1 + 4 * eps)
     + inject_Z (2 * Z.of_nat (length calls)) * eps * fint burst)%Q.
Proof.
  intros Hl Hb Hc. apply (granted_bound calls (newTokenBucket start (fint limit) (fint burst))); [|done].
  split_and!; cbn; by apply fint_nonneg.
Qed.

Lemma token_bucket_rate_witness :
  let calls := [(0, 1500); (1000, 600000); (2000000000, 600000); (5000000000, 500000)] in
  granted (newTokenBucket 0 (fint 6553600) (fint 524288)) calls = 501500 ∧
  (inject_Z 501500 <= fint 524288 + fint 6553600 * seconds 5000000000 * (1 + 4 * eps)
     + inject_Z 8 * eps * fint 524288)%Q.
Proof.
  split; [vm_compute; reflexivity|].
  refine (token_bucket_rate [(0, 1500); (1000, 600000); (2000000000, 600000); (5000000000, 500000)]
    0 6553600 524288 _ _ _); [done|done|]. cbn [calls_ok]. lia.
Defined.
