(* ===== verification/GoTime.v ===== *)
(** * GoTime: durations of Go's package time

    A [time.Duration] is an int64 number of nanoseconds.  The methods that give
    float64 units are written in the arithmetic of Float64. *)

From S2P Require Import Prelude GoNet Crc32 Protocol Messages NetUtil Float64 Bandwidth.
From Stdlib Require Import Lqa.
From Stdlib Require Import ZArith Lia.

Definition Minute : Z := 60 * Second.
Definition Hour : Z := 3600 * Second.

(** [lessThanHalf]: in uint64 arithmetic. *)
Definition lessThanHalf (x y : Z) : bool := u64 (u64 x + u64 x) <? u64 y.

(** Duration.Round *)
Definition Duration_Round (d m : Z) : Z :=
  if m <=? 0 then d else
  let r := Z.rem d m in
  if d <? 0 then
    let r := - r in
    if lessThanHalf r m then d + r
    else let d1 := i64 (d - m + r) in if d1 <? d then d1 else - 2 ^ 63
  else if lessThanHalf r m then d - r
  else let d1 := i64 (d + m - r) in if d <? d1 then d1 else 2 ^ 63 - 1.

(** Minutes and Hours, as [Seconds]: whole units plus the float64 fraction. *)
Definition in_units (unit d : Z) : Q :=
  fadd (fint (Z.quot d unit)) (fdiv (fint (Z.rem d unit)) (fint unit)).

(** [int(f)]: truncation. *)
Definition trunc (x : Q) : Z := Z.quot (Qnum x) (Z.pos (Qden x)).

Definition int_Seconds (d : Z) : Z := trunc (Seconds d).
Definition int_Minutes (d : Z) : Z := trunc (in_units Minute d).
Definition int_Hours (d : Z) : Z := trunc (in_units Hour d).

(** ** Facts *)

Lemma trunc_between x n : 0 ≤ n → (inject_Z n <= x)%Q → (x < inject_Z (n + 1))%Q → trunc x = n.
Proof.
  destruct x as [a b]. unfold Qle, Qlt, trunc, inject_Z. cbn [Qnum Qden]. rewrite !Z.mul_1_r. intros Hn H1 H2.
  rewrite Z.quot_div_nonneg by lia. symmetry. apply (Z.div_unique_pos _ _ _ (a - Z.pos b * n)); lia.
Qed.

(** Rounding to seconds, below the overflow. *)
Lemma Duration_Round_seconds d :
  0 ≤ d < 2 ^ 62 → Duration_Round d Second = (d + Second / 2) / Second * Second.
Proof.
  intros Hd. unfold Duration_Round, lessThanHalf, u64, i64. set (S := Second).
  assert (S = 1000000000) as HS by reflexivity. destruct (Z.leb_spec S 0); [lia|].
  destruct (Z.ltb_spec d 0); [lia|]. rewrite Z.rem_mod_nonneg by lia.
  pose proof (Z.mod_pos_bound d S ltac:(lia)). pose proof (Z.div_mod d S ltac:(lia)).
  rewrite (Z.mod_small (d mod S) (2 ^ 64)), (Z.mod_small (_ + d mod S) (2 ^ 64)), (Z.mod_small S (2 ^ 64)),
    (Z.mod_small (_ + 2 ^ 63) (2 ^ 64)) by lia.
  destruct (Z.ltb_spec (d mod S + d mod S) S).
  - assert ((d + S / 2) / S = d / S) as ->; [|lia].
    symmetry. apply (Z.div_unique_pos _ _ _ (d mod S + S / 2)); rewrite HS in *; change (1000000000 / 2) with 500000000; lia.
  - assert ((d + S / 2) / S = d / S + 1) as ->.
    { symmetry. apply (Z.div_unique_pos _ _ _ (d mod S + S / 2 - S)); rewrite HS in *; change (1000000000 / 2) with 500000000; lia. }
    destruct (Z.ltb_spec d (d + S - d mod S + 2 ^ 63 - 2 ^ 63)); lia.
Qed.

(** Truncating the float64 value of a whole number of seconds is integer
    division: the fraction is far enough from 0 and 1 for the three roundings. *)
Lemma trunc_in_units k d :
  1 ≤ k ≤ 3600 → 0 ≤ d < 2 ^ 62 → d mod Second = 0 →
  trunc (in_units (k * Second) d) = d / (k * Second).
Proof.
  intros Hk Hd Hmod. set (unit := k * Second). assert (Second = 1000000000) as HS by reflexivity.
  assert (0 < unit) as Hu by (unfold unit; lia). unfold in_units.
  rewrite Z.quot_div_nonneg, Z.rem_mod_nonneg by lia.
  pose proof (Z.mod_pos_bound d unit Hu) as Hr. pose proof (Z.div_mod d unit ltac:(lia)) as Hdm.
  assert (0 ≤ d / unit < 2 ^ 33) as Hq.
  { split; [apply Z.div_pos; lia|]. apply Z.div_lt_upper_bound; [lia|]. unfold unit. lia. }
  set (q := d / unit) in *. set (r := d mod unit) in *.
  assert (∃ s, r = s * Second) as [s Hs].
  { exists (d / Second - k * q). pose proof (Z.div_mod d Second ltac:(lia)). unfold unit in *. nia. }
  pose proof (fint_exact q ltac:(lia)) as Eq.
  destruct (Z.eq_dec s 0) as [->|Hs0].
  - replace r with 0 by lia. change (fint 0) with 0%Q.
    assert (fdiv 0 (fint unit) = 0%Q) as -> by reflexivity.
    assert (fadd (fint q) 0 == inject_Z q)%Q as E.
    { unfold fadd. apply rnd_int; [lia|]. rewrite Eq. ring. }
    apply trunc_between; [lia|rewrite E; apply Qle_refl|]. rewrite E. rewrite <- Zlt_Qlt. lia.
  - assert (1 ≤ s < k) as Hsk by (unfold unit in *; nia).
    pose proof (fint_exact r ltac:(lia)) as Er. pose proof (fint_exact unit ltac:(unfold unit; lia)) as Eu.
    set (rho := (fint r / fint unit)%Q).
    assert (inject_Z r / inject_Z unit == s # Z.to_pos k)%Q as Erho.
    { unfold unit. rewrite Hs, !inject_Z_mult. rewrite Qmake_Qdiv, Z2Pos.id by lia. field.
      split; intros G; unfold Qeq in G; cbn in G; lia. }
    assert (rho == s # Z.to_pos k)%Q as Hrho by (unfold rho; rewrite Er, Eu; exact Erho).
    assert (1 # 3600 <= rho)%Q as Hlo by (rewrite Hrho; unfold Qle; cbn; rewrite Z2Pos.id by lia; lia).
    assert (rho <= 3599 # 3600)%Q as Hhi by (rewrite Hrho; unfold Qle; cbn; rewrite Z2Pos.id by lia; nia).
    assert (0 <= inject_Z q)%Q as Hq0 by (change 0%Q with (inject_Z 0); rewrite <- Zle_Qle; lia).
    assert (inject_Z q <= 8589934592)%Q as Hq1
      by (change 8589934592%Q with (inject_Z 8589934592); rewrite <- Zle_Qle; lia).
    unfold fadd, fdiv. fold rho.
    pose proof (rnd_lower rho ltac:(lra)) as Hf1. pose proof (rnd_upper rho ltac:(lra)) as Hf2.
    set (f := rnd rho) in *. unfold eps in *. change (2 ^ 53)%positive with 9007199254740992%positive in *.
    assert (0 <= fint q + f)%Q as Hpos by (rewrite Eq; lra).
    pose proof (rnd_lower _ Hpos) as Hg1. pose proof (rnd_upper _ Hpos) as Hg2.
    set (g := rnd (fint q + f)) in *. unfold eps in *. rewrite Eq in Hg1, Hg2.
    change (2 ^ 53)%positive with 9007199254740992%positive in *.
    apply trunc_between; [lia|lra|]. rewrite inject_Z_plus. change (inject_Z 1) with 1%Q. lra.
Qed.

Lemma int_units s :
  0 ≤ s < 2 ^ 32 →
  int_Seconds (s * Second) = s ∧ int_Minutes (s * Second) = s / 60 ∧ int_Hours (s * Second) = s / 3600.
Proof.
  intros Hs. assert (Second = 1000000000) as HS by reflexivity.
  assert (∀ k, 1 ≤ k ≤ 3600 → trunc (in_units (k * Second) (s * Second)) = s / k) as H.
  { intros k Hk. rewrite trunc_in_units; [|lia|lia|apply Z_mod_mult].
    apply Z.div_mul_cancel_r; lia. }
  split_and!; [|by apply H..]. specialize (H 1 ltac:(lia)). by rewrite Z.div_1_r in H.
Qed.
