(* ===== verification/SendQueue.v ===== *)
(** * SendQueue: the server's prioritised send queue

    src/internal/server/sendqueue.go.  A channel is the list of its entries.
    [sq_out] is the sequence of packets handed to writeUDP.  The run goroutine
    interleaves with senders: entries that arrive during an iteration are in the
    list the iteration starts from, since a drain only stops on an empty channel
    or a full batch.  A sender is atomic, so a high-priority send that finds the
    channel full times out. *)

From S2P Require Import Prelude GoNet Crc32 Protocol Messages NetUtil Float64 Bandwidth.

Inductive sendPriority := priorityLow | priorityHigh.
#[export] Instance sendPriority_eq_dec : EqDecision sendPriority.
Proof. solve_decision. Defined.

Record sendEntry := mkEntry { se_data : list byte; se_addr : UDPAddr; se_priority : sendPriority }.

Definition is_high (e : sendEntry) : bool := bool_decide (se_priority e = priorityHigh).

Definition batchBufSize : nat := 64.
Definition broadcastChSize : Z := 4096.

Record sendQueue := mkQueue {
  sq_ch : list sendEntry; sq_broadcastCh : list sendEntry; sq_maxSize : Z; sq_out : list sendEntry }.

Definition newSendQueue (maxSize : Z) : sendQueue := mkQueue [] [] maxSize [].

Definition writeUDP (q : sendQueue) (e : sendEntry) : sendQueue :=
  mkQueue (sq_ch q) (sq_broadcastCh q) (sq_maxSize q) (sq_out q ++ [e]).

Definition writeAll (q : sendQueue) (l : list sendEntry) : sendQueue := foldl writeUDP q l.

(** ** Senders *)

(** sendQueue.send *)
Definition sq_send (q : sendQueue) (data : list byte) (addr : UDPAddr) (p : sendPriority)
    : bool * sendQueue :=
  let e := mkEntry data addr p in
  if Z.of_nat (length (sq_ch q)) <? sq_maxSize q
  then (true, mkQueue (sq_ch q ++ [e]) (sq_broadcastCh q) (sq_maxSize q) (sq_out q))
  else (false, q).

(** sendQueue.sendBroadcast; the entry has the zero priority, priorityLow. *)
Definition sendBroadcast (q : sendQueue) (data : list byte) (addr : UDPAddr) : bool * sendQueue :=
  let e := mkEntry data addr priorityLow in
  if Z.of_nat (length (sq_broadcastCh q)) <? broadcastChSize
  then (true, mkQueue (sq_ch q) (sq_broadcastCh q ++ [e]) (sq_maxSize q) (sq_out q))
  else (true, writeUDP q e).

Definition pending (q : sendQueue) : nat := length (sq_ch q) + length (sq_broadcastCh q).

(** ** The run loop *)

(** DrainHigh: reads the channel until the batch is full or the channel empty.
    The packets written meanwhile are returned in [now]. *)
Fixpoint drainHigh (ch batch deferred now : list sendEntry)
    : list sendEntry * list sendEntry * list sendEntry * list sendEntry :=
  match ch with
  | [] => (ch, batch, deferred, now)
  | x :: ch' =>
      if (batchBufSize <=? length batch)%nat then (ch, batch, deferred, now)
      else if is_high x then drainHigh ch' (batch ++ [x]) deferred now
      else if (length deferred <? batchBufSize)%nat then drainHigh ch' batch (deferred ++ [x]) now
      else drainHigh ch' batch deferred (now ++ [x])
  end.

(** DrainLow *)
Fixpoint drainLow (ch batch now : list sendEntry) : list sendEntry * list sendEntry * list sendEntry :=
  match ch with
  | [] => (ch, batch, now)
  | x :: ch' =>
      if (batchBufSize <=? length batch)%nat then (ch, batch, now)
      else if is_high x then drainLow ch' batch (now ++ [x])
      else drainLow ch' (batch ++ [x]) now
  end.

Definition set_ch (q : sendQueue) (ch : list sendEntry) : sendQueue :=
  mkQueue ch (sq_broadcastCh q) (sq_maxSize q) (sq_out q).
Definition set_bcast (q : sendQueue) (l : list sendEntry) : sendQueue :=
  mkQueue (sq_ch q) l (sq_maxSize q) (sq_out q).

(** The iteration that received [e] from the main channel. *)
Definition run_main (q : sendQueue) : sendQueue :=
  match sq_ch q with
  | [] => q
  | e :: ch =>
      if is_high e then
        let q := writeUDP (set_ch q ch) e in
        let '(ch, batch, deferredLow, now) := drainHigh ch [] [] [] in
        let q := writeAll (set_ch q ch) now in
        let q := writeAll q batch in
        writeAll q deferredLow
      else
        let '(ch, batch, now) := drainLow ch [e] [] in
        let q := writeAll (set_ch q ch) now in
        writeAll q batch
  end.

(** The iteration that received [e] from the broadcast channel. *)
Definition run_broadcast (q : sendQueue) : sendQueue :=
  match sq_broadcastCh q with
  | [] => q
  | e :: l =>
      let q := writeUDP (set_bcast q l) e in
      let batch := take batchBufSize l in
      writeAll (set_bcast q (drop batchBufSize l)) batch
  end.

Definition drainMain (q : sendQueue) : sendQueue := writeAll (set_ch q []) (sq_ch q).
Definition drainBroadcast (q : sendQueue) : sendQueue := writeAll (set_bcast q []) (sq_broadcastCh q).
Definition drain (q : sendQueue) : sendQueue := drainBroadcast (drainMain q).

(** Select picks any ready case; Stop or cancellation drains and ends. *)
Inductive sq_iter : sendQueue → sendQueue → Prop :=
| iter_main q : sq_ch q ≠ [] → sq_iter q (run_main q)
| iter_broadcast q : sq_broadcastCh q ≠ [] → sq_iter q (run_broadcast q).

Inductive sq_finishes : sendQueue → sendQueue → Prop :=
| finish_stop q : sq_finishes q (drain q)
| finish_iter q q1 q2 : sq_iter q q1 → sq_finishes q1 q2 → sq_finishes q q2.

(** ** The bandwidth-limited front *)

Record rateLimitedQueue := mkRLQ { rlq_sq : sendQueue; rlq_limiter : option BandwidthLimiter }.

Definition newRateLimitedQueue (limiter : option BandwidthLimiter) : rateLimitedQueue :=
  mkRLQ (newSendQueue 8192) limiter.

(** rateLimitedQueue.send *)
Definition rlq_send (now : Z) (q : rateLimitedQueue) (data : list byte) (addr : UDPAddr)
    (p : sendPriority) : bool * rateLimitedQueue :=
  let '(ok, lim) :=
    match p with
    | priorityHigh => (true, rlq_limiter q)
    | priorityLow =>
        match rlq_limiter q with
        | None => (true, None)
        | Some _ => Allow now (rlq_limiter q) addr (Z.of_nat (length data))
        end
    end in
  if ok then let '(sent, sq) := sq_send (rlq_sq q) data addr p in (sent, mkRLQ sq lim)
  else (false, mkRLQ (rlq_sq q) lim).

(** rateLimitedQueue.sendBypass *)
Definition sendBypass (q : rateLimitedQueue) (data : list byte) (addr : UDPAddr)
    : bool * rateLimitedQueue :=
  let '(ok, sq) := sendBroadcast (rlq_sq q) data addr in (ok, mkRLQ sq (rlq_limiter q)).

(** ** Facts *)

Lemma writeAll_eq q l :
  writeAll q l = mkQueue (sq_ch q) (sq_broadcastCh q) (sq_maxSize q) (sq_out q ++ l).
Proof.
  revert q. induction l as [|e l IH]; intros q; cbn.
  - rewrite app_nil_r. by destruct q.
  - rewrite IH. unfold writeUDP. cbn. by rewrite <- app_assoc.
Qed.

Definition highs (l : list sendEntry) : list sendEntry := List.filter is_high l.

Lemma highs_app l1 l2 : highs (l1 ++ l2) = highs l1 ++ highs l2.
Proof. apply List.filter_app. Qed.

(** What a drain does to the packets: none lost, none duplicated; the
    high-priority ones are in the batch in channel order, the others are not. *)
Lemma drainHigh_spec ch batch deferred now ch' b d n :
  drainHigh ch batch deferred now = (ch', b, d, n) →
  Forall (fun e => is_high e = true) batch → Forall (fun e => is_high e = false) deferred →
  Forall (fun e => is_high e = false) now →
  n ++ b ++ d ++ ch' ≡ₚ now ++ batch ++ deferred ++ ch ∧
  b ++ highs ch' = batch ++ highs ch ∧
  Forall (fun e => is_high e = true) b ∧ Forall (fun e => is_high e = false) d ∧
  Forall (fun e => is_high e = false) n ∧ (length ch' ≤ length ch)%nat.
Proof.
  revert batch deferred now. induction ch as [|x ch IH]; intros batch deferred now; cbn [drainHigh].
  - intros [= <- <- <- <-] ???. done.
  - destruct (batchBufSize <=? length batch)%nat; [intros [= <- <- <- <-] ???; done|].
    destruct (is_high x) eqn:Ex; [|destruct (length deferred <? batchBufSize)%nat];
      intros Hd Hb Hdf Hn; (apply IH in Hd as (HP & HH & Hb' & Hd' & Hn' & Hl);
        [|try (apply Forall_app; split; [done|by constructor]); done..]);
      (split_and!; [|cbn [highs List.filter] in *; rewrite Ex; fold (highs ch)|done|done|done|simpl; lia]).
    all: rewrite ?HP, ?HH, <- ?app_assoc; cbn [app]; try done.
    all: rewrite ?(Permutation_middle batch), ?(Permutation_middle deferred); try done.
Qed.

Lemma drainLow_spec ch batch now ch' b n :
  drainLow ch batch now = (ch', b, n) →
  Forall (fun e => is_high e = false) batch → Forall (fun e => is_high e = true) now →
  n ++ b ++ ch' ≡ₚ now ++ batch ++ ch ∧
  n ++ highs ch' = now ++ highs ch ∧
  Forall (fun e => is_high e = false) b ∧ Forall (fun e => is_high e = true) n ∧
  (length ch' ≤ length ch)%nat.
Proof.
  revert batch now. induction ch as [|x ch IH]; intros batch now; cbn [drainLow].
  - intros [= <- <- <-] ??. done.
  - destruct (batchBufSize <=? length batch)%nat; [intros [= <- <- <-] ??; done|].
    destruct (is_high x) eqn:Ex; intros Hd Hb Hn;
      (apply IH in Hd as (HP & HH & Hb' & Hn' & Hl);
        [|try (apply Forall_app; split; [done|by constructor]); done..]);
      (split_and!; [|cbn [highs List.filter] in *; rewrite Ex; fold (highs ch)|done|done|simpl; lia]).
    all: rewrite ?HP, ?HH, <- ?app_assoc; cbn [app]; try done.
    all: rewrite ?(Permutation_middle batch); done.
Qed.

Lemma highs_all l : Forall (fun e => is_high e = true) l → highs l = l.
Proof. induction 1 as [|x l Hx Hl IH]; cbn; [done|]. unfold highs in IH. by rewrite Hx, IH. Qed.
Lemma highs_none l : Forall (fun e => is_high e = false) l → highs l = [].
Proof. induction 1 as [|x l Hx Hl IH]; cbn; [done|]. unfold highs in IH. by rewrite Hx, IH. Qed.

(** ** Iterations *)

(** Everything an iteration must preserve about a queue. *)
Record iter_facts (q q' : sendQueue) : Prop := {
  if_perm : sq_out q' ++ sq_ch q' ++ sq_broadcastCh q' ≡ₚ sq_out q ++ sq_ch q ++ sq_broadcastCh q;
  if_max : sq_maxSize q' = sq_maxSize q }.

Lemma run_main_spec q :
  sq_ch q ≠ [] →
  iter_facts q (run_main q) ∧ sq_broadcastCh (run_main q) = sq_broadcastCh q ∧
  (∃ w, sq_out (run_main q) = sq_out q ++ w ∧ highs w ++ highs (sq_ch (run_main q)) = highs (sq_ch q)) ∧
  (pending (run_main q) < pending q)%nat.
Proof.
  destruct q as [ch bc mx out]. cbn [sq_ch]. intros Hne. destruct ch as [|e ch]; [done|]. clear Hne.
  unfold run_main. cbn [sq_ch]. destruct (is_high e) eqn:He.
  - destruct (drainHigh ch [] [] []) as [[[ch' b] d] n] eqn:E.
    apply drainHigh_spec in E as (HP & HH & Hb & Hd & Hn & Hl); [|constructor..].
    rewrite !writeAll_eq. cbn. unfold pending. cbn.
    split_and!; [split; cbn; [|done]|done| |lia].
    + rewrite <- !app_assoc. cbn. do 2 f_equiv.
      rewrite (app_assoc d), (app_assoc b), (app_assoc n), HP. done.
    + eexists. split; [by rewrite <- !app_assoc|].
      rewrite !highs_app, (highs_all b), (highs_none d), (highs_none n) by done.
      cbn [highs List.filter app] in *. rewrite He. fold (highs ch) in *. fold (highs ch') in *.
      cbn. rewrite app_nil_r. by rewrite HH.
  - destruct (drainLow ch [e] []) as [[ch' b] n] eqn:E.
    apply drainLow_spec in E as (HP & HH & Hb & Hn & Hl); [|by repeat constructor..].
    rewrite !writeAll_eq. cbn. unfold pending. cbn.
    split_and!; [split; cbn; [|done]|done| |lia].
    + rewrite <- !app_assoc. f_equiv.
      rewrite (app_assoc b), (app_assoc n), HP. done.
    + eexists. split; [by rewrite <- !app_assoc|].
      rewrite !highs_app, (highs_all n), (highs_none b) by done.
      cbn [highs List.filter app] in *. rewrite He. fold (highs ch) in *. fold (highs ch') in *.
      by rewrite app_nil_r, HH.
Qed.

Lemma run_broadcast_spec q :
  sq_broadcastCh q ≠ [] → Forall (fun e => is_high e = false) (sq_broadcastCh q) →
  iter_facts q (run_broadcast q) ∧ sq_ch (run_broadcast q) = sq_ch q ∧
  Forall (fun e => is_high e = false) (sq_broadcastCh (run_broadcast q)) ∧
  highs (sq_out (run_broadcast q)) = highs (sq_out q) ∧
  (pending (run_broadcast q) < pending q)%nat.
Proof.
  destruct q as [ch bc mx out]. cbn [sq_broadcastCh]. intros Hne Hlow.
  destruct bc as [|e bc]; [done|]. clear Hne. apply Forall_cons in Hlow as [He Hbc].
  unfold run_broadcast. cbn [sq_broadcastCh]. rewrite writeAll_eq. unfold pending. cbn [sq_ch sq_broadcastCh set_bcast writeUDP sq_out sq_maxSize Datatypes.length].
  split_and!; [split; cbn [sq_out sq_ch sq_broadcastCh sq_maxSize]; [|done]|done| | |].
  - rewrite <- !app_assoc. f_equiv.
    transitivity (ch ++ (e :: take batchBufSize bc) ++ drop batchBufSize bc).
    + apply (Permutation_app_swap_app (e :: take batchBufSize bc)).
    + cbn [app]. by rewrite take_drop.
  - by apply Forall_drop.
  - rewrite !highs_app, (highs_none (take _ _)) by (by apply Forall_take).
    cbn. rewrite He. by rewrite !app_nil_r.
  - rewrite length_drop. lia.
Qed.

(** ** Traces *)

(** The sender and the run goroutine interleaved; the list collects the packets
    the senders were told are accepted. *)
Inductive sq_steps : sendQueue → list sendEntry → sendQueue → Prop :=
| steps_refl q : sq_steps q [] q
| steps_iter q q1 acc q2 : sq_iter q q1 → sq_steps q1 acc q2 → sq_steps q acc q2
| steps_send q d a p q1 acc q2 :
    sq_send q d a p = (true, q1) → sq_steps q1 acc q2 → sq_steps q (mkEntry d a p :: acc) q2
| steps_broadcast q d a q1 acc q2 :
    sendBroadcast q d a = (true, q1) → sq_steps q1 acc q2 →
    sq_steps q (mkEntry d a priorityLow :: acc) q2.

Definition sq_wf (q : sendQueue) : Prop := Forall (fun e => is_high e = false) (sq_broadcastCh q).

(** The packets the queue is responsible for: written or waiting. *)
Definition sq_all (q : sendQueue) : list sendEntry := sq_out q ++ sq_ch q ++ sq_broadcastCh q.
(** The high-priority ones, in the order they are or will be written. *)
Definition sq_highs (q : sendQueue) : list sendEntry := highs (sq_out q) ++ highs (sq_ch q).

Lemma sq_iter_sound q q' :
  sq_wf q → sq_iter q q' →
  sq_wf q' ∧ sq_all q' ≡ₚ sq_all q ∧ sq_highs q' = sq_highs q ∧ (pending q' < pending q)%nat.
Proof.
  intros Hwf Hi. revert Hwf. destruct Hi as [q1 Hne|q1 Hne]; intros Hwf.
  - destruct (run_main_spec q1 Hne) as ([HP _] & Hb & (w & Hw & Hh) & Hp).
    split_and!; [unfold sq_wf; by rewrite Hb|done| |done].
    unfold sq_highs. by rewrite Hw, highs_app, <- app_assoc, Hh.
  - destruct (run_broadcast_spec q1 Hne Hwf) as ([HP _] & Hc & Hl & Hh & Hp).
    split_and!; [done|done| |done]. unfold sq_highs. by rewrite Hh, Hc.
Qed.

Lemma sq_steps_sound q acc q' :
  sq_wf q → sq_steps q acc q' →
  sq_wf q' ∧ sq_all q' ≡ₚ sq_all q ++ acc ∧ sq_highs q' = sq_highs q ++ highs acc.
Proof.
  intros Hwf Hs. induction Hs as [q|q q1 acc q2 Hi Hs IH|q d a p q1 acc q2 Hq Hs IH|q d a q1 acc q2 Hq Hs IH].
  - split_and!; [done| |]; by rewrite app_nil_r.
  - destruct (sq_iter_sound _ _ Hwf Hi) as (Hwf1 & HP & HH & _).
    destruct (IH Hwf1) as (Hwf2 & HP2 & HH2).
    split_and!; [done|by rewrite HP2, HP|by rewrite HH2, HH].
  - unfold sq_send in Hq. destruct (_ <? _); [|done]. simplify_eq.
    destruct IH as (Hwf2 & HP2 & HH2); [done|]. split_and!; [done| |].
    + rewrite HP2. unfold sq_all. cbn [sq_out sq_ch sq_broadcastCh]. rewrite <- !app_assoc.
      do 2 f_equiv. cbn [app]. by rewrite <- Permutation_middle.
    + rewrite HH2. unfold sq_highs. cbn [sq_out sq_ch]. rewrite highs_app, <- !app_assoc.
      do 2 f_equal. cbn. by destruct (is_high _).
  - unfold sendBroadcast in Hq.
    assert (∀ l, highs (mkEntry d a priorityLow :: l) = highs l) as Hlow by done.
    destruct (_ <? _); simplify_eq.
    + destruct IH as (Hwf2 & HP2 & HH2);
        [unfold sq_wf; cbn; apply Forall_app; split; [done|by repeat constructor]|].
      split_and!; [done| |by rewrite Hlow, HH2].
      rewrite HP2. unfold sq_all. cbn [sq_out sq_ch sq_broadcastCh]. by rewrite <- !app_assoc.
    + destruct IH as (Hwf2 & HP2 & HH2); [done|]. split_and!; [done| |].
      * rewrite HP2. unfold sq_all, writeUDP. cbn [sq_out sq_ch sq_broadcastCh]. rewrite <- !app_assoc.
        f_equiv. cbn [app]. by rewrite (app_assoc (sq_ch q)), Permutation_middle, <- app_assoc.
      * rewrite HH2, Hlow. unfold sq_highs, writeUDP. cbn [sq_out sq_ch].
        rewrite highs_app. cbn. by rewrite app_nil_r.
Qed.

(** The send queue loses and duplicates nothing: over any interleaving of
    senders and the run loop, ended by Stop's drain, the packets written are
    exactly those the senders were told were accepted, and high-priority packets
    leave in the order they were accepted. *)
Theorem sendQueue_delivers size acc q :
  sq_steps (newSendQueue size) acc q →
  sq_out (drain q) ≡ₚ acc ∧ highs (sq_out (drain q)) = highs acc ∧ pending (drain q) = 0%nat.
Proof.
  intros Hs. assert (sq_wf (newSendQueue size)) as H0 by apply Forall_nil_2.
  destruct (sq_steps_sound _ _ _ H0 Hs) as (Hwf & HP & HH).
  unfold drain, drainBroadcast, drainMain. rewrite !writeAll_eq. cbn.
  unfold sq_all in HP. unfold sq_highs in HH. cbn in HP, HH.
  split_and!; [by rewrite <- app_assoc|..|done].
  rewrite !highs_app, (highs_none (sq_broadcastCh q)) by done. by rewrite app_nil_r, HH.
Qed.

Lemma sendQueue_delivers_witness :
  let q := newSendQueue 8192 in
  let q1 := snd (sq_send q (str "relay") (mkUDPAddr [] 1 []) priorityLow) in
  let q2 := snd (sq_send q1 (str "kick") (mkUDPAddr [] 2 []) priorityHigh) in
  let acc := [mkEntry (str "relay") (mkUDPAddr [] 1 []) priorityLow;
              mkEntry (str "kick") (mkUDPAddr [] 2 []) priorityHigh] in
  sq_steps q acc (run_main q2) ∧ sq_out (drain (run_main q2)) ≡ₚ acc.
Proof.
  cbv zeta. match goal with |- ?P ∧ _ => assert P as Hs end.
  { eapply steps_send; [reflexivity|]. eapply steps_send; [reflexivity|].
    eapply steps_iter; [by apply iter_main|apply steps_refl]. }
  split; [exact Hs|]. exact (proj1 (sendQueue_delivers _ _ _ Hs)).
Defined.

(** The run loop makes progress: an iteration is possible exactly when a
    packet is waiting, and each one writes at least one packet, so without new
    arrivals the queue empties in at most as many iterations as it holds
    packets. *)
Theorem sendQueue_progress q :
  sq_wf q →
  ((pending q = 0)%nat → ¬ ∃ q', sq_iter q q') ∧
  ((0 < pending q)%nat → ∃ q', sq_iter q q') ∧
  (∀ q', sq_iter q q' → (pending q' < pending q)%nat ∧ sq_wf q').
Proof.
  intros Hwf. unfold pending. split_and!.
  - intros H0 [q' Hi]. inversion Hi; subst; destruct (sq_ch q), (sq_broadcastCh q); simpl in *; done || lia.
  - intros Hp. destruct (sq_ch q) as [|e l] eqn:E.
    + destruct (sq_broadcastCh q) as [|e l] eqn:E2; [simpl in Hp; lia|].
      eexists. apply iter_broadcast. by rewrite E2.
    + eexists. apply iter_main. by rewrite E.
  - intros q' Hi. destruct (sq_iter_sound _ _ Hwf Hi) as (? & _ & _ & ?). done.
Qed.

Lemma sendQueue_progress_witness :
  let q := mkQueue [mkEntry (str "relay") (mkUDPAddr [] 1 []) priorityLow] [] 8192 [] in
  sq_wf q ∧ ∃ q', sq_iter q q'.
Proof.
  cbv zeta. match goal with |- ?P ∧ _ => assert P as Hw by apply Forall_nil_2 end.
  split; [exact Hw|]. apply (sendQueue_progress _ Hw). cbn. lia.
Defined.

(** ** A burst that overtakes *)

Definition test_entry (p : sendPriority) (n : Z) : sendEntry := mkEntry [z2b n] (mkUDPAddr [] 0 []) p.

(** One control packet, sixty-five relayed packets, a second control packet. *)
Definition burst_queue : sendQueue :=
  mkQueue (test_entry priorityHigh 0 :: map (test_entry priorityLow) (map Z.of_nat (seq 1 65))
           ++ [test_entry priorityHigh 100]) [] 8192 [].

(** The comments promise that high-priority packets are always sent before
    low-priority ones.  When more than 64 relay packets wait between two control
    packets, the 65th relay packet is written before the second control packet,
    and before the 64 relay packets queued ahead of it. *)
Theorem deferred_overflow_reorders :
  sq_ch (run_main burst_queue) = [] ∧
  sq_out (run_main burst_queue)
  = [test_entry priorityHigh 0; test_entry priorityLow 65; test_entry priorityHigh 100]
    ++ map (test_entry priorityLow) (map Z.of_nat (seq 1 64)).
Proof. split; vm_compute; reflexivity. Qed.
