(* ===== verification/Sha256.v ===== *)
(** * Sha256: SHA-256, HMAC and HKDF

    The primitives the authentication code calls: crypto/sha256 and crypto/hmac
    of Go's standard library, executable so that the handlers that verify an
    authentication code can be run, with their published test vectors. *)

From S2P Require Import Prelude.

Definition add32 (a b : Z) : Z := u32 (a + b).
Definition rotr (n x : Z) : Z := Z.lor (Z.shiftr x n) (u32 (Z.shiftl x (32 - n))).
Definition not32 (x : Z) : Z := 2 ^ 32 - 1 - x.

Definition sha_Ch (x y z : Z) : Z := Z.lxor (Z.land x y) (Z.land (not32 x) z).
Definition sha_Maj (x y z : Z) : Z := Z.lxor (Z.lxor (Z.land x y) (Z.land x z)) (Z.land y z).
Definition big_sigma0 (x : Z) : Z := Z.lxor (Z.lxor (rotr 2 x) (rotr 13 x)) (rotr 22 x).
Definition big_sigma1 (x : Z) : Z := Z.lxor (Z.lxor (rotr 6 x) (rotr 11 x)) (rotr 25 x).
Definition small_sigma0 (x : Z) : Z := Z.lxor (Z.lxor (rotr 7 x) (rotr 18 x)) (Z.shiftr x 3).
Definition small_sigma1 (x : Z) : Z := Z.lxor (Z.lxor (rotr 17 x) (rotr 19 x)) (Z.shiftr x 10).

(** The constants are the first 32 bits of the fractional parts of the cube roots
    (round constants) and square roots (initial state) of the first primes. *)
Definition is_prime (n : Z) : bool :=
  forallb (fun d => negb (n mod Z.of_nat d =? 0)) (seq 2 (Z.to_nat n - 2)).
Definition primes_to (n : nat) : list Z := List.filter is_prime (map Z.of_nat (seq 2 (n - 1))).

(** Largest [r] with [r^3 <= n], bit by bit. *)
Fixpoint cube_root (bits : nat) (n r : Z) : Z :=
  match bits with
  | O => r
  | S k => let r' := r + 2 ^ Z.of_nat k in cube_root k n (if r' * r' * r' <=? n then r' else r)
  end.

Definition sha_K : list Z :=
  Eval vm_compute in map (fun p => u32 (cube_root 40 (p * 2 ^ 96) 0)) (primes_to 311).
Definition sha_H0 : list Z :=
  Eval vm_compute in map (fun p => u32 (Z.sqrt (p * 2 ^ 64))) (primes_to 19).

(** Big-endian words of a block. *)
Fixpoint be_words (n : nat) (l : list byte) : list Z :=
  match n with
  | O => []
  | S n => get_be (take 4 l) :: be_words n (drop 4 l)
  end.

(** The message schedule, newest word first, extended one word at a time. *)
Fixpoint schedule (n : nat) (w : list Z) : list Z :=
  match n with
  | O => w
  | S n =>
      let at_ i := nth i w 0 in
      schedule n (add32 (add32 (small_sigma1 (at_ 1%nat)) (at_ 6%nat))
                        (add32 (small_sigma0 (at_ 14%nat)) (at_ 15%nat)) :: w)
  end.

Definition sha_round (st : list Z) (kw : Z * Z) : list Z :=
  match st with
  | [a; b; c; d; e; f; g; h] =>
      let t1 := add32 (add32 (add32 h (big_sigma1 e)) (sha_Ch e f g)) (add32 (fst kw) (snd kw)) in
      let t2 := add32 (big_sigma0 a) (sha_Maj a b c) in
      [add32 t1 t2; a; b; c; add32 d t1; e; f; g]
  | _ => st
  end.

Definition sha_block (h : list Z) (block : list byte) : list Z :=
  let w := reverse (schedule 48 (reverse (be_words 16 block))) in
  zip_with add32 h (foldl sha_round h (zip sha_K w)).

Fixpoint sha_blocks (n : nat) (h : list Z) (l : list byte) : list Z :=
  match n with
  | O => h
  | S n => sha_blocks n (sha_block h (take 64 l)) (drop 64 l)
  end.

(** One 0x80 byte, zeros to 56 modulo 64, and the length in bits. *)
Definition sha_pad (l : list byte) : list byte :=
  let n := Z.of_nat (length l) in
  let z := (55 - n) mod 64 in
  l ++ x80 :: zeros (Z.to_nat z) ++ put_be 8 (8 * n).

Definition Sum256 (l : list byte) : list byte :=
  let p := sha_pad l in
  concat (map (put_be 4) (sha_blocks (length p / 64)%nat sha_H0 p)).

(** hmac.New(sha256.New, key) applied to one message. *)
Definition HMAC_SHA256 (key msg : list byte) : list byte :=
  let key := if (64 <? length key)%nat then Sum256 key else key in
  let k := key ++ zeros (64 - length key) in
  let xor_with c := map (fun b => z2b (Z.lxor (b2z b) c)) k in
  Sum256 (xor_with 0x5c ++ Sum256 (xor_with 0x36 ++ msg)).

(** The first block of HKDF-Expand after HKDF-Extract without salt: 32 bytes. *)
Definition HKDF_SHA256_32 (secret info : list byte) : list byte :=
  let prk := HMAC_SHA256 [] secret in
  HMAC_SHA256 prk (info ++ [x01]).

(** ** Published vectors *)

(** Hexadecimal text of a digest. *)
Definition hex (l : list byte) : Z := get_be l.

Example Sum256_empty :
  hex (Sum256 []) = 0xe3b0c44298fc1c149afbf4c8996fb92427ae41e4649b934ca495991b7852b855.
Proof. vm_compute. reflexivity. Qed.

Example Sum256_abc :
  hex (Sum256 (str "abc")) = 0xba7816bf8f01cfea414140de5dae2223b00361a396177a9cb410ff61f20015ad.
Proof. vm_compute. reflexivity. Qed.

Example Sum256_two_blocks :
  hex (Sum256 (str "abcdbcdecdefdefgefghfghighijhijkijkljklmklmnlmnomnopnopq"))
  = 0x248d6a61d20638b8e5c026930c3e6039a33ce45964ff2167f6ecedd419db06c1.
Proof. vm_compute. reflexivity. Qed.

Example HMAC_rfc4231_case2 :
  hex (HMAC_SHA256 (str "Jefe") (str "what do ya want for nothing?"))
  = 0x5bdcc146bf60754e6a042426089575c75a003f089d2739839dec58b964ec3843.
Proof. vm_compute. reflexivity. Qed.

(** ** Lengths *)

Lemma length_sha_round st kw : length st = 8%nat → length (sha_round st kw) = 8%nat.
Proof. intros H. do 9 (destruct st as [|? st]; try discriminate). done. Qed.

Lemma length_sha_blocks n h l : length h = 8%nat → length (sha_blocks n h l) = 8%nat.
Proof.
  revert h l. induction n as [|n IH]; intros h l Hh; cbn [sha_blocks]; [done|].
  apply IH. unfold sha_block. rewrite length_zip_with.
  assert (∀ kws s, length s = 8%nat → length (foldl sha_round s kws) = 8%nat) as Hf.
  { induction kws as [|kw kws IHk]; intros s Hs; cbn [foldl]; [done|].
    by apply IHk, length_sha_round. }
  rewrite Hf by done. lia.
Qed.

Lemma length_Sum256 l : length (Sum256 l) = 32%nat.
Proof.
  unfold Sum256.
  pose proof (length_sha_blocks (length (sha_pad l) / 64)%nat sha_H0 (sha_pad l) eq_refl) as H.
  revert H. generalize (sha_blocks (length (sha_pad l) / 64)%nat sha_H0 (sha_pad l)). intros ws Hw.
  do 9 (destruct ws as [|? ws]; try discriminate). cbn [map concat].
  rewrite !length_app, !length_put_be. done.
Qed.

Lemma length_HMAC key msg : length (HMAC_SHA256 key msg) = 32%nat.
Proof. apply length_Sum256. Qed.

Lemma length_HKDF secret info : length (HKDF_SHA256_32 secret info) = 32%nat.
Proof. apply length_HMAC. Qed.

(** Kept folded by tactics; evaluation still unfolds them. *)
#[global] Opaque Sum256 HMAC_SHA256 HKDF_SHA256_32.
