(* ===== verification/Auth.v ===== *)
(** * Auth: challenge-response authentication

    src/internal/auth/auth.go and password.go. *)

From S2P Require Import Prelude GoNet Crc32 Protocol Messages Sha256.

Definition KeySize : nat := 32.
Definition ChallengeSize : nat := 16.
Definition HMACSize : nat := 32.
Definition MaxUint16 : Z := 65535.

(** [None] is nil: no password. *)
Definition DeriveKey (password roomID : list byte) : option (list byte) :=
  match password with
  | [] => None
  | _ => Some (HKDF_SHA256_32 password (str "GameTunnel:" ++ roomID))
  end.

(** [rand] is what rand.Read put in the buffer, or its failure. *)
Definition GenerateChallenge (rand : option (list byte)) : option (list byte) :=
  copy_into (zeros ChallengeSize) <$> rand.

(** The message that is authenticated. *)
Definition transcript (challenge roomID username : list byte) (remoteAddr : option (list byte)) : list byte :=
  let len n := put_be 2 (Z.of_nat n) in
  let m := challenge in
  let m := m ++ len (length roomID) in
  let m := m ++ roomID in
  let m := m ++ len (length username) in
  let m := m ++ username in
  match remoteAddr with
  | Some addrStr => (m ++ len (length addrStr)) ++ addrStr
  | None => m ++ len 0%nat
  end.

Definition ComputeHMAC (key : option (list byte)) (challenge roomID username : list byte)
    (remoteAddr : option UDPAddr) : option (list byte) :=
  match key with
  | None | Some [] => None
  | Some key =>
      if (MaxUint16 <? Z.of_nat (length roomID)) || (MaxUint16 <? Z.of_nat (length username)) then None
      else match remoteAddr with
           | Some a =>
               let addrStr := UDPAddr_String a in
               if MaxUint16 <? Z.of_nat (length addrStr) then None
               else Some (HMAC_SHA256 key (transcript challenge roomID username (Some addrStr)))
           | None => Some (HMAC_SHA256 key (transcript challenge roomID username None))
           end
  end.

(** hmac.Equal: equal contents; a nil slice equals an empty one. *)
Definition hmac_Equal (a : list byte) (b : option (list byte)) : bool :=
  bool_decide (a = default [] b).

Definition VerifyHMAC (key : option (list byte)) (clientHMAC challenge roomID username : list byte)
    (remoteAddr : option UDPAddr) : bool :=
  if (length (default [] key) =? 0)%nat || (length clientHMAC =? 0)%nat then false
  else let expected := ComputeHMAC key challenge roomID username remoteAddr in
       hmac_Equal clientHMAC expected.

(** ** Password strength *)

(** strings.ToLower as far as equality with ASCII words can tell: ASCII capitals,
    and the two other code points whose lower case is an ASCII letter (U+0130
    and U+212A). *)
Fixpoint lower_ascii (s : list byte) : list byte :=
  match s with
  | xc4 :: ((xb0 :: s') as s1) => "i"%byte :: lower_ascii s'
  | xe2 :: ((x84 :: ((xaa :: s') as s2)) as s1) => "k"%byte :: lower_ascii s'
  | b :: s => fold_case b :: lower_ascii s
  | [] => []
  end.

Definition weak_words : list (list byte) :=
  [str "1234"; str "password"; str "admin"; str "test"; str "abc"; str "1111"; str "pass";
   str "root"; str "default"].

Inductive strength := StrengthNone | StrengthWeak | StrengthModerate | StrengthStrong.
#[export] Instance strength_eq_dec : EqDecision strength.
Proof. solve_decision. Defined.

(** The level and the number of warnings. *)
Definition CheckPasswordStrength (password : list byte) : strength * nat :=
  match password with
  | [] => (StrengthNone, 0%nat)
  | _ =>
      let n := length password in
      let warnings := if (n <? 4)%nat then 1%nat else if (n <? 8)%nat then 1%nat else 0%nat in
      let lower := lower_ascii password in
      let isWeakWord := existsb (fun w => bool_decide (lower = w)) weak_words in
      let warnings := if isWeakWord then S warnings else warnings in
      let level :=
        if (12 <=? n)%nat && negb isWeakWord && (warnings =? 0)%nat then StrengthStrong
        else if (8 <=? n)%nat && negb isWeakWord then StrengthModerate
        else StrengthWeak in
      (level, warnings)
  end.

(** ** Facts *)

Lemma DeriveKey_spec password roomID :
  match DeriveKey password roomID with
  | None => password = []
  | Some k => password ≠ [] ∧ length k = KeySize
  end.
Proof.
  unfold DeriveKey. destruct password; [done|]. split; [congruence|apply length_HKDF].
Qed.

Lemma put_be_inj n a b :
  0 ≤ a < 256 ^ Z.of_nat n → 0 ≤ b < 256 ^ Z.of_nat n → put_be n a = put_be n b → a = b.
Proof.
  intros Ha Hb H. unfold put_be in H. apply (inj reverse) in H.
  by rewrite <- (get_put_le_small n a), H, get_put_le_small.
Qed.

(** length-prefixed field is recovered from any continuation. *)
Lemma field_inj (l1 l2 r1 r2 : list byte) :
  Z.of_nat (length l1) < 65536 → Z.of_nat (length l2) < 65536 →
  put_be 2 (Z.of_nat (length l1)) ++ l1 ++ r1 = put_be 2 (Z.of_nat (length l2)) ++ l2 ++ r2 →
  l1 = l2 ∧ r1 = r2.
Proof.
  intros H1 H2 H. apply app_inj_1 in H as [Hl H]; [|by rewrite !length_put_be].
  apply put_be_inj in Hl; [|change (256 ^ Z.of_nat 2) with 65536; lia..].
  apply app_inj_1 in H; [done|lia].
Qed.

(** What is authenticated determines the challenge, the room, the user name
    and the address: two different logins never have the same transcript, even
    with names chosen to move bytes from one field into the next. *)
Theorem transcript_inj c1 c2 r1 r2 u1 u2 (a1 a2 : list byte) :
  length c1 = length c2 →
  Z.of_nat (length r1) ≤ MaxUint16 → Z.of_nat (length r2) ≤ MaxUint16 →
  Z.of_nat (length u1) ≤ MaxUint16 → Z.of_nat (length u2) ≤ MaxUint16 →
  Z.of_nat (length a1) ≤ MaxUint16 → Z.of_nat (length a2) ≤ MaxUint16 →
  transcript c1 r1 u1 (Some a1) = transcript c2 r2 u2 (Some a2) →
  c1 = c2 ∧ r1 = r2 ∧ u1 = u2 ∧ a1 = a2.
Proof.
  unfold MaxUint16. intros Hc Hr1 Hr2 Hu1 Hu2 Ha1 Ha2 H. unfold transcript in H.
  rewrite <- !app_assoc in H. apply app_inj_1 in H as [-> H]; [|done].
  apply field_inj in H as [-> H]; [|lia..]. apply field_inj in H as [-> H]; [|lia..].
  assert (a1 = a2) as ->; [|done].
  apply app_inj_1 in H as [_ H]; [done|by rewrite !length_put_be].
Qed.

Lemma transcript_inj_witness :
  let c := zeros 16 in
  length c = length c ∧
  (transcript c (str "ab") (str "c") (Some (str "x")) = transcript c (str "a") (str "bc") (Some (str "x"))
   → False).
Proof.
  cbv zeta. split; [reflexivity|]. intros H.
  apply (transcript_inj (zeros 16) (zeros 16) (str "ab") (str "a") (str "c") (str "bc")
           (str "x") (str "x")) in H as (_ & H & _); [discriminate|done..].
Defined.

(** A client that computed its code with the key of the room, over the
    challenge it was sent and the address it registered from, is accepted; and
    whatever is accepted is that code. *)
Theorem VerifyHMAC_spec key code challenge roomID username a :
  length key = KeySize →
  Z.of_nat (length roomID) ≤ MaxUint16 → Z.of_nat (length username) ≤ MaxUint16 →
  Z.of_nat (length (UDPAddr_String a)) ≤ MaxUint16 →
  VerifyHMAC (Some key) code challenge roomID username (Some a) = true ↔
  code = HMAC_SHA256 key (transcript challenge roomID username (Some (UDPAddr_String a))).
Proof.
  intros Hk Hr Hu Ha. unfold VerifyHMAC, ComputeHMAC.
  change (default [] (Some key)) with key. rewrite Hk.
  destruct (Z.ltb_spec MaxUint16 (Z.of_nat (length roomID))); [lia|].
  destruct (Z.ltb_spec MaxUint16 (Z.of_nat (length username))); [lia|].
  destruct (Z.ltb_spec MaxUint16 (Z.of_nat (length (UDPAddr_String a)))); [lia|].
  destruct key as [|k0 key]; [done|]. cbn [orb Nat.eqb KeySize].
  set (mac := HMAC_SHA256 _ _). pose proof (length_HMAC (k0 :: key)
    (transcript challenge roomID username (Some (UDPAddr_String a)))) as Hm. fold mac in Hm.
  destruct (Nat.eqb_spec (length code) 0) as [E|E].
  - split; [done|]. intros ->. lia.
  - unfold hmac_Equal. cbn [default id]. by rewrite bool_decide_eq_true.
Qed.

Lemma VerifyHMAC_spec_witness :
  let key := default [] (DeriveKey (str "secret") (str "room")) in
  let a := mkUDPAddr [xcb; x00; x71; x05] 40000 [] in
  let code := HMAC_SHA256 key (transcript (zeros 16) (str "room") (str "bob") (Some (UDPAddr_String a))) in
  VerifyHMAC (Some key) code (zeros 16) (str "room") (str "bob") (Some a) = true.
Proof.
  cbv zeta. apply VerifyHMAC_spec; [vm_compute; reflexivity|vm_compute; discriminate..|reflexivity].
Defined.
