(* ===== verification/Cipher.v ===== *)
(** * Cipher: packet encryption and replay protection

    src/internal/crypto/crypto.go.  ChaCha20-Poly1305 (golang.org/x/crypto) is an
    interface: what Seal produces Open accepts, with a 16-byte tag. *)

From S2P Require Import Prelude GoNet Crc32 Protocol Messages Sha256.

Definition EncVersion : byte := x01.
Definition cipher_KeySize : nat := 32.
Definition NonceSize : nat := 12.
Definition TagSize : nat := 16.
Definition Overhead : nat := 1 + NonceSize + TagSize.
Definition replayWindowSize : Z := 64.

Definition DirClientToServer : list byte := [x00; x00; x00; x01].
Definition DirServerToClient : list byte := [x00; x00; x00; x02].
Definition DirClientToClient : list byte := [x00; x00; x00; x03].

(** The AEAD construction, by key and nonce. *)
Class AEAD := {
  Seal : list byte → list byte → list byte → list byte;
  Open : list byte → list byte → list byte → option (list byte);
  Open_Seal : ∀ key nonce pt, Open key nonce (Seal key nonce pt) = Some pt;
  length_Seal : ∀ key nonce pt, length (Seal key nonce pt) = (length pt + TagSize)%nat
}.

Record Cipher := mkCipher {
  c_key : list byte; c_counter : Z; c_dirTag : list byte;
  c_replayCounter : Z; c_replayBitmap : Z }.

Inductive crypto_err := ErrKeySize | ErrRandom | ErrDstCapacity | ErrTooShort | ErrVersion | ErrReplay | ErrAuth.

Definition initCounter (rand : option (list byte)) : option Z :=
  (fun b => Z.land (get_le (copy_into (zeros 8) b)) (2 ^ 48 - 1)) <$> rand.

Definition NewCipher (key dirTag : list byte) (rand : option (list byte)) : go crypto_err Cipher :=
  if negb (length key =? cipher_KeySize)%nat then Err ErrKeySize else
  match initCounter rand with
  | None => Err ErrRandom
  | Some ctr => Ok (mkCipher key ctr dirTag 0 0)
  end.

(** The counter wraps at 64 bits. *)
Definition makeNonce (c : Cipher) : list byte * Cipher :=
  let ctr := u64 (c_counter c + 1) in
  (put_le 8 ctr ++ c_dirTag c,
   mkCipher (c_key c) ctr (c_dirTag c) (c_replayCounter c) (c_replayBitmap c)).

Section with_aead.
Context `{AEAD}.

(** nil plaintext gives nil. *)
Definition Encrypt (c : Cipher) (plaintext : option (list byte)) : option (list byte) * Cipher :=
  match plaintext with
  | None => (None, c)
  | Some pt =>
      let '(nonce, c) := makeNonce c in
      (Some ([EncVersion] ++ nonce ++ Seal (c_key c) nonce pt), c)
  end.

(** [room] is [cap(dst) - len(dst)]. *)
Definition EncryptTo (c : Cipher) (dst : list byte) (room : nat) (plaintext : option (list byte))
    : go crypto_err (list byte) * Cipher :=
  match plaintext with
  | None => (Ok dst, c)
  | Some pt =>
      if (room <? Overhead + length pt)%nat then (Err ErrDstCapacity, c) else
      let '(nonce, c) := makeNonce c in
      (Ok (dst ++ [EncVersion] ++ nonce ++ Seal (c_key c) nonce pt), c)
  end.

Definition checkReplayWindow (c : Cipher) (ctr : Z) : bool * Cipher :=
  let highest := c_replayCounter c in
  let bitmap := c_replayBitmap c in
  let upd h b := mkCipher (c_key c) (c_counter c) (c_dirTag c) h b in
  if highest <? ctr then
    let shift := ctr - highest in
    let b := if shift <? replayWindowSize then Z.lor (u64 (Z.shiftl bitmap shift)) 1 else 1 in
    (true, upd ctr b)
  else
    let diff := highest - ctr in
    if replayWindowSize <=? diff then (false, c)
    else
      let bit := u64 (Z.shiftl 1 diff) in
      if negb (Z.land bitmap bit =? 0) then (false, c)
      else (true, upd highest (Z.lor bitmap bit)).

Definition DecryptInto (c : Cipher) (dst data : list byte) : go crypto_err (list byte) * Cipher :=
  if (length data <? Overhead)%nat then (Err ErrTooShort, c) else
  match data with
  | v :: rest =>
      if negb (bool_decide (v = EncVersion)) then (Err ErrVersion, c) else
      let nonce := take NonceSize rest in
      let ciphertext := drop NonceSize rest in
      let ctr := get_le (take 8 nonce) in
      let '(ok, c) := checkReplayWindow c ctr in
      if negb ok then (Err ErrReplay, c) else
      match Open (c_key c) nonce ciphertext with
      | Some pt => (Ok (dst ++ pt), c)
      | None => (Err ErrAuth, c)
      end
  | [] => (Panic, c)
  end.

Definition Decrypt (c : Cipher) (data : list byte) : go crypto_err (list byte) * Cipher :=
  DecryptInto c [] data.
End with_aead.

Definition IsEncrypted (data : list byte) : bool :=
  match data with v :: _ => bool_decide (v = EncVersion) | [] => false end.

(** An authenticated encoding without secrecy, to run the code on. *)
Program Definition tag_only_aead : AEAD := {|
  Seal key nonce pt := pt ++ take 16 (HMAC_SHA256 key (nonce ++ pt));
  Open key nonce ct :=
    let pt := take (length ct - 16) ct in
    if bool_decide (drop (length ct - 16) ct = take 16 (HMAC_SHA256 key (nonce ++ pt)))
    then Some pt else None
|}.
Next Obligation.
  intros key nonce pt. cbn beta zeta.
  set (tag := take 16 _). assert (length tag = 16%nat) as Ht
    by (unfold tag; rewrite length_take, length_HMAC; done).
  rewrite length_app, Ht. replace (length pt + 16 - 16)%nat with (length pt) by lia.
  rewrite take_app_length, drop_app_length. fold tag. by rewrite bool_decide_eq_true_2.
Qed.
Next Obligation.
  intros key nonce pt. cbn beta. rewrite length_app, length_take, length_HMAC. done.
Qed.

(** ** The replay window *)

(** The specification: the set of counters accepted so far. *)
Record window_spec := mkSpec { ws_highest : Z; ws_seen : gset Z }.

Definition spec_accepts (s : window_spec) (ctr : Z) : bool :=
  (ws_highest s <? ctr) ||
  ((ws_highest s - ctr <? replayWindowSize) && negb (bool_decide (ctr ∈ ws_seen s))).

Definition spec_step (s : window_spec) (ctr : Z) : window_spec :=
  if spec_accepts s ctr then mkSpec (Z.max (ws_highest s) ctr) ({[ctr]} ∪ ws_seen s) else s.

(** The bitmap holds the accepted counters of the last 64 below the highest. *)
Record window_rel (c : Cipher) (s : window_spec) : Prop := {
  wr_highest : c_replayCounter c = ws_highest s;
  wr_range : 0 ≤ ws_highest s < 2 ^ 64;
  wr_bitmap_range : 0 ≤ c_replayBitmap c < 2 ^ 64;
  wr_bits : ∀ d, 0 ≤ d < replayWindowSize →
    Z.testbit (c_replayBitmap c) d = bool_decide (ws_highest s - d ∈ ws_seen s);
  wr_seen : ∀ x, x ∈ ws_seen s → 0 ≤ x ≤ ws_highest s }.

Lemma testbit_u64 x d : 0 ≤ d → Z.testbit (u64 x) d = (d <? 64) && Z.testbit x d.
Proof.
  intros Hd. unfold u64. destruct (Z.ltb_spec d 64).
  - by rewrite Z.mod_pow2_bits_low by lia.
  - by rewrite Z.mod_pow2_bits_high by lia.
Qed.

Lemma land_bit_zero b d : 0 ≤ d < 64 → (Z.land b (u64 (Z.shiftl 1 d)) =? 0) = negb (Z.testbit b d).
Proof.
  intros Hd. assert (u64 (Z.shiftl 1 d) = 2 ^ d) as ->.
  { rewrite Z.shiftl_1_l. unfold u64. apply Z.mod_small. split; [lia|]. apply Z.pow_lt_mono_r; lia. }
  destruct (Z.testbit b d) eqn:E; cbn [negb].
  - apply Z.eqb_neq. intros H0. assert (Z.testbit (Z.land b (2 ^ d)) d = true) as H1
      by (rewrite Z.land_spec, E, Z.pow2_bits_true by lia; done).
    by rewrite H0, Z.bits_0 in H1.
  - apply Z.eqb_eq. apply Z.bits_inj_0. intros n. rewrite Z.land_spec.
    destruct (Z.lt_ge_cases n 0); [by rewrite Z.testbit_neg_r|].
    rewrite Z.pow2_bits_eqb by lia. destruct (Z.eqb_spec d n) as [->|]; [by rewrite E|].
    apply andb_false_r.
Qed.

Lemma lor_range a b : 0 ≤ a < 2 ^ 64 → 0 ≤ b < 2 ^ 64 → 0 ≤ Z.lor a b < 2 ^ 64.
Proof.
  intros Ha Hb. assert (0 ≤ Z.lor a b) as H0 by (apply Z.lor_nonneg; lia). split; [done|].
  destruct (Z.eq_dec (Z.lor a b) 0) as [->|Hne]; [lia|].
  apply Z.log2_lt_pow2; [lia|]. rewrite Z.log2_lor by lia. apply Z.max_lub_lt.
  - destruct (Z.eq_dec a 0) as [->|]; [exact eq_refl|]. apply Z.log2_lt_pow2; lia.
  - destruct (Z.eq_dec b 0) as [->|]; [exact eq_refl|]. apply Z.log2_lt_pow2; lia.
Qed.

Lemma bit_of_diff d : 0 ≤ d < 64 → 0 ≤ u64 (Z.shiftl 1 d) < 2 ^ 64 ∧
  ∀ n, 0 ≤ n → Z.testbit (u64 (Z.shiftl 1 d)) n = bool_decide (n = d).
Proof.
  intros Hd. assert (u64 (Z.shiftl 1 d) = 2 ^ d) as ->.
  { rewrite Z.shiftl_1_l. unfold u64. apply Z.mod_small. split; [lia|]. apply Z.pow_lt_mono_r; lia. }
  split; [split; [lia|apply Z.pow_lt_mono_r; lia]|].
  intros n Hn. rewrite Z.pow2_bits_eqb by lia. case_bool_decide; [subst; apply Z.eqb_refl|].
  by apply Z.eqb_neq.
Qed.

(** One packet: the code decides as the specification does. *)
Lemma checkReplayWindow_refines c s ctr :
  window_rel c s → 0 ≤ ctr < 2 ^ 64 →
  fst (checkReplayWindow c ctr) = spec_accepts s ctr ∧
  window_rel (snd (checkReplayWindow c ctr)) (spec_step s ctr).
Proof.
  intros [Hh Hr Hbr Hb Hs] Hc. unfold checkReplayWindow, spec_step, spec_accepts, replayWindowSize in *.
  rewrite Hh. destruct (Z.ltb_spec (ws_highest s) ctr) as [Hnew|Hold]; cbn [orb fst snd].
  - split; [done|]. rewrite Z.max_r by lia.
    split; cbn [c_replayCounter c_replayBitmap ws_highest ws_seen]; [done|lia| | |].
    + destruct (Z.ltb_spec (ctr - ws_highest s) 64); [|lia].
      apply lor_range; [apply u64_range|lia].
    + intros d Hd. unfold replayWindowSize in Hd. destruct (Z.ltb_spec (ctr - ws_highest s) 64) as [Hsh|Hsh].
      * rewrite Z.lor_spec, testbit_u64, Z.shiftl_spec by lia.
        destruct (Z.ltb_spec d 64); [|lia]. cbn [andb].
        destruct (decide (d = 0)) as [->|Hd0].
        { rewrite orb_comm. symmetry. apply bool_decide_eq_true_2. set_solver by lia. }
        assert (Z.testbit 1 d = false) as -> by (rewrite Z.bits_above_log2; [done|lia|cbn; lia]).
        rewrite orb_false_r. destruct (Z.lt_ge_cases (d - (ctr - ws_highest s)) 0) as [Hlow|Hin].
        -- rewrite Z.testbit_neg_r by lia. symmetry. apply bool_decide_eq_false_2.
           intros [Hx%elem_of_singleton|Hx]%elem_of_union; [lia|]. apply Hs in Hx. lia.
        -- rewrite Hb by lia. apply bool_decide_ext.
           replace (ws_highest s - (d - (ctr - ws_highest s))) with (ctr - d) by lia.
           rewrite elem_of_union, elem_of_singleton. split; [by right|intros [?|?]; [lia|done]].
      * destruct (decide (d = 0)) as [->|Hd0].
        { symmetry. apply bool_decide_eq_true_2. set_solver by lia. }
        assert (Z.testbit 1 d = false) as -> by (rewrite Z.bits_above_log2; [done|lia|cbn; lia]).
        symmetry. apply bool_decide_eq_false_2.
        intros [Hx%elem_of_singleton|Hx]%elem_of_union; [lia|]. apply Hs in Hx. lia.
    + intros x [->%elem_of_singleton|Hx]%elem_of_union; [lia|]. apply Hs in Hx. lia.
  - destruct (Z.leb_spec 64 (ws_highest s - ctr)) as [Hfar|Hnear];
      destruct (Z.ltb_spec (ws_highest s - ctr) 64); try lia; cbn [andb fst snd]; [done|].
    rewrite land_bit_zero by lia. rewrite Hb by lia.
    replace (ws_highest s - (ws_highest s - ctr)) with ctr by lia. rewrite negb_involutive.
    destruct (decide (ctr ∈ ws_seen s)) as [Hin|Hnin].
    + rewrite bool_decide_eq_true_2 by done. cbn. by split.
    + rewrite bool_decide_eq_false_2 by done. cbn [negb fst snd]. split; [done|].
      destruct (bit_of_diff (ws_highest s - ctr)) as [Hbit1 Hbit2]; [lia|].
      rewrite Z.max_l by lia. split; cbn [c_replayCounter c_replayBitmap ws_highest ws_seen].
      * done.
      * done.
      * by apply lor_range.
      * intros d Hd. unfold replayWindowSize in Hd. rewrite Z.lor_spec, Hb, Hbit2 by lia. rewrite <- bool_decide_or.
        apply bool_decide_ext. rewrite elem_of_union, elem_of_singleton. split.
        -- intros [?|?]; [by right|left; lia].
        -- intros [?|?]; [right; lia|by left].
      * intros x [->%elem_of_singleton|Hx]%elem_of_union; [lia|by apply Hs].
Qed.

Definition window0 : window_spec := mkSpec 0 ∅.

Lemma window_rel_new c :
  c_replayCounter c = 0 → c_replayBitmap c = 0 → window_rel c window0.
Proof.
  intros H1 H2. split; cbn; rewrite ?H1, ?H2; try lia.
  - intros d Hd. rewrite Z.bits_0. symmetry. by apply bool_decide_eq_false_2.
  - done.
Qed.

(** The decisions of the code on a list of received counters. *)
Fixpoint window_run (c : Cipher) (l : list Z) : list bool * Cipher :=
  match l with
  | [] => ([], c)
  | ctr :: l => let '(ok, c) := checkReplayWindow c ctr in
                let '(oks, c) := window_run c l in (ok :: oks, c)
  end.

Fixpoint spec_run (s : window_spec) (l : list Z) : list bool :=
  match l with
  | [] => []
  | ctr :: l => spec_accepts s ctr :: spec_run (spec_step s ctr) l
  end.

Lemma window_run_refines c s l :
  window_rel c s → Forall (fun x => 0 ≤ x < 2 ^ 64) l → fst (window_run c l) = spec_run s l.
Proof.
  revert c s. induction l as [|x l IH]; intros c s Hrel Hl; [done|].
  apply Forall_cons in Hl as [Hx Hl]. destruct (checkReplayWindow_refines c s x Hrel Hx) as [He Hr].
  cbn [window_run spec_run]. destruct (checkReplayWindow c x) as [ok c'].
  cbn [fst snd] in He, Hr. specialize (IH _ _ Hr Hl). destruct (window_run c' l) as [oks c''].
  cbn [fst] in *. by rewrite He, IH.
Qed.

(** Accepted counters are pairwise distinct. *)
Fixpoint accepted (l : list Z) (oks : list bool) : list Z :=
  match l, oks with
  | x :: l, true :: oks => x :: accepted l oks
  | _ :: l, false :: oks => accepted l oks
  | _, _ => []
  end.

Lemma spec_run_once s l :
  (∀ x, x ∈ ws_seen s → x ≤ ws_highest s) →
  NoDup (accepted l (spec_run s l)) ∧ ∀ x, x ∈ accepted l (spec_run s l) → x ∉ ws_seen s.
Proof.
  revert s. induction l as [|x l IH]; intros s Hs; cbn [spec_run accepted].
  - split; [constructor|]. intros x Hx. by apply not_elem_of_nil in Hx.
  - unfold spec_step. destruct (spec_accepts s x) eqn:E; [|by apply IH].
    assert (x ∉ ws_seen s) as Hnew.
    { intros Hin. unfold spec_accepts in E. rewrite (bool_decide_eq_true_2 _ Hin) in E.
      rewrite andb_false_r, orb_false_r in E. apply Z.ltb_lt in E. specialize (Hs _ Hin). lia. }
    destruct (IH (mkSpec (Z.max (ws_highest s) x) ({[x]} ∪ ws_seen s))) as [Hnd Hout].
    { cbn. intros y [->%elem_of_singleton|Hy]%elem_of_union; [lia|]. specialize (Hs _ Hy). lia. }
    cbn [ws_seen] in Hout. split.
    + constructor; [|done]. intros Hin. apply Hout in Hin. set_solver.
    + intros y [->|Hy]%elem_of_cons; [done|]. apply Hout in Hy. set_solver.
Qed.

(** C16: The 64-bit window decides every received counter exactly as the
    specification does (higher than all so far, or among the last 64 and not yet
    accepted), so over any sequence of received packets no counter is accepted
    twice. *)
Theorem replay_window_correct key dirTag ctr0 l :
  Forall (fun x => 0 ≤ x < 2 ^ 64) l →
  let oks := fst (window_run (mkCipher key ctr0 dirTag 0 0) l) in
  oks = spec_run window0 l ∧ NoDup (accepted l oks).
Proof.
  intros Hl. cbv zeta. rewrite (window_run_refines _ window0) by (by try apply window_rel_new).
  split; [done|]. apply (spec_run_once window0). intros x Hx. by apply not_elem_of_empty in Hx.
Qed.

Lemma replay_window_correct_witness :
  let l := [5; 3; 5; 100; 36; 37; 37] in
  Forall (fun x => 0 ≤ x < 2 ^ 64) l ∧
  fst (window_run (mkCipher [] 0 [] 0 0) l) = [true; true; false; true; false; true; false] ∧
  NoDup (accepted l (fst (window_run (mkCipher [] 0 [] 0 0) l))).
Proof.
  cbv zeta. match goal with |- ?P ∧ _ => assert P as H by (repeat constructor; lia) end.
  split; [exact H|]. split; [vm_compute; reflexivity|]. by apply replay_window_correct.
Defined.

(** ** Streams of packets *)

Section streams.
Context `{AEAD}.

(** Encrypting a list of packets in order. *)
Fixpoint encrypt_all (c : Cipher) (pts : list (list byte)) : list (list byte) * Cipher :=
  match pts with
  | [] => ([], c)
  | pt :: pts =>
      let '(p, c) := Encrypt c (Some pt) in
      let '(ps, c) := encrypt_all c pts in (default [] p :: ps, c)
  end.

(** Decrypting whatever arrives, in order. *)
Fixpoint decrypt_all (c : Cipher) (ps : list (list byte)) : list (go crypto_err (list byte)) * Cipher :=
  match ps with
  | [] => ([], c)
  | p :: ps => let '(r, c) := Decrypt c p in let '(rs, c) := decrypt_all c ps in (r :: rs, c)
  end.

(** The nonce field of a packet. *)
Definition nonce_of (packet : list byte) : list byte := take NonceSize (drop 1 packet).

Definition packet_of (key dirTag : list byte) (ctr : Z) (pt : list byte) : list byte :=
  [EncVersion] ++ (put_le 8 ctr ++ dirTag) ++ Seal key (put_le 8 ctr ++ dirTag) pt.

Lemma encrypt_all_eq c pts :
  fst (encrypt_all c pts)
  = imap (fun i pt => packet_of (c_key c) (c_dirTag c) (u64 (c_counter c + 1 + Z.of_nat i)) pt) pts.
Proof.
  revert c. induction pts as [|pt pts IH]; intros c; [done|].
  cbn [encrypt_all Encrypt makeNonce]. set (c' := mkCipher _ _ _ _ _).
  specialize (IH c'). destruct (encrypt_all c' pts) as [ps c'']. cbn [fst] in *.
  cbn [imap]. rewrite Z.add_0_r. f_equal. rewrite IH. unfold c'. cbn [c_key c_dirTag c_counter].
  apply imap_ext. intros i x _. cbn [compose]. f_equal.
  unfold u64. rewrite <- Z.add_assoc, Zplus_mod_idemp_l. f_equal. lia.
Qed.

Lemma nonce_of_packet key dirTag ctr pt :
  length dirTag = 4%nat → nonce_of (packet_of key dirTag ctr pt) = put_le 8 ctr ++ dirTag.
Proof.
  intros Hd. unfold nonce_of, packet_of. rewrite (drop_app_length' [EncVersion]) by done.
  by rewrite take_app_length' by (rewrite length_app, length_put_le; unfold NonceSize; lia).
Qed.

(** One cipher never uses a nonce twice: the nonces of up to 2^64
    consecutive packets are pairwise distinct, from any starting counter and
    across the counter's wrap-around. *)
Theorem nonces_distinct c pts :
  length (c_dirTag c) = 4%nat → Z.of_nat (length pts) ≤ 2 ^ 64 →
  NoDup (map nonce_of (fst (encrypt_all c pts))).
Proof.
  intros Hd Hlen. rewrite encrypt_all_eq. apply NoDup_alt. intros i j x Hi Hj.
  rewrite list_lookup_fmap, list_lookup_imap in Hi, Hj.
  destruct (pts !! i) as [p|] eqn:Ei; [|done]. destruct (pts !! j) as [q|] eqn:Ej; [|done].
  cbn [fmap option_fmap option_map] in Hi, Hj. apply (inj Some) in Hi as <-. apply (inj Some) in Hj.
  rewrite !nonce_of_packet in Hj by done.
  apply app_inv_tail in Hj. apply (f_equal get_le) in Hj. rewrite !get_put_le in Hj.
  apply lookup_lt_Some in Ei, Ej.
  change (256 ^ Z.of_nat 8) with (2 ^ 64) in Hj. unfold u64 in Hj. rewrite !Z.mod_mod in Hj by lia.
  pose proof (Z.div_mod (c_counter c + 1 + Z.of_nat i) (2 ^ 64) ltac:(lia)).
  pose proof (Z.div_mod (c_counter c + 1 + Z.of_nat j) (2 ^ 64) ltac:(lia)).
  set (qi := (c_counter c + 1 + Z.of_nat i) / 2 ^ 64) in *.
  set (qj := (c_counter c + 1 + Z.of_nat j) / 2 ^ 64) in *.
  rewrite Hj in *. assert (qi = qj) by nia. lia.
Qed.

Lemma Decrypt_packet c key dirTag ctr pt :
  c_key c = key → length dirTag = 4%nat → 0 ≤ ctr < 2 ^ 64 →
  Decrypt c (packet_of key dirTag ctr pt)
  = let '(ok, c') := checkReplayWindow c ctr in
    (if ok then Ok pt else Err ErrReplay, c').
Proof.
  intros Hk Hd Hc. unfold Decrypt, DecryptInto, packet_of.
  set (nonce := put_le 8 ctr ++ dirTag).
  assert (length nonce = 12%nat) as Hn by (unfold nonce; rewrite length_app, length_put_le; lia).
  set (ct := Seal key nonce pt). assert (length ct = length pt + 16)%nat as Hct by apply length_Seal.
  destruct (Nat.ltb_spec (length ([EncVersion] ++ nonce ++ ct)) Overhead) as [Hlt|_].
  { exfalso. rewrite !length_app, Hn, Hct in Hlt. unfold Overhead, NonceSize, TagSize in Hlt. simpl in Hlt. lia. }
  cbn [app]. rewrite bool_decide_eq_true_2 by done. cbn [negb].
  unfold NonceSize. rewrite take_app_length', drop_app_length' by done.
  assert (get_le (take 8 nonce) = ctr) as ->.
  { unfold nonce. rewrite take_app_length' by (by rewrite length_put_le). by apply get_put_le_small. }
  assert (c_key (snd (checkReplayWindow c ctr)) = key) as Hk'.
  { unfold checkReplayWindow. repeat case_match; done. }
  destruct (checkReplayWindow c ctr) as [ok c']. cbn [snd] in Hk'. destruct ok; cbn [negb]; [|done].
  unfold ct. by rewrite Hk', Open_Seal.
Qed.

(** End-to-end encryption is transparent: a receiver with the same key and a
    fresh window decrypts a stream received in order to the packets that were
    encrypted, for any starting counter short of the wrap-around. *)
Theorem encrypt_decrypt_stream key dirS dirR ctr0 ctrR pts :
  length dirS = 4%nat → 0 ≤ ctr0 → ctr0 + Z.of_nat (length pts) < 2 ^ 64 →
  fst (decrypt_all (mkCipher key ctrR dirR 0 0)
         (fst (encrypt_all (mkCipher key ctr0 dirS 0 0) pts)))
  = map Ok pts.
Proof.
  intros Hd H0 Hlen. rewrite encrypt_all_eq. cbn [c_key c_dirTag c_counter].
  assert (∀ k c, c_key c = key → c_replayCounter c < k + 1 → 0 ≤ k →
    k + Z.of_nat (length pts) < 2 ^ 64 →
    fst (decrypt_all c (imap (fun i pt => packet_of key dirS (u64 (k + 1 + Z.of_nat i)) pt) pts)) = map Ok pts)
    as Hgen; [|apply Hgen; [done|cbn; lia|lia|lia]].
  clear Hlen. induction pts as [|pt pts IH]; intros k c Hk Hlow Hk0 Hmax; [done|].
  cbn [Datatypes.length] in Hmax. cbn [imap decrypt_all]. rewrite Z.add_0_r.
  assert (u64 (k + 1) = k + 1) as -> by (apply Z.mod_small; lia).
  rewrite Decrypt_packet by (done || lia).
  assert (checkReplayWindow c (k + 1) =
    (true, mkCipher (c_key c) (c_counter c) (c_dirTag c) (k + 1)
      (if k + 1 - c_replayCounter c <? replayWindowSize
       then Z.lor (u64 (Z.shiftl (c_replayBitmap c) (k + 1 - c_replayCounter c))) 1 else 1))) as ->.
  { unfold checkReplayWindow. destruct (Z.ltb_spec (c_replayCounter c) (k + 1)); [done|lia]. }
  set (c' := mkCipher _ _ _ _ _).
  specialize (IH (k + 1) c' Hk). change (c_replayCounter c') with (k + 1) in IH.
  destruct (decrypt_all c' _) as [rs c''] eqn:E. cbn [fst map]. f_equal.
  rewrite <- IH by lia. erewrite imap_ext in E; [by rewrite E|].
  intros i x _. cbn [compose]. do 2 f_equal. lia.
Qed.

(** The window is updated before the packet is authenticated.  Anyone who
    can send a datagram to the receiver, without knowing the key, can put the
    highest counter in a packet of at least 29 bytes: the packet is rejected,
    but from then on every genuine packet whose counter is at least 64 below
    2^64 is rejected as a replay, for the lifetime of the cipher. *)
Theorem forged_counter_blocks_receiver c forged key dirTag ctr pt :
  let c' := snd (Decrypt c forged) in
  c_key c = key → 0 ≤ c_replayCounter c < 2 ^ 64 - 1 →
  length dirTag = 4%nat → 0 ≤ ctr ≤ 2 ^ 64 - 1 - 64 →
  (29 ≤ length forged)%nat → head forged = Some EncVersion →
  get_le (take 8 (drop 1 forged)) = 2 ^ 64 - 1 →
  Open key (nonce_of forged) (drop (1 + NonceSize) forged) = None →
  fst (Decrypt c forged) = Err ErrAuth ∧
  Decrypt c' (packet_of key dirTag ctr pt) = (Err ErrReplay, c').
Proof.
  cbv zeta. intros Hk Hc Hd Hctr Hlen Hh Hmax Hopen.
  destruct forged as [|v rest]; [done|]. cbn in Hh. simplify_eq.
  cbn [drop] in Hmax. rewrite drop_0 in Hmax.
  unfold nonce_of in Hopen. cbn [drop Nat.add] in Hopen. rewrite drop_0 in Hopen.
  assert (checkReplayWindow c (2 ^ 64 - 1) =
    (true, mkCipher (c_key c) (c_counter c) (c_dirTag c) (2 ^ 64 - 1)
      (if 2 ^ 64 - 1 - c_replayCounter c <? replayWindowSize
       then Z.lor (u64 (Z.shiftl (c_replayBitmap c) (2 ^ 64 - 1 - c_replayCounter c))) 1 else 1))) as Hw.
  { unfold checkReplayWindow. destruct (Z.ltb_spec (c_replayCounter c) (2 ^ 64 - 1)); [done|lia]. }
  assert (Decrypt c (EncVersion :: rest) = (Err ErrAuth, snd (checkReplayWindow c (2 ^ 64 - 1)))) as Hf.
  { unfold Decrypt, DecryptInto.
    destruct (Nat.ltb_spec (length (EncVersion :: rest)) Overhead) as [Hlt|_];
      [exfalso; unfold Overhead, NonceSize, TagSize in Hlt; simpl in *; lia|].
    rewrite bool_decide_eq_true_2 by done. cbn [negb]. rewrite take_take.
    replace (8 `min` NonceSize)%nat with 8%nat by done. rewrite Hmax, Hw. cbn [negb c_key snd].
    by rewrite Hopen. }
  rewrite Hf. split; [done|]. cbn [snd]. rewrite Hw. cbn [snd].
  rewrite Decrypt_packet by (done || lia).
  unfold checkReplayWindow. cbn [c_replayCounter c_replayBitmap].
  destruct (Z.ltb_spec (2 ^ 64 - 1) ctr); [lia|].
  destruct (Z.leb_spec replayWindowSize (2 ^ 64 - 1 - ctr)); [done|].
  unfold replayWindowSize in *. lia.
Qed.
End streams.

(** ** Concrete runs *)

Lemma nonces_distinct_witness :
  let c := mkCipher (zeros 32) (2 ^ 64 - 2) DirClientToServer 0 0 in
  let pts := [str "a"; str "b"; str "c"] in
  length (c_dirTag c) = 4%nat ∧
  NoDup (map nonce_of (fst (@encrypt_all tag_only_aead c pts))).
Proof. cbv zeta. split; [reflexivity|]. apply (@nonces_distinct tag_only_aead); [reflexivity|cbn; lia]. Defined.

Lemma encrypt_decrypt_stream_witness :
  let key := zeros 32 in
  let pts := [str "one"; []; str "three"] in
  fst (@decrypt_all tag_only_aead (mkCipher key 7 DirServerToClient 0 0)
        (fst (@encrypt_all tag_only_aead (mkCipher key 123456 DirClientToServer 0 0) pts)))
  = map Ok pts.
Proof.
  cbv zeta. apply (@encrypt_decrypt_stream tag_only_aead); [reflexivity|lia|cbn; lia].
Defined.

(** Twenty-nine bytes of an attacker. *)
Definition forged_packet : list byte := [EncVersion] ++ replicate 8 xff ++ zeros 20.

Lemma forged_counter_blocks_receiver_witness :
  let c := mkCipher (zeros 32) 0 DirServerToClient 1000 1 in
  let pkt := @packet_of tag_only_aead (zeros 32) DirClientToServer 1001 (str "genuine") in
  fst (@Decrypt tag_only_aead c pkt) = Ok (str "genuine") ∧
  fst (@Decrypt tag_only_aead c forged_packet) = Err ErrAuth ∧
  fst (@Decrypt tag_only_aead (snd (@Decrypt tag_only_aead c forged_packet)) pkt) = Err ErrReplay.
Proof.
  cbv zeta. split; [vm_compute; reflexivity|].
  destruct (@forged_counter_blocks_receiver tag_only_aead
    (mkCipher (zeros 32) 0 DirServerToClient 1000 1) forged_packet (zeros 32) DirClientToServer 1001
    (str "genuine")) as [H1 H2];
    [reflexivity|cbn; lia|reflexivity|lia|cbn; lia|reflexivity|vm_compute; reflexivity|vm_compute; reflexivity|].
  split; [exact H1|]. rewrite H2. reflexivity.
Defined.
