(* ===== verification/I18n.v ===== *)
(** * I18n: the messages in both languages

    src/internal/i18n/i18n.go: the table of strings, the choice of a language, and the
    formatting the protocol's messages need.  The kick messages are part of the
    protocol: clients classify them by their words. *)

From S2P Require Import Prelude GoNet Crc32 Protocol.

Record Strings := mkStrings {
  ServerBanner : list byte; ServerAddr : list byte; ServerSubnet : list byte;
  ServerMaxPlayers : list byte; ServerAuth : list byte; ServerVersion : list byte;
  ServerStatusPage : list byte; ServerNoAuth : list byte; ServerHMACAuth : list byte;
  ServerSignal : list byte; ServerShutdown : list byte; ServerStartFail : list byte;
  ServerInstRunning : list byte; ServerSubnetFail : list byte; ServerSubnetMust : list byte;
  ServerSendFail : list byte; ServerStatusLog : list byte; ServerStatusFail : list byte;
  ServerTmplFail : list byte; ServerPeerLeave : list byte; LogStateRestored : list byte;
  StatusTitle : list byte; StatusPlayers : list byte; StatusUptime : list byte;
  StatusVersion : list byte; StatusNoPlayers : list byte; StatusTablePlayer : list byte;
  StatusTableVIP : list byte; StatusTableAddr : list byte; StatusTablePing : list byte;
  StatusTableIdle : list byte; StatusAuthHMAC : list byte; StatusAuthNone : list byte;
  StatusJustNow : list byte; StatusSecAgo : list byte; StatusMetrics : list byte;
  StatusTotalRegs : list byte; StatusPeakPlayers : list byte; StatusRelayPkts : list byte;
  StatusAuthFails : list byte; StatusTotalKicks : list byte; StatusDroppedPkts : list byte;
  StatusSendErrors : list byte; DlgTitle : list byte; DlgServerAddr : list byte;
  DlgPlayerName : list byte; DlgRoomID : list byte; DlgPassword : list byte; DlgOK : list byte;
  DlgCancel : list byte; DlgStatusIdle : list byte; DlgStatusConn : list byte;
  DlgFirstRun : list byte; DlgConnect : list byte; DlgShowPass : list byte;
  DlgInvalidAddr : list byte; DlgNameEmpty : list byte; WebUITitle : list byte;
  WebUISettings : list byte; WebUIStatus : list byte; WebUIServerAddr : list byte;
  WebUIPlayerName : list byte; WebUIRoomID : list byte; WebUIPassword : list byte;
  WebUIPasswordHint : list byte; WebUILanguage : list byte; WebUIMTU : list byte;
  WebUIShowPass : list byte; WebUISave : list byte; WebUIInvalidAddr : list byte;
  WebUINameEmpty : list byte; AppAutoConnect : list byte; AppSaveFail : list byte;
  AppDisconnected : list byte; AppDisconnectErr : list byte; RunStartup : list byte;
  CfgHeader : list byte; CfgServerHint : list byte; CfgNameHint : list byte;
  CfgRoomHint : list byte; CfgPassHint : list byte; KickInvalidName : list byte;
  KickInvalidRoom : list byte; KickRateLimit : list byte; KickIPLimit : list byte;
  KickAuthPending : list byte; KickRoomFull : list byte; KickDuplicateName : list byte;
  KickServerBusy : list byte; KickIPExhausted : list byte; KickInternalError : list byte;
  KickAuthAbnormal : list byte; KickAuthTimeout : list byte; KickWrongPassword : list byte;
  KickVersionMismatch : list byte; UpgradePrompt : list byte; LogPlayerJoin : list byte;
  LogChallengeFail : list byte; LogAuthFail : list byte; LogAuthPass : list byte;
  LogPlayerLeave : list byte; ErrInvalidServer : list byte; ErrBindUDP : list byte;
  ErrRegisterFailed : list byte; ErrTooManyAuth : list byte; ErrRejected : list byte;
  ErrNeedPassword : list byte; ErrCreateTUN : list byte; ErrDecodeFailed : list byte;
  ErrParseIPFailed : list byte; ErrParseAuthFailed : list byte; ErrDeriveKeyFailed : list byte;
  ErrElevateFailed : list byte; LogRecreateTUN : list byte; LogIPChanged : list byte;
  LogPeerExit : list byte; LogTunnelDisconnect : list byte; LogSendFail : list byte;
  LogP2PSuccess : list byte; LogP2PFailed : list byte; LogServerTimeout : list byte;
  LogCleanPeer : list byte; LogRetryPunch : list byte; LogRegTimeout : list byte;
  LogRegFailed : list byte; LogAuthSent : list byte; LogReadConsecFail : list byte;
  LogTUNWriteFail : list byte; LogPeerAddrChange : list byte; LogNewPeer : list byte;
  LogPeerLeave2 : list byte; LogTUNConsecFail : list byte }.

Definition zh : Strings := {|
  ServerBanner := str "▎         GameTunnel Server 局域网游戏隧道                ▎";
  ServerAddr := str "地址";
  ServerSubnet := str "子网";
  ServerMaxPlayers := str "最大玩家";
  ServerAuth := str "认证";
  ServerVersion := str "版本";
  ServerStatusPage := str "状态页";
  ServerNoAuth := str "无认证";
  ServerHMACAuth := str "HMAC 认证 (基于房间ID)";
  ServerSignal := str "收到信号 %v，正在关闭...";
  ServerShutdown := str "服务器已关闭";
  ServerStartFail := str "启动失败: %v";
  ServerInstRunning := str "检测到已有实例运行中: %v" ++ [x0a] ++ str "请先关闭已有的 GameTunnel 服务端再重试。";
  ServerSubnetFail := str "子网解析失败 %s: %v";
  ServerSubnetMust := str "子网必须是 /24 (当前: /%d)";
  ServerSendFail := str "[server] 发送失败 (累计%d次): %v";
  ServerStatusLog := str "[status] 状态页面: http://%s";
  ServerStatusFail := str "[status] HTTP 服务启动失败: %v";
  ServerTmplFail := str "[status] 模板渲染失败: %v";
  ServerPeerLeave := str "[-] %s (%s) 超时断开";
  LogStateRestored := str "[persist] 恢复了 %d 个玩家的 IP 分配";
  StatusTitle := str "GameTunnel Server";
  StatusPlayers := str "玩家";
  StatusUptime := str "运行时间";
  StatusVersion := str "版本";
  StatusNoPlayers := str "暂无玩家连接";
  StatusTablePlayer := str "玩家";
  StatusTableVIP := str "虚拟 IP";
  StatusTableAddr := str "地址";
  StatusTablePing := str "延迟";
  StatusTableIdle := str "空闲";
  StatusAuthHMAC := str "HMAC 认证";
  StatusAuthNone := str "无认证";
  StatusJustNow := str "刚刚";
  StatusSecAgo := str "%ds前";
  StatusMetrics := str "运营指标";
  StatusTotalRegs := str "累计注册";
  StatusPeakPlayers := str "峰值在线";
  StatusRelayPkts := str "累计中转包";
  StatusAuthFails := str "认证失败";
  StatusTotalKicks := str "累计踢出";
  StatusDroppedPkts := str "丢弃包";
  StatusSendErrors := str "发送错误";
  DlgTitle := str "GameTunnel 设置";
  DlgServerAddr := str "服务器地址:";
  DlgPlayerName := str "玩家名称:";
  DlgRoomID := str "房间 ID:";
  DlgPassword := str "密码:";
  DlgOK := str "确定";
  DlgCancel := str "取消";
  DlgStatusIdle := str "未连接";
  DlgStatusConn := str "已连接 · %s · %d人在线";
  DlgFirstRun := str "首次设置 - GameTunnel";
  DlgConnect := str "连接";
  DlgShowPass := str "显示密码";
  DlgInvalidAddr := str "服务器地址格式不正确，应为 IP:端口";
  DlgNameEmpty := str "玩家名称不能为空";
  WebUITitle := str "GameTunnel";
  WebUISettings := str "设置";
  WebUIStatus := str "状态";
  WebUIServerAddr := str "服务器地址";
  WebUIPlayerName := str "玩家名称";
  WebUIRoomID := str "房间 ID";
  WebUIPassword := str "密码";
  WebUIPasswordHint := str "无密码留空";
  WebUILanguage := str "语言";
  WebUIMTU := str "MTU";
  WebUIShowPass := str "显示密码";
  WebUISave := str "保存并应用";
  WebUIInvalidAddr := str "服务器地址格式不正确";
  WebUINameEmpty := str "玩家名称不能为空";
  AppAutoConnect := str "[app] 自动连接到 %s";
  AppSaveFail := str "[app] 保存配置失败: %v";
  AppDisconnected := str "[app] 连接断开";
  AppDisconnectErr := str "[app] 连接断开: %v";
  RunStartup := str "=== GameTunnel 启动 ===";
  CfgHeader := str "# GameTunnel 配置文件";
  CfgServerHint := str "# 服务器地址（必填，如 1.2.3.4:4700 或 [2408::1]:4700）";
  CfgNameHint := str "# 玩家名称（默认：计算机名）";
  CfgRoomHint := str "# 房间 ID（默认：default）";
  CfgPassHint := str "# 密码（无密码留空）";
  KickInvalidName := str "用户名不合法";
  KickInvalidRoom := str "房间ID不合法";
  KickRateLimit := str "注册过于频繁，请稍后再试";
  KickIPLimit := str "同一IP连接数已达上限";
  KickAuthPending := str "认证进行中，请等待";
  KickRoomFull := str "房间已满";
  KickDuplicateName := str "同房间内已存在相同用户名的玩家，请更换用户名";
  KickServerBusy := str "服务器繁忙，请稍后重试";
  KickIPExhausted := str "IP已分配完";
  KickInternalError := str "服务器内部错误";
  KickAuthAbnormal := str "认证状态异常";
  KickAuthTimeout := str "认证超时";
  KickWrongPassword := str "密码错误";
  KickVersionMismatch := str "版本不兼容: 客户端 v%d, 服务端需要 v%d";
  UpgradePrompt := str "当前版本 %s，服务端已是 %s，建议升级客户端";
  LogPlayerJoin := str "[+] %s (%s) → %s  [在线: %d]";
  LogChallengeFail := str "[auth] 生成 challenge 失败: %v";
  LogAuthFail := str "[auth] 认证失败: %s (%s)";
  LogAuthPass := str "[auth] 认证通过: %s (%s)";
  LogPlayerLeave := str "[-] %s (%s) 主动断开";
  ErrInvalidServer := str "服务器地址无效: %w";
  ErrBindUDP := str "绑定 UDP 失败: %w";
  ErrRegisterFailed := str "注册失败: %w";
  ErrTooManyAuth := str "认证失败：服务器发送了过多的认证请求";
  ErrRejected := str "被拒绝: %s";
  ErrNeedPassword := str "服务器需要房间密码，请用 -password 参数指定";
  ErrCreateTUN := str "创建 TUN 失败: %w";
  ErrDecodeFailed := str "解码响应失败: %w";
  ErrParseIPFailed := str "解析IP分配失败: %w";
  ErrParseAuthFailed := str "解析认证请求失败: %w";
  ErrDeriveKeyFailed := str "无法派生认证密钥";
  ErrElevateFailed := str "  提权失败: %v" ++ [x0a];
  LogRecreateTUN := str "[tunnel] 重建 TUN 设备 (IP %s 未变)";
  LogIPChanged := str "[tunnel] IP 变更 %s → %s，重建 TUN 设备";
  LogPeerExit := str "[tunnel] %s 退出，断开连接";
  LogTunnelDisconnect := str "[tunnel] 断开连接";
  LogSendFail := str "[tunnel] 发送失败 (累计%d次): %v";
  LogP2PSuccess := str "[tunnel] P2P 打洞成功 (phase %d): %s";
  LogP2PFailed := str "[tunnel] P2P 打洞完成（未确认直通），将通过中继通信: %s";
  LogServerTimeout := str "[tunnel] 服务器无响应超过 %v，连接可能已断开";
  LogCleanPeer := str "[tunnel] 清理过期玩家: %s (%s) — 超过 %v 未响应";
  LogRetryPunch := str "[tunnel] 重试打洞: %d 个未直通的玩家";
  LogRegTimeout := str "[tunnel] 注册超时，重试 %d/%d...";
  LogRegFailed := str "注册失败（重试%d次）";
  LogAuthSent := str "[tunnel] 已发送认证响应，等待服务器确认...";
  LogReadConsecFail := str "[tunnel] 服务端连接读取连续失败 %d 次，退出: %v";
  LogTUNWriteFail := str "[tunnel] TUN 写入失败: %v";
  LogPeerAddrChange := str "[tunnel] 玩家地址变更: %s (%s) %s → %s";
  LogNewPeer := str "[tunnel] 新玩家: %s (%s)";
  LogPeerLeave2 := str "[tunnel] 玩家离开: %s (%s)";
  LogTUNConsecFail := str "[tunnel] TUN 设备读取连续失败 %d 次，退出: %v" |}.

Definition en : Strings := {|
  ServerBanner := str "▎         GameTunnel Server LAN Gaming Tunnel              ▎";
  ServerAddr := str "Address";
  ServerSubnet := str "Subnet";
  ServerMaxPlayers := str "Max Players";
  ServerAuth := str "Auth";
  ServerVersion := str "Version";
  ServerStatusPage := str "Status";
  ServerNoAuth := str "None";
  ServerHMACAuth := str "HMAC (Room-based)";
  ServerSignal := str "Received signal %v, shutting down...";
  ServerShutdown := str "Server stopped";
  ServerStartFail := str "Failed to start: %v";
  ServerInstRunning := str "Another instance is running: %v" ++ [x0a] ++ str "Please stop the existing GameTunnel server first.";
  ServerSubnetFail := str "Failed to parse subnet %s: %v";
  ServerSubnetMust := str "Subnet must be /24 (current: /%d)";
  ServerSendFail := str "[server] Send failed (total %d): %v";
  ServerStatusLog := str "[status] Status page: http://%s";
  ServerStatusFail := str "[status] HTTP server failed to start: %v";
  ServerTmplFail := str "[status] Template render failed: %v";
  ServerPeerLeave := str "[-] %s (%s) timed out";
  LogStateRestored := str "[persist] Restored %d player IP allocations";
  StatusTitle := str "GameTunnel Server";
  StatusPlayers := str "Players";
  StatusUptime := str "Uptime";
  StatusVersion := str "Version";
  StatusNoPlayers := str "No players connected";
  StatusTablePlayer := str "Player";
  StatusTableVIP := str "Virtual IP";
  StatusTableAddr := str "Address";
  StatusTablePing := str "Ping";
  StatusTableIdle := str "Idle";
  StatusAuthHMAC := str "HMAC Auth";
  StatusAuthNone := str "No Auth";
  StatusJustNow := str "just now";
  StatusSecAgo := str "%ds ago";
  StatusMetrics := str "Metrics";
  StatusTotalRegs := str "Registrations";
  StatusPeakPlayers := str "Peak Online";
  StatusRelayPkts := str "Relayed Pkts";
  StatusAuthFails := str "Auth Failures";
  StatusTotalKicks := str "Kicks";
  StatusDroppedPkts := str "Dropped Pkts";
  StatusSendErrors := str "Send Errors";
  DlgTitle := str "GameTunnel Settings";
  DlgServerAddr := str "Server:";
  DlgPlayerName := str "Name:";
  DlgRoomID := str "Room:";
  DlgPassword := str "Password:";
  DlgOK := str "OK";
  DlgCancel := str "Cancel";
  DlgStatusIdle := str "Disconnected";
  DlgStatusConn := str "Connected · %s · %d online";
  DlgFirstRun := str "First-Time Setup - GameTunnel";
  DlgConnect := str "Connect";
  DlgShowPass := str "Show password";
  DlgInvalidAddr := str "Invalid server address, should be IP:port";
  DlgNameEmpty := str "Player name cannot be empty";
  WebUITitle := str "GameTunnel";
  WebUISettings := str "Settings";
  WebUIStatus := str "Status";
  WebUIServerAddr := str "Server Address";
  WebUIPlayerName := str "Player Name";
  WebUIRoomID := str "Room ID";
  WebUIPassword := str "Password";
  WebUIPasswordHint := str "Leave empty if no password";
  WebUILanguage := str "Language";
  WebUIMTU := str "MTU";
  WebUIShowPass := str "Show";
  WebUISave := str "Save & Apply";
  WebUIInvalidAddr := str "Invalid server address format";
  WebUINameEmpty := str "Player name cannot be empty";
  AppAutoConnect := str "[app] Auto-connecting to %s";
  AppSaveFail := str "[app] Failed to save config: %v";
  AppDisconnected := str "[app] Disconnected";
  AppDisconnectErr := str "[app] Disconnected: %v";
  RunStartup := str "=== GameTunnel Started ===";
  CfgHeader := str "# GameTunnel Configuration";
  CfgServerHint := str "# Server address (required, e.g. 1.2.3.4:4700 or [2408::1]:4700)";
  CfgNameHint := str "# Player name (default: computer name)";
  CfgRoomHint := str "# Room ID (default: default)";
  CfgPassHint := str "# Password (leave empty if none)";
  KickInvalidName := str "Invalid username";
  KickInvalidRoom := str "Invalid room ID";
  KickRateLimit := str "Registration too frequent, please try again later";
  KickIPLimit := str "Too many connections from this IP";
  KickAuthPending := str "Authentication in progress, please wait";
  KickRoomFull := str "Room is full";
  KickDuplicateName := str "A player with the same name already exists in this room, please change your name";
  KickServerBusy := str "Server is busy, please try again later";
  KickIPExhausted := str "No available IP addresses";
  KickInternalError := str "Internal server error";
  KickAuthAbnormal := str "Invalid authentication state";
  KickAuthTimeout := str "Authentication timed out";
  KickWrongPassword := str "Wrong password";
  KickVersionMismatch := str "Version incompatible: client v%d, server requires v%d";
  UpgradePrompt := str "Current version %s, server is %s. Please upgrade your client";
  LogPlayerJoin := str "[+] %s (%s) → %s  [Online: %d]";
  LogChallengeFail := str "[auth] Failed to generate challenge: %v";
  LogAuthFail := str "[auth] Authentication failed: %s (%s)";
  LogAuthPass := str "[auth] Authentication passed: %s (%s)";
  LogPlayerLeave := str "[-] %s (%s) disconnected";
  ErrInvalidServer := str "Invalid server address: %w";
  ErrBindUDP := str "Failed to bind UDP: %w";
  ErrRegisterFailed := str "Registration failed: %w";
  ErrTooManyAuth := str "Authentication failed: server sent too many auth requests";
  ErrRejected := str "Rejected: %s";
  ErrNeedPassword := str "Server requires a room password, use -password flag";
  ErrCreateTUN := str "Failed to create TUN: %w";
  ErrDecodeFailed := str "Failed to decode response: %w";
  ErrParseIPFailed := str "Failed to parse IP assignment: %w";
  ErrParseAuthFailed := str "Failed to parse auth challenge: %w";
  ErrDeriveKeyFailed := str "Failed to derive auth key";
  ErrElevateFailed := str "  Failed to elevate: %v" ++ [x0a];
  LogRecreateTUN := str "[tunnel] Recreating TUN device (IP %s unchanged)";
  LogIPChanged := str "[tunnel] IP changed %s → %s, recreating TUN device";
  LogPeerExit := str "[tunnel] %s exited, disconnecting";
  LogTunnelDisconnect := str "[tunnel] Disconnected";
  LogSendFail := str "[tunnel] Send failed (total %d): %v";
  LogP2PSuccess := str "[tunnel] P2P hole punch succeeded (phase %d): %s";
  LogP2PFailed := str "[tunnel] P2P hole punch completed (not confirmed direct), will relay: %s";
  LogServerTimeout := str "[tunnel] Server unresponsive for over %v, connection may be lost";
  LogCleanPeer := str "[tunnel] Cleaning stale peer: %s (%s) — unresponsive for %v";
  LogRetryPunch := str "[tunnel] Retrying hole punch: %d undirect peers";
  LogRegTimeout := str "[tunnel] Registration timeout, retry %d/%d...";
  LogRegFailed := str "Registration failed (retried %d times)";
  LogAuthSent := str "[tunnel] Auth response sent, waiting for server confirmation...";
  LogReadConsecFail := str "[tunnel] Server read failed %d times consecutively, exiting: %v";
  LogTUNWriteFail := str "[tunnel] TUN write failed: %v";
  LogPeerAddrChange := str "[tunnel] Peer address changed: %s (%s) %s → %s";
  LogNewPeer := str "[tunnel] New peer: %s (%s)";
  LogPeerLeave2 := str "[tunnel] Peer left: %s (%s)";
  LogTUNConsecFail := str "[tunnel] TUN read failed %d times consecutively, exiting: %v" |}.

(** ** The language *)

Inductive Lang := ZH | EN.

(** ParseLang *)
Definition ParseLang (s : list byte) : Lang :=
  if bool_decide (s ∈ [str "en"; str "EN"; str "english"; str "English"]) then EN
  else ZH.

(** Set, as the table T() returns afterwards. *)
Definition Set_ (lang : Lang) : Strings := match lang with EN => en | ZH => zh end.

(** ** Formats *)

(** fmt.Sprintf with integer verbs only. *)
Fixpoint Sprintf_d (fmt : list byte) (args : list Z) : list byte :=
  match fmt with
  | "%"%byte :: (("d"%byte :: fmt') as rest) =>
      match args with
      | a :: args => itoa a ++ Sprintf_d fmt' args
      | [] => "%"%byte :: Sprintf_d rest args
      end
  | b :: fmt => b :: Sprintf_d fmt args
  | [] => []
  end.

(** The reasons a room sends without a kick code. *)
Definition codeless_kicks (t : Strings) : list (list byte) :=
  [KickInvalidName t; KickInvalidRoom t; KickRateLimit t; KickIPLimit t; KickRoomFull t;
   KickDuplicateName t; KickServerBusy t; KickIPExhausted t; KickInternalError t;
   KickAuthAbnormal t; KickAuthTimeout t].

Definition received_reason (msg : list byte) : DisconnectReason :=
  de_Reason (NewDisconnectError (mkKick msg KickCodeNone)).

(** None of the reasons the server sends without a code makes a client give up
    reconnecting, in either language; but the English "Room is full" does not
    contain the keyword "room full" the client looks for, so an English server's
    full room is reported as an unknown reason, while the Chinese one is
    recognised. *)
Theorem codeless_kicks_classified :
  Forall (fun m => IsFatal (NewDisconnectError (mkKick m KickCodeNone)) = false)
    (codeless_kicks zh ++ codeless_kicks en) ∧
  received_reason (KickRoomFull zh) = ReasonRoomFull ∧
  received_reason (KickRoomFull en) = ReasonUnknown.
Proof. split_and!; [|vm_compute; reflexivity..]. repeat constructor; vm_compute; reflexivity. Qed.

(** The letters of the verbs of a format, in order; flags and widths are skipped. *)
Fixpoint verbs_from (inside : bool) (fmt : list byte) : list byte :=
  match fmt with
  | [] => []
  | b :: fmt =>
      let z := b2z b in
      let letter := ((65 <=? z) && (z <=? 90)) || ((97 <=? z) && (z <=? 122)) in
      if inside then
        if letter || bool_decide (b = "%"%byte) then b :: verbs_from false fmt else verbs_from true fmt
      else verbs_from (bool_decide (b = "%"%byte)) fmt
  end.
Definition verbs (fmt : list byte) : list byte := verbs_from false fmt.

Definition all_fields : list (Strings → list byte) :=
  [ServerBanner; ServerAddr; ServerSubnet; ServerMaxPlayers; ServerAuth; ServerVersion;
   ServerStatusPage; ServerNoAuth; ServerHMACAuth; ServerSignal; ServerShutdown; ServerStartFail;
   ServerInstRunning; ServerSubnetFail; ServerSubnetMust; ServerSendFail; ServerStatusLog;
   ServerStatusFail; ServerTmplFail; ServerPeerLeave; LogStateRestored; StatusTitle;
   StatusPlayers; StatusUptime; StatusVersion; StatusNoPlayers; StatusTablePlayer; StatusTableVIP;
   StatusTableAddr; StatusTablePing; StatusTableIdle; StatusAuthHMAC; StatusAuthNone;
   StatusJustNow; StatusSecAgo; StatusMetrics; StatusTotalRegs; StatusPeakPlayers;
   StatusRelayPkts; StatusAuthFails; StatusTotalKicks; StatusDroppedPkts; StatusSendErrors;
   DlgTitle; DlgServerAddr; DlgPlayerName; DlgRoomID; DlgPassword; DlgOK; DlgCancel;
   DlgStatusIdle; DlgStatusConn; DlgFirstRun; DlgConnect; DlgShowPass; DlgInvalidAddr;
   DlgNameEmpty; WebUITitle; WebUISettings; WebUIStatus; WebUIServerAddr; WebUIPlayerName;
   WebUIRoomID; WebUIPassword; WebUIPasswordHint; WebUILanguage; WebUIMTU; WebUIShowPass;
   WebUISave; WebUIInvalidAddr; WebUINameEmpty; AppAutoConnect; AppSaveFail; AppDisconnected;
   AppDisconnectErr; RunStartup; CfgHeader; CfgServerHint; CfgNameHint; CfgRoomHint; CfgPassHint;
   KickInvalidName; KickInvalidRoom; KickRateLimit; KickIPLimit; KickAuthPending; KickRoomFull;
   KickDuplicateName; KickServerBusy; KickIPExhausted; KickInternalError; KickAuthAbnormal;
   KickAuthTimeout; KickWrongPassword; KickVersionMismatch; UpgradePrompt; LogPlayerJoin;
   LogChallengeFail; LogAuthFail; LogAuthPass; LogPlayerLeave; ErrInvalidServer; ErrBindUDP;
   ErrRegisterFailed; ErrTooManyAuth; ErrRejected; ErrNeedPassword; ErrCreateTUN; ErrDecodeFailed;
   ErrParseIPFailed; ErrParseAuthFailed; ErrDeriveKeyFailed; ErrElevateFailed; LogRecreateTUN;
   LogIPChanged; LogPeerExit; LogTunnelDisconnect; LogSendFail; LogP2PSuccess; LogP2PFailed;
   LogServerTimeout; LogCleanPeer; LogRetryPunch; LogRegTimeout; LogRegFailed; LogAuthSent;
   LogReadConsecFail; LogTUNWriteFail; LogPeerAddrChange; LogNewPeer; LogPeerLeave2;
   LogTUNConsecFail].

(** The two languages agree: each of the 132 messages is there in both, and its
    translation takes the same arguments in the same order, so a call that formats
    one language correctly formats the other. *)
Theorem translations_agree f :
  f ∈ all_fields → verbs (f zh) = verbs (f en) ∧ f zh ≠ [] ∧ f en ≠ [].
Proof.
  revert f. apply Forall_forall. unfold all_fields.
  repeat (apply Forall_cons_2; [split; [vm_compute; reflexivity|split; discriminate]|]). apply Forall_nil_2.
Qed.

Lemma translations_agree_witness : verbs (ServerSendFail zh) = verbs (ServerSendFail en).
Proof.
  refine (proj1 (translations_agree ServerSendFail _)). unfold all_fields.
  repeat first [apply list_elem_of_here | apply list_elem_of_further].
Defined.
