(* ===== verification/Client.v ===== *)
(** * Client: the server's record of a player

    src/internal/server/client.go.  A nil [net.IP] is the empty list; the zero
    [time.Time] is [None] where the code tests for it. *)

From S2P Require Import Prelude GoNet Crc32 Protocol Messages NetUtil Float64.

Inductive authState := authNone | authChallengeSent.
#[export] Instance authState_eq_dec : EqDecision authState.
Proof. solve_decision. Defined.

Definition pingHistorySize : Z := 12.

Record Client := mkClient {
  cl_Username : list byte;
  cl_VirtualIP : IP;
  cl_PublicAddr : option UDPAddr;
  cl_NATType : Z;
  cl_lastSeen : Z;
  cl_RTT : Z;
  cl_SessionToken : list byte;
  cl_pingHistory : list Z;
  cl_pingIdx : Z;
  cl_pingSeq : Z;
  cl_lastPingSent : option Z;
  cl_lastPingSeq : Z;
  cl_auth : authState;
  cl_challenge : list byte;
  cl_challengeAt : Z;
  cl_authRoomID : list byte;
  cl_clientVersion : Z }.

(** literal [&Client{...}] with the zero value in the fields it omits. *)
Definition new_client (username : list byte) (vip : IP) (addr : option UDPAddr) (auth : authState)
    (challenge : list byte) (challengeAt : Z) (roomID : list byte) (version : Z) : Client :=
  mkClient username vip addr 0 0 0 (zeros 16) (replicate 12 0) 0 0 None 0 auth challenge
    challengeAt roomID version.

Definition set_lastSeen (t : Z) (c : Client) : Client :=
  mkClient (cl_Username c) (cl_VirtualIP c) (cl_PublicAddr c) (cl_NATType c) t (cl_RTT c)
    (cl_SessionToken c) (cl_pingHistory c) (cl_pingIdx c) (cl_pingSeq c) (cl_lastPingSent c)
    (cl_lastPingSeq c) (cl_auth c) (cl_challenge c) (cl_challengeAt c) (cl_authRoomID c)
    (cl_clientVersion c).
Definition set_PublicAddr (a : option UDPAddr) (c : Client) : Client :=
  mkClient (cl_Username c) (cl_VirtualIP c) a (cl_NATType c) (cl_lastSeen c) (cl_RTT c)
    (cl_SessionToken c) (cl_pingHistory c) (cl_pingIdx c) (cl_pingSeq c) (cl_lastPingSent c)
    (cl_lastPingSeq c) (cl_auth c) (cl_challenge c) (cl_challengeAt c) (cl_authRoomID c)
    (cl_clientVersion c).
Definition set_clientVersion (v : Z) (c : Client) : Client :=
  mkClient (cl_Username c) (cl_VirtualIP c) (cl_PublicAddr c) (cl_NATType c) (cl_lastSeen c)
    (cl_RTT c) (cl_SessionToken c) (cl_pingHistory c) (cl_pingIdx c) (cl_pingSeq c)
    (cl_lastPingSent c) (cl_lastPingSeq c) (cl_auth c) (cl_challenge c) (cl_challengeAt c)
    (cl_authRoomID c) v.
Definition set_NATType (n : Z) (c : Client) : Client :=
  mkClient (cl_Username c) (cl_VirtualIP c) (cl_PublicAddr c) n (cl_lastSeen c)
    (cl_RTT c) (cl_SessionToken c) (cl_pingHistory c) (cl_pingIdx c) (cl_pingSeq c)
    (cl_lastPingSent c) (cl_lastPingSeq c) (cl_auth c) (cl_challenge c) (cl_challengeAt c)
    (cl_authRoomID c) (cl_clientVersion c).
Definition set_SessionToken (tok : list byte) (c : Client) : Client :=
  mkClient (cl_Username c) (cl_VirtualIP c) (cl_PublicAddr c) (cl_NATType c) (cl_lastSeen c)
    (cl_RTT c) tok (cl_pingHistory c) (cl_pingIdx c) (cl_pingSeq c)
    (cl_lastPingSent c) (cl_lastPingSeq c) (cl_auth c) (cl_challenge c) (cl_challengeAt c)
    (cl_authRoomID c) (cl_clientVersion c).

(** [c.pingHistory[c.pingIdx%pingHistorySize] = v; c.pingIdx++]. *)
Definition record_ping (v : Z) (c : Client) : Client :=
  mkClient (cl_Username c) (cl_VirtualIP c) (cl_PublicAddr c) (cl_NATType c) (cl_lastSeen c)
    (cl_RTT c) (cl_SessionToken c)
    (<[Z.to_nat (cl_pingIdx c mod pingHistorySize) := v]> (cl_pingHistory c)) (cl_pingIdx c + 1)
    (cl_pingSeq c) (cl_lastPingSent c) (cl_lastPingSeq c) (cl_auth c) (cl_challenge c)
    (cl_challengeAt c) (cl_authRoomID c) (cl_clientVersion c).
Definition set_RTT (r : Z) (c : Client) : Client :=
  mkClient (cl_Username c) (cl_VirtualIP c) (cl_PublicAddr c) (cl_NATType c) (cl_lastSeen c)
    r (cl_SessionToken c) (cl_pingHistory c) (cl_pingIdx c) (cl_pingSeq c)
    (cl_lastPingSent c) (cl_lastPingSeq c) (cl_auth c) (cl_challenge c) (cl_challengeAt c)
    (cl_authRoomID c) (cl_clientVersion c).
(** [c.pingSeq++; c.lastPingSent = now; c.lastPingSeq = c.pingSeq]. *)
Definition mark_ping_sent (now : Z) (c : Client) : Client :=
  mkClient (cl_Username c) (cl_VirtualIP c) (cl_PublicAddr c) (cl_NATType c) (cl_lastSeen c)
    (cl_RTT c) (cl_SessionToken c) (cl_pingHistory c) (cl_pingIdx c) (u32 (cl_pingSeq c + 1))
    (Some now) (u32 (cl_pingSeq c + 1)) (cl_auth c) (cl_challenge c) (cl_challengeAt c)
    (cl_authRoomID c) (cl_clientVersion c).

(** [None]: rand.Read failed. *)
Definition GenerateSessionToken (rand : option (list byte)) (c : Client) : option Client :=
  (fun b => set_SessionToken (copy_into (zeros 16) b) c) <$> rand.

Definition HasSessionToken (c : Client) : bool := negb (bool_decide (cl_SessionToken c = zeros 16)).

Definition ValidateSessionToken (c : Client) (token : list byte) : bool :=
  (length token =? 16)%nat && bool_decide (cl_SessionToken c = token).

(** ** Ping statistics *)

(** The loop's variables: received, prevRTT, jitterSum, jitterCount. *)
Record PingAcc := mkPingAcc { pa_received : Z; pa_prev : Z; pa_sum : Z; pa_count : Z }.

Definition ping_step (a : PingAcc) (rtt : Z) : PingAcc :=
  if rtt =? 0 then a
  else
    let diff := rtt - pa_prev a in
    let diff := if diff <? 0 then - diff else diff in
    if 0 <? pa_prev a
    then mkPingAcc (pa_received a + 1) rtt (pa_sum a + diff) (pa_count a + 1)
    else mkPingAcc (pa_received a + 1) rtt (pa_sum a) (pa_count a).

(** The slots read, oldest first. *)
Definition ping_window (c : Client) : list Z :=
  let total := cl_pingIdx c in
  let n := if pingHistorySize <? total then pingHistorySize else total in
  let start := if pingHistorySize <? total then total mod pingHistorySize else 0 in
  map (fun i => nth (Z.to_nat ((start + Z.of_nat i) mod pingHistorySize)) (cl_pingHistory c) 0)
      (seq 0 (Z.to_nat n)).

(** Loss rate and jitter in nanoseconds. *)
Definition PingStats (c : Client) : Q * Z :=
  let total := cl_pingIdx c in
  if total =? 0 then (0%Q, 0) else
  let n := if pingHistorySize <? total then pingHistorySize else total in
  let a := foldl ping_step (mkPingAcc 0 0 0 0) (ping_window c) in
  let lossRate := fsub 1 (fdiv (fint (pa_received a)) (fint n)) in
  let jitter := if 0 <? pa_count a then Z.quot (pa_sum a) (pa_count a) else 0 in
  (lossRate, jitter).

(** ** Facts *)

(** The statistics after recording a history of results from a fresh client. *)
Definition after_pings (c : Client) (l : list Z) : Client := foldl (fun c v => record_ping v c) c l.

Lemma ping_acc_bounds l R a :
  Forall (fun x => 0 ≤ x ≤ R) l → 0 ≤ R →
  0 ≤ pa_received a ∧ 0 ≤ pa_prev a ≤ R ∧ 0 ≤ pa_count a ∧ 0 ≤ pa_sum a ≤ R * pa_count a →
  let a' := foldl ping_step a l in
  pa_received a ≤ pa_received a' ≤ pa_received a + Z.of_nat (length l) ∧ 0 ≤ pa_prev a' ≤ R ∧
  0 ≤ pa_count a' ∧ 0 ≤ pa_sum a' ≤ R * pa_count a'.
Proof.
  intros Hl HR. revert a. induction Hl as [|x l Hx Hl IH]; intros a Ha; cbn [foldl]; [cbn; lia|].
  cbn [Datatypes.length]. specialize (IH (ping_step a x)). cbv zeta in IH.
  assert (pa_received a ≤ pa_received (ping_step a x) ≤ pa_received a + 1 ∧
    0 ≤ pa_prev (ping_step a x) ≤ R ∧ 0 ≤ pa_count (ping_step a x) ∧
    0 ≤ pa_sum (ping_step a x) ≤ R * pa_count (ping_step a x)) as Hstep.
  { unfold ping_step. destruct (Z.eqb_spec x 0); [lia|].
    destruct (Z.ltb_spec (x - pa_prev a) 0), (Z.ltb_spec 0 (pa_prev a)); cbn; nia. }
  destruct IH as (H1 & H2 & H3 & H4); [lia|]. split_and!; lia.
Qed.

(** All 90 possible quotients. *)
Lemma loss_rate_range :
  forallb (fun n => forallb (fun r =>
      let x := fsub 1 (fdiv (fint (Z.of_nat r)) (fint (Z.of_nat n))) in
      Qle_bool 0 x && Qle_bool x 1 && (negb (r =? n)%nat || Qeq_bool x 0)) (seq 0 (S n))) (seq 1 12) = true.
Proof. vm_compute. reflexivity. Qed.

(** Whatever results a client's ring buffer holds, the reported loss rate is
    between 0 and 1 (0 when nothing was missed), and the reported jitter is
    non-negative and no more than the largest round-trip time. *)
Theorem PingStats_bounds c R :
  0 ≤ cl_pingIdx c → Forall (fun x => 0 ≤ x ≤ R) (cl_pingHistory c) → 0 ≤ R →
  (0 <= fst (PingStats c))%Q ∧ (fst (PingStats c) <= 1)%Q ∧
  (Forall (fun x => x ≠ 0) (ping_window c) → (fst (PingStats c) == 0)%Q) ∧
  0 ≤ snd (PingStats c) ≤ R.
Proof.
  intros Hi Hh HR. unfold PingStats. destruct (Z.eqb_spec (cl_pingIdx c) 0) as [|Hne]; [done|].
  assert (Forall (fun x => 0 ≤ x ≤ R) (ping_window c)) as Hw.
  { unfold ping_window. apply Forall_map, Forall_forall. intros i _. rewrite nth_lookup.
    destruct (cl_pingHistory c !! _) as [x|] eqn:E; cbn; [|lia].
    rewrite Forall_lookup in Hh. by eapply Hh. }
  set (n := if pingHistorySize <? cl_pingIdx c then pingHistorySize else cl_pingIdx c).
  assert (1 ≤ n ≤ 12 ∧ Z.of_nat (length (ping_window c)) = n) as [Hn Hlen].
  { unfold ping_window. rewrite length_map, length_seq. unfold n, pingHistorySize.
    destruct (Z.ltb_spec 12 (cl_pingIdx c)); lia. }
  destruct (ping_acc_bounds (ping_window c) R (mkPingAcc 0 0 0 0) Hw HR) as (Hr & _ & Hc & Hs); [cbn; lia|].
  cbn [pa_received] in Hr. set (a := foldl ping_step _ _) in *. cbn [fst snd].
  pose proof loss_rate_range as Hall. rewrite forallb_forall in Hall.
  specialize (Hall (Z.to_nat n)). rewrite in_seq in Hall. specialize (Hall ltac:(lia)).
  rewrite forallb_forall in Hall. specialize (Hall (Z.to_nat (pa_received a))).
  rewrite in_seq in Hall. specialize (Hall ltac:(lia)). cbv zeta in Hall.
  rewrite !Z2Nat.id in Hall by lia.
  set (x := fsub 1 _) in *. apply andb_true_iff in Hall as [[H1 H2]%andb_true_iff H3].
  apply Qle_bool_iff in H1, H2. split; [done|]. split; [done|]. split.
  - intros Hnz. assert (pa_received a = n) as E.
    { rewrite <- Hlen. unfold a.
      assert (∀ l acc, Forall (fun x => x ≠ 0) l →
        pa_received (foldl ping_step acc l) = pa_received acc + Z.of_nat (length l)) as Hcount.
      { induction l as [|y l IH]; intros acc Hl; cbn [foldl]; [cbn; lia|].
        apply Forall_cons in Hl as [Hy Hl]. rewrite IH by done. unfold ping_step.
        destruct (Z.eqb_spec y 0); [done|]. cbn [Datatypes.length].
        destruct (0 <? pa_prev acc); cbn [pa_received]; lia. }
      by rewrite Hcount. }
    rewrite E in H3. rewrite Nat.eqb_refl in H3. cbn in H3. by apply Qeq_bool_iff.
  - destruct (Z.ltb_spec 0 (pa_count a)); [|lia].
    rewrite Z.quot_div_nonneg by lia. split; [apply Z.div_pos; lia|].
    apply Z.div_le_upper_bound; lia.
Qed.

Lemma PingStats_bounds_witness :
  let c := after_pings (new_client [] [] None authNone [] 0 [] 0) [20; 0; 40; 30] in
  (fst (PingStats c) == 1 # 4)%Q ∧ snd (PingStats c) = 15 ∧ (0 <= fst (PingStats c))%Q.
Proof.
  intros c. split; [vm_compute; reflexivity|]. split; [vm_compute; reflexivity|].
  refine (proj1 (PingStats_bounds c 40 _ _ _)); [vm_compute; discriminate| |lia].
  vm_compute. repeat constructor; discriminate.
Defined.
