(* ===== verification/Room.v ===== *)
(** * Room: the state of a room and its primitive operations

    src/internal/server/room.go, with the helpers of room_relay.go and
    room_status.go the handlers share.

    A [*Client] is a location in [store]: [clients] and [addrMap] may hold the same
    one.  A handler runs to completion before the next (its critical section is
    one [mu.Lock] region, and what it sends follows it), reads one clock value and
    draws random bytes at most once; [go r.sendPeerInfoBroadcast()] is run at the
    end of the handler.  [range] over a map follows the order [go_range] gives. *)

From S2P Require Import Prelude GoNet Crc32 Protocol Messages MessagesData MessagesPeer NetUtil RateLimit Float64 Bandwidth SendQueue Sha256 Auth I18n Client.

Definition maxUsernameLen : Z := 32.
Definition maxRoomIDLen : nat := 32.
Definition peerInfoInterval : Z := 50000000.
Definition peerInfoCacheTTL : Z := peerInfoInterval.
Definition pingInterval : Z := 5 * Second.
Definition sendErrorLogInterval : Z := 60 * Second.

(** [connIPKey]: a [16]byte. *)
Definition addrToConnIPKey (addr : UDPAddr) : ipkey :=
  copy_into (zeros 16) (default [] (To16 (ua_IP addr))).

(** Fixed at creation. *)
Record RoomCfg := mkCfg {
  r_roomID : list byte; r_roomPass : list byte; r_subnet : IPNet; r_serverIP : IP;
  r_maxPlayers : Z; r_maxPending : Z; r_maxRegPerIP : Z; r_maxPerIP : Z; r_createdAt : Z }.

(** What [mu] and [ipConnMu] protect. *)
Record Core := mkCore {
  store : gmap nat Client; next_loc : nat;
  clients : gmap ipkey nat; addrMap : gmap RateKey nat;
  ipBitmap : list Z; pendingAuth : Z; ipConnCount : gmap ipkey Z }.

(** The cached peer list. *)
Record PeerCache := mkPeerCache {
  peerInfoDirty : bool; peerInfoEncoded : option (list byte); peerInfoCachedAt : Z }.

(** Counters; [sendErrorCountSinceLog] and [lastSendErrorLog] throttle the log. *)
Record Stats := mkStats {
  totalRegistrations : Z; authFailures : Z; peakPlayers : Z; totalPacketsRelay : Z;
  totalKicks : Z; sendErrors : Z; sendErrorCountSinceLog : Z; lastSendErrorLog : option Z;
  lastActivity : Z }.

Record Room := mkRoom {
  r_cfg : RoomCfg; r_core : Core; r_regBuf : DoubleBuf ipkey;
  r_authKeys : gmap (list byte) (list byte); r_cache : PeerCache; r_stats : Stats; r_stopped : bool }.

(** ** Setters *)

Definition set_store m (s : Core) := mkCore m (next_loc s) (clients s) (addrMap s) (ipBitmap s) (pendingAuth s) (ipConnCount s).
Definition set_clients m (s : Core) := mkCore (store s) (next_loc s) m (addrMap s) (ipBitmap s) (pendingAuth s) (ipConnCount s).
Definition set_addrMap m (s : Core) := mkCore (store s) (next_loc s) (clients s) m (ipBitmap s) (pendingAuth s) (ipConnCount s).
Definition set_ipBitmap b (s : Core) := mkCore (store s) (next_loc s) (clients s) (addrMap s) b (pendingAuth s) (ipConnCount s).
Definition set_pendingAuth n (s : Core) := mkCore (store s) (next_loc s) (clients s) (addrMap s) (ipBitmap s) n (ipConnCount s).
Definition set_ipConnCount m (s : Core) := mkCore (store s) (next_loc s) (clients s) (addrMap s) (ipBitmap s) (pendingAuth s) m.

Definition set_core s (r : Room) := mkRoom (r_cfg r) s (r_regBuf r) (r_authKeys r) (r_cache r) (r_stats r) (r_stopped r).
Definition set_regBuf b (r : Room) := mkRoom (r_cfg r) (r_core r) b (r_authKeys r) (r_cache r) (r_stats r) (r_stopped r).
Definition set_authKeys m (r : Room) := mkRoom (r_cfg r) (r_core r) (r_regBuf r) m (r_cache r) (r_stats r) (r_stopped r).
Definition set_cache c (r : Room) := mkRoom (r_cfg r) (r_core r) (r_regBuf r) (r_authKeys r) c (r_stats r) (r_stopped r).
Definition set_stats c (r : Room) := mkRoom (r_cfg r) (r_core r) (r_regBuf r) (r_authKeys r) (r_cache r) c (r_stopped r).

Definition add_registration (peak : Z) (s : Stats) := mkStats (totalRegistrations s + 1) (authFailures s) peak (totalPacketsRelay s) (totalKicks s) (sendErrors s) (sendErrorCountSinceLog s) (lastSendErrorLog s) (lastActivity s).
Definition add_authFailure (s : Stats) := mkStats (totalRegistrations s) (authFailures s + 1) (peakPlayers s) (totalPacketsRelay s) (totalKicks s) (sendErrors s) (sendErrorCountSinceLog s) (lastSendErrorLog s) (lastActivity s).
Definition add_relay (s : Stats) := mkStats (totalRegistrations s) (authFailures s) (peakPlayers s) (totalPacketsRelay s + 1) (totalKicks s) (sendErrors s) (sendErrorCountSinceLog s) (lastSendErrorLog s) (lastActivity s).
Definition add_kick (s : Stats) := mkStats (totalRegistrations s) (authFailures s) (peakPlayers s) (totalPacketsRelay s) (totalKicks s + 1) (sendErrors s) (sendErrorCountSinceLog s) (lastSendErrorLog s) (lastActivity s).
Definition add_sendError (since : Z) (last : option Z) (s : Stats) := mkStats (totalRegistrations s) (authFailures s) (peakPlayers s) (totalPacketsRelay s) (totalKicks s) (sendErrors s + 1) since last (lastActivity s).
Definition set_lastActivity t (s : Stats) := mkStats (totalRegistrations s) (authFailures s) (peakPlayers s) (totalPacketsRelay s) (totalKicks s) (sendErrors s) (sendErrorCountSinceLog s) (lastSendErrorLog s) t.

(** ** The client store *)

Definition client_at (s : Core) (l : nat) : option Client := store s !! l.
(** The client an address or a virtual IP is mapped to. *)
Definition addr_client (s : Core) (k : RateKey) : option (nat * Client) :=
  l ← addrMap s !! k; c ← client_at s l; Some (l, c).
Definition vip_client (s : Core) (k : ipkey) : option (nat * Client) :=
  l ← clients s !! k; c ← client_at s l; Some (l, c).

Definition upd_client (l : nat) (f : Client → Client) (s : Core) : Core :=
  set_store (alter f l (store s)) s.
Definition alloc (c : Client) (s : Core) : nat * Core :=
  (next_loc s, mkCore (<[next_loc s := c]> (store s)) (S (next_loc s)) (clients s) (addrMap s)
                 (ipBitmap s) (pendingAuth s) (ipConnCount s)).

(** ** IP bitmap *)

Definition octet_of (ip4 : IP) : Z := b2z (nth 3 ip4 x00).

Definition markIPUsed (ip : IP) (s : Core) : Core :=
  match To4 ip with
  | None => s
  | Some ip4 =>
      let octet := octet_of ip4 in
      set_ipBitmap (alter (fun w => Z.lor w (Z.shiftl 1 (octet mod 64))) (Z.to_nat (octet / 64)) (ipBitmap s)) s
  end.

Definition markIPFree (ip : IP) (s : Core) : Core :=
  match To4 ip with
  | None => s
  | Some ip4 =>
      let octet := octet_of ip4 in
      set_ipBitmap (alter (fun w => Z.ldiff w (Z.shiftl 1 (octet mod 64))) (Z.to_nat (octet / 64)) (ipBitmap s)) s
  end.

Definition ones64 : Z := 2 ^ 64 - 1.

(** bits.TrailingZeros64 *)
Fixpoint ctz (p : positive) : Z := match p with xO p => 1 + ctz p | _ => 0 end.
Definition TrailingZeros64 (x : Z) : Z := match x with Z.pos p => ctz p | _ => 64 end.

(** The inner loop on [free]; a set bit is cleared each time, so 64 rounds are
    enough. *)
Fixpoint scan_word (fuel : nat) (base : Z) (free : Z) : option Z :=
  match fuel with
  | O => None
  | S fuel =>
      if free =? 0 then None else
      let octet := base + TrailingZeros64 free in
      if (2 <=? octet) && (octet <? 255) then Some octet
      else scan_word fuel base (Z.land free (free - 1))
  end.

Fixpoint scan_bitmap (base : Z) (words : list Z) : option Z :=
  match words with
  | [] => None
  | word :: words =>
      if word =? ones64 then scan_bitmap (base + 64) words
      else match scan_word 64 base (Z.lxor ones64 word) with
           | Some o => Some o
           | None => scan_bitmap (base + 64) words
           end
  end.

Definition nextAvailableIP (cfg : RoomCfg) (s : Core) : option IP :=
  match To4 (net_IP (r_subnet cfg)) with
  | Some [b0; b1; b2; _] => (fun o => IPv4 b0 b1 b2 (z2b o)) <$> scan_bitmap 0 (ipBitmap s)
  | _ => None
  end.

(** ** Per-address connection counts *)

Definition conn_count (s : Core) (k : ipkey) : Z := default 0 (ipConnCount s !! k).

Definition incrementIPConnCount (k : ipkey) (s : Core) : Core :=
  set_ipConnCount (<[k := conn_count s k + 1]> (ipConnCount s)) s.

Definition decrementIPConnCount (k : ipkey) (s : Core) : Core :=
  match ipConnCount s !! k with
  | Some n => if 1 <? n then set_ipConnCount (<[k := n - 1]> (ipConnCount s)) s
              else set_ipConnCount (delete k (ipConnCount s)) s
  | None => set_ipConnCount (delete k (ipConnCount s)) s
  end.

(** [if c.PublicAddr != nil { r.decrementIPConnCount(...) }]. *)
Definition release_addr (a : option UDPAddr) (s : Core) : Core :=
  match a with Some a => decrementIPConnCount (addrToConnIPKey a) s | None => s end.

(** [if r.pendingAuth > 0 { r.pendingAuth-- }]. *)
Definition decrementPending (s : Core) : Core :=
  if 0 <? pendingAuth s then set_pendingAuth (pendingAuth s - 1) s else s.

(** ** Creation *)

(** The mask of a room: [Mask.Size()] gives 24 of 32 bits. *)
Definition mask24 : list byte := [xff; xff; xff; x00].

Record RoomConfig := mkRoomConfig {
  rc_RoomID : list byte; rc_RoomPass : list byte; rc_Subnet : IPNet;
  rc_MaxPlayers : Z; rc_MaxPerIP : Z }.

(** The fourth octet replaced. *)
Definition with_octet (ip4 : IP) (o : byte) : IP := take 3 ip4 ++ [o].

Definition NewRoom (now : Z) (c : RoomConfig) : option Room :=
  if negb (bool_decide (net_Mask (rc_Subnet c) = mask24)) then None else
  let serverIP := copy_into (zeros 4) (default [] (To4 (net_IP (rc_Subnet c)))) in
  let serverIP := with_octet serverIP x01 in
  let maxPerIP := if rc_MaxPerIP c <=? 0 then 3 else rc_MaxPerIP c in
  let cfg := mkCfg (rc_RoomID c) (rc_RoomPass c) (rc_Subnet c) serverIP (rc_MaxPlayers c)
               (Z.min (rc_MaxPlayers c * 3) 512) 5 maxPerIP now in
  let s := mkCore ∅ 0 ∅ ∅ [0; 0; 0; 0] 0 ∅ in
  let s := markIPUsed (with_octet serverIP x00) s in
  let s := markIPUsed serverIP s in
  let s := markIPUsed (with_octet serverIP xff) s in
  Some (mkRoom cfg s buf_empty ∅ (mkPeerCache false None 0)
          (mkStats 0 0 0 0 0 0 0 None now) false).

(** Room.Stop *)
Definition Stop (r : Room) : Room :=
  mkRoom (r_cfg r) (r_core r) (r_regBuf r) (r_authKeys r) (r_cache r) (r_stats r) true.

(** ** The room, the shared send queue and the dirty flag of persistence *)

Record World := mkWorld { w_room : Room; w_q : rateLimitedQueue; w_dirty : bool }.

Definition on_room (f : Room → Room) (w : World) : World := mkWorld (f (w_room w)) (w_q w) (w_dirty w).
Definition w_core (w : World) : Core := r_core (w_room w).
Definition w_cfg (w : World) : RoomCfg := r_cfg (w_room w).
Definition on_core (f : Core → Core) (w : World) : World := on_room (fun r => set_core (f (r_core r)) r) w.
Definition on_stats (f : Stats → Stats) (w : World) : World := on_room (fun r => set_stats (f (r_stats r)) r) w.

(** What a handler reads from outside: the clock, the language, rand.Read. *)
Class Env := { now : Z; T : Strings; rand_bytes : option (list byte) }.

(** Room.markDirty *)
Definition markDirty (w : World) : World := mkWorld (w_room w) (w_q w) true.

(** Room.invalidatePeerInfoCache *)
Definition invalidatePeerInfoCache (w : World) : World :=
  on_room (fun r => set_cache (mkPeerCache true None (peerInfoCachedAt (r_cache r))) r) w.

Section sends.
Context `{Env}.

(** Room.logSendError, after [sendErrors.Add(1)]. *)
Definition logSendError (w : World) : World :=
  on_stats (fun s =>
    let since := sendErrorCountSinceLog s + 1 in
    let recent := match lastSendErrorLog s with
                  | Some t => now - t <? sendErrorLogInterval | None => false end in
    if recent then add_sendError since (lastSendErrorLog s) s
    else add_sendError 0 (if 0 <? since then Some now else lastSendErrorLog s) s) w.

Definition queue_send (data : list byte) (to : UDPAddr) (p : sendPriority) (w : World) : World :=
  let '(ok, q) := rlq_send now (w_q w) data to p in
  let w := mkWorld (w_room w) q (w_dirty w) in
  if ok then w else logSendError w.

(** Room.sendChecked *)
Definition sendChecked (typ : byte) (payload : list byte) (to : UDPAddr) (w : World) : World :=
  queue_send (EncodeChecked typ payload) to priorityHigh w.

(** Room.sendCheckedRaw *)
Definition sendCheckedRaw (data : list byte) (to : UDPAddr) (w : World) : World :=
  queue_send data to priorityLow w.

(** Room.sendCheckedRawBypass *)
Definition sendCheckedRawBypass (data : list byte) (to : UDPAddr) (w : World) : World :=
  let '(_, q) := sendBypass (w_q w) data to in mkWorld (w_room w) q (w_dirty w).

(** Room.sendKickCode *)
Definition sendKickCode (to : UDPAddr) (code : byte) (reason : list byte) (w : World) : World :=
  on_stats add_kick (sendChecked TypeKick (KickPayload_Marshal (mkKick reason code)) to w).

Definition sendKick (to : UDPAddr) (reason : list byte) (w : World) : World :=
  sendKickCode to KickCodeNone reason w.

(** Room.sendAssignIP *)
Definition sendAssignIP (vip : IP) (to : UDPAddr) (w : World) : World :=
  let token := match vip_client (w_core w) (IPKey vip) with
               | Some (_, c) => cl_SessionToken c | None => zeros 16 end in
  let assign := mkAssignIP vip (net_Mask (r_subnet (w_cfg w))) (r_serverIP (w_cfg w)) AppVersion token in
  match AssignIPPayload_Marshal assign with
  | Some data => sendChecked TypeAssignIP data to w
  | None => w
  end.

Context `{MapRange}.

(** The clients in the order a range visits them. *)
Definition client_list (s : Core) : list (nat * Client) :=
  omap (fun '(_, l) => (fun c => (l, c)) <$> client_at s l) (go_range (clients s)).

Definition peer_entry (c : Client) : PeerInfoEntry :=
  mkPeer (cl_VirtualIP c) (cl_PublicAddr c) (cl_Username c) (z2b (cl_NATType c)).

(** Room.getEncodedPeerInfo *)
Definition getEncodedPeerInfo (w : World) : list byte * World :=
  let cache := r_cache (w_room w) in
  let rebuild :=
    let peers := map (peer_entry ∘ snd) (client_list (w_core w)) in
    let encoded := EncodeChecked TypePeerInfo (fst (PeerInfoPayload_Marshal peers)) in
    (encoded, on_room (set_cache (mkPeerCache (peerInfoDirty cache) (Some encoded) now)) w) in
  match peerInfoEncoded cache with
  | Some encoded =>
      if now - peerInfoCachedAt cache <? peerInfoCacheTTL then (encoded, w) else rebuild
  | None => rebuild
  end.

(** Room.sendPeerInfoToClient *)
Definition sendPeerInfoToClient (target : UDPAddr) (w : World) : World :=
  let '(encoded, w) := getEncodedPeerInfo w in sendCheckedRaw encoded target w.

(** The public addresses known, in range order. *)
Definition public_addrs (l : list (nat * Client)) : list UDPAddr :=
  omap (fun '(_, c) => cl_PublicAddr c) l.

(** Room.sendPeerInfoBroadcast *)
Definition sendPeerInfoBroadcast (w : World) : World :=
  if (size (clients (w_core w)) =? 0)%nat then w else
  let targets := public_addrs (client_list (w_core w)) in
  let '(encoded, w) := getEncodedPeerInfo w in
  foldl (fun w addr => sendCheckedRawBypass encoded addr w) w targets.

(** Room.notifyShutdown *)
Definition notifyShutdown (w : World) : World :=
  let targets := public_addrs (client_list (w_core w)) in
  let payload := KickPayload_Marshal (mkKick (str "server shutdown") KickCodeShutdown) in
  foldl (fun w addr => sendChecked TypeKick payload addr w) w targets.
End sends.

(** Room.ClientCount *)
Definition ClientCount (r : Room) : Z := Z.of_nat (size (clients (r_core r))).

(** ** Registration rate, auth keys, restored clients *)

(** Room.checkRegRate *)
Definition checkRegRate (r : Room) (addr : UDPAddr) : bool * Room :=
  let '(ok, b) := hit (r_maxRegPerIP (r_cfg r)) (r_regBuf r) (addrToConnIPKey addr) in
  (ok, set_regBuf b r).

(** One tick of Room.regRateLimitLoop. *)
Definition regRateTick (r : Room) : Room := set_regBuf (swap_clear (r_regBuf r)) r.

(** Room.getAuthKey *)
Definition getAuthKey (r : Room) (roomID : list byte) : option (list byte) * Room :=
  match r_authKeys r !! roomID with
  | Some k => (Some k, r)
  | None =>
      match DeriveKey (r_roomPass (r_cfg r)) roomID with
      | Some key => (Some key, set_authKeys (<[roomID := key]> (r_authKeys r)) r)
      | None => (None, r)
      end
  end.
