(* ===== verification/RoomHandlers.v ===== *)
(** * RoomHandlers: what a room does with each packet and tick

    src/internal/server/room_auth.go, room_relay.go, room_lifecycle.go,
    room_ping.go, and HandlePacket of room.go. *)

From S2P Require Import Prelude GoNet Crc32 Protocol Messages MessagesData MessagesPeer NetUtil RateLimit Float64 Bandwidth SendQueue Sha256 Auth I18n Client Room.

(** ** utf8.RuneCountInString *)

Definition in_range (lo hi : Z) (b : byte) : bool := (lo <=? b2z b) && (b2z b <=? hi).
Definition is_cont (b : byte) : bool := in_range 0x80 0xBF b.

(** Bytes of the rune at the head; an invalid byte is a rune of one byte. *)
Definition rune_size (l : list byte) : nat :=
  match l with
  | [] => 0%nat
  | b0 :: rest =>
      let conts n := forallb is_cont (take n rest) && (n <=? length rest)%nat in
      let second lo hi := match rest with b1 :: _ => in_range lo hi b1 | [] => false end in
      let c := b2z b0 in
      if in_range 0xC2 0xDF b0 then (if conts 1%nat then 2%nat else 1%nat)
      else if c =? 0xE0 then (if second 0xA0 0xBF && conts 2%nat then 3%nat else 1%nat)
      else if c =? 0xED then (if second 0x80 0x9F && conts 2%nat then 3%nat else 1%nat)
      else if in_range 0xE1 0xEF b0 then (if conts 2%nat then 3%nat else 1%nat)
      else if c =? 0xF0 then (if second 0x90 0xBF && conts 3%nat then 4%nat else 1%nat)
      else if in_range 0xF1 0xF3 b0 then (if conts 3%nat then 4%nat else 1%nat)
      else if c =? 0xF4 then (if second 0x80 0x8F && conts 3%nat then 4%nat else 1%nat)
      else 1%nat
  end.

Fixpoint rune_count_fuel (fuel : nat) (l : list byte) : Z :=
  match fuel, l with
  | S fuel, _ :: _ => 1 + rune_count_fuel fuel (drop (rune_size l) l)
  | _, _ => 0
  end.
Definition RuneCountInString (l : list byte) : Z := rune_count_fuel (length l) l.

(** ** Shared steps of registration *)

Inductive checkResult := checkOK | checkRoomFull | checkDuplicate.

(** What an incoming event carries to the room. *)
Inductive RoomEvent :=
| EvPacket (msgType : byte) (payload : list byte) (from : UDPAddr)
| EvPeerInfoTick
| EvPingTick
| EvRegTick
| EvCleanup
| EvShutdown.

Section handlers.
Context `{Env} `{MapRange}.

(** Room.checkCapacityAndDuplicate *)
Definition checkCapacityAndDuplicate (cfg : RoomCfg) (s : Core) (username roomID : list byte) : checkResult :=
  if r_maxPlayers cfg <=? Z.of_nat (size (clients s)) then checkRoomFull
  else if existsb (fun '(_, c) =>
            negb (bool_decide (cl_auth c = authChallengeSent))
            && bool_decide (cl_authRoomID c = roomID) && bool_decide (cl_Username c = username))
          (client_list s)
  then checkDuplicate else checkOK.

(** Room.cleanupPendingAuth *)
Definition cleanupPendingAuth (fromKey oldKey : RateKey) (foundByScan : bool) (c : Client) (s : Core) : Core :=
  let deleteKey := if foundByScan then oldKey else fromKey in
  let s := set_addrMap (delete deleteKey (addrMap s)) s in
  let s := decrementPending s in
  release_addr (cl_PublicAddr c) s.

(** Room.doRegisterClient: the virtual IP, or failure. *)
Definition doRegisterClient (reg : RegisterPayload) (from : UDPAddr) (w : World) : option IP * World :=
  match nextAvailableIP (w_cfg w) (w_core w) with
  | None => (None, w)
  | Some vip =>
      let w := on_core (markIPUsed vip) w in
      let c := new_client (rp_Username reg) vip (Some from) authNone [] 0 (rp_RoomID reg) (rp_Version reg) in
      match GenerateSessionToken rand_bytes c with
      | None => (None, on_core (markIPFree vip) w)
      | Some c =>
          let c := set_lastSeen now c in
          let w := on_core (fun s =>
            let '(l, s) := alloc c s in
            let s := set_clients (<[IPKey vip := l]> (clients s)) s in
            set_addrMap (<[AddrToRateKey from := l]> (addrMap s)) s) w in
          let cur := Z.of_nat (size (clients (w_core w))) in
          let w := on_stats (fun st =>
            let st := set_lastActivity now st in
            add_registration (if peakPlayers st <? cur then cur else peakPlayers st) st) w in
          (Some vip, w)
      end
  end.

(** Room.doSendAuthChallenge *)
Definition doSendAuthChallenge (reg : RegisterPayload) (from : UDPAddr) (w : World)
    : option (list byte) * World :=
  match GenerateChallenge rand_bytes with
  | None => (None, w)
  | Some challenge =>
      let c := new_client (rp_Username reg) [] (Some from) authChallengeSent challenge now
                 (rp_RoomID reg) (rp_Version reg) in
      let c := set_lastSeen now c in
      (Some challenge, on_core (fun s =>
        let '(l, s) := alloc c s in
        let s := set_addrMap (<[AddrToRateKey from := l]> (addrMap s)) s in
        set_pendingAuth (pendingAuth s + 1) s) w)
  end.

(** Room.resolveRestoredClient *)
Definition resolveRestoredClient (username roomID : list byte) (from : UDPAddr) (cfg : RoomCfg) (s : Core)
    : option Client * Core :=
  let clientIP := addrToConnIPKey from in
  if r_maxPerIP cfg <=? conn_count s clientIP then (None, s) else
  let s := incrementIPConnCount clientIP s in
  match first_such (fun '(_, c) =>
          bool_decide (cl_Username c = username) && bool_decide (cl_authRoomID c = roomID)
          && bool_decide (cl_PublicAddr c = None) && bool_decide (cl_auth c = authNone))
        (client_list s) with
  | Some (l, c) =>
      let s := upd_client l (fun c => set_lastSeen now (set_PublicAddr (Some from) c)) s in
      let s := set_addrMap (<[AddrToRateKey from := l]> (addrMap s)) s in
      (Some c, s)
  | None => (None, decrementIPConnCount clientIP s)
  end.

(** The answer to a client that is in the room. *)
Definition welcome (vip : IP) (from : UDPAddr) (w : World) : World :=
  sendPeerInfoToClient from (sendAssignIP vip from w).

(** The answer to a client that has just entered it. *)
Definition announce (vip : IP) (from : UDPAddr) (w : World) : World :=
  let w := welcome vip from w in
  let w := invalidatePeerInfoCache w in
  let w := markDirty w in
  sendPeerInfoBroadcast w.

(** ** Register *)

(** The stale challenge of the same endpoint is dropped first. *)
Definition dropStaleChallenge (fromKey : RateKey) (s : Core) : Core :=
  match addr_client s fromKey with
  | Some (_, existing) =>
      if bool_decide (cl_auth existing = authChallengeSent) then
        let s := release_addr (cl_PublicAddr existing) s in
        let s := set_addrMap (delete fromKey (addrMap s)) s in
        decrementPending s
      else s
  | None => s
  end.

(** From the connection-count check on. *)
Definition registerNew (reg : RegisterPayload) (from : UDPAddr) (w : World) : World :=
  let clientIP := addrToConnIPKey from in
  if r_maxPerIP (w_cfg w) <=? conn_count (w_core w) clientIP then sendKick from (KickIPLimit T) w else
  let w := on_core (incrementIPConnCount clientIP) w in
  let release := on_core (decrementIPConnCount clientIP) in
  match checkCapacityAndDuplicate (w_cfg w) (w_core w) (rp_Username reg) (rp_RoomID reg) with
  | checkRoomFull => sendKick from (KickRoomFull T) (release w)
  | checkDuplicate => sendKick from (KickDuplicateName T) (release w)
  | checkOK =>
      match r_roomPass (w_cfg w) with
      | [] =>
          match doRegisterClient reg from w with
          | (None, w) => sendKick from (KickIPExhausted T) w
          | (Some vip, w) => announce vip from w
          end
      | _ =>
          if r_maxPending (w_cfg w) <=? pendingAuth (w_core w)
          then sendKick from (KickServerBusy T) (release w)
          else
            match doSendAuthChallenge reg from w with
            | (None, w) => sendKick from (KickInternalError T) (release w)
            | (Some challenge, w) =>
                sendChecked TypeAuthChallenge
                  (AuthChallengePayload_Marshal (mkAuthChallenge challenge (UDPAddr_String from))) from w
            end
      end
  end.

(** Under [r.mu], after the checks of the packet itself. *)
Definition registerLocked (reg : RegisterPayload) (from : UDPAddr) (w : World) : World :=
  let fromKey := AddrToRateKey from in
  let w := on_core (dropStaleChallenge fromKey) w in
  match addr_client (w_core w) fromKey with
  | Some (l, existing) =>
      let w := on_core (upd_client l (fun c => set_clientVersion (rp_Version reg) (set_lastSeen now c))) w in
      welcome (cl_VirtualIP existing) from w
  | None =>
      match resolveRestoredClient (rp_Username reg) (rp_RoomID reg) from (w_cfg w) (w_core w) with
      | (Some restored, s) => announce (cl_VirtualIP restored) from (on_core (fun _ => s) w)
      | (None, s) => registerNew reg from (on_core (fun _ => s) w)
      end
  end.

(** Room.handleRegister *)
Definition handleRegister (payload : list byte) (from : UDPAddr) (w : World) : World :=
  match UnmarshalRegister payload with
  | Ok reg =>
      if negb (IsCompatible (rp_Version reg) AppVersion) then
        sendKickCode from KickCodeVersionMismatch
          (Sprintf_d (KickVersionMismatch T) [rp_Version reg; AppVersion]) w
      else
      let n := RuneCountInString (rp_Username reg) in
      if (n =? 0) || (maxUsernameLen <? n) then sendKick from (KickInvalidName T) w
      else if (length (rp_RoomID reg) =? 0)%nat || (maxRoomIDLen <? length (rp_RoomID reg))%nat
      then sendKick from (KickInvalidRoom T) w
      else
      let '(ok, r) := checkRegRate (w_room w) from in
      let w := on_room (fun _ => r) w in
      if negb ok then sendKick from (KickRateLimit T) w
      else registerLocked reg from w
  | _ => w
  end.

(** ** Auth response *)

(** The client of the response: by address, or by name among the pending ones
    (with the key it was found under). *)
Definition findPending (fromKey : RateKey) (resp : AuthResponsePayload) (s : Core)
    : option (nat * Client) * option RateKey :=
  let direct := addr_client s fromKey in
  let pending c := bool_decide (cl_auth c = authChallengeSent) in
  if match direct with Some (_, c) => pending c | None => false end then (direct, None)
  else
    let entries := omap (fun '(k, l) => (fun c => (k, l, c)) <$> client_at s l) (go_range (addrMap s)) in
    match first_such (fun '(_, _, c) =>
            pending c && bool_decide (cl_authRoomID c = ar_RoomID resp)
            && bool_decide (cl_Username c = ar_Username resp)) entries with
    | Some (k, l, c) => (Some (l, c), Some k)
    | None => (direct, None)
    end.

(** After the code is verified: the client enters the room. *)
Definition admitAuthenticated (fromKey : RateKey) (oldKey : option RateKey) (l : nat) (c : Client)
    (from : UDPAddr) (w : World) : World :=
  let w := on_core (fun s =>
    let s := set_addrMap (delete (default fromKey oldKey) (addrMap s)) s in
    let s := decrementPending s in
    match oldKey with
    | Some _ =>
        let s := upd_client l (set_PublicAddr (Some from)) s in
        set_addrMap (<[fromKey := l]> (addrMap s)) s
    | None => s
    end) w in
  let reg := mkRegister (cl_authRoomID c) (cl_Username c) (cl_clientVersion c) in
  match doRegisterClient reg from w with
  | (None, w) => sendKick from (KickIPExhausted T) w
  | (Some vip, w) => announce vip from w
  end.

(** Room.handleAuthResponse *)
Definition handleAuthResponse (payload : list byte) (from : UDPAddr) (w : World) : World :=
  match UnmarshalAuthResponse payload with
  | Ok resp =>
      if negb (length (ar_HMAC resp) =? HMACSize)%nat then w else
      let fromKey := AddrToRateKey from in
      let '(found, oldKey) := findPending fromKey resp (w_core w) in
      match found with
      | None => sendKick from (KickAuthAbnormal T) w
      | Some (l, c) =>
          let cleanup := on_core (cleanupPendingAuth fromKey (default fromKey oldKey)
                                    (bool_decide (oldKey ≠ None)) c) in
          if negb (bool_decide (cl_auth c = authChallengeSent))
          then sendKick from (KickAuthAbnormal T) (cleanup w)
          else if 15 * Second <? now - cl_challengeAt c
          then sendKick from (KickAuthTimeout T) (cleanup w)
          else
          let '(authKey, r) := getAuthKey (w_room w) (cl_authRoomID c) in
          let w := on_room (fun _ => r) w in
          match authKey with
          | None => sendKick from (KickInternalError T) (cleanup w)
          | Some _ =>
              if negb (VerifyHMAC authKey (ar_HMAC resp) (cl_challenge c) (ar_RoomID resp)
                         (ar_Username resp) (cl_PublicAddr c))
              then sendKickCode from KickCodeWrongPassword (KickWrongPassword T)
                     (on_stats add_authFailure (cleanup w))
              else
              match checkCapacityAndDuplicate (w_cfg w) (w_core w) (ar_Username resp) (ar_RoomID resp) with
              | checkRoomFull =>
                  sendKick from (KickRoomFull T) (on_core (release_addr (cl_PublicAddr c)) w)
              | checkDuplicate =>
                  sendKick from (KickDuplicateName T) (on_core (release_addr (cl_PublicAddr c)) w)
              | checkOK => admitAuthenticated fromKey oldKey l c from w
              end
          end
      end
  | _ => w
  end.

(** ** Keepalive, disconnect, stale clients *)

(** Room.handleKeepAliveWithPayload *)
Definition handleKeepAliveWithPayload (payload : list byte) (from : UDPAddr) (w : World) : World :=
  match addr_client (w_core w) (AddrToRateKey from) with
  | Some (l, _) =>
      on_core (upd_client l (fun c =>
        let c := set_lastSeen now c in
        match payload with b :: _ => set_NATType (b2z b) c | [] => c end)) w
  | None => w
  end.

(** Room.handleDisconnect *)
Definition handleDisconnect (from : UDPAddr) (w : World) : World :=
  let fromKey := AddrToRateKey from in
  match addr_client (w_core w) fromKey with
  | None => w
  | Some (_, c) =>
      let w := on_stats (set_lastActivity now) w in
      let w := on_core (fun s =>
        let s :=
          if bool_decide (cl_auth c = authChallengeSent)
          then release_addr (cl_PublicAddr c) (decrementPending s)
          else
            let s := markIPFree (cl_VirtualIP c) s in
            let s := set_clients (delete (IPKey (cl_VirtualIP c)) (clients s)) s in
            release_addr (cl_PublicAddr c) s in
        set_addrMap (delete fromKey (addrMap s)) s) w in
      let w := mkWorld (w_room w)
                 (mkRLQ (rlq_sq (w_q w)) (limiter_Remove (rlq_limiter (w_q w)) from)) (w_dirty w) in
      markDirty (invalidatePeerInfoCache w)
  end.

Definition stale_client (c : Client) : bool := 30 * Second <? now - cl_lastSeen c.
Definition stale_auth (c : Client) : bool :=
  bool_decide (cl_auth c = authChallengeSent) && (30 * Second <? now - cl_challengeAt c).

(** One entry of [staleClients], re-checked under the write lock. *)
Definition remove_stale_client (sc : ipkey * nat * Client) (acc : bool * Core) : bool * Core :=
  let '(key, l, c) := sc in
  let '(changed, s) := acc in
  if bool_decide (clients s !! key = Some l) then
    let s := markIPFree (cl_VirtualIP c) s in
    let s := set_clients (delete key (clients s)) s in
    let s := match cl_PublicAddr c with
             | Some a => decrementIPConnCount (addrToConnIPKey a)
                           (set_addrMap (delete (AddrToRateKey a) (addrMap s)) s)
             | None => s
             end in
    (true, s)
  else (changed, s).

Definition remove_stale_auth (sa : RateKey * nat * Client) (s : Core) : Core :=
  let '(key, l, c) := sa in
  if bool_decide (addrMap s !! key = Some l) then
    let s := set_addrMap (delete key (addrMap s)) s in
    let s := decrementPending s in
    release_addr (cl_PublicAddr c) s
  else s.

(** Room.CleanupStale *)
Definition CleanupStale (w : World) : bool * World :=
  let s := w_core w in
  let staleClients := List.filter (fun '(_, _, c) => stale_client c)
    (omap (fun '(k, l) => (fun c => (k, l, c)) <$> client_at s l) (go_range (clients s))) in
  let staleAuths := List.filter (fun '(_, _, c) => stale_auth c)
    (omap (fun '(k, l) => (fun c => (k, l, c)) <$> client_at s l) (go_range (addrMap s))) in
  let '(changed, s) := foldl (fun acc sc => remove_stale_client sc acc) (false, s) staleClients in
  let s := foldl (fun s sa => remove_stale_auth sa s) s staleAuths in
  let w := on_core (fun _ => s) w in
  (changed, if changed then markDirty w else w).

(** ** Ping *)

(** One tick of Room.pingLoop. *)
Definition pingTick (w : World) : World :=
  let s := w_core w in
  if (size (clients s) =? 0)%nat then w else
  let locs := map fst (client_list s) in
  let miss (c : Client) : Client :=
    match cl_lastPingSent c with
    | Some t => if 2 * pingInterval <? now - t then record_ping 0 c else c
    | None => c
    end in
  let w := on_core (fun s => foldl (fun s l => upd_client l miss s) s locs) w in
  let encoded := EncodeChecked TypePing (PingPayload_Marshal (mkPing now)) in
  foldl (fun w '(l, c) =>
    match cl_PublicAddr c with
    | None => w
    | Some a => sendCheckedRaw encoded a (on_core (upd_client l (mark_ping_sent now)) w)
    end) w (client_list (w_core w)).

(** Room.handlePong *)
Definition handlePong (payload : list byte) (from : UDPAddr) (w : World) : World :=
  match UnmarshalPing payload with
  | Ok ping =>
      let rtt := now - Timestamp ping in
      if (rtt <? 0) || (10 * Second <? rtt) then w else
      match addr_client (w_core w) (AddrToRateKey from) with
      | Some (l, _) => on_core (upd_client l (fun c => record_ping rtt (set_RTT rtt c))) w
      | None => w
      end
  | _ => w
  end.

(** ** Relay *)

Definition tcpBridgeAddr : IP := IPv4 x7f x00 x00 xfe.

(** The session-token check shared by migration and relay: [payload] either
    carries no token or the right one. *)
Definition token_ok (c : Client) (payload : list byte) : bool :=
  if (MinTokenVersion <=? cl_clientVersion c) && HasSessionToken c then
    if (length payload <=? 8)%nat then false else
    match ParseDataHeader (E:=perr) payload with
    | Ok (flags, tokenOff, _) =>
        if has_token flags then
          if (length payload <? tokenOff + DataTokenLen)%nat then false
          else ValidateSessionToken c (take DataTokenLen (drop tokenOff payload))
        else true
    | _ => false
    end
  else true.

(** player's endpoint moves: its old mapping goes, the client has the new
    address and is mapped under it. *)
Definition move_client (l : nat) (c : Client) (from : UDPAddr) (s : Core) : Core :=
  let s := match cl_PublicAddr c with
           | Some a => set_addrMap (delete (AddrToRateKey a) (addrMap s)) s
           | None => s
           end in
  let s := upd_client l (fun c => set_lastSeen now (set_PublicAddr (Some from) c)) s in
  set_addrMap (<[AddrToRateKey from := l]> (addrMap s)) s.

(** Room.tryMigrateAddrMap *)
Definition tryMigrateAddrMap (from : UDPAddr) (srcIP : list byte) (payload : list byte) (s : Core)
    : option (nat * Client) * Core :=
  match vip_client s (IPKey srcIP) with
  | None => (None, s)
  | Some (l, c) =>
      if negb (token_ok c payload) then (None, s) else
      match addr_client s (AddrToRateKey from) with
      | Some existing => (Some existing, s)
      | None =>
          (Some (l, set_lastSeen now (set_PublicAddr (Some from) c)), move_client l c from s)
      end
  end.

(** The targets of a relayed packet. *)
Definition relay_targets (s : Core) (sender : nat) (dstIP : list byte) (isBroadcast : bool) : list UDPAddr :=
  if isBroadcast
  then public_addrs (List.filter (fun '(l, _) => negb (l =? sender)%nat) (client_list s))
  else match vip_client s (IPKey4 dstIP) with
       | Some (_, dst) => match cl_PublicAddr dst with Some a => [a] | None => [] end
       | None => []
       end.

(** One unicast transmission, charged to the bandwidth limiter unless the target
    is a TCP bridge. *)
Definition relay_unicast (encoded : list byte) (addr : UDPAddr) (w : World) : World :=
  match rlq_limiter (w_q w) with
  | None => sendCheckedRaw encoded addr w
  | Some _ =>
      if IP_Equal (ua_IP addr) tcpBridgeAddr then sendCheckedRaw encoded addr w
      else
        let '(ok, lim) := Allow now (rlq_limiter (w_q w)) addr (Z.of_nat (length encoded)) in
        let w := mkWorld (w_room w) (mkRLQ (rlq_sq (w_q w)) lim) (w_dirty w) in
        if ok then sendCheckedRaw encoded addr w else w
  end.

(** Room.handleRelay *)
Definition handleRelay (payload : list byte) (from : UDPAddr) (w : World) : World :=
  if (length payload <? 8)%nat then w else
  let srcIP := take 4 payload in
  let dstIP := take 4 (drop 4 payload) in
  let isBroadcast := match IsRelayTargetRaw (E:=perr) dstIP (Some (r_subnet (w_cfg w))) with
                     | Ok b => b | _ => false end in
  let '(sender, w) :=
    match addr_client (w_core w) (AddrToRateKey from) with
    | Some sender => (Some sender, w)
    | None => let '(m, s) := tryMigrateAddrMap from srcIP payload (w_core w) in
              (m, on_core (fun _ => s) w)
    end in
  match sender with
  | None => w
  | Some (l, sender) =>
      if negb (bool_decide (To4 (cl_VirtualIP sender) = Some srcIP)) then w
      else if negb (token_ok sender payload) then w
      else
      let targets := relay_targets (w_core w) l dstIP isBroadcast in
      match targets with
      | [] => w
      | _ =>
          let encoded := match r_roomPass (w_cfg w) with
                         | [] => EncodeChecked TypeData payload
                         | _ => Encode TypeData payload end in
          let send := if isBroadcast then sendCheckedRawBypass encoded else relay_unicast encoded in
          on_stats add_relay (foldl (fun w addr => send addr w) w targets)
      end
  end.

(** Room.handleHolePunch *)
Definition handleHolePunch (payload : list byte) (from : UDPAddr) (w : World) : World :=
  if (length payload <? 4)%nat then w else
  let dstIP := take 4 payload in
  match addr_client (w_core w) (AddrToRateKey from), vip_client (w_core w) (IPKey4 dstIP) with
  | Some (_, src), Some (_, dst) =>
      match cl_PublicAddr dst with
      | None => w
      | Some dstAddr =>
          match cl_VirtualIP src with
          | [] => w
          | _ =>
              let punchData := AppendAddrStr (default [] (To4 (cl_VirtualIP src))) from in
              sendChecked TypeHolePunch punchData dstAddr w
          end
      end
  | _, _ => w
  end.

(** Room.handlePeerRequest *)
Definition handlePeerRequest (from : UDPAddr) (w : World) : World :=
  match addr_client (w_core w) (AddrToRateKey from) with
  | Some _ => sendPeerInfoToClient from w
  | None => w
  end.

(** One tick of Room.peerInfoLoop. *)
Definition peerInfoTick (w : World) : World :=
  let cache := r_cache (w_room w) in
  if peerInfoDirty cache then
    sendPeerInfoBroadcast
      (on_room (set_cache (mkPeerCache false (peerInfoEncoded cache) (peerInfoCachedAt cache))) w)
  else w.

(** ** Dispatch *)

(** Room.HandlePacket *)
Definition HandlePacket (msgType : byte) (payload : list byte) (from : UDPAddr) (w : World) : World :=
  if bool_decide (msgType = TypeRegister) then handleRegister payload from w
  else if bool_decide (msgType = TypeAuthResponse) then handleAuthResponse payload from w
  else if bool_decide (msgType = TypeKeepAlive) then handleKeepAliveWithPayload payload from w
  else if bool_decide (msgType = TypePeerRequest) then handlePeerRequest from w
  else if bool_decide (msgType = TypeData) then handleRelay payload from w
  else if bool_decide (msgType = TypeHolePunch) then handleHolePunch payload from w
  else if bool_decide (msgType = TypeDisconnect) then handleDisconnect from w
  else if bool_decide (msgType = TypePong) then handlePong payload from w
  else w.

(** One event of the room. *)
Definition room_step (ev : RoomEvent) (w : World) : World :=
  match ev with
  | EvPacket typ payload from => HandlePacket typ payload from w
  | EvPeerInfoTick => peerInfoTick w
  | EvPingTick => pingTick w
  | EvRegTick => on_room regRateTick w
  | EvCleanup =>
      let '(changed, w) := CleanupStale w in
      if changed then invalidatePeerInfoCache w else w
  | EvShutdown => notifyShutdown w
  end.
End handlers.
