(* ===== verification/RoomIP.v ===== *)
(** * RoomIP: the address bitmap

    Facts about markIPUsed, markIPFree and nextAvailableIP of room.go: the
    bit-twiddling search is a search for the least free host number. *)

From S2P Require Import Prelude GoNet NetUtil Client Room.

(** ** Bits *)

Lemma testbit_div2 x i : 0 ≤ i → Z.testbit x (i + 1) = Z.testbit (x / 2) i.
Proof. intros H. change 2 with (2 ^ 1). by rewrite <- Z.shiftr_div_pow2, Z.shiftr_spec by done. Qed.

Lemma ctz_spec p :
  Z.testbit (Z.pos p) (ctz p) = true ∧ 0 ≤ ctz p ∧ ∀ i, 0 ≤ i < ctz p → Z.testbit (Z.pos p) i = false.
Proof.
  induction p as [p IH|p IH|]; cbn [ctz].
  - split_and!; [done|lia|lia].
  - destruct IH as (Hb & H0 & Hlow). rewrite Z.add_comm. split_and!; [|lia|].
    + rewrite testbit_div2 by done. rewrite <- Hb. f_equal.
      change (Z.pos p~0) with (2 * Z.pos p). by rewrite Z.mul_comm, Z.div_mul.
    + intros i Hi. destruct (Z.eq_dec i 0) as [->|Hne]; [done|].
      replace i with ((i - 1) + 1) by lia. rewrite testbit_div2 by lia.
      change (Z.pos p~0) with (2 * Z.pos p). rewrite Z.mul_comm, Z.div_mul by done. apply Hlow. lia.
  - split_and!; [done|lia|lia].
Qed.

(** [free &= free - 1] clears the lowest set bit and no other. *)
Lemma clear_lowest p i :
  0 ≤ i → Z.testbit (Z.land (Z.pos p) (Z.pos p - 1)) i = Z.testbit (Z.pos p) i && negb (i =? ctz p).
Proof.
  revert i. induction p as [p IH|p IH|]; intros i Hi; cbn [ctz]; rewrite Z.land_spec.
  - replace (Z.pos p~1 - 1) with (2 * Z.pos p) by lia.
    destruct (Z.eqb_spec i 0) as [->|Hne]; [done|]. cbn [negb]. rewrite andb_true_r.
    replace i with ((i - 1) + 1) by lia. rewrite !testbit_div2 by lia.
    rewrite (Z.mul_comm 2), Z.div_mul by done.
    replace (Z.pos p~1 / 2) with (Z.pos p); [by rewrite andb_diag|].
    change (Z.pos p~1) with (2 * Z.pos p + 1). rewrite Z.mul_comm, Z.div_add_l by done. change (1 / 2) with 0. lia.
  - destruct (Z.eq_dec i 0) as [->|Hne]; [done|].
    replace i with ((i - 1) + 1) by lia. rewrite !testbit_div2 by lia.
    change (Z.pos p~0) with (2 * Z.pos p) in *.
    replace ((2 * Z.pos p - 1) / 2) with (Z.pos p - 1).
    2: { replace (2 * Z.pos p - 1) with ((Z.pos p - 1) * 2 + 1) by lia. rewrite Z.div_add_l by done.
         change (1 / 2) with 0. lia. }
    rewrite (Z.mul_comm 2), Z.div_mul by done. rewrite <- Z.land_spec, IH by lia. f_equal. f_equal.
    destruct (Z.eqb_spec (i - 1) (ctz p)), (Z.eqb_spec (i - 1 + 1) (1 + ctz p)); lia || done.
  - destruct (Z.eqb_spec i 0) as [->|Hne]; [done|]. cbn [negb]. rewrite andb_true_r.
    change (1 - 1) with 0. rewrite Z.bits_0, andb_false_r. symmetry. apply Z.bits_above_log2; [lia|cbn; lia].
Qed.

(** ** The search *)

Definition host_ok (o : Z) : Prop := 2 ≤ o < 255.

Lemma scan_word_spec fuel base free :
  0 ≤ free < 2 ^ 64 → (∀ i, 0 ≤ i < 64 - Z.of_nat fuel → Z.testbit free i = false) →
  match scan_word fuel base free with
  | Some o => ∃ i, o = base + i ∧ 0 ≤ i < 64 ∧ Z.testbit free i = true ∧ host_ok o ∧
                   ∀ j, 0 ≤ j < i → Z.testbit free j = true → ¬ host_ok (base + j)
  | None => ∀ i, 0 ≤ i < 64 → Z.testbit free i = true → ¬ host_ok (base + i)
  end.
Proof.
  revert free. induction fuel as [|fuel IH]; intros free Hr Hlow; cbn [scan_word].
  { intros i Hi Hb. rewrite Hlow in Hb by lia. done. }
  destruct (Z.eqb_spec free 0) as [->|Hne].
  { intros i Hi. by rewrite Z.bits_0. }
  destruct free as [|p|p]; [done| |lia]. cbn [TrailingZeros64].
  destruct (ctz_spec p) as (Hb & H0 & Hz). set (t := ctz p) in *.
  assert (t < 64) as Ht.
  { destruct (Z.lt_ge_cases t 64) as [|Hge]; [done|]. exfalso.
    rewrite Z.bits_above_log2 in Hb; [done|lia|].
    assert (Z.log2 (Z.pos p) < 64) by (apply Z.log2_lt_pow2; lia). lia. }
  destruct ((2 <=? base + t) && (base + t <? 255)) eqn:E.
  - exists t. apply andb_true_iff in E as [E1%Z.leb_le E2%Z.ltb_lt].
    split_and!; try done; try lia. intros j Hj Hbj. by rewrite Hz in Hbj by lia.
  - assert (¬ host_ok (base + t)) as Hnot.
    { unfold host_ok. apply andb_false_iff in E as [E%Z.leb_gt|E%Z.ltb_ge]; lia. }
    assert (∀ i, 0 ≤ i → Z.testbit (Z.land (Z.pos p) (Z.pos p - 1)) i
                         = Z.testbit (Z.pos p) i && negb (i =? t)) as Hclr
      by (intros; by apply clear_lowest).
    assert (64 - Z.of_nat (S fuel) ≤ t) as Htlow.
    { destruct (Z.lt_ge_cases t (64 - Z.of_nat (S fuel))); [|lia]. rewrite Hlow in Hb by lia. done. }
    set (free' := Z.land (Z.pos p) (Z.pos p - 1)) in *.
    assert (0 ≤ free' < 2 ^ 64) as Hr'.
    { assert (0 ≤ free') by (apply Z.land_nonneg; lia). split; [done|].
      destruct (Z.eq_dec free' 0) as [->|Hne']; [lia|]. apply Z.log2_lt_pow2; [lia|].
      pose proof (Z.log2_land (Z.pos p) (Z.pos p - 1) ltac:(lia) ltac:(lia)).
      assert (Z.log2 (Z.pos p) < 64) by (apply Z.log2_lt_pow2; lia). unfold free'. lia. }
    assert (∀ i, 0 ≤ i < 64 - Z.of_nat fuel → Z.testbit free' i = false) as Hlow'.
    { intros i Hi. rewrite Hclr by lia. destruct (Z.eqb_spec i t); [apply andb_false_r|].
      rewrite andb_true_r. destruct (Z.lt_ge_cases i t); [apply Hz; lia|apply Hlow; lia]. }
    specialize (IH free' Hr' Hlow'). destruct (scan_word fuel base free') as [o|].
    + destruct IH as (i & Ho & Hi & Hbi & Hok & Hmin). rewrite Hclr in Hbi by lia.
      apply andb_true_iff in Hbi as [Hbi Hit].
      exists i. split_and!; try done; try lia. intros j Hj Hbj.
      destruct (Z.eq_dec j t) as [->|Hjt]; [done|]. apply Hmin; [done|].
      rewrite Hclr, Hbj by lia. by apply negb_true_iff, Z.eqb_neq.
    + intros i Hi Hbi. destruct (Z.eq_dec i t) as [->|Hit]; [done|]. apply IH; [done|].
      rewrite Hclr, Hbi by lia. by apply negb_true_iff, Z.eqb_neq.
Qed.

(** The bit of a host number. *)
Definition bit_of (words : list Z) (o : Z) : bool :=
  match words !! Z.to_nat (o / 64) with Some w => Z.testbit w (o mod 64) | None => false end.

Lemma bit_of_cons w words o :
  64 ≤ o → bit_of (w :: words) o = bit_of words (o - 64).
Proof.
  intros Ho. unfold bit_of.
  assert (o / 64 = 1 + (o - 64) / 64) as ->.
  { replace o with (o - 64 + 1 * 64) at 1 by lia. rewrite Z.div_add by lia. lia. }
  assert (o mod 64 = (o - 64) mod 64) as ->.
  { replace o with (o - 64 + 1 * 64) at 1 by lia. by rewrite Z.mod_add by lia. }
  assert (0 ≤ (o - 64) / 64) by (apply Z.div_pos; lia).
  by replace (Z.to_nat (1 + (o - 64) / 64)) with (S (Z.to_nat ((o - 64) / 64))) by lia.
Qed.

Lemma bit_of_head w words o : 0 ≤ o < 64 → bit_of (w :: words) o = Z.testbit w o.
Proof. intros Ho. unfold bit_of. by rewrite Z.div_small, Z.mod_small by lia. Qed.

Lemma free_bit w i : 0 ≤ i < 64 → Z.testbit (Z.lxor ones64 w) i = negb (Z.testbit w i).
Proof.
  intros Hi. rewrite Z.lxor_spec.
  assert (Z.testbit ones64 i = true) as ->.
  { change ones64 with (Z.ones 64). apply Z.ones_spec_low. lia. }
  by destruct (Z.testbit w i).
Qed.

Lemma free_range w : 0 ≤ w < 2 ^ 64 → 0 ≤ Z.lxor ones64 w < 2 ^ 64.
Proof.
  intros Hw. assert (0 ≤ Z.lxor ones64 w) as H0 by (apply Z.lxor_nonneg; unfold ones64; lia).
  split; [done|]. destruct (Z.eq_dec (Z.lxor ones64 w) 0) as [->|Hne]; [lia|].
  apply Z.log2_lt_pow2; [lia|].
  pose proof (Z.log2_lxor ones64 w ltac:(unfold ones64; lia) ltac:(lia)).
  assert (Z.log2 ones64 < 64) by done.
  assert (Z.log2 w < 64).
  { destruct (Z.eq_dec w 0) as [->|]; [done|]. apply Z.log2_lt_pow2; lia. }
  lia.
Qed.

(** Least free host number at or above [base]. *)
Lemma scan_bitmap_spec base words :
  0 ≤ base → Forall (fun w => 0 ≤ w < 2 ^ 64) words →
  match scan_bitmap base words with
  | Some o => base ≤ o < base + 64 * Z.of_nat (length words) ∧ host_ok o ∧
              bit_of words (o - base) = false ∧
              ∀ o', base ≤ o' < o → host_ok o' → bit_of words (o' - base) = true
  | None => ∀ o, base ≤ o < base + 64 * Z.of_nat (length words) → host_ok o →
              bit_of words (o - base) = true
  end.
Proof.
  intros Hb Hw. revert base Hb. induction Hw as [|w words Hw Hws IH]; intros base Hb; cbn [scan_bitmap].
  { cbn. lia. }
  cbn [Datatypes.length]. specialize (IH (base + 64) ltac:(lia)).
  assert (∀ o, base + 64 ≤ o → bit_of (w :: words) (o - base) = bit_of words (o - (base + 64))) as Hshift.
  { intros o Ho. rewrite bit_of_cons by lia. f_equal. lia. }
  assert ((∀ i, 0 ≤ i < 64 → Z.testbit w i = false → ¬ host_ok (base + i)) →
    ∀ o', base ≤ o' < base + 64 → host_ok o' → bit_of (w :: words) (o' - base) = true) as Hfull.
  { intros Hno o' Ho' Hok. rewrite bit_of_head by lia.
    destruct (Z.testbit w (o' - base)) eqn:E; [done|]. apply Hno in E; [|lia].
    by replace (base + (o' - base)) with o' in E by lia. }
  assert ((∀ i, 0 ≤ i < 64 → Z.testbit w i = false → ¬ host_ok (base + i)) →
    match scan_bitmap (base + 64) words with
    | Some o => base ≤ o < base + 64 * Z.of_nat (S (length words)) ∧ host_ok o ∧
        bit_of (w :: words) (o - base) = false ∧
        ∀ o', base ≤ o' < o → host_ok o' → bit_of (w :: words) (o' - base) = true
    | None => ∀ o, base ≤ o < base + 64 * Z.of_nat (S (length words)) → host_ok o →
        bit_of (w :: words) (o - base) = true
    end) as Hnext.
  { intros Hno. specialize (Hfull Hno). destruct (scan_bitmap (base + 64) words) as [o|].
    - destruct IH as (Ho & Hok & Hbit & Hmin). rewrite Hshift by lia. split_and!; try done; try lia.
      intros o' Ho' Hok'. destruct (Z.lt_ge_cases o' (base + 64)); [apply Hfull; [lia|done]|].
      rewrite Hshift by lia. apply Hmin; [lia|done].
    - intros o Ho Hok. destruct (Z.lt_ge_cases o (base + 64)); [apply Hfull; [lia|done]|].
      rewrite Hshift by lia. apply IH; [lia|done]. }
  destruct (Z.eqb_spec w ones64) as [->|Hne].
  { apply Hnext. intros i Hi. change ones64 with (Z.ones 64). rewrite Z.ones_spec_low by lia. done. }
  pose proof (scan_word_spec 64 base (Z.lxor ones64 w) (free_range w Hw)) as Hs.
  destruct (scan_word 64 base (Z.lxor ones64 w)) as [o|].
  - destruct Hs as (i & -> & Hi & Hbi & Hok & Hmin); [intros; lia|].
    rewrite free_bit in Hbi by done. apply negb_true_iff in Hbi.
    split_and!; try done; try lia.
    + rewrite bit_of_head by lia. by replace (base + i - base) with i by lia.
    + intros o' Ho' Hok'. rewrite bit_of_head by lia.
      destruct (Z.testbit w (o' - base)) eqn:E; [done|]. exfalso.
      apply (Hmin (o' - base)); [lia|by rewrite free_bit, E by lia|].
      by replace (base + (o' - base)) with o' by lia.
  - apply Hnext. intros i Hi Hwi. apply Hs; [intros; lia|done|]. by rewrite free_bit, Hwi by done.
Qed.

(** ** Marking *)

Definition bitmap_ok (words : list Z) : Prop :=
  length words = 4%nat ∧ Forall (fun w => 0 ≤ w < 2 ^ 64) words.

Lemma octet_range ip4 : 0 ≤ octet_of ip4 < 256.
Proof. apply b2z_range. Qed.

Lemma shiftl_bit i n : 0 ≤ i → 0 ≤ n → Z.testbit (Z.shiftl 1 n) i = (i =? n).
Proof.
  intros Hi Hn. rewrite Z.shiftl_1_l, Z.pow2_bits_eqb by done. apply Z.eqb_sym.
Qed.

Lemma shiftl_range n : 0 ≤ n < 64 → 0 ≤ Z.shiftl 1 n < 2 ^ 64.
Proof. intros Hn. rewrite Z.shiftl_1_l. split; [lia|]. apply Z.pow_lt_mono_r; lia. Qed.

Lemma word_range_log w : 0 ≤ w → (w = 0 ∨ Z.log2 w < 64) → 0 ≤ w < 2 ^ 64.
Proof.
  intros H0 [->|H]; [lia|]. split; [done|]. destruct (Z.eq_dec w 0) as [->|]; [lia|].
  apply Z.log2_lt_pow2; lia.
Qed.

Lemma lor_word a b : 0 ≤ a < 2 ^ 64 → 0 ≤ b < 2 ^ 64 → 0 ≤ Z.lor a b < 2 ^ 64.
Proof.
  intros Ha Hb. apply word_range_log; [apply Z.lor_nonneg; lia|].
  assert (∀ x, 0 ≤ x < 2 ^ 64 → Z.log2 x < 64) as Hl.
  { intros x Hx. destruct (Z.eq_dec x 0) as [->|]; [done|]. apply Z.log2_lt_pow2; lia. }
  right. rewrite Z.log2_lor by lia. apply Z.max_lub_lt; by apply Hl.
Qed.

Lemma ldiff_word a b : 0 ≤ a < 2 ^ 64 → 0 ≤ b → 0 ≤ Z.ldiff a b < 2 ^ 64.
Proof.
  intros Ha Hb. assert (0 ≤ Z.ldiff a b) as H0 by (apply Z.ldiff_nonneg; lia).
  apply word_range_log; [done|]. destruct (Z.eq_dec (Z.ldiff a b) 0); [by left|right].
  destruct (Z.lt_ge_cases (Z.log2 (Z.ldiff a b)) 64) as [|Hge]; [done|]. exfalso.
  pose proof (Z.bit_log2 (Z.ldiff a b) ltac:(lia)) as Hb2. rewrite Z.ldiff_spec in Hb2.
  apply andb_true_iff in Hb2 as [Hb2 _].
  assert (a ≠ 0) by (intros ->; by rewrite Z.bits_0 in Hb2).
  rewrite Z.bits_above_log2 in Hb2; [done|lia|].
  assert (Z.log2 a < 64) by (apply Z.log2_lt_pow2; lia). lia.
Qed.

Lemma bit_of_alter words (f : Z → Z) n o :
  bitmap_ok words → 0 ≤ n < 256 → 0 ≤ o < 256 →
  (∀ w, 0 ≤ w < 2 ^ 64 → 0 ≤ f w < 2 ^ 64) →
  bitmap_ok (alter f (Z.to_nat (n / 64)) words) ∧
  bit_of (alter f (Z.to_nat (n / 64)) words) o
  = if o / 64 =? n / 64 then match words !! Z.to_nat (o / 64) with
                             | Some w => Z.testbit (f w) (o mod 64) | None => false end
    else bit_of words o.
Proof.
  intros [Hl Hw] Hn Ho Hf. split; [split|].
  - by rewrite length_alter.
  - apply Forall_lookup. intros i x Hx. rewrite Forall_lookup in Hw.
    destruct (decide (Z.to_nat (n / 64) = i)) as [<-|Hne].
    + rewrite list_lookup_alter_eq in Hx. destruct (words !! _) as [w|] eqn:E; [|done].
      simpl in Hx. simplify_eq. apply Hf. by eapply Hw.
    + rewrite list_lookup_alter_ne in Hx by done. by eapply Hw.
  - assert (0 ≤ o / 64) by (apply Z.div_pos; lia). assert (0 ≤ n / 64) by (apply Z.div_pos; lia).
    unfold bit_of. destruct (Z.eqb_spec (o / 64) (n / 64)) as [E|E].
    + rewrite E, list_lookup_alter_eq. by destruct (words !! _).
    + by rewrite list_lookup_alter_ne by lia.
Qed.

(** Both marks, for an IPv4 address of a bitmap of the right shape. *)
Lemma markIPUsed_bits ip ip4 s o :
  To4 ip = Some ip4 → bitmap_ok (ipBitmap s) → 0 ≤ o < 256 →
  bitmap_ok (ipBitmap (markIPUsed ip s)) ∧
  bit_of (ipBitmap (markIPUsed ip s)) o = bit_of (ipBitmap s) o || (o =? octet_of ip4).
Proof.
  intros Hip Hok Ho. unfold markIPUsed. rewrite Hip. cbn [set_ipBitmap ipBitmap].
  pose proof (octet_range ip4) as Hr. set (n := octet_of ip4) in *.
  pose proof (Z.mod_pos_bound n 64 ltac:(lia)) as Hm.
  destruct (bit_of_alter (ipBitmap s) (fun w => Z.lor w (Z.shiftl 1 (n mod 64))) n o Hok Hr Ho)
    as [Hok' Hbit].
  { intros w Hw. apply lor_word; [done|]. by apply shiftl_range. }
  split; [done|]. rewrite Hbit. destruct Hok as [Hlen _]. unfold bit_of.
  pose proof (Z.div_mod o 64 ltac:(lia)). pose proof (Z.div_mod n 64 ltac:(lia)).
  pose proof (Z.mod_pos_bound o 64 ltac:(lia)).
  destruct (Z.eqb_spec (o / 64) (n / 64)) as [E|E].
  - assert (0 ≤ o / 64 < 4) by (split; [apply Z.div_pos|apply Z.div_lt_upper_bound]; lia).
    destruct (lookup_lt_is_Some_2 (ipBitmap s) (Z.to_nat (o / 64))) as [w Hw]; [lia|].
    rewrite Hw, Z.lor_spec, shiftl_bit by lia. f_equal.
    destruct (Z.eqb_spec (o mod 64) (n mod 64)), (Z.eqb_spec o n); lia || done.
  - destruct (Z.eqb_spec o n) as [->|]; [done|]. by rewrite orb_false_r.
Qed.

Lemma markIPFree_bits ip ip4 s o :
  To4 ip = Some ip4 → bitmap_ok (ipBitmap s) → 0 ≤ o < 256 →
  bitmap_ok (ipBitmap (markIPFree ip s)) ∧
  bit_of (ipBitmap (markIPFree ip s)) o = bit_of (ipBitmap s) o && negb (o =? octet_of ip4).
Proof.
  intros Hip Hok Ho. unfold markIPFree. rewrite Hip. cbn [set_ipBitmap ipBitmap].
  pose proof (octet_range ip4) as Hr. set (n := octet_of ip4) in *.
  pose proof (Z.mod_pos_bound n 64 ltac:(lia)) as Hm.
  destruct (bit_of_alter (ipBitmap s) (fun w => Z.ldiff w (Z.shiftl 1 (n mod 64))) n o Hok Hr Ho)
    as [Hok' Hbit].
  { intros w Hw. apply ldiff_word; [done|]. apply shiftl_range; lia. }
  split; [done|]. rewrite Hbit. destruct Hok as [Hlen _]. unfold bit_of.
  pose proof (Z.div_mod o 64 ltac:(lia)). pose proof (Z.div_mod n 64 ltac:(lia)).
  pose proof (Z.mod_pos_bound o 64 ltac:(lia)).
  destruct (Z.eqb_spec (o / 64) (n / 64)) as [E|E].
  - assert (0 ≤ o / 64 < 4) by (split; [apply Z.div_pos|apply Z.div_lt_upper_bound]; lia).
    destruct (lookup_lt_is_Some_2 (ipBitmap s) (Z.to_nat (o / 64))) as [w Hw]; [lia|].
    rewrite Hw, Z.ldiff_spec, shiftl_bit by lia. f_equal. f_equal.
    destruct (Z.eqb_spec (o mod 64) (n mod 64)), (Z.eqb_spec o n); lia || done.
  - destruct (Z.eqb_spec o n) as [->|]; [done|]. by rewrite andb_true_r.
Qed.

(** ** The address handed out *)

(** The addresses of a room's subnet. *)
Definition room_vip (cfg : RoomCfg) (o : byte) : option IP :=
  match To4 (net_IP (r_subnet cfg)) with
  | Some [b0; b1; b2; _] => Some (IPv4 b0 b1 b2 o)
  | _ => None
  end.

Lemma room_vip_octet cfg o vip : room_vip cfg o = Some vip →
  ∃ ip4, To4 vip = Some ip4 ∧ octet_of ip4 = b2z o.
Proof.
  unfold room_vip. destruct (To4 _) as [[|b0 [|b1 [|b2 [|b3 [|]]]]]|]; try done. intros [= <-].
  eexists. split; [apply To4_IPv4|done].
Qed.

Lemma room_vip_inj cfg o1 o2 v1 v2 :
  room_vip cfg o1 = Some v1 → room_vip cfg o2 = Some v2 → IPKey v1 = IPKey v2 → o1 = o2.
Proof.
  unfold room_vip. destruct (To4 _) as [[|b0 [|b1 [|b2 [|b3 [|]]]]]|]; try done.
  intros [= <-] [= <-] H. eapply IPKey_inj_v4 in H; [|apply To4_IPv4..]. by injection H.
Qed.

(** The address given to a new player is the least host number from 2 to 254
    that is not marked in the bitmap, in the room's own subnet; no address is
    given exactly when all 253 are taken. *)
Theorem nextAvailableIP_least cfg s b0 b1 b2 b3 :
  To4 (net_IP (r_subnet cfg)) = Some [b0; b1; b2; b3] → bitmap_ok (ipBitmap s) →
  match nextAvailableIP cfg s with
  | Some vip => ∃ o, vip = IPv4 b0 b1 b2 o ∧ 2 ≤ b2z o ≤ 254 ∧ bit_of (ipBitmap s) (b2z o) = false ∧
                     ∀ o', 2 ≤ o' < b2z o → bit_of (ipBitmap s) o' = true
  | None => ∀ o, 2 ≤ o ≤ 254 → bit_of (ipBitmap s) o = true
  end.
Proof.
  intros Hn [Hl Hw]. unfold nextAvailableIP. rewrite Hn.
  pose proof (scan_bitmap_spec 0 (ipBitmap s) ltac:(lia) Hw) as Hs. rewrite Hl in Hs.
  destruct (scan_bitmap 0 (ipBitmap s)) as [o|]; cbn [fmap option_fmap option_map].
  - destruct Hs as (Ho & [Ho1 Ho2] & Hb & Hmin). exists (z2b o).
    assert (b2z (z2b o) = o) as E by (rewrite b2z_z2b, Z.mod_small; lia). rewrite E.
    rewrite Z.sub_0_r in Hb. split_and!; try done; try lia.
    intros o' Ho'. rewrite <- (Z.sub_0_r o'). apply Hmin; [lia|split; lia].
  - intros o Ho. rewrite <- (Z.sub_0_r o). apply Hs; [lia|split; lia].
Qed.

Lemma nextAvailableIP_least_witness :
  let cfg := mkCfg (str "r") [] (mkIPNet (IPv4 x0a x0a x00 x00) mask24) [x0a; x0a; x00; x01] 4 12 5 3 0 in
  let s := mkCore ∅ 0 ∅ ∅ [2 ^ 64 - 1; 5; 0; 2 ^ 63] 0 ∅ in
  nextAvailableIP cfg s = Some (IPv4 x0a x0a x00 (z2b 65)) ∧
  match nextAvailableIP cfg s with
  | Some vip => ∃ o, vip = IPv4 x0a x0a x00 o ∧ 2 ≤ b2z o ≤ 254 ∧ bit_of (ipBitmap s) (b2z o) = false ∧
                     ∀ o', 2 ≤ o' < b2z o → bit_of (ipBitmap s) o' = true
  | None => ∀ o, 2 ≤ o ≤ 254 → bit_of (ipBitmap s) o = true
  end.
Proof.
  cbv zeta. split; [vm_compute; reflexivity|].
  apply (nextAvailableIP_least _ _ x0a x0a x00 x00); [reflexivity|].
  split; [reflexivity|]. repeat (apply Forall_cons_2; [cbn; lia|]). apply Forall_nil_2.
Defined.
