(* ===== verification/RoomInv.v ===== *)
(** * RoomInv: the invariant of a room

    What every handler of a room preserves: the players' virtual addresses are
    distinct hosts of the room's subnet, the bitmap marks exactly these and the
    reserved addresses, every endpoint is mapped to a client that has this
    endpoint, the per-address limits hold. *)

From S2P Require Import Prelude GoNet Crc32 Protocol Messages MessagesData MessagesPeer NetUtil RateLimit Float64 Bandwidth SendQueue Sha256 Auth I18n Client Room RoomHandlers RoomIP.

Ltac ands := repeat (split; [done|]); try done.

(** ** Handlers' primitives as updates of single fields *)

Definition dec_conn (k : ipkey) (m : gmap ipkey Z) : gmap ipkey Z :=
  match m !! k with Some n => if 1 <? n then <[k := n - 1]> m else delete k m | None => delete k m end.
Definition rel_conn (a : option UDPAddr) (m : gmap ipkey Z) : gmap ipkey Z :=
  match a with Some a => dec_conn (addrToConnIPKey a) m | None => m end.
Definition dec_pending (n : Z) : Z := if 0 <? n then n - 1 else n.
Definition used_bits (ip : IP) (bm : list Z) : list Z :=
  match To4 ip with
  | Some ip4 => alter (fun w => Z.lor w (Z.shiftl 1 (octet_of ip4 mod 64))) (Z.to_nat (octet_of ip4 / 64)) bm
  | None => bm
  end.
Definition free_bits (ip : IP) (bm : list Z) : list Z :=
  match To4 ip with
  | Some ip4 => alter (fun w => Z.ldiff w (Z.shiftl 1 (octet_of ip4 mod 64))) (Z.to_nat (octet_of ip4 / 64)) bm
  | None => bm
  end.

Lemma decrementIPConnCount_form k s :
  decrementIPConnCount k s = set_ipConnCount (dec_conn k (ipConnCount s)) s.
Proof. unfold decrementIPConnCount, dec_conn. by repeat case_match. Qed.
Lemma release_addr_form a s : release_addr a s = set_ipConnCount (rel_conn a (ipConnCount s)) s.
Proof. destruct a; cbn; [apply decrementIPConnCount_form|by destruct s]. Qed.
Lemma decrementPending_form s : decrementPending s = set_pendingAuth (dec_pending (pendingAuth s)) s.
Proof. unfold decrementPending, dec_pending. case_match; [done|by destruct s]. Qed.
Lemma markIPUsed_form ip s : markIPUsed ip s = set_ipBitmap (used_bits ip (ipBitmap s)) s.
Proof. unfold markIPUsed, used_bits. case_match; [done|by destruct s]. Qed.
Lemma markIPFree_form ip s : markIPFree ip s = set_ipBitmap (free_bits ip (ipBitmap s)) s.
Proof. unfold markIPFree, free_bits. case_match; [done|by destruct s]. Qed.

Ltac core_forms :=
  rewrite ?decrementIPConnCount_form, ?release_addr_form, ?decrementPending_form,
    ?markIPUsed_form, ?markIPFree_form;
  unfold incrementIPConnCount, upd_client, set_store, set_clients, set_addrMap, set_ipBitmap,
    set_pendingAuth, set_ipConnCount, conn_count;
  cbn [store next_loc clients addrMap ipBitmap pendingAuth ipConnCount].

(** ** The parts of the invariant *)

Section invariant.
Context (cfg : RoomCfg).

(** player: a registered client under the key of a host address that is
    marked. *)
Definition client_ok (st : gmap nat Client) (bm : list Z) (k : ipkey) (l : nat) : Prop :=
  ∃ c o vip, st !! l = Some c ∧ cl_auth c = authNone ∧ room_vip cfg o = Some vip ∧
    cl_VirtualIP c = vip ∧ k = IPKey vip ∧ 2 ≤ b2z o ≤ 254 ∧ bit_of bm (b2z o) = true.

Record clients_part (st : gmap nat Client) (cs : gmap ipkey nat) (bm : list Z) : Prop := {
  cp_bitmap : bitmap_ok bm;
  cp_reserved : bit_of bm 0 = true ∧ bit_of bm 1 = true ∧ bit_of bm 255 = true;
  cp_client : ∀ k l, cs !! k = Some l → client_ok st bm k l;
  cp_bits : ∀ o vip, room_vip cfg o = Some vip → 2 ≤ b2z o ≤ 254 → bit_of bm (b2z o) = true →
              is_Some (cs !! IPKey vip) }.

(** An endpoint: mapped to a client with this public address, which is a player
    of the room or waits for its authentication. *)
Definition endpoint_ok (st : gmap nat Client) (cs : gmap ipkey nat) (k : RateKey) (l : nat) : Prop :=
  ∃ c a, st !! l = Some c ∧ cl_PublicAddr c = Some a ∧ AddrToRateKey a = k ∧
    match cl_auth c with
    | authNone => cs !! IPKey (cl_VirtualIP c) = Some l
    | authChallengeSent => cl_VirtualIP c = []
    end.

Definition addr_part st cs (am : gmap RateKey nat) : Prop :=
  ∀ k l, am !! k = Some l → endpoint_ok st cs k l.

Definition fresh_part (st : gmap nat Client) (nx : nat) : Prop :=
  ∀ l, is_Some (st !! l) → (l < nx)%nat.

Definition conn_part (m : gmap ipkey Z) : Prop := ∀ k n, m !! k = Some n → 1 ≤ n ≤ r_maxPerIP cfg.

(** Pending authentications: at most the limit of the room. *)
Definition pending_part (n : Z) : Prop := 0 ≤ n ≤ Z.max 0 (r_maxPending cfg).

Record core_ok (s : Core) : Prop := {
  ok_net : ∃ b0 b1 b2 b3, To4 (net_IP (r_subnet cfg)) = Some [b0; b1; b2; b3];
  ok_clients : clients_part (store s) (clients s) (ipBitmap s);
  ok_addr : addr_part (store s) (clients s) (addrMap s);
  ok_fresh : fresh_part (store s) (next_loc s);
  ok_pending : pending_part (pendingAuth s);
  ok_conn : conn_part (ipConnCount s) }.

(** ** Counters *)

Lemma conn_part_dec k m : conn_part m → conn_part (dec_conn k m).
Proof.
  intros Hm k' n. unfold dec_conn. destruct (m !! k) as [v|] eqn:E.
  - destruct (Z.ltb_spec 1 v).
    + intros [[<- <-]|[_ Hn]]%lookup_insert_Some; [|by eapply Hm].
      apply Hm in E. lia.
    + intros [_ Hn]%lookup_delete_Some. by eapply Hm.
  - intros [_ Hn]%lookup_delete_Some. by eapply Hm.
Qed.

Lemma conn_part_rel a m : conn_part m → conn_part (rel_conn a m).
Proof. destruct a; [apply conn_part_dec|done]. Qed.

Lemma conn_part_inc k m :
  conn_part m → default 0 (m !! k) < r_maxPerIP cfg → conn_part (<[k := default 0 (m !! k) + 1]> m).
Proof.
  intros Hm Hlt k' n [[<- <-]|[_ Hn]]%lookup_insert_Some; [|by eapply Hm].
  destruct (m !! k) as [v|] eqn:E; cbn in *; [apply Hm in E|]; lia.
Qed.

Lemma pending_part_dec n : pending_part n → pending_part (dec_pending n).
Proof. unfold pending_part, dec_pending. destruct (Z.ltb_spec 0 n); lia. Qed.

(** ** Store updates *)

(** An update that keeps the fields the invariant reads. *)
Definition benign (f : Client → Client) : Prop :=
  ∀ c, cl_auth (f c) = cl_auth c ∧ cl_VirtualIP (f c) = cl_VirtualIP c ∧
       cl_PublicAddr (f c) = cl_PublicAddr c.

Lemma client_ok_alter st bm k l l0 f :
  (∀ c, cl_auth (f c) = cl_auth c ∧ cl_VirtualIP (f c) = cl_VirtualIP c) →
  client_ok st bm k l → client_ok (alter f l0 st) bm k l.
Proof.
  intros Hf (c & o & vip & Hst & Ha & Hv & Hvip & Hk & Ho & Hb).
  destruct (decide (l0 = l)) as [->|Hne].
  - exists (f c), o, vip. destruct (Hf c) as [Hfa Hfv].
    rewrite lookup_alter_eq, Hst, Hfa, Hfv. ands.
  - exists c, o, vip. rewrite lookup_alter_ne by done. ands.
Qed.

Lemma clients_part_alter st cs bm l0 f :
  (∀ c, cl_auth (f c) = cl_auth c ∧ cl_VirtualIP (f c) = cl_VirtualIP c) →
  clients_part st cs bm → clients_part (alter f l0 st) cs bm.
Proof.
  intros Hf [H1 H2 H3 H4]. split; [done|done| |done].
  intros k l Hl. apply client_ok_alter; [done|]. by apply H3.
Qed.

Lemma endpoint_ok_alter_ne st cs k l l0 f :
  l ≠ l0 → endpoint_ok st cs k l → endpoint_ok (alter f l0 st) cs k l.
Proof.
  intros Hne (c & a & H). exists c, a. by rewrite lookup_alter_ne by done.
Qed.

Lemma addr_part_alter st cs am l0 f :
  benign f → addr_part st cs am → addr_part (alter f l0 st) cs am.
Proof.
  intros Hf Ha k l Hl. destruct (decide (l = l0)) as [->|Hne].
  - destruct (Ha _ _ Hl) as (c & a & Hst & Hp & Hk & Hc). destruct (Hf c) as (Hfa & Hfv & Hfp).
    exists (f c), a. rewrite lookup_alter_eq, Hst, Hfa, Hfv, Hfp. ands.
  - apply endpoint_ok_alter_ne; [done|]. by apply Ha.
Qed.

Lemma fresh_part_alter st nx l0 f : fresh_part st nx → fresh_part (alter f l0 st) nx.
Proof. intros Hf l Hl. apply Hf. by rewrite lookup_alter_is_Some in Hl. Qed.

Lemma addr_part_delete st cs am k : addr_part st cs am → addr_part st cs (delete k am).
Proof. intros Ha k' l [_ Hl]%lookup_delete_Some. by apply Ha. Qed.

Lemma core_ok_upd l f s : benign f → core_ok s → core_ok (upd_client l f s).
Proof.
  intros Hf [H1 H2 H3 H4 H5 H6]. split; core_forms; try done.
  - apply clients_part_alter; [|done]. intros c. by destruct (Hf c) as (? & ? & ?).
  - by apply addr_part_alter.
  - by apply fresh_part_alter.
Qed.

(** Deleting mappings and changing counters. *)
Lemma core_ok_fields s s' :
  core_ok s → store s' = store s → next_loc s' = next_loc s → clients s' = clients s →
  ipBitmap s' = ipBitmap s → (∀ k l, addrMap s' !! k = Some l → addrMap s !! k = Some l) →
  pending_part (pendingAuth s') → conn_part (ipConnCount s') → core_ok s'.
Proof.
  intros [H1 H2 H3 H4 H5 H6] E1 E2 E3 E4 Ha Hp Hc.
  split; rewrite ?E1, ?E2, ?E3, ?E4; try done. intros k l Hl. rewrite ?E1, ?E3. by apply H3, Ha.
Qed.

(** ** Attaching an endpoint to a client *)

(** No endpoint is mapped to the client when its own address is not. *)
Lemma no_endpoint s l c a :
  core_ok s → store s !! l = Some c → cl_PublicAddr c = a →
  (∀ x, a = Some x → addrMap s !! AddrToRateKey x = None) →
  ∀ k, addrMap s !! k ≠ Some l.
Proof.
  intros Hok Hst Hp Hn k Hk. destruct (ok_addr s Hok _ _ Hk) as (c' & a' & Hst' & Hp' & Hka & _).
  simplify_eq. rewrite Hp' in Hn. by rewrite (Hn a' eq_refl) in Hk.
Qed.

Lemma core_ok_attach s l c f from :
  core_ok s → store s !! l = Some c →
  (∀ k, addrMap s !! k ≠ Some l) →
  (match cl_auth c with
   | authNone => clients s !! IPKey (cl_VirtualIP c) = Some l
   | authChallengeSent => cl_VirtualIP c = [] end) →
  (∀ c, cl_auth (f c) = cl_auth c ∧ cl_VirtualIP (f c) = cl_VirtualIP c) →
  cl_PublicAddr (f c) = Some from →
  core_ok (set_addrMap (<[AddrToRateKey from := l]> (addrMap (upd_client l f s))) (upd_client l f s)).
Proof.
  intros [H1 H2 H3 H4 H5 H6] Hst Hno Hc Hf Hp. split; core_forms; try done.
  - by apply clients_part_alter.
  - intros k l' [[<- <-]|[Hne Hl']]%lookup_insert_Some.
    + exists (f c), from. destruct (Hf c) as [Hfa Hfv]. rewrite lookup_alter_eq, Hst, Hfa, Hfv. done.
    + apply endpoint_ok_alter_ne; [|by apply H3]. intros ->. by apply (Hno k).
  - by apply fresh_part_alter.
Qed.

(** ** A new client *)

Lemma client_ok_insert st bm k l l0 c0 :
  st !! l0 = None → client_ok st bm k l → client_ok (<[l0 := c0]> st) bm k l.
Proof.
  intros Hn (c & o & vip & Hst & H). exists c, o, vip.
  rewrite lookup_insert_ne by congruence. done.
Qed.

Lemma endpoint_ok_insert st cs k l l0 c0 :
  st !! l0 = None → endpoint_ok st cs k l → endpoint_ok (<[l0 := c0]> st) cs k l.
Proof.
  intros Hn (c & a & Hst & H). exists c, a. rewrite lookup_insert_ne by congruence. done.
Qed.

Lemma fresh_None s : core_ok s → store s !! next_loc s = None.
Proof.
  intros Hok. destruct (store s !! next_loc s) eqn:E; [|done].
  pose proof (ok_fresh s Hok (next_loc s) ltac:(by eexists)). lia.
Qed.

Lemma fresh_part_insert st nx c : fresh_part st nx → fresh_part (<[nx := c]> st) (S nx).
Proof.
  intros Hf l [x [[<- _]|[_ Hl]]%lookup_insert_Some]; [lia|].
  specialize (Hf l ltac:(by eexists)). lia.
Qed.

(** challenge was sent: the client is known by its endpoint only. *)
Lemma core_ok_challenge s c from :
  core_ok s → pendingAuth s < r_maxPending cfg →
  cl_auth c = authChallengeSent → cl_VirtualIP c = [] → cl_PublicAddr c = Some from →
  let '(l, s1) := alloc c s in
  let s1 := set_addrMap (<[AddrToRateKey from := l]> (addrMap s1)) s1 in
  core_ok (set_pendingAuth (pendingAuth s1 + 1) s1).
Proof.
  intros Hok Hlim Ha Hv Hp. pose proof (fresh_None s Hok) as Hfr. unfold alloc. core_forms.
  destruct Hok as [H1 [B1 B2 B3 B4] H3 H4 H5 H6]. split; cbn; try done; try (unfold pending_part in *; lia).
  - split; [done|done| |done]. intros k l Hl. apply client_ok_insert; [done|by apply B3].
  - intros k l [[<- <-]|[_ Hl]]%lookup_insert_Some.
    + exists c, from. rewrite lookup_insert_eq, Ha. done.
    + apply endpoint_ok_insert; [done|by apply H3].
  - by apply fresh_part_insert.
Qed.

(** ** A host marked or freed *)

Lemma used_bits_spec o vip bm o' :
  room_vip cfg o = Some vip → bitmap_ok bm → 0 ≤ o' < 256 →
  bitmap_ok (used_bits vip bm) ∧ bit_of (used_bits vip bm) o' = bit_of bm o' || (o' =? b2z o).
Proof.
  intros Hv Hbm Ho'. destruct (room_vip_octet _ _ _ Hv) as (ip4 & H4 & <-).
  pose proof (markIPUsed_bits vip ip4 (mkCore ∅ 0 ∅ ∅ bm 0 ∅) o' H4 Hbm Ho') as Hs.
  by rewrite markIPUsed_form in Hs.
Qed.

Lemma free_bits_spec o vip bm o' :
  room_vip cfg o = Some vip → bitmap_ok bm → 0 ≤ o' < 256 →
  bitmap_ok (free_bits vip bm) ∧ bit_of (free_bits vip bm) o' = bit_of bm o' && negb (o' =? b2z o).
Proof.
  intros Hv Hbm Ho'. destruct (room_vip_octet _ _ _ Hv) as (ip4 & H4 & <-).
  pose proof (markIPFree_bits vip ip4 (mkCore ∅ 0 ∅ ∅ bm 0 ∅) o' H4 Hbm Ho') as Hs.
  by rewrite markIPFree_form in Hs.
Qed.

(** What the search for a host returns. *)
Lemma next_vip s vip :
  core_ok s → nextAvailableIP cfg s = Some vip →
  ∃ o, room_vip cfg o = Some vip ∧ 2 ≤ b2z o ≤ 254 ∧ bit_of (ipBitmap s) (b2z o) = false.
Proof.
  intros [(b0 & b1 & b2 & b3 & Hnet) [[Hl Hw] _ _ _] _ _ _ _]. unfold nextAvailableIP, room_vip.
  rewrite Hnet. pose proof (scan_bitmap_spec 0 (ipBitmap s) ltac:(lia) Hw) as Hs.
  destruct (scan_bitmap 0 (ipBitmap s)) as [o|]; [|done]. intros [= <-].
  destruct Hs as (Ho & [Ho1 Ho2] & Hb & _). exists (z2b o).
  assert (b2z (z2b o) = o) as E by (rewrite b2z_z2b, Z.mod_small; lia). rewrite E.
  rewrite Z.sub_0_r in Hb. split_and!; done || lia.
Qed.

Lemma free_vip_None s o vip :
  core_ok s → room_vip cfg o = Some vip → bit_of (ipBitmap s) (b2z o) = false →
  clients s !! IPKey vip = None.
Proof.
  intros [_ [_ _ Hc _] _ _ _ _] Hv Hb. destruct (clients s !! IPKey vip) as [l|] eqn:E; [|done].
  apply Hc in E as (c & o' & vip' & _ & _ & Hv' & _ & Hk & _ & Hb').
  by rewrite (room_vip_inj _ _ _ _ _ Hv Hv' Hk), Hb' in Hb.
Qed.

(** Marking and freeing the host found changes nothing the invariant reads. *)
Lemma clients_part_unmark st cs bm o vip :
  clients_part st cs bm → room_vip cfg o = Some vip → 2 ≤ b2z o ≤ 254 → bit_of bm (b2z o) = false →
  clients_part st cs (free_bits vip (used_bits vip bm)).
Proof.
  intros [H1 H2 H3 H4] Hv Ho Hb.
  assert (∀ o', 0 ≤ o' < 256 → bit_of (free_bits vip (used_bits vip bm)) o' = bit_of bm o') as E.
  { intros o' Ho'. destruct (used_bits_spec o vip bm o' Hv H1 Ho') as [Hok Hu].
    destruct (free_bits_spec o vip _ o' Hv Hok Ho') as [_ Hf]. rewrite Hf, Hu.
    destruct (Z.eqb_spec o' (b2z o)) as [->|]; [by rewrite Hb|]. by rewrite orb_false_r, andb_true_r. }
  destruct (used_bits_spec o vip bm 0 Hv H1 ltac:(lia)) as [Hok _].
  destruct (free_bits_spec o vip _ 0 Hv Hok ltac:(lia)) as [Hok' _].
  split; [done| | |].
  - by rewrite !E by lia.
  - intros k l Hl. destruct (H3 k l Hl) as (c & o' & vip' & H & ? & ? & ? & ? & Ho' & Hb').
    exists c, o', vip'. rewrite E by lia. ands.
  - intros o' vip' Hv' Ho'. rewrite E by lia. by apply H4.
Qed.

Lemma core_ok_unmark s o vip :
  core_ok s → room_vip cfg o = Some vip → 2 ≤ b2z o ≤ 254 → bit_of (ipBitmap s) (b2z o) = false →
  core_ok (markIPFree vip (markIPUsed vip s)).
Proof.
  intros [H1 H2 H3 H4 H5 H6] Hv Ho Hb. core_forms. split; cbn; try done.
  by apply (clients_part_unmark _ _ _ o).
Qed.

(** ** A player enters *)

(** player on a free host, with no endpoint yet. *)
Lemma core_ok_player s c o vip :
  core_ok s → room_vip cfg o = Some vip → 2 ≤ b2z o ≤ 254 → bit_of (ipBitmap s) (b2z o) = false →
  cl_auth c = authNone → cl_VirtualIP c = vip →
  core_ok (let '(l, s) := alloc c (markIPUsed vip s) in
           set_clients (<[IPKey vip := l]> (clients s)) s).
Proof.
  intros Hok Hv Ho Hb Ha Hvip. pose proof (fresh_None s Hok) as Hfr.
  pose proof (free_vip_None s o vip Hok Hv Hb) as Hnone. unfold alloc. core_forms.
  destruct Hok as [H1 [B1 B2 B3 B4] H3 H4 H5 H6].
  assert (∀ o', 0 ≤ o' < 256 →
    bit_of (used_bits vip (ipBitmap s)) o' = bit_of (ipBitmap s) o' || (o' =? b2z o)) as E.
  { intros o' Ho'. by apply used_bits_spec. }
  split; cbn; try done.
  - split.
    + by destruct (used_bits_spec o vip (ipBitmap s) 0 Hv B1 ltac:(lia)).
    + rewrite !E by lia. destruct B2 as (-> & -> & ->). done.
    + intros k l [[<- <-]|[_ Hl]]%lookup_insert_Some.
      * exists c, o, vip. rewrite lookup_insert_eq, E, Z.eqb_refl, orb_true_r by lia. ands.
      * apply client_ok_insert; [done|].
        destruct (B3 k l Hl) as (c' & o' & vip' & H & ? & ? & ? & ? & Ho' & Hb').
        exists c', o', vip'. rewrite E, Hb' by lia. ands.
    + intros o' vip' Hv' Ho'. rewrite E by lia. destruct (Z.eqb_spec (b2z o') (b2z o)) as [Eo|_].
      * intros _. apply b2z_inj in Eo as ->. assert (vip' = vip) as -> by congruence.
        rewrite lookup_insert_eq. by eexists.
      * rewrite orb_false_r. intros Hb'. apply lookup_insert_is_Some'. right. exact (B4 _ _ Hv' Ho' Hb').
  - intros k l Hl. apply endpoint_ok_insert; [done|].
    destruct (H3 k l Hl) as (c' & a & ? & ? & ? & Hc').
    exists c', a. ands. destruct (cl_auth c'); [|done].
    by rewrite lookup_insert_ne by congruence.
  - by apply fresh_part_insert.
Qed.

(** An endpoint is mapped to the player that has it. *)
Lemma core_ok_endpoint s l c from :
  core_ok s → store s !! l = Some c → cl_auth c = authNone →
  clients s !! IPKey (cl_VirtualIP c) = Some l → cl_PublicAddr c = Some from →
  core_ok (set_addrMap (<[AddrToRateKey from := l]> (addrMap s)) s).
Proof.
  intros [H1 H2 H3 H4 H5 H6] Hst Ha Hc Hp. split; cbn; try done.
  intros k l' [[<- <-]|[_ Hl']]%lookup_insert_Some; [|by apply H3].
  exists c, from. rewrite Ha. done.
Qed.

Lemma core_ok_register s c o vip from :
  core_ok s → room_vip cfg o = Some vip → 2 ≤ b2z o ≤ 254 → bit_of (ipBitmap s) (b2z o) = false →
  cl_auth c = authNone → cl_VirtualIP c = vip → cl_PublicAddr c = Some from →
  core_ok (let '(l, s) := alloc c (markIPUsed vip s) in
           let s := set_clients (<[IPKey vip := l]> (clients s)) s in
           set_addrMap (<[AddrToRateKey from := l]> (addrMap s)) s).
Proof.
  intros Hok Hv Ho Hb Ha Hvip Hp.
  apply (core_ok_endpoint _ _ c); [by apply (core_ok_player s c o vip)| |done| |done].
  - cbn. apply lookup_insert_eq.
  - cbn. rewrite Hvip. apply lookup_insert_eq.
Qed.

(** ** A player leaves *)

Lemma clients_part_remove st cs bm k l c :
  clients_part st cs bm → cs !! k = Some l → st !! l = Some c →
  clients_part st (delete k cs) (free_bits (cl_VirtualIP c) bm) ∧ k = IPKey (cl_VirtualIP c).
Proof.
  intros [B1 B2 B3 B4] Hk Hst.
  destruct (B3 k l Hk) as (c' & o & vip & Hst' & Ha & Hv & Hvip & -> & Ho & Hb). simplify_eq.
  set (vip := cl_VirtualIP c) in *.
  assert (∀ o', 0 ≤ o' < 256 → bit_of (free_bits vip bm) o' = bit_of bm o' && negb (o' =? b2z o)) as E.
  { intros o' Ho'. by apply free_bits_spec. }
  split; [|done]. split.
  - by destruct (free_bits_spec o vip bm 0 Hv B1 ltac:(lia)).
  - rewrite !E by lia. destruct B2 as (-> & -> & ->).
    assert (0 ≠ b2z o ∧ 1 ≠ b2z o ∧ 255 ≠ b2z o) as (N0 & N1 & N2) by lia.
    by rewrite !(proj2 (Z.eqb_neq _ _)).
  - intros k' l' [Hne Hl']%lookup_delete_Some.
    destruct (B3 k' l' Hl') as (c' & o' & vip' & ? & ? & Hv' & ? & -> & Ho' & Hb').
    exists c', o', vip'. rewrite E, Hb' by lia. ands.
    apply andb_true_iff. split; [done|]. apply negb_true_iff, Z.eqb_neq. intros Eo.
    apply b2z_inj in Eo as ->. apply Hne. congruence.
  - intros o' vip' Hv' Ho'. rewrite E by lia. intros [Hb' Hne]%andb_true_iff.
    apply negb_true_iff, Z.eqb_neq in Hne. rewrite lookup_delete_ne; [exact (B4 _ _ Hv' Ho' Hb')|].
    intros Ek. apply Hne. by rewrite (room_vip_inj _ _ _ _ _ Hv Hv' Ek).
Qed.

(** [am'] keeps no endpoint of the client. *)
Lemma core_ok_remove s s' k l c :
  core_ok s → clients s !! k = Some l → store s !! l = Some c →
  store s' = store s → next_loc s' = next_loc s → clients s' = delete k (clients s) →
  ipBitmap s' = free_bits (cl_VirtualIP c) (ipBitmap s) →
  (∀ k' l', addrMap s' !! k' = Some l' → addrMap s !! k' = Some l' ∧ l' ≠ l) →
  pending_part (pendingAuth s') → conn_part (ipConnCount s') → core_ok s'.
Proof.
  intros [H1 H2 H3 H4 H5 H6] Hk Hst E1 E2 E3 E4 Ha Hp Hc.
  destruct (clients_part_remove _ _ _ k l c H2 Hk Hst) as [Hcp ->].
  split; rewrite ?E1, ?E2, ?E3, ?E4; try done.
  - intros k' l' [Hl' Hne]%Ha. rewrite ?E1, ?E3.
    destruct (H3 k' l' Hl') as (c' & a & Hst' & ? & ? & Hc'). exists c', a. ands.
    destruct (cl_auth c'); [|done]. rewrite lookup_delete_ne; [done|]. intros E. congruence.
Qed.

(** The only endpoint of a client is its own address. *)
Lemma endpoint_unique s k1 k2 l :
  core_ok s → addrMap s !! k1 = Some l → addrMap s !! k2 = Some l → k1 = k2.
Proof.
  intros Hok H1 H2. destruct (ok_addr s Hok _ _ H1) as (c1 & a1 & ? & ? & <- & _).
  destruct (ok_addr s Hok _ _ H2) as (c2 & a2 & ? & ? & <- & _). congruence.
Qed.
End invariant.
