(* ===== verification/RoomSafe.v ===== *)
(** * RoomSafe: every event of a room preserves its invariant

    [pres w w']: the configuration is the same and [core_ok] is kept.  Each
    handler of RoomHandlers is shown to be such a step, on all its branches. *)

From S2P Require Import Prelude GoNet Crc32 Protocol Messages MessagesData MessagesPeer NetUtil RateLimit Float64 Bandwidth SendQueue Sha256 Auth I18n Client Room RoomHandlers RoomIP RoomInv.

(** The cached keys are those of the room's password. *)
Definition keys_ok (w : World) : Prop :=
  ∀ id key, r_authKeys (w_room w) !! id = Some key → DeriveKey (r_roomPass (w_cfg w)) id = Some key.

Definition room_ok (w : World) : Prop := core_ok (w_cfg w) (w_core w) ∧ keys_ok w.

(** The step touches neither the configuration, nor the core, nor the keys. *)
Definition keeps (w w' : World) : Prop :=
  w_cfg w' = w_cfg w ∧ w_core w' = w_core w ∧ r_authKeys (w_room w') = r_authKeys (w_room w).
#[export] Instance keeps_preorder : PreOrder keeps.
Proof. split; [done|]. intros x y z (? & ? & ?) (? & ? & ?). split_and!; congruence. Qed.

Definition pres (w w' : World) : Prop := w_cfg w' = w_cfg w ∧ (room_ok w → room_ok w').
#[export] Instance pres_preorder : PreOrder pres.
Proof. split; [done|]. intros x y z [H1 H2] [H3 H4]. split; [congruence|auto]. Qed.

Lemma pres_keeps w w' : keeps w w' → pres w w'.
Proof. intros (H1 & H2 & H3). split; [done|]. unfold room_ok, keys_ok. by rewrite H1, H2, H3. Qed.

Lemma pres_on_core f w :
  (core_ok (w_cfg w) (w_core w) → core_ok (w_cfg w) (f (w_core w))) → pres w (on_core f w).
Proof. intros Hf. split; [done|]. intros [Hok Hk]. split; [by apply Hf|done]. Qed.

Lemma on_core_twice f g w : on_core f (on_core g w) = on_core (fun s => f (g s)) w.
Proof. done. Qed.

Create HintDb room discriminated.

(** ** What only sends, counts or caches *)

Section frames.
Context `{Env} `{MapRange}.

Lemma keeps_queue_send d to p w : keeps w (queue_send d to p w).
Proof. unfold queue_send. destruct (rlq_send _ _ _ _) as [[] q]; done. Qed.
Lemma keeps_sendChecked t d to w : keeps w (sendChecked t d to w).
Proof. apply keeps_queue_send. Qed.
Lemma keeps_sendCheckedRaw d to w : keeps w (sendCheckedRaw d to w).
Proof. apply keeps_queue_send. Qed.
Lemma keeps_bypass d to w : keeps w (sendCheckedRawBypass d to w).
Proof. unfold sendCheckedRawBypass. by destruct (sendBypass _ _ _). Qed.
Lemma keeps_stats f w : keeps w (on_stats f w).
Proof. done. Qed.
Lemma keeps_kickCode to c r w : keeps w (sendKickCode to c r w).
Proof. apply (keeps_sendChecked TypeKick _ to w). Qed.
Lemma keeps_kick to r w : keeps w (sendKick to r w).
Proof. apply keeps_kickCode. Qed.
Lemma keeps_dirty w : keeps w (markDirty w).
Proof. done. Qed.
Lemma keeps_invalidate w : keeps w (invalidatePeerInfoCache w).
Proof. done. Qed.
Lemma keeps_assign vip to w : keeps w (sendAssignIP vip to w).
Proof. unfold sendAssignIP. destruct (AssignIPPayload_Marshal _); [apply keeps_sendChecked|done]. Qed.
Lemma keeps_encoded w : keeps w (getEncodedPeerInfo w).2.
Proof. unfold getEncodedPeerInfo. repeat case_match; done. Qed.
Lemma keeps_foldl {A} (f : World → A → World) l w :
  (∀ w a, keeps w (f w a)) → keeps w (foldl f w l).
Proof.
  intros Hf. revert w. induction l as [|a l IH]; intros w; [done|]. cbn [foldl].
  etransitivity; [apply Hf|apply IH].
Qed.
Lemma keeps_peerinfo to w : keeps w (sendPeerInfoToClient to w).
Proof.
  unfold sendPeerInfoToClient. pose proof (keeps_encoded w) as Hk.
  destruct (getEncodedPeerInfo w) as [e w']. etransitivity; [apply Hk|apply keeps_sendCheckedRaw].
Qed.
Lemma keeps_broadcast w : keeps w (sendPeerInfoBroadcast w).
Proof.
  unfold sendPeerInfoBroadcast. destruct (size _ =? 0)%nat; [done|].
  pose proof (keeps_encoded w) as Hk. destruct (getEncodedPeerInfo w) as [e w'].
  etransitivity; [apply Hk|]. apply keeps_foldl. intros. apply keeps_bypass.
Qed.
Lemma keeps_welcome vip to w : keeps w (welcome vip to w).
Proof. etransitivity; [apply keeps_assign|apply keeps_peerinfo]. Qed.
Lemma keeps_announce vip to w : keeps w (announce vip to w).
Proof.
  unfold announce. transitivity (markDirty (invalidatePeerInfoCache (welcome vip to w))); [|apply keeps_broadcast].
  apply (keeps_welcome vip to).
Qed.
Lemma keeps_shutdown w : keeps w (notifyShutdown w).
Proof. apply keeps_foldl. intros. apply keeps_sendChecked. Qed.
Lemma keeps_regRate w from : keeps w (on_room (fun _ => (checkRegRate (w_room w) from).2) w).
Proof. unfold checkRegRate. by destruct (hit _ _ _). Qed.
Lemma pres_authKey w roomID :
  let w' := on_room (fun _ => (getAuthKey (w_room w) roomID).2) w in
  pres w w' ∧ w_core w' = w_core w.
Proof.
  unfold getAuthKey. destruct (r_authKeys (w_room w) !! roomID) eqn:E; [done|].
  destruct (DeriveKey _ _) as [key|] eqn:Ed; [|done]. split; [|done]. split; [done|].
  intros [Hok Hk]. split; [done|]. intros id k. cbn. intros [[<- <-]|[_ Hid]]%lookup_insert_Some; [done|].
  by apply Hk.
Qed.
Lemma getAuthKey_spec w roomID :
  keys_ok w → (getAuthKey (w_room w) roomID).1 = DeriveKey (r_roomPass (w_cfg w)) roomID.
Proof.
  intros Hk. unfold getAuthKey. destruct (r_authKeys (w_room w) !! roomID) eqn:E.
  - symmetry. by apply Hk.
  - unfold w_cfg. by destruct (DeriveKey _ _).
Qed.
Lemma keeps_unicast e a w : keeps w (relay_unicast e a w).
Proof.
  unfold relay_unicast. destruct (rlq_limiter _); [|apply keeps_sendCheckedRaw].
  destruct (IP_Equal _ _); [apply keeps_sendCheckedRaw|]. destruct (Allow _ _ _ _) as [[] lim]; [|done].
  apply (keeps_sendCheckedRaw e a (mkWorld _ _ _)).
Qed.

(** ** Lookups *)

Lemma addr_client_Some s k l c :
  addr_client s k = Some (l, c) ↔ addrMap s !! k = Some l ∧ store s !! l = Some c.
Proof.
  unfold addr_client, client_at. destruct (addrMap s !! k) as [l'|]; cbn; [|naive_solver].
  destruct (store s !! l') as [c'|] eqn:E; cbn; naive_solver.
Qed.

Lemma vip_client_Some s k l c :
  vip_client s k = Some (l, c) ↔ clients s !! k = Some l ∧ store s !! l = Some c.
Proof.
  unfold vip_client, client_at. destruct (clients s !! k) as [l'|]; cbn; [|naive_solver].
  destruct (store s !! l') as [c'|] eqn:E; cbn; naive_solver.
Qed.

Lemma elem_of_client_list s l c :
  (l, c) ∈ client_list s ↔ (∃ k, clients s !! k = Some l) ∧ store s !! l = Some c.
Proof.
  unfold client_list, client_at. rewrite list_elem_of_omap. split.
  - intros ([k l'] & Hin & Hc). apply elem_of_go_range in Hin.
    destruct (store s !! l') eqn:E; naive_solver.
  - intros [[k Hk] Hs]. exists (k, l). rewrite elem_of_go_range. split; [done|]. by rewrite Hs.
Qed.

Lemma elem_of_entries {K} `{Countable K} s (m : gmap K nat) k l c :
  (k, l, c) ∈ omap (fun '(k, l) => (fun c => (k, l, c)) <$> client_at s l) (go_range m) ↔
  m !! k = Some l ∧ store s !! l = Some c.
Proof.
  unfold client_at. rewrite list_elem_of_omap. split.
  - intros ([k' l'] & Hin & Hc). apply elem_of_go_range in Hin.
    destruct (store s !! l') eqn:E; naive_solver.
  - intros [Hk Hs]. exists (k, l). rewrite elem_of_go_range. split; [done|]. by rewrite Hs.
Qed.
End frames.

#[export] Hint Resolve keeps_sendChecked keeps_sendCheckedRaw keeps_bypass keeps_stats keeps_kickCode
  keeps_kick keeps_dirty keeps_invalidate keeps_assign keeps_peerinfo keeps_broadcast keeps_welcome
  keeps_announce keeps_shutdown keeps_unicast : room.

(** Drops the part of the goal's last world that only sends: [R w w'] by
    transitivity, where [keeps] implies [R] by [lem]. *)
Ltac drop_sends lem :=
  repeat first
    [ reflexivity
    | match goal with |- ?R ?w ?w' =>
        let skip x := (transitivity x; [|apply lem; auto with room]) in
        match w' with
        | sendChecked _ _ _ ?x => skip x
        | sendKick _ _ ?x => skip x
        | sendKickCode _ _ _ ?x => skip x
        | on_stats _ ?x => skip x
        | welcome _ _ ?x => skip x
        | announce _ _ ?x => skip x
        | markDirty ?x => skip x
        | invalidatePeerInfoCache ?x => skip x
        | sendPeerInfoBroadcast ?x => skip x
        | sendPeerInfoToClient _ ?x => skip x
        end end ].
Ltac frame := drop_sends pres_keeps.

(** ** Steps on the core *)

Section core_steps.
Context (cfg : RoomCfg).

Lemma core_ok_release a s : core_ok cfg s → core_ok cfg (release_addr a s).
Proof.
  intros Hok. core_forms. eapply core_ok_fields; try done; [by destruct Hok|].
  by apply conn_part_rel; destruct Hok.
Qed.
Lemma core_ok_dec k s : core_ok cfg s → core_ok cfg (decrementIPConnCount k s).
Proof.
  intros Hok. core_forms. eapply core_ok_fields; try done; [by destruct Hok|].
  by apply conn_part_dec; destruct Hok.
Qed.
Lemma core_ok_inc k s :
  core_ok cfg s → conn_count s k < r_maxPerIP cfg → core_ok cfg (incrementIPConnCount k s).
Proof.
  intros Hok Hlt. core_forms. eapply core_ok_fields; try done; [by destruct Hok|].
  by apply conn_part_inc; destruct Hok.
Qed.
Lemma core_ok_pendingdec s : core_ok cfg s → core_ok cfg (decrementPending s).
Proof.
  intros Hok. core_forms. eapply core_ok_fields; try done; [|by destruct Hok].
  by apply pending_part_dec; destruct Hok.
Qed.
Lemma core_ok_deladdr k s : core_ok cfg s → core_ok cfg (set_addrMap (delete k (addrMap s)) s).
Proof.
  intros Hok. eapply core_ok_fields; try done; [|by destruct Hok..].
  cbn. by intros k' l [_ Hl]%lookup_delete_Some.
Qed.

Lemma core_ok_cleanup k1 k2 b c s : core_ok cfg s → core_ok cfg (cleanupPendingAuth k1 k2 b c s).
Proof.
  intros Hok. apply core_ok_release, core_ok_pendingdec, core_ok_deladdr, Hok.
Qed.

Lemma core_ok_dropStale k s : core_ok cfg s → core_ok cfg (dropStaleChallenge k s).
Proof.
  intros Hok. unfold dropStaleChallenge. destruct (addr_client s k) as [[l c]|]; [|done].
  case_bool_decide; [|done]. by apply core_ok_pendingdec, core_ok_deladdr, core_ok_release.
Qed.

(** registered client of the list is the one its address leads to. *)
Lemma listed_client `{MapRange} s l c :
  core_ok cfg s → (l, c) ∈ client_list s →
  store s !! l = Some c ∧ cl_auth c = authNone ∧ clients s !! IPKey (cl_VirtualIP c) = Some l.
Proof.
  intros Hok [[k Hk] Hs]%elem_of_client_list.
  destruct (ok_clients _ _ Hok) as [_ _ Hc _]. destruct (Hc k l Hk) as (c' & o & vip & Hs' & ? & ? & ? & -> & _).
  naive_solver.
Qed.

Lemma core_ok_restored `{Env} `{MapRange} u r from s :
  core_ok cfg s → core_ok cfg (resolveRestoredClient u r from cfg s).2.
Proof.
  intros Hok. unfold resolveRestoredClient.
  destruct (Z.leb_spec (r_maxPerIP cfg) (conn_count s (addrToConnIPKey from))); [done|].
  set (s1 := incrementIPConnCount _ s). assert (core_ok cfg s1) as Hok1 by by apply core_ok_inc.
  destruct (first_such _ _) as [[l c]|] eqn:E; cbn [snd]; [|by apply core_ok_dec].
  apply first_such_Some in E as [Hin Hp]. repeat setoid_rewrite andb_true_iff in Hp.
  rewrite !bool_decide_eq_true in Hp. destruct Hp as [[[_ _] Hpa] _].
  destruct (listed_client _ _ _ Hok1 Hin) as (Hs & Ha & Hc).
  eapply (core_ok_attach cfg s1 l c); try done.
  - by eapply no_endpoint.
  - by rewrite Ha.
Qed.
End core_steps.

(** ** The handlers *)

Section handlers_ok.
Context `{Env} `{MapRange}.

Lemma pres_doRegisterClient reg from w : pres w (doRegisterClient reg from w).2.
Proof.
  unfold doRegisterClient. destruct (nextAvailableIP _ _) as [vip|] eqn:Hn; [|done].
  destruct (GenerateSessionToken _ _) as [c|] eqn:Hc; cbn [snd].
  - unfold GenerateSessionToken in Hc. destruct rand_bytes as [b|]; [|done]. injection Hc as <-.
    frame. rewrite on_core_twice. apply pres_on_core. intros Hok. destruct (next_vip _ _ _ Hok Hn) as (o & Hv & Ho & Hb).
    by apply (core_ok_register (w_cfg w) (w_core w) _ o).
  - rewrite on_core_twice. apply pres_on_core. intros Hok.
    destruct (next_vip _ _ _ Hok Hn) as (o & Hv & Ho & Hb).
    by apply (core_ok_unmark _ _ o).
Qed.

Lemma pres_doSendAuthChallenge reg from w :
  pendingAuth (w_core w) < r_maxPending (w_cfg w) → pres w (doSendAuthChallenge reg from w).2.
Proof.
  intros Hlim. unfold doSendAuthChallenge. destruct (GenerateChallenge _) as [ch|]; [|done].
  apply pres_on_core. intros Hok. by apply core_ok_challenge.
Qed.

Lemma check_ok_size cfg s u r :
  checkCapacityAndDuplicate cfg s u r = checkOK → Z.of_nat (size (clients s)) < r_maxPlayers cfg.
Proof.
  unfold checkCapacityAndDuplicate. by destruct (Z.leb_spec (r_maxPlayers cfg) (Z.of_nat (size (clients s)))).
Qed.

Lemma pres_registerNew reg from w : pres w (registerNew reg from w).
Proof.
  unfold registerNew. set (k := addrToConnIPKey from).
  destruct (Z.leb_spec (r_maxPerIP (w_cfg w)) (conn_count (w_core w) k)); [frame|].
  set (w1 := on_core (incrementIPConnCount k) w).
  transitivity w1; [by apply pres_on_core; intros; apply core_ok_inc|].
  assert (∀ w', pres w' (on_core (decrementIPConnCount k) w')) as Hrel
    by (intros; apply pres_on_core; apply core_ok_dec).
  destruct (checkCapacityAndDuplicate _ _ _ _); [|frame; apply Hrel..].
  destruct (r_roomPass _).
  - pose proof (pres_doRegisterClient reg from w1) as Hp.
    destruct (doRegisterClient reg from w1) as [[vip|] w2]; by frame.
  - destruct (Z.leb_spec (r_maxPending (w_cfg w1)) (pendingAuth (w_core w1))); [frame; apply Hrel|].
    pose proof (pres_doSendAuthChallenge reg from w1 ltac:(done)) as Hp.
    destruct (doSendAuthChallenge reg from w1) as [[ch|] w2]; frame; [done|].
    by transitivity w2.
Qed.

Lemma pres_registerLocked reg from w : pres w (registerLocked reg from w).
Proof.
  unfold registerLocked. set (w1 := on_core (dropStaleChallenge _) w).
  transitivity w1; [apply pres_on_core, core_ok_dropStale|].
  destruct (addr_client (w_core w1) _) as [[l c]|] eqn:E.
  { frame. apply pres_on_core. by apply core_ok_upd. }
  pose proof (λ Hok, core_ok_restored (w_cfg w1) (rp_Username reg) (rp_RoomID reg) from (w_core w1) Hok) as Hr.
  destruct (resolveRestoredClient _ _ _ _ _) as [[c|] s]; [frame|].
  - by apply (pres_on_core (fun _ => s)).
  - etransitivity; [|apply pres_registerNew]. by apply (pres_on_core (fun _ => s)).
Qed.

Lemma pres_handleRegister p from w : pres w (handleRegister p from w).
Proof.
  unfold handleRegister. destruct (UnmarshalRegister p) as [reg| |]; [|done..].
  destruct (negb (IsCompatible _ _)); [frame|].
  destruct ((_ =? 0) || _); [frame|]. destruct ((_ =? 0)%nat || _); [frame|].
  pose proof (keeps_regRate w from) as Hk. destruct (checkRegRate _ _) as [[] r]; cbn [negb]; [|frame].
  - etransitivity; [apply pres_keeps, Hk|]. apply pres_registerLocked.
  - by apply pres_keeps.
Qed.

Lemma findPending_Some k resp s l c old :
  findPending k resp s = (Some (l, c), old) →
  addrMap s !! default k old = Some l ∧ store s !! l = Some c ∧
  (old ≠ None → cl_auth c = authChallengeSent).
Proof.
  unfold findPending.
  destruct (match addr_client s k with Some (_, c) => _ | None => false end) eqn:Hd.
  - intros [= Hk <-]. apply addr_client_Some in Hk. naive_solver.
  - destruct (first_such _ _) as [[[k' l'] c']|] eqn:E; intros Heq; simplify_eq.
    + apply first_such_Some in E as [Hin%elem_of_entries Hp].
      repeat setoid_rewrite andb_true_iff in Hp. rewrite !bool_decide_eq_true in Hp. naive_solver.
    + match goal with H : addr_client _ _ = _ |- _ => apply addr_client_Some in H end. naive_solver.
Qed.

Lemma pres_admit k old l c from w :
  addrMap (w_core w) !! default k old = Some l → store (w_core w) !! l = Some c →
  cl_auth c = authChallengeSent → k = AddrToRateKey from →
  pres w (admitAuthenticated k old l c from w).
Proof.
  intros Hl Hst Ha ->. unfold admitAuthenticated.
  match goal with |- context [on_core ?f w] => set (f1 := f); set (w1 := on_core f1 w) end.
  transitivity w1.
  - apply pres_on_core. intros Hok. unfold f1. set (s1 := decrementPending _).
    assert (core_ok (w_cfg w) s1) as Hok1 by by apply core_ok_pendingdec, core_ok_deladdr.
    destruct old as [k'|]; [|done]. cbn [default from_option] in *.
    eapply (core_ok_attach (w_cfg w) s1 l c); try done.
    + subst s1. by core_forms.
    + subst s1. core_forms. intros k [Hne Hk]%lookup_delete_Some. apply Hne.
      exact (endpoint_unique _ _ _ _ _ Hok Hl Hk).
    + rewrite Ha. destruct (ok_addr _ _ Hok _ _ Hl) as (c' & a & ? & ? & ? & Hc').
      simplify_eq. by rewrite Ha in Hc'.
  - set (reg := mkRegister _ _ _). pose proof (pres_doRegisterClient reg from w1) as Hp.
    destruct (doRegisterClient reg from w1) as [[vip|] w2]; by frame.
Qed.

Lemma pres_handleAuthResponse p from w : pres w (handleAuthResponse p from w).
Proof.
  unfold handleAuthResponse. destruct (UnmarshalAuthResponse p) as [resp| |]; [|done..].
  destruct (negb (length _ =? HMACSize)%nat); [done|].
  destruct (findPending _ resp (w_core w)) as [[[l c]|] old] eqn:Hf; [|frame].
  apply findPending_Some in Hf as (Hl & Hst & _).
  set (cl := on_core (cleanupPendingAuth _ _ _ c)).
  assert (∀ w', pres w' (cl w')) as Hcl by (intros; apply pres_on_core, core_ok_cleanup).
  case_bool_decide as Ha; cbn [negb]; [|frame; apply Hcl].
  destruct (15 * Second <? _); [frame; apply Hcl|].
  pose proof (pres_authKey w (cl_authRoomID c)) as [Hp Hcore].
  destruct (getAuthKey _ _) as [key r]. set (w1 := on_room _ w) in *. fold w1 in Hp, Hcore.
  transitivity w1; [done|]. clearbody w1.
  destruct key as [key|]; [|frame; apply Hcl].
  destruct (negb _); [frame; apply Hcl|].
  destruct (checkCapacityAndDuplicate _ _ _ _);
    [|frame; apply pres_on_core, core_ok_release..].
  apply pres_admit; [by rewrite Hcore..|done|done].
Qed.

Lemma pres_keepalive p from w : pres w (handleKeepAliveWithPayload p from w).
Proof.
  unfold handleKeepAliveWithPayload. destruct (addr_client _ _) as [[l c]|]; [|done].
  apply pres_on_core, core_ok_upd. intros c'. by destruct p.
Qed.

Lemma pres_handlePong p from w : pres w (handlePong p from w).
Proof.
  unfold handlePong. destruct (UnmarshalPing p); [|done..]. destruct (_ || _); [done|].
  destruct (addr_client _ _) as [[l c]|]; [|done]. by apply pres_on_core, core_ok_upd.
Qed.

Lemma core_ok_disconnect cfg k l c s :
  core_ok cfg s → addr_client s k = Some (l, c) →
  core_ok cfg
    (let s1 := if bool_decide (cl_auth c = authChallengeSent)
               then release_addr (cl_PublicAddr c) (decrementPending s)
               else let s2 := markIPFree (cl_VirtualIP c) s in
                    let s2 := set_clients (delete (IPKey (cl_VirtualIP c)) (clients s2)) s2 in
                    release_addr (cl_PublicAddr c) s2 in
     set_addrMap (delete k (addrMap s1)) s1).
Proof.
  intros Hok [Hl Hst]%addr_client_Some. destruct (ok_addr _ _ Hok _ _ Hl) as (c' & a & ? & _ & _ & Hc).
  simplify_eq. cbv zeta. case_bool_decide as Ha.
  - by apply core_ok_deladdr, core_ok_release, core_ok_pendingdec.
  - destruct (cl_auth c) eqn:Ea; [|done]. core_forms.
    eapply (core_ok_remove cfg s _ _ l c); try done.
    + cbn. intros k' l' [Hne Hk']%lookup_delete_Some. split; [done|]. intros ->. apply Hne.
      exact (endpoint_unique _ _ _ _ _ Hok Hl Hk').
    + by destruct Hok.
    + by apply conn_part_rel; destruct Hok.
Qed.

Lemma pres_handleDisconnect from w : pres w (handleDisconnect from w).
Proof.
  unfold handleDisconnect. destruct (addr_client _ _) as [[l c]|] eqn:E; [|done].
  cbv zeta. frame. match goal with |- pres w (mkWorld (w_room ?w1) _ _) => transitivity w1; [|done] end.
  apply (pres_on_core _ (on_stats _ w)). intros Hok.
  by apply (core_ok_disconnect (w_cfg w) _ l c (w_core w)).
Qed.

(** *** Stale clients *)

Lemma core_ok_remove_stale cfg k l c s :
  core_ok cfg s → store s !! l = Some c →
  core_ok cfg (remove_stale_client (k, l, c) (true, s)).2.
Proof.
  intros Hok Hst. unfold remove_stale_client. case_bool_decide as Hk; [|done]. cbn [snd].
  destruct (cl_PublicAddr c) as [a|] eqn:Ea; core_forms;
    (eapply (core_ok_remove cfg s _ k l c); try done; cbn; [|by destruct Hok|]).
  - intros k' l' [Hne Hl']%lookup_delete_Some. split; [done|]. intros ->. apply Hne.
    destruct (ok_addr _ _ Hok _ _ Hl') as (c' & a' & ? & ? & <- & _). congruence.
  - apply conn_part_dec; by destruct Hok.
  - intros k' l' Hl'. split; [done|]. intros ->.
    destruct (ok_addr _ _ Hok _ _ Hl') as (c' & a' & ? & ? & _). congruence.
  - by destruct Hok.
Qed.

Lemma remove_stale_flag sc b s :
  (remove_stale_client sc (b, s)).2 = (remove_stale_client sc (true, s)).2.
Proof. destruct sc as [[k l] c]. unfold remove_stale_client. by case_bool_decide. Qed.

Lemma remove_stale_store sc b s : store (remove_stale_client sc (b, s)).2 = store s.
Proof.
  destruct sc as [[k l] c]. unfold remove_stale_client. case_bool_decide; [|done].
  destruct (cl_PublicAddr c); core_forms; done.
Qed.

Lemma core_ok_remove_stales cfg l b s :
  core_ok cfg s → (∀ k loc c, (k, loc, c) ∈ l → store s !! loc = Some c) →
  core_ok cfg (foldl (fun acc sc => remove_stale_client sc acc) (b, s) l).2.
Proof.
  revert b s. induction l as [|[[k loc] c] l IH]; intros b s Hok Hl; [done|]. cbn [foldl].
  pose proof (remove_stale_store (k, loc, c) b s) as Hs.
  assert (core_ok cfg (remove_stale_client (k, loc, c) (b, s)).2) as Hok'.
  { rewrite remove_stale_flag. apply core_ok_remove_stale; [done|]. apply (Hl k). constructor. }
  destruct (remove_stale_client (k, loc, c) (b, s)) as [b' s']. apply IH; [done|].
  intros k' loc' c' Hin. cbn in Hs. rewrite Hs. apply (Hl k'). by constructor.
Qed.

Lemma core_ok_remove_auths cfg l s :
  core_ok cfg s → core_ok cfg (foldl (fun s sa => remove_stale_auth sa s) s l).
Proof.
  revert s. induction l as [|[[k loc] c] l IH]; intros s Hok; [done|]. cbn [foldl]. apply IH.
  unfold remove_stale_auth. case_bool_decide; [|done].
  by apply core_ok_release, core_ok_pendingdec, core_ok_deladdr.
Qed.

Lemma pres_CleanupStale w : pres w (CleanupStale w).2.
Proof.
  unfold CleanupStale. set (s := w_core w). set (cs := List.filter _ _). set (auths := List.filter _ _).
  assert (∀ k l c, (k, l, c) ∈ cs → store s !! l = Some c) as Hcs.
  { intros k l c Hin. unfold cs in Hin. apply list_elem_of_In, filter_In in Hin as [Hin _].
    by apply list_elem_of_In, elem_of_entries in Hin as [_ ?]. }
  pose proof (λ cfg Hok, core_ok_remove_stales cfg cs false s Hok Hcs) as Hfold.
  destruct (foldl _ (false, s) cs) as [changed s']. cbn [snd] in *.
  assert (pres w (on_core (fun _ => foldl (fun s sa => remove_stale_auth sa s) s' auths) w)) as Hp.
  { apply pres_on_core. intros Hok. apply core_ok_remove_auths. by apply Hfold. }
  destruct changed; by frame.
Qed.

(** *** Ping *)

Lemma benign_fold cfg (f : Client → Client) locs s :
  benign f → core_ok cfg s → core_ok cfg (foldl (fun s l => upd_client l f s) s locs).
Proof.
  intros Hf. revert s. induction locs as [|l locs IH]; intros s Hok; [done|].
  cbn [foldl]. apply IH. by apply core_ok_upd.
Qed.

Lemma pres_foldl {A} (f : World → A → World) l w :
  (∀ w a, pres w (f w a)) → pres w (foldl f w l).
Proof.
  intros Hf. revert w. induction l as [|a l IH]; intros w; [done|]. cbn [foldl].
  etransitivity; [apply Hf|apply IH].
Qed.

Lemma pres_pingTick w : pres w (pingTick w).
Proof.
  unfold pingTick. destruct (size _ =? 0)%nat; [done|]. cbv zeta.
  match goal with |- pres w (foldl _ (on_core ?f w) _) => transitivity (on_core f w) end.
  - apply pres_on_core. apply benign_fold. intros c. by repeat case_match.
  - apply pres_foldl. intros w' [l c]. destruct (cl_PublicAddr c) as [a|]; [|done].
    etransitivity; [|apply pres_keeps, keeps_sendCheckedRaw]. by apply pres_on_core, core_ok_upd.
Qed.

(** *** Relay *)

Lemma core_ok_move cfg k l c from s :
  core_ok cfg s → vip_client s k = Some (l, c) → core_ok cfg (move_client l c from s).
Proof.
  intros Hok [Hcl Hst]%vip_client_Some. unfold move_client.
  set (s1 := match cl_PublicAddr c with Some a => _ | None => s end).
  assert (core_ok cfg s1 ∧ store s1 = store s ∧ clients s1 = clients s) as (Hok1 & Es & Ec).
  { unfold s1. destruct (cl_PublicAddr c); [|done]. split; [by apply core_ok_deladdr|done]. }
  destruct (ok_clients _ _ Hok) as [_ _ Hc _].
  destruct (Hc _ _ Hcl) as (c' & o & vip & ? & Ha & _ & Hv & Hk & _). simplify_eq.
  eapply (core_ok_attach cfg s1 l c); try done; [by rewrite Es| |by rewrite Ha, Ec].
  intros k Hl. unfold s1 in Hl. destruct (cl_PublicAddr c) as [a|] eqn:Ep.
  - cbn in Hl. apply lookup_delete_Some in Hl as [Hne Hl].
    destruct (ok_addr _ _ Hok _ _ Hl) as (c2 & a2 & ? & ? & ? & _). congruence.
  - destruct (ok_addr _ _ Hok _ _ Hl) as (c2 & a2 & ? & ? & _). congruence.
Qed.

(** The client answers at its new endpoint, and no longer at the old one. *)
Lemma move_client_spec l c from s :
  store s !! l = Some c →
  addr_client (move_client l c from s) (AddrToRateKey from)
    = Some (l, set_lastSeen now (set_PublicAddr (Some from) c)) ∧
  ∀ own, cl_PublicAddr c = Some own → AddrToRateKey own ≠ AddrToRateKey from →
    addr_client (move_client l c from s) (AddrToRateKey own) = None.
Proof.
  intros Hst. split.
  - apply addr_client_Some. unfold move_client. destruct (cl_PublicAddr c); core_forms;
      by rewrite lookup_insert_eq, lookup_alter_eq, Hst.
  - intros own Ha Hne. unfold addr_client, move_client. rewrite Ha. core_forms.
    rewrite lookup_insert_ne by done. by rewrite lookup_delete_eq.
Qed.

Lemma clients_move l c from s : clients (move_client l c from s) = clients s.
Proof. unfold move_client. by destruct (cl_PublicAddr c). Qed.

Lemma core_ok_migrate cfg from src payload s :
  core_ok cfg s → core_ok cfg (tryMigrateAddrMap from src payload s).2.
Proof.
  intros Hok. unfold tryMigrateAddrMap. destruct (vip_client s _) as [[l c]|] eqn:E; [|done].
  destruct (negb _); [done|]. destruct (addr_client s _); [done|]. by eapply core_ok_move.
Qed.

Lemma pres_handleRelay payload from w : pres w (handleRelay payload from w).
Proof.
  unfold handleRelay. destruct (length payload <? 8)%nat; [done|].
  pose proof (λ cfg, core_ok_migrate cfg from (take 4 payload) payload (w_core w)) as Hm.
  set (pair := match addr_client _ _ with Some sender => _ | None => _ end).
  assert (pres w pair.2) as Hp.
  { subst pair. destruct (addr_client _ _) as [?|]; [done|].
    destruct (tryMigrateAddrMap _ _ _ _) as [m s]. apply pres_on_core. by apply Hm. }
  destruct pair as [[[l c]|] w1]; cbn [snd] in Hp; [|done].
  destruct (negb _); [done|]. destruct (negb _); [done|].
  destruct (relay_targets _ _ _ _) as [|t ts]; [done|].
  frame. transitivity w1; [done|]. apply pres_keeps, keeps_foldl. intros w' a.
  case_match; [apply keeps_bypass|apply keeps_unicast].
Qed.

(** *** Dispatch *)

Lemma pres_HandlePacket t p from w : pres w (HandlePacket t p from w).
Proof.
  unfold HandlePacket.
  repeat (case_bool_decide; [solve [apply pres_handleRegister | apply pres_handleAuthResponse
    | apply pres_keepalive | apply pres_handleRelay | apply pres_handleDisconnect
    | apply pres_handlePong
    | unfold handlePeerRequest; destruct (addr_client _ _); frame
    | unfold handleHolePunch; repeat case_match; frame]|]).
  done.
Qed.

Lemma pres_room_step ev w : pres w (room_step ev w).
Proof.
  destruct ev; cbn [room_step].
  - apply pres_HandlePacket.
  - unfold peerInfoTick. destruct (peerInfoDirty _); by frame.
  - apply pres_pingTick.
  - done.
  - pose proof (pres_CleanupStale w). destruct (CleanupStale w) as [[] w']; by frame.
  - apply pres_keeps, keeps_shutdown.
Qed.
End handlers_ok.
