(* ===== verification/RoomExample.v ===== *)
(** * RoomExample: concrete rooms

    Small histories the witnesses of the room theorems run: two players in an open
    room, and a room with a password. *)

From S2P Require Import Prelude GoNet Crc32 Protocol Messages MessagesData MessagesPeer NetUtil RateLimit Float64 Bandwidth SendQueue Sha256 Auth I18n Client Room RoomHandlers.

#[export] Existing Instance canonical_range.

Definition ex_env (t : Z) (seed : byte) : Env := {| now := t; T := en; rand_bytes := Some (replicate 16 seed) |}.

Definition ex_config (pass : list byte) : RoomConfig :=
  mkRoomConfig (str "lan") pass (mkIPNet (IPv4 x0a x0a x00 x00) mask24) 4 3.

Lemma ex_config_ok pass : is_Some (NewRoom 0 (ex_config pass)).
Proof. by eexists. Qed.
Definition ex_room (pass : list byte) : Room := is_Some_proj (ex_config_ok pass).
Definition ex_world0 (pass : list byte) : World :=
  mkWorld (ex_room pass) (newRateLimitedQueue None) false.

Definition ex_addr (last : byte) : UDPAddr := mkUDPAddr (IPv4 xcb x00 x71 last) 5000 [].

Definition ex_register (name : string) (last : byte) (t : Z) (w : World) : World :=
  @room_step (ex_env t last) _
    (EvPacket TypeRegister (RegisterPayload_Marshal (mkRegister (str "lan") (str name) AppVersion)) (ex_addr last)) w.

(** Alice at .1, then Bob at .2, in an open room. *)
Definition ex_alice : World := ex_register "alice" x01 Second (ex_world0 []).
Definition ex_both : World := ex_register "bob" x02 (2 * Second) ex_alice.

Definition ex_vip (o : byte) : IP := IPv4 x0a x0a x00 o.

Example ex_both_players :
  (fun '(l, c) => (l, cl_Username c)) <$> vip_client (w_core ex_both) (IPKey (ex_vip x02)) = Some (0%nat, str "alice") ∧
  (fun '(l, c) => (l, cl_Username c)) <$> vip_client (w_core ex_both) (IPKey (ex_vip x03)) = Some (1%nat, str "bob") ∧
  length (sq_ch (rlq_sq (w_q ex_both))) = 4%nat.
Proof. vm_compute. done. Qed.

(** Alice answers the challenge of a room with a password. *)
Definition ex_pass : list byte := str "secret".
Definition ex_challenged : World := ex_register "alice" x01 Second (ex_world0 ex_pass).
Definition ex_code (pass : list byte) : list byte :=
  HMAC_SHA256 (default [] (DeriveKey pass (str "lan")))
    (transcript (replicate 16 x01) (str "lan") (str "alice") (Some (UDPAddr_String (ex_addr x01)))).
Definition ex_response (pass : list byte) : RoomEvent :=
  EvPacket TypeAuthResponse
    (AuthResponsePayload_Marshal (mkAuthResponse (str "lan") (str "alice") (ex_code pass))) (ex_addr x01).
Definition ex_env2 : Env := ex_env (2 * Second) x02.
Definition ex_entered : World := @room_step ex_env2 _ (ex_response ex_pass) ex_challenged.

Example ex_entered_player :
  clients (w_core ex_challenged) !! IPKey (ex_vip x02) = None ∧
  clients (w_core ex_entered) !! IPKey (ex_vip x02) = Some 1%nat ∧
  clients (w_core (@room_step ex_env2 _ (ex_response (str "guess")) ex_challenged)) !! IPKey (ex_vip x02) = None.
Proof. vm_compute. done. Qed.
