(* ===== verification/RoomSpec.v ===== *)
(** * RoomSpec: what a room promises

    The theorems about the reachable states of a room, and about who may enter
    it, over all events and all orders of map iteration. *)

From S2P Require Import Prelude GoNet Crc32 Protocol Messages MessagesData MessagesPeer NetUtil RateLimit Float64 Bandwidth SendQueue Sha256 Auth I18n Client Room RoomHandlers RoomIP RoomInv RoomSafe RoomExample.

(** ** Reachable states *)

(** The rooms share the send queue: others may change it between two events. *)
Inductive reachable `{MapRange} (c : RoomConfig) : World → Prop :=
| reach_new t r q d : NewRoom t c = Some r → reachable c (mkWorld r q d)
| reach_step (e : Env) ev w : reachable c w → reachable c (room_step ev w)
| reach_other w q d : reachable c w → reachable c (mkWorld (w_room w) q d).

Section invariants.
Context `{MapRange}.

Lemma NewRoom_spec t c r :
  NewRoom t c = Some r →
  ∃ cfg bm, r_cfg r = cfg ∧ r_core r = mkCore ∅ 0 ∅ ∅ bm 0 ∅ ∧ r_authKeys r = ∅ ∧
    r_subnet cfg = rc_Subnet c ∧ r_maxPlayers cfg = rc_MaxPlayers c ∧ r_roomPass cfg = rc_RoomPass c ∧
    1 ≤ r_maxPerIP cfg ∧
    bm = [3; 0; 0; 2 ^ 63].
Proof.
  unfold NewRoom. destruct (negb _); [done|]. intros [= <-].
  eexists _, _. split; [reflexivity|]. cbn [r_core r_authKeys r_subnet r_maxPlayers r_roomPass r_maxPerIP].
  split; [|split_and!; try done].
  - set (ip := copy_into (zeros 4) _).
    assert (length ip = 4%nat) as Hl by (unfold ip; by rewrite length_copy_into).
    destruct ip as [|b0 [|b1 [|b2 [|b3 [|]]]]]; try done.
  - cbn. destruct (Z.leb_spec (rc_MaxPerIP c) 0); lia.
Qed.

Lemma NewRoom_ok t c r q d :
  (∃ b0 b1 b2 b3, To4 (net_IP (rc_Subnet c)) = Some [b0; b1; b2; b3]) →
  NewRoom t c = Some r → room_ok (mkWorld r q d).
Proof.
  intros Hnet (cfg & bm & <- & Hs & Hk & Hsub & _ & _ & _ & ->)%NewRoom_spec.
  split; [|intros id key; cbn; by rewrite Hk].
  unfold w_core, w_cfg. cbn [w_room]. rewrite Hs. split; cbn; [by rewrite Hsub| |intros k l Hl; by rewrite lookup_empty in Hl
    |intros l [x Hl]; by rewrite lookup_empty in Hl|unfold pending_part; lia
    |intros k n Hn; by rewrite lookup_empty in Hn].
  split; [|done|intros k l Hl; by rewrite lookup_empty in Hl|].
  - split; [done|]. repeat (apply Forall_cons_2; [cbn; lia|]). apply Forall_nil_2.
  - intros o vip _ Ho Hb. exfalso.
    assert (∀ n, (2 ≤ n ≤ 254)%nat → bit_of [3; 0; 0; 2 ^ 63] (Z.of_nat n) = false) as Hall.
    { intros n Hn. do 255 (destruct n as [|n]; [try done; lia|]). lia. }
    rewrite <- (Z2Nat.id (b2z o)), Hall in Hb; done || lia.
Qed.

Definition ipv4_subnet (c : RoomConfig) : Prop :=
  ∃ b0 b1 b2 b3, To4 (net_IP (rc_Subnet c)) = Some [b0; b1; b2; b3].

Lemma reachable_ok c w :
  ipv4_subnet c → reachable c w →
  room_ok w ∧ r_subnet (w_cfg w) = rc_Subnet c ∧ r_maxPlayers (w_cfg w) = rc_MaxPlayers c ∧
  r_roomPass (w_cfg w) = rc_RoomPass c.
Proof.
  intros Hnet. induction 1 as [t r q d Hn|e ev w _ (Hok & Hs & Hm & Hp)|w q d _ IH]; [| |done].
  - split; [by eapply NewRoom_ok|].
    apply NewRoom_spec in Hn as (cfg & bm & <- & _ & _ & ? & ? & ? & _). by split_and!.
  - destruct (pres_room_step ev w) as [-> Hpres]. split; [auto|done].
Qed.

(** The host addresses a room can hand out. *)
Definition host_keys (cfg : RoomCfg) : list ipkey :=
  map (fun o => match room_vip cfg (z2b o) with Some vip => IPKey vip | None => [] end) (seqZ 2 253).

Lemma host_octet o : 2 ≤ o ≤ 254 → b2z (z2b o) = o.
Proof. intros Ho. rewrite b2z_z2b, Z.mod_small; lia. Qed.

Lemma room_vip_total cfg s o : core_ok cfg s → is_Some (room_vip cfg o).
Proof.
  intros [(b0 & b1 & b2 & b3 & Hn) _ _ _ _ _]. unfold room_vip. rewrite Hn. by eexists.
Qed.

Lemma elem_of_host_keys cfg s k :
  core_ok cfg s → k ∈ host_keys cfg ↔ ∃ o vip, room_vip cfg o = Some vip ∧ 2 ≤ b2z o ≤ 254 ∧ k = IPKey vip.
Proof.
  intros Hok. unfold host_keys. rewrite list_elem_of_fmap. split.
  - intros (o & -> & Ho%elem_of_seqZ).
    destruct (room_vip_total cfg s (z2b o) Hok) as [vip Hv]. exists (z2b o), vip.
    rewrite Hv, host_octet by lia. split_and!; done || lia.
  - intros (o & vip & Hv & Ho & ->). exists (b2z o). rewrite z2b_b2z, Hv, elem_of_seqZ.
    split; [done|lia].
Qed.

Lemma NoDup_host_keys cfg s : core_ok cfg s → NoDup (host_keys cfg).
Proof.
  intros Hok. unfold host_keys. apply NoDup_fmap_2_strong; [|apply NoDup_seqZ].
  intros o1 o2 H1%elem_of_seqZ H2%elem_of_seqZ.
  destruct (room_vip_total cfg s (z2b o1) Hok) as [v1 Hv1], (room_vip_total cfg s (z2b o2) Hok) as [v2 Hv2].
  rewrite Hv1, Hv2. intros E. apply (room_vip_inj _ _ _ _ _ Hv1 Hv2) in E.
  rewrite <- (host_octet o1), <- (host_octet o2) by lia. by rewrite E.
Qed.

Lemma dom_host_keys cfg s : core_ok cfg s → dom (clients s) ⊆ list_to_set (host_keys cfg).
Proof.
  intros Hok k [l Hk]%elem_of_dom. apply elem_of_list_to_set, (elem_of_host_keys _ _ _ Hok).
  destruct (ok_clients _ _ Hok) as [_ _ Hc _]. destruct (Hc k l Hk) as (c & o & vip & ? & ? & ? & ? & ? & ? & ?).
  by exists o, vip.
Qed.

Lemma size_host_keys cfg s :
  core_ok cfg s → size (list_to_set (C:=gset ipkey) (host_keys cfg)) = 253%nat.
Proof.
  intros Hok. rewrite size_list_to_set by by eapply NoDup_host_keys.
  unfold host_keys. by rewrite length_map, length_seqZ.
Qed.

(** In every reachable state of a room, after any history of packets, ticks and
    cleanups: a player's virtual address is a host from .2 to .254 of the room's
    subnet, the player is found under this address only, the host is marked
    in the bitmap, and two players never share an address. *)
Theorem players_have_distinct_hosts c w k1 k2 l1 l2 :
  ipv4_subnet c → reachable c w →
  clients (w_core w) !! k1 = Some l1 → clients (w_core w) !! k2 = Some l2 →
  ∃ c1 c2 o1 o2, store (w_core w) !! l1 = Some c1 ∧ store (w_core w) !! l2 = Some c2 ∧
    room_vip (w_cfg w) o1 = Some (cl_VirtualIP c1) ∧ room_vip (w_cfg w) o2 = Some (cl_VirtualIP c2) ∧
    k1 = IPKey (cl_VirtualIP c1) ∧ k2 = IPKey (cl_VirtualIP c2) ∧
    2 ≤ b2z o1 ≤ 254 ∧ 2 ≤ b2z o2 ≤ 254 ∧
    bit_of (ipBitmap (w_core w)) (b2z o1) = true ∧
    (k1 ≠ k2 → l1 ≠ l2 ∧ cl_VirtualIP c1 ≠ cl_VirtualIP c2 ∧ o1 ≠ o2).
Proof.
  intros Hnet Hr H1 H2. destruct (reachable_ok c w Hnet Hr) as ([Hok _] & _).
  destruct (ok_clients _ _ Hok) as [_ _ Hc _].
  destruct (Hc _ _ H1) as (c1 & o1 & v1 & S1 & _ & V1 & <- & -> & O1 & B1).
  destruct (Hc _ _ H2) as (c2 & o2 & v2 & S2 & _ & V2 & <- & -> & O2 & _).
  exists c1, c2, o1, o2. ands. intros Hne. split_and!; congruence.
Qed.

(** A search that finds nothing means that every host is a player's. *)
Lemma no_vip_full cfg s : core_ok cfg s → nextAvailableIP cfg s = None → size (clients s) = 253%nat.
Proof.
  intros Hok Hn. pose proof (dom_host_keys _ _ Hok) as Hdom.
  rewrite <- (size_host_keys _ _ Hok), <- (size_dom (D:=gset ipkey)). f_equal. apply set_eq. intros k. split; [apply Hdom|].
  intros (o & vip & Hv & Ho & ->)%elem_of_list_to_set%(elem_of_host_keys _ _ _ Hok).
  destruct (ok_net _ _ Hok) as (b0 & b1 & b2 & b3 & Hsub).
  destruct (ok_clients _ _ Hok) as [[Hl Hw] _ _ Hbits].
  apply elem_of_dom. apply (Hbits o vip Hv Ho). unfold nextAvailableIP in Hn. rewrite Hsub in Hn.
  pose proof (scan_bitmap_spec 0 (ipBitmap s) ltac:(lia) Hw) as Hs. rewrite Hl in Hs.
  destruct (scan_bitmap 0 _); [done|]. rewrite <- (Z.sub_0_r (b2z o)). apply Hs; [lia|split; lia].
Qed.

(** A search that finds an address finds the least that is no player's. *)
Lemma next_vip_least cfg s vip :
  core_ok cfg s → nextAvailableIP cfg s = Some vip →
  ∃ o, room_vip cfg o = Some vip ∧ 2 ≤ b2z o ≤ 254 ∧ clients s !! IPKey vip = None ∧
    ∀ o' vip', 2 ≤ b2z o' < b2z o → room_vip cfg o' = Some vip' → is_Some (clients s !! IPKey vip').
Proof.
  intros Hok Hn. destruct (next_vip _ _ _ Hok Hn) as (o & Hv & Ho & Hb). exists o.
  split_and!; [done|lia|lia|by eapply free_vip_None|].
  intros o' vip' Ho' Hv'. destruct (ok_clients _ _ Hok) as [[Hl Hw] _ _ Hbits].
  apply (Hbits o' vip' Hv'); [lia|].
  destruct (ok_net _ _ Hok) as (b0 & b1 & b2 & b3 & Hsub). unfold nextAvailableIP in Hn. rewrite Hsub in Hn.
  pose proof (scan_bitmap_spec 0 (ipBitmap s) ltac:(lia) Hw) as Hs.
  destruct (scan_bitmap 0 _) as [o2|]; [|done]. cbn in Hn. injection Hn as <-.
  destruct Hs as (Ho2 & [H2a H2b] & _ & Hmin). unfold room_vip in Hv. rewrite Hsub in Hv.
  assert (b2z o = o2) as E.
  { injection Hv as Hv. subst o. apply host_octet. lia. }
  rewrite <- (Z.sub_0_r (b2z o')). apply Hmin; [lia|split; lia].
Qed.

(** C35: In every reachable state the search for a virtual address fails exactly
    when 253 players are in the room: no address leaks from the bitmap and none
    is handed out twice. *)
Theorem exhausted_iff_full c w :
  ipv4_subnet c → reachable c w →
  nextAvailableIP (w_cfg w) (w_core w) = None ↔ size (clients (w_core w)) = 253%nat.
Proof.
  intros Hnet Hr. destruct (reachable_ok c w Hnet Hr) as ([Hok _] & _).
  pose proof (size_host_keys _ _ Hok) as Hsize. pose proof (dom_host_keys _ _ Hok) as Hdom.
  rewrite <- Hsize, <- (size_dom (D:=gset ipkey)). split.
  - intros Hn. rewrite (size_dom (D:=gset ipkey)), Hsize. by apply (no_vip_full (w_cfg w)).
  - intros Hsz. destruct (nextAvailableIP _ _) as [vip|] eqn:Hn; [|done]. exfalso.
    destruct (next_vip _ _ _ Hok Hn) as (o & Hv & Ho & Hb).
    pose proof (free_vip_None _ _ _ _ Hok Hv Hb) as Hnone.
    assert (dom (clients (w_core w)) ⊂ list_to_set (host_keys (w_cfg w))) as Hlt%subset_size; [|lia].
    split; [done|]. intros Hsup. apply not_elem_of_dom in Hnone. apply Hnone, Hsup.
    apply elem_of_list_to_set, (elem_of_host_keys _ _ _ Hok). by exists o, vip.
Qed.
End invariants.

(** *** Witnesses: Alice and Bob *)

Lemma ex_reachable0 pass : reachable (ex_config pass) (ex_world0 pass).
Proof. apply (reach_new _ 0). reflexivity. Defined.

Lemma ex_reachable : reachable (ex_config []) ex_both.
Proof. apply reach_step, reach_step, ex_reachable0. Defined.

Lemma ex_ipv4 pass : ipv4_subnet (ex_config pass).
Proof. exists x0a, x0a, x00, x00. reflexivity. Defined.

Lemma players_have_distinct_hosts_witness :
  ∃ c1 c2, store (w_core ex_both) !! 0%nat = Some c1 ∧ store (w_core ex_both) !! 1%nat = Some c2 ∧
    cl_VirtualIP c1 ≠ cl_VirtualIP c2.
Proof.
  destruct (players_have_distinct_hosts (ex_config []) ex_both (IPKey (ex_vip x02)) (IPKey (ex_vip x03))
    0 1 (ex_ipv4 []) ex_reachable ltac:(vm_compute; reflexivity) ltac:(vm_compute; reflexivity))
    as (c1 & c2 & o1 & o2 & S1 & S2 & _ & _ & _ & _ & _ & _ & _ & Hne).
  exists c1, c2. split; [done|]. split; [done|]. apply Hne. vm_compute. intros E. discriminate E.
Defined.

Lemma exhausted_iff_full_witness : nextAvailableIP (w_cfg ex_both) (w_core ex_both) ≠ None.
Proof.
  intros Hn.
  apply (proj1 (exhausted_iff_full (ex_config []) ex_both (ex_ipv4 []) ex_reachable)) in Hn.
  vm_compute in Hn. discriminate Hn.
Defined.
