(* ===== verification/RoomEntry.v ===== *)
(** * RoomEntry: who enters a room, and what a packet of a stranger can do

    In a room with a password the only event that adds a player is an
    AuthResponse whose code verifies; in any room it is a Register or such a
    response. *)

From S2P Require Import Prelude GoNet Crc32 Protocol Messages MessagesData MessagesPeer NetUtil RateLimit Float64 Bandwidth SendQueue Sha256 Auth I18n Client Room RoomHandlers RoomIP RoomInv RoomSafe RoomExample RoomSpec.

(** ** Steps that add no player *)

Definition no_entry (w w' : World) : Prop := clients (w_core w') ⊆ clients (w_core w).
#[export] Instance no_entry_preorder : PreOrder no_entry.
Proof. unfold no_entry. split; [intros w; reflexivity|]. intros x y z H1 H2. by etransitivity. Qed.

Lemma no_entry_refl w w' : clients (w_core w) = clients (w_core w') → no_entry w w'.
Proof. intros E. unfold no_entry. by rewrite E. Qed.
#[local] Hint Extern 0 (no_entry _ _) => (apply no_entry_refl; reflexivity) : core.
#[local] Hint Extern 0 (clients _ ⊆ clients _) => reflexivity : core.

Lemma no_entry_keeps w w' : keeps w w' → no_entry w w'.
Proof. intros (_ & E & _). unfold no_entry. by rewrite E. Qed.

Lemma no_entry_on_core f w : clients (f (w_core w)) ⊆ clients (w_core w) → no_entry w (on_core f w).
Proof. done. Qed.

Ltac same_clients :=
  apply no_entry_on_core; unfold cleanupPendingAuth; core_forms; done.

Ltac unsend := drop_sends no_entry_keeps.

Section entry.
Context `{Env} `{MapRange}.

Lemma no_entry_foldl {A} (f : World → A → World) l w :
  (∀ w a, no_entry w (f w a)) → no_entry w (foldl f w l).
Proof.
  intros Hf. revert w. induction l as [|a l IH]; intros w; [done|]. cbn [foldl].
  etransitivity; [apply Hf|apply IH].
Qed.

Lemma clients_dropStale k s : clients (dropStaleChallenge k s) = clients s.
Proof.
  unfold dropStaleChallenge. destruct (addr_client s k) as [[l c]|]; [|done].
  case_bool_decide; [|done]. by core_forms.
Qed.

Lemma clients_restored u r from cfg s : clients (resolveRestoredClient u r from cfg s).2 = clients s.
Proof.
  unfold resolveRestoredClient. destruct (_ <=? _); [done|].
  destruct (first_such _ _) as [[l c]|]; [done|]. by core_forms.
Qed.

Lemma no_entry_challenge reg from w : no_entry w (doSendAuthChallenge reg from w).2.
Proof. unfold doSendAuthChallenge. destruct (GenerateChallenge _); [|done]. by apply no_entry_on_core. Qed.

(** registration adds nobody when the room has a password. *)
Lemma no_entry_registerNew reg from w : r_roomPass (w_cfg w) ≠ [] → no_entry w (registerNew reg from w).
Proof.
  intros Hpass. unfold registerNew. destruct (_ <=? conn_count _ _); [unsend|].
  set (k := addrToConnIPKey from). set (w1 := on_core (incrementIPConnCount k) w).
  transitivity w1; [done|].
  assert (∀ w', no_entry w' (on_core (decrementIPConnCount k) w')) as Hrel by (intros; same_clients).
  destruct (checkCapacityAndDuplicate _ _ _ _); [|unsend; apply Hrel..].
  change (w_cfg w1) with (w_cfg w). destruct (r_roomPass (w_cfg w)); [done|].
  destruct (r_maxPending _ <=? _); [unsend; apply Hrel|].
  pose proof (no_entry_challenge reg from w1) as Hp.
  destruct (doSendAuthChallenge reg from w1) as [[ch|] w2]; unsend; [done|].
  transitivity w2; [done|apply Hrel].
Qed.

(** Register that gets as far as a new registration: the players are the same
    until then. *)
Lemma register_cases p from w :
  no_entry w (handleRegister p from w) ∨
  ∃ reg w1, UnmarshalRegister p = Ok reg ∧ w_cfg w1 = w_cfg w ∧
    clients (w_core w1) = clients (w_core w) ∧ handleRegister p from w = registerNew reg from w1.
Proof.
  unfold handleRegister. destruct (UnmarshalRegister p) as [reg| |]; [|by left..].
  destruct (negb (IsCompatible _ _)); [left; unsend|].
  destruct ((_ =? 0) || _); [left; unsend|]. destruct ((_ =? 0)%nat || _); [left; unsend|].
  pose proof (keeps_regRate w from) as Hk. destruct (checkRegRate _ _) as [[] r]; cbn [negb snd] in *;
    [|left; unsend; by apply no_entry_keeps].
  set (w1 := on_room _ w) in *. destruct Hk as (Hcfg & Hcore & _).
  unfold registerLocked. set (w2 := on_core (dropStaleChallenge _) w1).
  assert (clients (w_core w2) = clients (w_core w)) as Hw2.
  { transitivity (clients (w_core w1)); [apply clients_dropStale|by rewrite Hcore]. }
  destruct (addr_client (w_core w2) _) as [[l c]|].
  { left. unsend. transitivity w2; [by apply no_entry_refl|same_clients]. }
  pose proof (clients_restored (rp_Username reg) (rp_RoomID reg) from (w_cfg w2) (w_core w2)) as Hr.
  destruct (resolveRestoredClient _ _ _ _ _) as [[c|] s]; cbn [snd] in Hr; rewrite Hw2 in Hr.
  - left. unsend. by apply no_entry_refl.
  - right. by exists reg, (on_core (fun _ => s) w2).
Qed.

Lemma no_entry_register p from w : r_roomPass (w_cfg w) ≠ [] → no_entry w (handleRegister p from w).
Proof.
  intros Hpass. destruct (register_cases p from w) as [?|(reg & w1 & _ & Hcfg & Hc & ->)]; [done|].
  transitivity w1; [by apply no_entry_refl|]. apply no_entry_registerNew. by rewrite Hcfg.
Qed.

Lemma no_entry_disconnect from w : no_entry w (handleDisconnect from w).
Proof.
  unfold handleDisconnect. destruct (addr_client _ _) as [[l c]|]; [|done]. unfold no_entry. cbn.
  case_bool_decide; core_forms; [done|]. apply delete_subseteq.
Qed.

Lemma clients_remove_stales l b s :
  clients (foldl (fun acc sc => remove_stale_client sc acc) (b, s) l).2 ⊆ clients s.
Proof.
  revert b s. induction l as [|[[k loc] c] l IH]; intros b s; [done|]. cbn [foldl].
  unfold remove_stale_client at 2. case_bool_decide; [|apply IH].
  etransitivity; [apply IH|]. destruct (cl_PublicAddr c); core_forms; apply delete_subseteq.
Qed.

Lemma clients_remove_auths l s : clients (foldl (fun s sa => remove_stale_auth sa s) s l) = clients s.
Proof.
  revert s. induction l as [|[[k loc] c] l IH]; intros s; [done|]. cbn [foldl]. rewrite IH.
  unfold remove_stale_auth. case_bool_decide; [|done]. by core_forms.
Qed.

Lemma no_entry_cleanup w : no_entry w (CleanupStale w).2.
Proof.
  unfold CleanupStale. set (s := w_core w). set (cs := List.filter _ _). set (auths := List.filter _ _).
  pose proof (clients_remove_stales cs false s) as Hc.
  destruct (foldl _ (false, s) cs) as [changed s']. cbn [snd] in *.
  destruct changed; unfold no_entry; cbn; by rewrite clients_remove_auths.
Qed.

Lemma no_entry_ping w : no_entry w (pingTick w).
Proof.
  unfold pingTick. destruct (size _ =? 0)%nat; [done|]. cbv zeta.
  match goal with |- no_entry w (foldl _ (on_core ?f w) _) => transitivity (on_core f w) end.
  - apply no_entry_on_core. generalize (map fst (client_list (w_core w))). intros locs.
    generalize (w_core w). induction locs as [|l locs IH]; intros s; [done|]. cbn [foldl].
    etransitivity; [apply IH|]. done.
  - apply no_entry_foldl. intros w' [l c]. destruct (cl_PublicAddr c) as [a|]; [|done].
    etransitivity; [|apply no_entry_keeps, keeps_sendCheckedRaw]. same_clients.
Qed.

Lemma clients_migrate from src payload s : clients (tryMigrateAddrMap from src payload s).2 = clients s.
Proof.
  unfold tryMigrateAddrMap. destruct (vip_client s _) as [[l c]|]; [|done].
  destruct (negb _); [done|]. destruct (addr_client s _); [done|]. apply clients_move.
Qed.

Lemma no_entry_relay payload from w : no_entry w (handleRelay payload from w).
Proof.
  unfold handleRelay. destruct (length payload <? 8)%nat; [done|].
  pose proof (clients_migrate from (take 4 payload) payload (w_core w)) as Hm.
  set (pair := match addr_client _ _ with Some sender => _ | None => _ end).
  assert (no_entry w pair.2) as Hp.
  { subst pair. destruct (addr_client _ _) as [?|]; [done|].
    destruct (tryMigrateAddrMap _ _ _ _) as [m s]. apply no_entry_on_core. cbn [snd] in *. by rewrite Hm. }
  destruct pair as [[[l c]|] w1]; cbn [snd] in Hp; [|done].
  destruct (negb _); [done|]. destruct (negb _); [done|].
  destruct (relay_targets _ _ _ _) as [|t ts]; [done|].
  unsend. transitivity w1; [done|]. apply no_entry_keeps, keeps_foldl. intros w' a.
  case_match; [apply keeps_bypass|apply keeps_unicast].
Qed.

(** Only two packets can add a player. *)
Lemma step_cases ev w :
  no_entry w (room_step ev w) ∨
  (∃ p from, ev = EvPacket TypeRegister p from) ∨ (∃ p from, ev = EvPacket TypeAuthResponse p from).
Proof.
  destruct ev as [t p from| | | | |]; cbn [room_step].
  - destruct (decide (t = TypeRegister)) as [->|]; [right; left; by exists p, from|].
    destruct (decide (t = TypeAuthResponse)) as [->|]; [right; right; by exists p, from|].
    left. unfold HandlePacket. rewrite !bool_decide_eq_false_2 by done.
    case_bool_decide; [unfold handleKeepAliveWithPayload; destruct (addr_client _ _) as [[l c]|]; done|].
    case_bool_decide; [unfold handlePeerRequest; destruct (addr_client _ _); unsend; done|].
    case_bool_decide; [apply no_entry_relay|].
    case_bool_decide; [unfold handleHolePunch; repeat case_match; unsend; done|].
    case_bool_decide; [apply no_entry_disconnect|].
    case_bool_decide; [|done].
    unfold handlePong. repeat case_match; done.
  - left. unfold peerInfoTick. destruct (peerInfoDirty _); unsend; done.
  - left. apply no_entry_ping.
  - by left.
  - left. pose proof (no_entry_cleanup w). destruct (CleanupStale w) as [[] w']; by unsend.
  - left. apply no_entry_keeps, keeps_shutdown.
Qed.

(** Every event but an AuthResponse. *)
Lemma no_entry_step ev w :
  r_roomPass (w_cfg w) ≠ [] → (∀ p from, ev ≠ EvPacket TypeAuthResponse p from) →
  no_entry w (room_step ev w).
Proof.
  intros Hpass Hev. destruct (step_cases ev w) as [?|[(p & from & ->)|(p & from & ->)]]; [done| |].
  - by apply no_entry_register.
  - by destruct (Hev p from).
Qed.

(** code that is accepted is the one computed. *)
Lemma VerifyHMAC_true key code ch room user a :
  VerifyHMAC (Some key) code ch room user (Some a) = true →
  code = HMAC_SHA256 key (transcript ch room user (Some (UDPAddr_String a))).
Proof.
  unfold VerifyHMAC, ComputeHMAC. change (default [] (Some key)) with key.
  destruct (_ || _) eqn:E1; [done|]. apply orb_false_iff in E1 as [Ek Ec].
  destruct key as [|k0 key]; [done|]. unfold hmac_Equal. rewrite bool_decide_eq_true.
  destruct (_ || _); [by intros ->|]. destruct (MaxUint16 <? _); [by intros ->|]. done.
Qed.

(** response that gets as far as the admission of a client. *)
Lemma response_cases p from w :
  no_entry w (handleAuthResponse p from w) ∨
  ∃ resp loc c old key w1,
    UnmarshalAuthResponse p = Ok resp ∧
    findPending (AddrToRateKey from) resp (w_core w) = (Some (loc, c), old) ∧
    cl_auth c = authChallengeSent ∧ now - cl_challengeAt c ≤ 15 * Second ∧
    fst (getAuthKey (w_room w) (cl_authRoomID c)) = Some key ∧
    VerifyHMAC (Some key) (ar_HMAC resp) (cl_challenge c) (ar_RoomID resp) (ar_Username resp)
      (cl_PublicAddr c) = true ∧
    checkCapacityAndDuplicate (w_cfg w) (w_core w) (ar_Username resp) (ar_RoomID resp) = checkOK ∧
    w_cfg w1 = w_cfg w ∧ w_core w1 = w_core w ∧
    handleAuthResponse p from w = admitAuthenticated (AddrToRateKey from) old loc c from w1.
Proof.
  unfold handleAuthResponse. destruct (UnmarshalAuthResponse p) as [resp| |]; [|by left..].
  destruct (negb (length _ =? HMACSize)%nat); [by left|].
  destruct (findPending _ resp (w_core w)) as [[[loc c]|] old] eqn:Hf; [|left; unsend; done].
  set (cl := on_core (cleanupPendingAuth _ _ _ c)) in *.
  assert (∀ w', no_entry w' (cl w')) as Hcl by (intros; same_clients).
  case_bool_decide as Ha; cbn [negb]; [|left; unsend; apply Hcl].
  destruct (Z.ltb_spec (15 * Second) (now - cl_challengeAt c)); [left; unsend; apply Hcl|].
  pose proof (pres_authKey w (cl_authRoomID c)) as [[Hcfg _] Hcore].
  destruct (getAuthKey _ _) as [key r] eqn:Hg. cbn [fst snd] in *. set (w1 := on_room _ w) in *.
  assert (no_entry w w1) as Hw1 by (apply no_entry_refl; by rewrite Hcore).
  destruct key as [key|]; [|left; transitivity w1; [exact Hw1|unsend; apply Hcl]].
  destruct (VerifyHMAC _ _ _ _ _ _) eqn:Hv; cbn [negb];
    [|left; transitivity w1; [exact Hw1|unsend; apply Hcl]].
  destruct (checkCapacityAndDuplicate _ _ _ _) eqn:Hck;
    [|left; transitivity w1; [exact Hw1|unsend; same_clients]..].
  rewrite Hcfg, Hcore in Hck. right. exists resp, loc, c, old, key, w1. rewrite Hg. done.
Qed.

(** What a response that adds a player has passed. *)
Lemma entry_by_response p from w k l :
  room_ok w → clients (w_core w) !! k = None →
  clients (w_core (handleAuthResponse p from w)) !! k = Some l →
  ∃ resp loc c a key,
    UnmarshalAuthResponse p = Ok resp ∧
    store (w_core w) !! loc = Some c ∧ cl_auth c = authChallengeSent ∧ cl_PublicAddr c = Some a ∧
    now - cl_challengeAt c ≤ 15 * Second ∧
    DeriveKey (r_roomPass (w_cfg w)) (cl_authRoomID c) = Some key ∧
    ar_HMAC resp = HMAC_SHA256 key (transcript (cl_challenge c) (ar_RoomID resp) (ar_Username resp)
                                      (Some (UDPAddr_String a))) ∧
    checkCapacityAndDuplicate (w_cfg w) (w_core w) (ar_Username resp) (ar_RoomID resp) = checkOK.
Proof.
  intros [Hok Hkeys] Hnone Hsome.
  destruct (response_cases p from w)
    as [Hsub|(resp & loc & c & old & key & w1 & Hu & Hf & Ha & Ht & Hk & Hv & Hck & _)].
  { eapply lookup_weaken in Hsome; [|apply Hsub]. congruence. }
  apply findPending_Some in Hf as (Hl & Hst & _). rewrite (getAuthKey_spec w _ Hkeys) in Hk.
  destruct (ok_addr _ _ Hok _ _ Hl) as (c' & a & ? & Hpa & _). simplify_eq.
  rewrite Hpa in Hv. apply VerifyHMAC_true in Hv. by exists resp, loc, c, a, key.
Qed.

(** C3: In a room with a password, whatever the event - any packet from any
    address, any tick - a new player appears only when the event is an
    AuthResponse that carries the HMAC, under the key derived from the room's
    password, of the challenge that was sent at most 15 seconds before to a pending
    client, with the names of the response and the address this client registered
    from; and the room has a free place and no registered player of this name. *)
Theorem password_required ev w k l :
  room_ok w → r_roomPass (w_cfg w) ≠ [] →
  clients (w_core w) !! k = None → clients (w_core (room_step ev w)) !! k = Some l →
  ∃ p from resp loc c a key,
    ev = EvPacket TypeAuthResponse p from ∧ UnmarshalAuthResponse p = Ok resp ∧
    store (w_core w) !! loc = Some c ∧ cl_auth c = authChallengeSent ∧ cl_PublicAddr c = Some a ∧
    now - cl_challengeAt c ≤ 15 * Second ∧
    DeriveKey (r_roomPass (w_cfg w)) (cl_authRoomID c) = Some key ∧
    ar_HMAC resp = HMAC_SHA256 key (transcript (cl_challenge c) (ar_RoomID resp) (ar_Username resp)
                                      (Some (UDPAddr_String a))) ∧
    checkCapacityAndDuplicate (w_cfg w) (w_core w) (ar_Username resp) (ar_RoomID resp) = checkOK.
Proof.
  intros Hok Hpass Hnone Hsome.
  assert (¬ no_entry w (room_step ev w)) as Hno.
  { intros Hsub. eapply lookup_weaken in Hsome; [|apply Hsub]. congruence. }
  assert (∃ p from, ev = EvPacket TypeAuthResponse p from) as (p & from & ->).
  { destruct ev as [t p from| | | | |]; try (exfalso; apply Hno; by apply no_entry_step).
    destruct (decide (t = TypeAuthResponse)) as [->|Hne]; [by eauto|].
    exfalso. apply Hno, no_entry_step; [done|]. congruence. }
  exists p, from. destruct (entry_by_response p from w k l Hok Hnone Hsome) as (resp & loc & c & a & key & Hr).
  by exists resp, loc, c, a, key.
Qed.
End entry.

(** *** Witness: Alice answers the challenge *)

Lemma password_required_witness :
  ∃ loc c key, store (w_core ex_challenged) !! loc = Some c ∧ cl_auth c = authChallengeSent ∧
    DeriveKey ex_pass (cl_authRoomID c) = Some key.
Proof.
  destruct (reachable_ok (ex_config ex_pass) ex_challenged (ex_ipv4 ex_pass)
    (reach_step _ _ _ _ (ex_reachable0 ex_pass))) as (Hok & _).
  destruct (@password_required ex_env2 _ (ex_response ex_pass) ex_challenged (IPKey (ex_vip x02)) 1 Hok)
    as (p & from & resp & loc & c & a & key & _ & _ & Hst & Hauth & _ & _ & Hkey & _).
  - vm_compute. intros E. discriminate E.
  - vm_compute. reflexivity.
  - vm_compute. reflexivity.
  - exists loc, c, key. split; [exact Hst|]. split; [exact Hauth|]. exact Hkey.
Defined.
