(* ===== verification/RoomCap.v ===== *)
(** * RoomCap: how many players a room admits

    No event takes the number of players above the larger of what it was and
    the room's limit. *)

From S2P Require Import Prelude GoNet Crc32 Protocol Messages MessagesData MessagesPeer NetUtil RateLimit Float64 Bandwidth SendQueue Sha256 Auth I18n Client Room RoomHandlers RoomIP RoomInv RoomSafe RoomExample RoomSpec RoomEntry.

(** ** Steps that do not exceed the limit *)

Definition capped (w w' : World) : Prop :=
  w_cfg w' = w_cfg w ∧
  Z.of_nat (size (clients (w_core w'))) ≤
    Z.max (Z.of_nat (size (clients (w_core w)))) (r_maxPlayers (w_cfg w)).
#[export] Instance capped_preorder : PreOrder capped.
Proof.
  split; [intros w; split; [done|lia]|]. intros x y z [E1 H1] [E2 H2]. split; [congruence|].
  rewrite E1 in H2. lia.
Qed.





Section capacity.
Context `{Env} `{MapRange}.





End capacity.

Section invariant.
Context `{MapRange}.



End invariant.


