(* ===== verification/RoomRelay.v ===== *)
(** * RoomRelay: the relay path of a room

    handleRelay and tryMigrateAddrMap of src/internal/server/room_relay.go: who
    may send for an address, who receives, and what is charged. *)

From S2P Require Import Prelude GoNet Crc32 Protocol Messages MessagesData MessagesPeer NetUtil RateLimit Float64 Bandwidth SendQueue Sha256 Auth I18n Client Room RoomHandlers RoomIP RoomInv RoomSafe RoomExample RoomSpec.

Section relay.
Context `{Env} `{MapRange}.

(** The first four bytes of a data payload. *)
Definition src_of (payload : list byte) : list byte := take 4 payload.
Definition dst_of (payload : list byte) : list byte := take 4 (drop 4 payload).

Lemma src_length payload : (8 ≤ length payload)%nat → length (src_of payload) = 4%nat.
Proof. intros Hl. unfold src_of. rewrite length_take. lia. Qed.

(** client that has a virtual address is the player of this address. *)
Lemma mapped_player cfg s k l c :
  core_ok cfg s → addr_client s k = Some (l, c) → cl_VirtualIP c ≠ [] →
  cl_auth c = authNone ∧ vip_client s (IPKey (cl_VirtualIP c)) = Some (l, c).
Proof.
  intros Hok [Hk Hst]%addr_client_Some Hne. destruct (ok_addr _ _ Hok _ _ Hk) as (c' & a & ? & _ & _ & Hc).
  simplify_eq. destruct (cl_auth c); [|done]. split; [done|]. by apply vip_client_Some.
Qed.

Lemma player_vip4 cfg s k l c :
  core_ok cfg s → vip_client s k = Some (l, c) →
  ∃ v, To4 (cl_VirtualIP c) = Some v ∧ k = IPKey (cl_VirtualIP c) ∧ cl_auth c = authNone.
Proof.
  intros Hok [Hk Hst]%vip_client_Some. destruct (ok_clients _ _ Hok) as [_ _ Hc _].
  destruct (Hc _ _ Hk) as (c' & o & vip & ? & Ha & Hv & Hvip & -> & _). simplify_eq.
  destruct (room_vip_octet _ _ _ Hv) as (v & Hv4 & _). by exists v.
Qed.

(** What tryMigrateAddrMap answers. *)
Lemma migrate_some from src payload s l c s' :
  tryMigrateAddrMap from src payload s = (Some (l, c), s') → addr_client s (AddrToRateKey from) = None →
  ∃ c0, vip_client s (IPKey src) = Some (l, c0) ∧ token_ok c0 payload = true ∧
        c = set_lastSeen now (set_PublicAddr (Some from) c0).
Proof.
  unfold tryMigrateAddrMap. intros Hm Hnone. rewrite Hnone in Hm.
  destruct (vip_client s (IPKey src)) as [[l0 c0]|]; [|done].
  destruct (token_ok c0 payload) eqn:Ht; [|done]. cbn [negb] in Hm. simplify_eq. by exists c0.
Qed.

Lemma migrate_none from src payload s s' :
  tryMigrateAddrMap from src payload s = (None, s') → s' = s.
Proof.
  unfold tryMigrateAddrMap. destruct (vip_client s _) as [[l0 c0]|]; [|by intros [= <-]].
  destruct (negb _); [by intros [= <-]|]. by destruct (addr_client s _).
Qed.

(** The session token a data payload carries, read off its bytes: at offset 10 behind the
    version byte and the flags, at offset 9 behind the flags alone in the old format. *)
Inductive carries_token (payload : list byte) : list byte → Prop :=
| carries_new fl : payload !! 8%nat = Some DataFormatVersion → payload !! 9%nat = Some fl → has_token fl = true →
    carries_token payload (take 16 (drop 10 payload))
| carries_old fl : payload !! 8%nat = Some fl → fl ≠ DataFormatVersion → has_token fl = true →
    carries_token payload (take 16 (drop 9 payload)).

(** A client whose packets are checked for a token: of a version that has tokens, with
    one. *)
Definition token_holder (c : Client) : Prop :=
  MinTokenVersion ≤ cl_clientVersion c ∧ cl_SessionToken c ≠ zeros 16.

Lemma token_ok_spec c payload :
  token_ok c payload = true → token_holder c →
  (8 < length payload)%nat ∧ ∀ tok, carries_token payload tok → tok = cl_SessionToken c ∧ length tok = 16%nat.
Proof.
  intros Ht [Hv Hs]. unfold token_ok, HasSessionToken in Ht. rewrite (bool_decide_eq_false_2 _ Hs) in Ht.
  rewrite (proj2 (Z.leb_le _ _) Hv) in Ht. cbn [andb negb] in Ht.
  destruct (Nat.leb_spec (length payload) 8) as [|Hl]; [done|]. split; [done|].
  assert (∀ off, (length payload <? off + DataTokenLen)%nat = false ∧
      ValidateSessionToken c (take DataTokenLen (drop off payload)) = true →
      take 16 (drop off payload) = cl_SessionToken c ∧ length (take 16 (drop off payload)) = 16%nat) as Hval.
  { intros off [_ Hb]. unfold ValidateSessionToken, DataTokenLen in Hb. apply andb_true_iff in Hb as [Hn He].
    apply Nat.eqb_eq in Hn. by apply bool_decide_eq_true in He. }
  unfold ParseDataHeader in Ht. destruct (Nat.leb_spec (length payload) 8); [lia|].
  intros tok [fl H8 H9 Hf|fl H8 Hne Hf]; apply Hval.
  - unfold index in Ht. rewrite H8 in Ht. cbn [mbind go_bind] in Ht. rewrite bool_decide_eq_true_2 in Ht by done.
    pose proof (lookup_lt_Some _ _ _ H9). destruct (Nat.leb_spec 10 (length payload)); [|lia].
    rewrite H9 in Ht. cbn [mbind go_bind mret go_ret] in Ht. rewrite Hf in Ht. unfold DataHeaderLen in Ht.
    by destruct (_ <? _)%nat.
  - unfold index in Ht. rewrite H8 in Ht. cbn [mbind go_bind] in Ht. rewrite bool_decide_eq_false_2 in Ht by done.
    cbn [mret go_ret] in Ht. rewrite Hf in Ht. by destruct (_ <? _)%nat.
Qed.

(** C6: No spoofing of virtual addresses.  A data packet has an effect on the room
    - a packet is relayed, an endpoint moves, a bandwidth bucket is charged - only
    when its source address is the virtual address of a registered player, the endpoint
    it came from is either this player's or unknown to the room, and, for a player that
    holds a session token and whose version has tokens (old clients and placeholders
    restored from disk have none and are not checked), the packet either carries no
    token or carries exactly the 16 bytes of this player's token. *)
Theorem relay_only_as_oneself payload from w :
  room_ok w → handleRelay payload from w ≠ w →
  ∃ l c, vip_client (w_core w) (IPKey (src_of payload)) = Some (l, c) ∧
    To4 (cl_VirtualIP c) = Some (src_of payload) ∧ cl_auth c = authNone ∧
    (token_holder c → (8 < length payload)%nat ∧
       ∀ tok, carries_token payload tok → tok = cl_SessionToken c ∧ length tok = 16%nat) ∧
    (addr_client (w_core w) (AddrToRateKey from) = Some (l, c) ∨
     addr_client (w_core w) (AddrToRateKey from) = None).
Proof.
  intros [Hok _] Hne. unfold handleRelay in Hne.
  destruct (Nat.ltb_spec (length payload) 8) as [|Hlen]; [done|].
  pose proof (src_length payload Hlen) as Hsrc. fold (src_of payload) in Hne.
  destruct (addr_client (w_core w) (AddrToRateKey from)) as [[l c]|] eqn:Ha.
  - case_bool_decide as Hv; [|done]. cbn [negb] in Hne.
    destruct (token_ok c payload) eqn:Ht; [|done].
    destruct (mapped_player _ _ _ _ _ Hok Ha) as [Hauth Hvip].
    { intros E. by rewrite E in Hv. }
    exists l, c. rewrite (IPKey_To4 _ _ Hv) in Hvip. rewrite (IPKey_v4 _ Hsrc).
    split_and!; [done..|by apply token_ok_spec|by left].
  - destruct (tryMigrateAddrMap _ _ _ _) as [[[l c]|] s] eqn:Hm.
    + apply migrate_some in Hm as (c0 & Hvip & Ht & ->); [|done].
      destruct (player_vip4 _ _ _ _ _ Hok Hvip) as (v & Hv4 & Hk & Hauth).
      exists l, c0. split_and!; [done| |done|by apply token_ok_spec|by right].
      rewrite Hv4. f_equal. symmetry. eapply IPKey_inj_v4; [|done|done]. by apply To4_4.
    + apply migrate_none in Hm as ->. by destruct w as [[] ? ?].
Qed.

(** What the token check of the migration does not cover.  A data packet from
    an endpoint the room does not know, with a player's virtual address as source
    and no token flag, takes over this player's mapping: the player's public
    address becomes the stranger's and the player's own endpoint is unmapped,
    although the player holds a session token. *)
Theorem tokenless_packet_takes_over payload from w l c own flags off new :
  room_ok w → (8 < length payload)%nat →
  vip_client (w_core w) (IPKey (src_of payload)) = Some (l, c) →
  HasSessionToken c = true → MinTokenVersion ≤ cl_clientVersion c →
  cl_PublicAddr c = Some own →
  addr_client (w_core w) (AddrToRateKey from) = None →
  AddrToRateKey own ≠ AddrToRateKey from →
  ParseDataHeader (E:=perr) payload = Ok (flags, off, new) → has_token flags = false →
  let w' := handleRelay payload from w in
  addr_client (w_core w') (AddrToRateKey from)
    = Some (l, set_lastSeen now (set_PublicAddr (Some from) c)) ∧
  addr_client (w_core w') (AddrToRateKey own) = None.
Proof.
  intros [Hok _] Hlen Hvip Htok Hver Hown Hnone Hneq Hparse Hflag. cbv zeta.
  assert (token_ok c payload = true) as Ht.
  { unfold token_ok. destruct (Nat.leb_spec (length payload) 8); [lia|].
    by rewrite Hparse, Hflag; destruct (_ && _). }
  unfold handleRelay. destruct (Nat.ltb_spec (length payload) 8); [lia|].
  rewrite Hnone. fold (src_of payload). unfold tryMigrateAddrMap. rewrite Hvip, Ht, Hnone. cbn [negb].
  set (c' := set_lastSeen now _).
  match goal with |- context [on_core (fun _ => ?s) w] => set (s' := s); set (w1 := on_core _ w) end.
  assert (∀ w', w_core w' = s' → addr_client (w_core w') (AddrToRateKey from) = Some (l, c') ∧
                                 addr_client (w_core w') (AddrToRateKey own) = None) as Hgoal.
  { intros w' ->. apply vip_client_Some in Hvip as [_ Hst].
    destruct (move_client_spec l c from (w_core w) Hst) as [Hn Ho]. split; [done|by apply Ho]. }
  destruct (negb _); [by apply Hgoal|]. destruct (negb _); [by apply Hgoal|].
  destruct (relay_targets _ _ _ _) as [|t ts]; [by apply Hgoal|].
  apply Hgoal. match goal with |- w_core (on_stats _ (foldl ?f _ _)) = _ =>
    assert (keeps w1 (foldl f w1 (t :: ts))) as (_ & E & _); [|exact E] end.
  apply keeps_foldl. intros w' a. case_match; [apply keeps_bypass|apply keeps_unicast].
Qed.

(** ** Delivery *)

(** The datagram a payload is relayed in. *)
Definition relay_frame (cfg : RoomCfg) (payload : list byte) : list byte :=
  match r_roomPass cfg with [] => EncodeChecked TypeData payload | _ => Encode TypeData payload end.

Definition low_entry (e : list byte) (a : UDPAddr) : sendEntry := mkEntry e a priorityLow.

(** Everything queued or written. *)
Definition all_sent (w : World) : list sendEntry := sq_all (rlq_sq (w_q w)).

Lemma bypass_all e a w : all_sent (sendCheckedRawBypass e a w) ≡ₚ all_sent w ++ [low_entry e a].
Proof.
  unfold sendCheckedRawBypass, sendBypass, sendBroadcast, all_sent, sq_all.
  destruct (_ <? _); cbn; rewrite <- !app_assoc; [done|].
  apply Permutation_app_head. rewrite Permutation_app_comm. by rewrite <- app_assoc.
Qed.

Lemma bypass_fold e l w :
  all_sent (foldl (fun w a => sendCheckedRawBypass e a w) w l) ≡ₚ all_sent w ++ map (low_entry e) l.
Proof.
  revert w. induction l as [|a l IH]; intros w; cbn [foldl map]; [by rewrite app_nil_r|].
  rewrite IH, bypass_all, <- app_assoc. done.
Qed.

(** The clients of a room, each once. *)
Lemma client_list_NoDup cfg s : core_ok cfg s → NoDup (map fst (client_list s)).
Proof.
  intros Hok. unfold client_list, client_at.
  assert (NoDup (map snd (go_range (clients s)))) as Hnd.
  { change (NoDup (snd <$> go_range (clients s))). rewrite go_range_perm. apply NoDup_fmap_2_strong; [|apply NoDup_map_to_list].
    intros [k1 l1] [k2 l2] H1%elem_of_map_to_list H2%elem_of_map_to_list E. cbn in E. subst l2. f_equal.
    destruct (ok_clients _ _ Hok) as [_ _ Hc _].
    destruct (Hc _ _ H1) as (c1 & ? & ? & Hs1 & _ & _ & Hv1 & -> & _).
    destruct (Hc _ _ H2) as (c2 & ? & ? & Hs2 & _ & _ & Hv2 & -> & _). by simplify_eq. }
  induction (go_range (clients s)) as [|[k l] L IH]; [constructor|]. cbn in Hnd. apply NoDup_cons in Hnd as [Hni Hnd].
  cbn [omap list_omap]. destruct (store s !! l) as [c|] eqn:Hs; cbn; [|by apply IH]. constructor; [|by apply IH].
  rewrite list_elem_of_fmap. intros ([l' c'] & -> & Hin). apply Hni. cbn.
  apply list_elem_of_omap in Hin as ([k2 l2] & Hin & E). destruct (store s !! l2); [|done]. cbn in E. simplify_eq.
  apply list_elem_of_fmap. by exists (k2, l').
Qed.

(** The clients other than [l] that have an endpoint, with it. *)
Definition other_endpoints (s : Core) (l : nat) : list (nat * UDPAddr) :=
  omap (fun '(l', c') => (fun a => (l', a)) <$> cl_PublicAddr c')
    (List.filter (fun '(l', _) => negb (l' =? l)%nat) (client_list s)).

Lemma other_endpoints_addrs s l dst : map snd (other_endpoints s l) = relay_targets s l dst true.
Proof.
  cbn [relay_targets]. unfold other_endpoints, public_addrs. induction (List.filter _ _) as [|[l' c'] L IH]; [done|].
  cbn [omap list_omap]. destruct (cl_PublicAddr c'); cbn; [by rewrite IH|done].
Qed.

Lemma elem_of_other_endpoints s l l' a :
  (l', a) ∈ other_endpoints s l ↔
  ∃ k c', clients s !! k = Some l' ∧ l' ≠ l ∧ store s !! l' = Some c' ∧ cl_PublicAddr c' = Some a.
Proof.
  unfold other_endpoints. rewrite list_elem_of_omap. split.
  - intros ([l2 c'] & Hin & E). destruct (cl_PublicAddr c') as [a'|] eqn:Hp; [|done]. cbn in E. simplify_eq.
    apply list_elem_of_In, filter_In in Hin as [Hin Hne].
    apply list_elem_of_In, elem_of_client_list in Hin as [[k Hk] Hs].
    apply negb_true_iff, Nat.eqb_neq in Hne. by exists k, c'.
  - intros (k & c' & Hk & Hne & Hs & Hp). exists (l', c'). split; [|by rewrite Hp].
    apply list_elem_of_In, filter_In. split; [|by apply negb_true_iff, Nat.eqb_neq].
    apply list_elem_of_In, elem_of_client_list. eauto.
Qed.

Lemma other_endpoints_NoDup cfg s l : core_ok cfg s → NoDup (map fst (other_endpoints s l)).
Proof.
  intros Hok. pose proof (client_list_NoDup _ _ Hok) as Hnd. unfold other_endpoints.
  induction (client_list s) as [|[l' c'] L IH]; [constructor|]. cbn in Hnd. apply NoDup_cons in Hnd as [Hni Hnd].
  cbn [List.filter]. destruct (negb _); [|by apply IH]. cbn [omap list_omap].
  destruct (cl_PublicAddr c') as [a|]; cbn; [|by apply IH]. constructor; [|by apply IH].
  rewrite list_elem_of_fmap. intros ([l2 a2] & -> & Hin). apply Hni. cbn.
  apply list_elem_of_omap in Hin as ([l3 c3] & Hin & E). destruct (cl_PublicAddr c3); [|done]. cbn in E. simplify_eq.
  apply list_elem_of_In, filter_In in Hin as [Hin _]. apply list_elem_of_fmap. exists (l2, c3). by rewrite list_elem_of_In.
Qed.

(** C36: A broadcast or multicast packet of a player is sent to every other player of the
    room that has an endpoint, exactly once for each, never back to its sender, and
    nothing else is sent; the payload is relayed unchanged, in the frame of the room. *)
Theorem relay_broadcast_to_the_others payload from w l c :
  room_ok w → (8 ≤ length payload)%nat →
  addr_client (w_core w) (AddrToRateKey from) = Some (l, c) →
  To4 (cl_VirtualIP c) = Some (src_of payload) → token_ok c payload = true →
  IsRelayTargetRaw (E:=perr) (dst_of payload) (Some (r_subnet (w_cfg w))) = Ok true →
  ∃ targets : list (nat * UDPAddr),
    all_sent (handleRelay payload from w)
      ≡ₚ all_sent w ++ map (fun '(_, a) => low_entry (relay_frame (w_cfg w) payload) a) targets ∧
    NoDup (map fst targets) ∧
    (∀ l' a, (l', a) ∈ targets ↔ ∃ k c', clients (w_core w) !! k = Some l' ∧ l' ≠ l ∧
                            store (w_core w) !! l' = Some c' ∧ cl_PublicAddr c' = Some a) ∧
    w_core (handleRelay payload from w) = w_core w.
Proof.
  intros [Hok _] Hlen Ha Hv Ht Hb. exists (other_endpoints (w_core w) l).
  split_and!; [|by eapply other_endpoints_NoDup|intros l' a; apply elem_of_other_endpoints|].
  - assert (map (fun '(_, a) => low_entry (relay_frame (w_cfg w) payload) a) (other_endpoints (w_core w) l)
            = map (low_entry (relay_frame (w_cfg w) payload)) (relay_targets (w_core w) l (dst_of payload) true)) as ->.
    { rewrite <- other_endpoints_addrs, map_map. by apply map_ext; intros []. }
    unfold handleRelay. destruct (Nat.ltb_spec (length payload) 8); [lia|].
    fold (src_of payload) (dst_of payload). rewrite Hb, Ha, Ht, Hv, bool_decide_eq_true_2 by done. cbn [negb].
    destruct (relay_targets _ _ _ _) as [|t ts]; [by rewrite app_nil_r|].
    rewrite <- bypass_fold. done.
  - unfold handleRelay. destruct (Nat.ltb_spec (length payload) 8); [lia|].
    fold (src_of payload) (dst_of payload). rewrite Hb, Ha, Ht, Hv, bool_decide_eq_true_2 by done. cbn [negb].
    destruct (relay_targets _ _ _ _) as [|t ts]; [done|].
    match goal with |- w_core (on_stats _ (foldl ?f _ _)) = _ =>
      assert (keeps w (foldl f w (t :: ts))) as (_ & E & _); [|exact E] end.
    apply keeps_foldl. intros w' a. apply keeps_bypass.
Qed.

(** The bandwidth limiter lets a unicast frame of [n] bytes through to [a]: handleRelay
    charges it to the bucket of [a], unless [a] is a TCP bridge, and the queue charges it
    again. *)
Definition relay_charge_ok (lim : option BandwidthLimiter) (a : UDPAddr) (n : Z) : bool :=
  let '(ok, lim1) := Allow now lim a n in
  ok && (IP_Equal (ua_IP a) tcpBridgeAddr || fst (Allow now lim1 a n)).

Lemma Allow_is_Some l a n : is_Some (snd (Allow now (Some l) a n)).
Proof. unfold Allow. destruct (Enabled _); [|by eexists]. destruct (bucket_Allow _ _ _). by eexists. Qed.

(** A player who was sent nothing yet has a full bucket: a frame of at most half of it
    goes through. *)
Lemma fresh_charge_ok l a n :
  0 < bl_limit l → bl_burst l = bandwidthBurst → bl_buckets l !! AddrToRateKey a = None →
  0 ≤ n ≤ bandwidthBurst / 2 → relay_charge_ok (Some l) a n = true.
Proof.
  intros Hl Hb Hf Hn. change (bandwidthBurst / 2) with 262144 in Hn.
  unfold relay_charge_ok, Allow, Enabled. assert (0 <? bl_limit l = true) as -> by (by apply Z.ltb_lt).
  unfold getBucket at 1. rewrite Hf, Hb.
  destruct (bucket_Allow_again now (newTokenBucket now (fint (bl_limit l)) (fint bandwidthBurst)) bandwidthBurst n)
    as (b1 & -> & Ht & Hlast & Hmax); [by apply fint_exact|unfold bandwidthBurst; lia|done|done|].
  cbn [bl_limit bl_burst bl_buckets andb]. assert (0 <? bl_limit l = true) as -> by (by apply Z.ltb_lt).
  unfold getBucket. cbn [bl_buckets]. rewrite lookup_insert_eq.
  destruct (bucket_Allow_again now b1 (bandwidthBurst - n) n) as (b2 & -> & _); [done|unfold bandwidthBurst; lia|done|done|].
  by rewrite orb_true_r.
Qed.

(** A packet a player sends to another player's virtual address is put once in
    the send queue for this player's public address, payload unchanged, when
    the bandwidth limiter lets it through and the queue has room. *)
Theorem relay_unicast_delivers payload from w l c l' d a :
  (8 ≤ length payload)%nat →
  addr_client (w_core w) (AddrToRateKey from) = Some (l, c) →
  To4 (cl_VirtualIP c) = Some (src_of payload) → token_ok c payload = true →
  IsRelayTargetRaw (E:=perr) (dst_of payload) (Some (r_subnet (w_cfg w))) = Ok false →
  vip_client (w_core w) (IPKey4 (dst_of payload)) = Some (l', d) → cl_PublicAddr d = Some a →
  relay_charge_ok (rlq_limiter (w_q w)) a (Z.of_nat (length (relay_frame (w_cfg w) payload))) = true →
  Z.of_nat (length (sq_ch (rlq_sq (w_q w)))) < sq_maxSize (rlq_sq (w_q w)) →
  let w' := handleRelay payload from w in
  sq_ch (rlq_sq (w_q w')) = sq_ch (rlq_sq (w_q w)) ++ [low_entry (relay_frame (w_cfg w) payload) a] ∧
  sq_broadcastCh (rlq_sq (w_q w')) = sq_broadcastCh (rlq_sq (w_q w)) ∧
  w_core w' = w_core w ∧
  totalPacketsRelay (r_stats (w_room w')) = totalPacketsRelay (r_stats (w_room w)) + 1.
Proof.
  intros Hlen Ha Hv Ht Hb Hd Hp Hlim Hroom. cbv zeta.
  unfold handleRelay. destruct (Nat.ltb_spec (length payload) 8); [lia|].
  fold (src_of payload) (dst_of payload). rewrite Hb, Ha, Ht, Hv, bool_decide_eq_true_2 by done.
  cbn [negb relay_targets]. rewrite Hd, Hp. cbn [foldl]. fold (relay_frame (w_cfg w) payload).
  set (f := relay_frame _ _) in *. unfold relay_charge_ok in Hlim.
  assert (Z.of_nat (length (sq_ch (rlq_sq (w_q w)))) <? sq_maxSize (rlq_sq (w_q w)) = true) as Hr by (by apply Z.ltb_lt).
  unfold relay_unicast, sendCheckedRaw, queue_send, rlq_send. destruct (rlq_limiter (w_q w)) as [lim|].
  2: { unfold sq_send. by rewrite Hr. }
  destruct (Allow now (Some lim) a (Z.of_nat (length f))) as [ok lim1] eqn:E1.
  pose proof (Allow_is_Some lim a (Z.of_nat (length f))) as [l1 Hl1]. rewrite E1 in Hl1. cbn in Hl1. subst lim1.
  destruct ok; [cbn [andb] in Hlim|done]. destruct (IP_Equal (ua_IP a) tcpBridgeAddr).
  - unfold sq_send. by rewrite Hr.
  - cbn [orb] in Hlim. cbn [w_q rlq_limiter rlq_sq]. destruct (Allow now (Some l1) a _) as [ok2 lim2]. cbn in Hlim. subst ok2.
    unfold sq_send. by rewrite Hr.
Qed.

(** ** Bandwidth *)

(** With a bandwidth limit, one relayed packet is charged to the target's
    bucket twice: once by handleRelay, once more by the queue; it is dropped, and
    counted as a send error, when only the first charge is covered.  A target
    that is a TCP bridge, which handleRelay exempts, is still charged once. *)
Theorem unicast_charged_twice e a w lim ok lim1 ok2 lim2 :
  rlq_limiter (w_q w) = Some lim →
  Allow now (Some lim) a (Z.of_nat (length e)) = (ok, lim1) →
  Allow now lim1 a (Z.of_nat (length e)) = (ok2, lim2) →
  let w' := relay_unicast e a w in
  rlq_limiter (w_q w') =
    (if IP_Equal (ua_IP a) tcpBridgeAddr then lim1 else if ok then lim2 else lim1) ∧
  (IP_Equal (ua_IP a) tcpBridgeAddr = false → ok && ok2 = false →
     rlq_sq (w_q w') = rlq_sq (w_q w) ∧
     sendErrors (r_stats (w_room w')) = sendErrors (r_stats (w_room w)) + (if ok then 1 else 0)).
Proof.
  intros Hlim H1 H2. cbv zeta. unfold relay_unicast, sendCheckedRaw, queue_send, rlq_send. rewrite Hlim.
  destruct (IP_Equal _ _) eqn:Eb.
  - rewrite H1. split; [|done]. destruct ok; [|done]. by destruct (sq_send _ _ _ _) as [[] sq].
  - rewrite H1. destruct ok; cbn [w_q rlq_limiter]; [|by split; [|intros _ _; cbn; split; [|lia]]].
    assert (is_Some lim1) as [lim1' ->].
    { unfold Allow in H1. destruct (Enabled _); [|by simplify_eq; eexists].
      destruct (bucket_Allow _ _ _). simplify_eq. by eexists. }
    cbn [w_q rlq_limiter rlq_sq]. rewrite H2. destruct ok2.
    + split; [|done]. by destruct (sq_send _ _ _ _) as [[] sq].
    + split; [done|]. intros _ _. split; [done|]. unfold logSendError, on_stats. cbn.
      by repeat case_match.
Qed.
End relay.

(** *** Witnesses *)

Definition ex_ip (o : byte) : list byte := [x0a; x0a; x00; o].
Definition ex_data (dst : list byte) : list byte :=
  ex_ip x02 ++ dst ++ [DataFormatVersion; x00; x45; x00; x00; x14].
Definition ex_env3 : Env := ex_env (3 * Second) x03.

Lemma ex_both_ok : room_ok ex_both.
Proof. apply (reachable_ok (ex_config []) ex_both (ex_ipv4 []) ex_reachable). Defined.

Definition ex_client (l : nat) (w : World) : Client :=
  default (new_client [] [] None authNone [] 0 [] 0) (store (w_core w) !! l).

Lemma relay_only_as_oneself_witness :
  ∃ l c, vip_client (w_core ex_both) (IPKey (ex_ip x02)) = Some (l, c) ∧ cl_auth c = authNone.
Proof.
  destruct (@relay_only_as_oneself ex_env3 _ (ex_data (ex_ip x03)) (ex_addr x01) ex_both ex_both_ok)
    as (l & c & Hv & _ & Ha & _).
  - intros E. apply (f_equal (fun w => totalPacketsRelay (r_stats (w_room w)))) in E.
    vm_compute in E. discriminate E.
  - exists l, c. split; [exact Hv|exact Ha].
Defined.

Lemma tokenless_packet_takes_over_witness :
  addr_client (w_core (@handleRelay ex_env3 _ (ex_data (ex_ip x03)) (ex_addr x09) ex_both))
    (AddrToRateKey (ex_addr x01)) = None.
Proof.
  refine (proj2 (@tokenless_packet_takes_over ex_env3 _ (ex_data (ex_ip x03)) (ex_addr x09) ex_both 0
    (ex_client 0 ex_both) (ex_addr x01) x00 DataHeaderLen true ex_both_ok _ _ _ _ _ _ _ _ _)).
  - vm_compute. lia.
  - vm_compute. reflexivity.
  - vm_compute. reflexivity.
  - vm_compute. discriminate.
  - vm_compute. reflexivity.
  - vm_compute. reflexivity.
  - vm_compute. discriminate.
  - vm_compute. reflexivity.
  - vm_compute. reflexivity.
Defined.

Lemma relay_broadcast_to_the_others_witness :
  w_core (@handleRelay ex_env3 _ (ex_data [xff; xff; xff; xff]) (ex_addr x01) ex_both) = w_core ex_both ∧
  length (all_sent (@handleRelay ex_env3 _ (ex_data [xff; xff; xff; xff]) (ex_addr x01) ex_both)) = 8%nat.
Proof.
  split; [|vm_compute; reflexivity].
  destruct (@relay_broadcast_to_the_others ex_env3 _ (ex_data [xff; xff; xff; xff]) (ex_addr x01) ex_both 0
    (ex_client 0 ex_both)) as (targets & _ & _ & _ & Hcore).
  - exact ex_both_ok.
  - vm_compute. lia.
  - vm_compute. reflexivity.
  - vm_compute. reflexivity.
  - vm_compute. reflexivity.
  - vm_compute. reflexivity.
  - exact Hcore.
Defined.

Lemma relay_unicast_delivers_witness :
  totalPacketsRelay (r_stats (w_room (@handleRelay ex_env3 _ (ex_data (ex_ip x03)) (ex_addr x01) ex_both)))
  = totalPacketsRelay (r_stats (w_room ex_both)) + 1.
Proof.
  refine (proj2 (proj2 (proj2 (@relay_unicast_delivers ex_env3 _ (ex_data (ex_ip x03)) (ex_addr x01) ex_both
    0 (ex_client 0 ex_both) 1 (ex_client 1 ex_both) (ex_addr x02) _ _ _ _ _ _ _ _ _)))).
  - vm_compute. lia.
  - vm_compute. reflexivity.
  - vm_compute. reflexivity.
  - vm_compute. reflexivity.
  - vm_compute. reflexivity.
  - vm_compute. reflexivity.
  - vm_compute. reflexivity.
  - reflexivity.
  - vm_compute. reflexivity.
Defined.

(** Bob's bucket holds 2000 bytes; a datagram of 1500 needs 3000. *)
Definition ex_limiter : BandwidthLimiter :=
  mkLimiter 1000 bandwidthBurst
    {[AddrToRateKey (ex_addr x02) := mkBucket 2000 (fint bandwidthBurst) 1000 (3 * Second)]}.
Definition ex_limited : World :=
  mkWorld (w_room ex_both) (mkRLQ (rlq_sq (w_q ex_both)) (Some ex_limiter)) false.

Lemma pair_of {A B} (p : A * B) a : fst p = a → p = (a, snd p).
Proof. destruct p. by intros <-. Qed.

Lemma unicast_charged_twice_witness :
  sendErrors (r_stats (w_room (@relay_unicast ex_env3 (zeros 1500) (ex_addr x02) ex_limited))) = 1.
Proof.
  set (n := Z.of_nat (length (zeros 1500))).
  assert (fst (Allow (3 * Second) (Some ex_limiter) (ex_addr x02) n) = true) as H1 by (vm_compute; reflexivity).
  assert (fst (Allow (3 * Second) (snd (Allow (3 * Second) (Some ex_limiter) (ex_addr x02) n))
                (ex_addr x02) n) = false) as H2 by (vm_compute; reflexivity).
  destruct (@unicast_charged_twice ex_env3 (zeros 1500) (ex_addr x02) ex_limited ex_limiter true _ false _
    eq_refl (pair_of _ true H1) (pair_of _ false H2)) as [_ H].
  destruct H as [_ H]; [reflexivity|reflexivity|].
  etransitivity; [exact H|vm_compute; reflexivity].
Defined.
