(* ===== verification/RoomLife.v ===== *)
(** * RoomLife: registration, departure, cleanup and ping

    The functional behaviour of handleRegister, handleDisconnect, CleanupStale and
    pingLoop on the states of a room. *)

From S2P Require Import Prelude GoNet Crc32 Protocol Messages MessagesData MessagesPeer NetUtil RateLimit Float64 Bandwidth SendQueue Sha256 Auth I18n Client Room RoomHandlers RoomIP RoomInv RoomSafe RoomExample RoomSpec RoomEntry.

Section life.
Context `{Env} `{MapRange}.

(** ** Cleanup *)

Lemma elem_of_stale {K} `{Countable K} (p : Client → bool) s (m : gmap K nat) k l c :
  (k, l, c) ∈ List.filter (fun '(_, _, c) => p c)
     (omap (fun '(k, l) => (fun c => (k, l, c)) <$> client_at s l) (go_range m)) ↔
  m !! k = Some l ∧ store s !! l = Some c ∧ p c = true.
Proof.
  rewrite list_elem_of_In, filter_In, <- list_elem_of_In, elem_of_entries. naive_solver.
Qed.

Lemma remove_stales_clients L b s k l :
  clients (foldl (fun acc sc => remove_stale_client sc acc) (b, s) L).2 !! k = Some l ↔
  clients s !! k = Some l ∧ ∀ c, (k, l, c) ∉ L.
Proof.
  revert b s. induction L as [|[[k0 l0] c0] L IH]; intros b s; cbn [foldl].
  { split; [|naive_solver]. intros Hk. split; [done|]. intros c Hc. by apply not_elem_of_nil in Hc. }
  assert (∀ b', clients s !! k0 ≠ Some l0 →
    clients (foldl (fun acc sc => remove_stale_client sc acc) (b', s) L).2 !! k = Some l ↔
    clients s !! k = Some l ∧ ∀ c, (k, l, c) ∉ (k0, l0, c0) :: L) as Hskip.
  { intros b' Hne. rewrite IH. split; intros [Hk Hc]; (split; [done|]).
    - intros c [?|Hin]%elem_of_cons; [simplify_eq|by apply (Hc c)].
    - intros c Hin. apply (Hc c). by right. }
  unfold remove_stale_client at 2. case_bool_decide as Hk0; [|by apply Hskip].
  rewrite IH. match goal with |- context [clients ?x !! k] =>
    assert (clients x = delete k0 (clients s)) as -> by (destruct (cl_PublicAddr c0); by core_forms) end.
  rewrite lookup_delete_Some. split.
  - intros [[Hne Hk] Hc]. split; [done|]. intros c [?|Hin]%elem_of_cons; [simplify_eq|by apply (Hc c)].
  - intros [Hk Hc]. split.
    + split; [|done]. intros <-. simplify_eq. apply (Hc c0). by left.
    + intros c Hin. apply (Hc c). by right.
Qed.

(** The endpoints that removing players leaves: those of none of them. *)
Lemma remove_stales_addr L b s k l :
  (∀ k0 l0 c1 c2, (k0, l0, c1) ∈ L → (k0, l0, c2) ∈ L → c1 = c2) →
  addrMap (foldl (fun acc sc => remove_stale_client sc acc) (b, s) L).2 !! k = Some l ↔
  addrMap s !! k = Some l ∧
  ∀ k0 l0 c0 a, (k0, l0, c0) ∈ L → clients s !! k0 = Some l0 → cl_PublicAddr c0 = Some a → AddrToRateKey a ≠ k.
Proof.
  revert b s. induction L as [|[[k0 l0] c0] L IH]; intros b s Hfun; cbn [foldl].
  { split; [|naive_solver]. intros Hk. split; [done|]. intros ???? Hc. by apply not_elem_of_nil in Hc. }
  assert (∀ k0 l0 c1 c2, (k0, l0, c1) ∈ L → (k0, l0, c2) ∈ L → c1 = c2) as Hfun'.
  { intros ???? H1 H2. eapply Hfun; by right. }
  unfold remove_stale_client at 2. case_bool_decide as Hk0; rewrite IH by done.
  - match goal with |- context [clients ?x] =>
      assert (clients x = delete k0 (clients s)) as -> by (destruct (cl_PublicAddr c0); by core_forms);
      assert (addrMap x !! k = Some l ↔ addrMap s !! k = Some l ∧ ∀ a, cl_PublicAddr c0 = Some a → AddrToRateKey a ≠ k) as ->
    end.
    { destruct (cl_PublicAddr c0) as [a0|]; core_forms; [|naive_solver]. rewrite lookup_delete_Some. naive_solver. }
    split.
    + intros [[Hk Ha0] Hc]. split; [done|]. intros k1 l1 c1 a [E|Hin]%elem_of_cons Hcl Ha; [simplify_eq; by apply Ha0|].
      destruct (decide (k1 = k0)) as [->|Hne].
      * assert (l1 = l0) as -> by congruence. assert (c1 = c0) as -> by (eapply Hfun; [by right|by left]). by apply Ha0.
      * apply (Hc k1 l1 c1 a); [done| |done]. by rewrite lookup_delete_ne.
    + intros [Hk Hc]. split; [split; [done|]|].
      * intros a Ha. apply (Hc k0 l0 c0 a); [by left|done..].
      * intros k1 l1 c1 a Hin [_ Hcl]%lookup_delete_Some Ha. apply (Hc k1 l1 c1 a); [by right|done..].
  - split; intros [Hk Hc]; (split; [done|]); intros k1 l1 c1 a.
    + intros [E|Hin]%elem_of_cons Hcl Ha; [simplify_eq|by eapply Hc].
    + intros Hin. eapply Hc. by right.
Qed.

Lemma remove_auths_addr L s k l :
  addrMap (foldl (fun s sa => remove_stale_auth sa s) s L) !! k = Some l ↔
  addrMap s !! k = Some l ∧ ∀ c, (k, l, c) ∉ L.
Proof.
  revert s. induction L as [|[[k0 l0] c0] L IH]; intros s; cbn [foldl].
  { split; [|naive_solver]. intros Hk. split; [done|]. intros c Hc. by apply not_elem_of_nil in Hc. }
  rewrite IH. unfold remove_stale_auth. case_bool_decide as Hk0.
  - core_forms. rewrite lookup_delete_Some. split.
    + intros [[Hne Hk] Hc]. split; [done|]. intros c [?|Hin]%elem_of_cons; [simplify_eq|by apply (Hc c)].
    + intros [Hk Hc]. split.
      * split; [|done]. intros <-. simplify_eq. apply (Hc c0). by left.
      * intros c Hin. apply (Hc c). by right.
  - split; intros [Hk Hc]; (split; [done|]).
    + intros c [?|Hin]%elem_of_cons; [simplify_eq|by apply (Hc c)].
    + intros c Hin. apply (Hc c). by right.
Qed.

Lemma remove_stales_frame L b s :
  let s' := (foldl (fun acc sc => remove_stale_client sc acc) (b, s) L).2 in
  store s' = store s ∧ addrMap s' ⊆ addrMap s.
Proof.
  revert b s. induction L as [|[[k l] c] L IH]; intros b s; [done|]. cbn [foldl].
  unfold remove_stale_client at 2 4. case_bool_decide; [|apply IH].
  match goal with |- context [foldl _ (true, ?x)] => destruct (IH true x) as [-> Ha];
    assert (addrMap x ⊆ addrMap s) as Hx end.
  { destruct (cl_PublicAddr c); core_forms; [apply delete_subseteq|done]. }
  split; [|by etransitivity]. destruct (cl_PublicAddr c); by core_forms.
Qed.

Lemma remove_auths_frame L s :
  let s' := foldl (fun s sa => remove_stale_auth sa s) s L in
  store s' = store s ∧ clients s' = clients s.
Proof.
  revert s. induction L as [|[[k l] c] L IH]; intros s; [done|]. cbn [foldl].
  destruct (IH (remove_stale_auth (k, l, c) s)) as [-> ->].
  unfold remove_stale_auth. case_bool_decide; [|done]. by core_forms.
Qed.


(** The core after a cleanup. *)
Lemma cleanup_core w :
  let s := w_core w in
  let cs := List.filter (fun '(_, _, c) => stale_client c)
    (omap (fun '(k, l) => (fun c => (k, l, c)) <$> client_at s l) (go_range (clients s))) in
  let auths := List.filter (fun '(_, _, c) => stale_auth c)
    (omap (fun '(k, l) => (fun c => (k, l, c)) <$> client_at s l) (go_range (addrMap s))) in
  w_core (CleanupStale w).2 =
    foldl (fun s sa => remove_stale_auth sa s)
      (foldl (fun acc sc => remove_stale_client sc acc) (false, s) cs).2 auths.
Proof. cbv zeta. unfold CleanupStale. by destruct (foldl _ (false, _) _) as [[] s']. Qed.

Lemma cleanup_clients w k l :
  room_ok w →
  clients (w_core (CleanupStale w).2) !! k = Some l ↔
    ∃ c, vip_client (w_core w) k = Some (l, c) ∧ now - cl_lastSeen c ≤ 30 * Second.
Proof.
  intros [Hok _]. rewrite cleanup_core. cbv zeta. set (cs := List.filter _ _). set (auths := List.filter _ _).
  rewrite (proj2 (remove_auths_frame _ _)), remove_stales_clients. setoid_rewrite vip_client_Some. split.
  - intros [Hk Hno]. destruct (ok_clients _ _ Hok) as [_ _ Hc _].
    destruct (Hc _ _ Hk) as (c & _ & _ & Hs & _). exists c. split; [done|].
    specialize (Hno c). unfold cs in Hno. rewrite elem_of_stale in Hno.
    unfold stale_client in Hno. destruct (Z.ltb_spec (30 * Second) (now - cl_lastSeen c)); [|done].
    by destruct Hno.
  - intros (c & [Hk Hs] & Hfresh). split; [done|]. intros c' Hin. unfold cs in Hin.
    apply elem_of_stale in Hin as (_ & Hs' & Hstale). simplify_eq. unfold stale_client in Hstale.
    apply Z.ltb_lt in Hstale. lia.
Qed.

(** C34: A cleanup removes exactly the players that have been silent for more than 30
    seconds and exactly the endpoints that go with it: a player is in the room
    afterwards if and only if it was before and was heard of within 30 seconds; an
    endpoint - of a player or of a pending authentication - is mapped afterwards if and
    only if it was before, is not that of an authentication pending for more than 30
    seconds, and is not the address of a player that is removed.  No record changes. *)
Theorem cleanup_removes_exactly_the_stale w :
  let s := w_core w in
  let s' := w_core (CleanupStale w).2 in
  room_ok w →
  (∀ k l, clients s' !! k = Some l ↔
     ∃ c, vip_client s k = Some (l, c) ∧ now - cl_lastSeen c ≤ 30 * Second) ∧
  (∀ k l c, addr_client s' k = Some (l, c) ↔
     addr_client s k = Some (l, c) ∧
     (cl_auth c = authChallengeSent → now - cl_challengeAt c ≤ 30 * Second) ∧
     (∀ k0 l0 c0 a, vip_client s k0 = Some (l0, c0) → cl_PublicAddr c0 = Some a → AddrToRateKey a = k →
        now - cl_lastSeen c0 ≤ 30 * Second)) ∧
  store s' = store s.
Proof.
  cbv zeta. intros Hok. split; [intros; by apply cleanup_clients|].
  assert (store (w_core (CleanupStale w).2) = store (w_core w)) as Hst.
  { rewrite cleanup_core. cbv zeta. rewrite (proj1 (remove_auths_frame _ _)). apply remove_stales_frame. }
  split; [|done]. intros k l c. rewrite !addr_client_Some, Hst, cleanup_core. cbv zeta.
  set (cs := List.filter _ _). set (auths := List.filter _ _). rewrite remove_auths_addr, remove_stales_addr.
  2: { intros k0 l0 c1 c2 H1 H2. unfold cs in H1, H2. apply elem_of_stale in H1 as (_ & H1 & _), H2 as (_ & H2 & _). congruence. }
  unfold cs, auths. setoid_rewrite elem_of_stale. setoid_rewrite vip_client_Some. unfold stale_client, stale_auth. split.
  - intros [[[Hk Hp] Ha] Hs]. split_and!; [done..| |].
    + intros Hau. destruct (Z.le_gt_cases (now - cl_challengeAt c) (30 * Second)) as [|Hgt]; [done|].
      destruct (Ha c). rewrite bool_decide_eq_true_2 by done. by rewrite (proj2 (Z.ltb_lt _ _)) by lia.
    + intros k0 l0 c0 a [Hc0 Hs0] Hpa Ek. destruct (Z.le_gt_cases (now - cl_lastSeen c0) (30 * Second)) as [|Hgt]; [done|].
      destruct (Hp k0 l0 c0 a); [|done..]. by rewrite (proj2 (Z.ltb_lt _ _)) by lia.
  - intros ([Hk Hs] & Ha & Hp). split_and!; [done| | |done].
    + intros k0 l0 c0 a (Hc0 & Hs0 & Hst0%Z.ltb_lt) _ Hpa Ek. specialize (Hp k0 l0 c0 a ltac:(done) Hpa Ek). lia.
    + intros c' (_ & Hs' & [Hau Ht%Z.ltb_lt]%andb_true_iff). simplify_eq. apply bool_decide_eq_true in Hau.
      specialize (Ha Hau). lia.
Qed.

(** ** Departure *)



(** ** Ping *)

Lemma alter_same {A} (f : A → A) l (m : gmap nat A) : (∀ c, m !! l = Some c → f c = c) → alter f l m = m.
Proof.
  intros Hf. apply map_eq. intros i. destruct (decide (l = i)) as [<-|Hne].
  - rewrite lookup_alter_eq. destruct (m !! l) eqn:E; [|done]. cbn. by rewrite Hf.
  - by rewrite lookup_alter_ne.
Qed.

Lemma upd_fold_same (f : Client → Client) locs s :
  (∀ l c, l ∈ locs → store s !! l = Some c → f c = c) →
  foldl (fun s l => upd_client l f s) s locs = s.
Proof.
  intros Hf. induction locs as [|l locs IH]; [done|]. cbn [foldl].
  assert (upd_client l f s = s) as ->.
  { unfold upd_client, set_store. rewrite alter_same; [by destruct s|]. intros c. apply Hf. by left. }
  apply IH. intros l' c Hin. apply Hf. by right.
Qed.

(** What the sending half of a tick does to the records. *)
Definition ping_send (e : list byte) (w : World) (lc : nat * Client) : World :=
  let '(l, c) := lc in
  match cl_PublicAddr c with
  | None => w
  | Some a => sendCheckedRaw e a (on_core (upd_client l (mark_ping_sent now)) w)
  end.

Lemma ping_send_core e w l c :
  w_core (ping_send e w (l, c)) =
  match cl_PublicAddr c with None => w_core w | Some _ => upd_client l (mark_ping_sent now) (w_core w) end.
Proof.
  unfold ping_send. destruct (cl_PublicAddr c) as [a|]; [|done].
  by destruct (keeps_sendCheckedRaw e a (on_core (upd_client l (mark_ping_sent now)) w)) as (_ & -> & _).
Qed.

Lemma ping_sends_history e L w l c' :
  store (w_core (foldl (ping_send e) w L)) !! l = Some c' →
  ∃ c, store (w_core w) !! l = Some c ∧ cl_pingHistory c' = cl_pingHistory c ∧ cl_pingIdx c' = cl_pingIdx c ∧
    (c' = c ∨ cl_lastPingSent c' = Some now).
Proof.
  revert w. induction L as [|[l0 c0] L IH]; intros w; cbn [foldl].
  { intros Hl. exists c'. split_and!; try done. by left. }
  intros (c1 & H1 & Hh & Hi & Hs)%IH. rewrite ping_send_core in H1.
  destruct (cl_PublicAddr c0); [|by exists c1]. cbn in H1.
  destruct (decide (l0 = l)) as [->|Hne].
  - rewrite lookup_alter_eq in H1. destruct (store (w_core w) !! l) as [c|]; [|done]. cbn in H1. simplify_eq.
    exists c. rewrite Hh, Hi. split_and!; try done. right. by destruct Hs as [->|].
  - rewrite lookup_alter_ne in H1 by done. by exists c1.
Qed.

Lemma ping_sends_marked e L w l c a c' :
  (l, c) ∈ L → cl_PublicAddr c = Some a →
  store (w_core (foldl (ping_send e) w L)) !! l = Some c' → cl_lastPingSent c' = Some now.
Proof.
  revert w. induction L as [|[l0 c0] L IH]; intros w; [by intros ?%not_elem_of_nil|]. cbn [foldl].
  intros [?|Hin]%elem_of_cons Hp; [simplify_eq|by apply IH].
  intros (c1 & H1 & _ & _ & [->|Hs])%ping_sends_history; [|done].
  rewrite ping_send_core, Hp in H1. cbn in H1. rewrite lookup_alter_eq in H1.
  destruct (store (w_core w) !! l0); [|done]. by simplify_eq/=.
Qed.

(** A missed ping is never recorded.  When the previous ping of every player is
    at most 10 seconds old - the ticker runs every 5 seconds - a tick leaves every
    ping history as it is, and makes the previous ping of every reachable player
    this tick's: so the next tick, 5 seconds later, finds the same situation.
    The loss rate, computed from zero entries of the history, stays at 0 for a
    player that answers no ping. *)
Theorem missed_pings_never_recorded w :
  (∀ k l c t, vip_client (w_core w) k = Some (l, c) → cl_lastPingSent c = Some t →
     now - t ≤ 2 * pingInterval) →
  let s' := w_core (pingTick w) in
  (∀ l c', client_at s' l = Some c' → ∃ c, client_at (w_core w) l = Some c ∧
     cl_pingHistory c' = cl_pingHistory c ∧ cl_pingIdx c' = cl_pingIdx c) ∧
  (∀ k l c c', vip_client (w_core w) k = Some (l, c) → cl_PublicAddr c ≠ None →
     client_at s' l = Some c' → cl_lastPingSent c' = Some now).
Proof.
  intros Hrecent. cbv zeta. unfold pingTick.
  destruct (Nat.eqb_spec (size (clients (w_core w))) 0) as [E|_].
  { split; [by intros l c' Hl; exists c'|]. intros k l c c' [Hk _]%vip_client_Some.
    apply map_size_empty_inv in E. by rewrite E in Hk. }
  set (miss := fun c : Client => match cl_lastPingSent c with Some t => _ | None => c end).
  assert (on_core (fun s => foldl (fun s l => upd_client l miss s) s
            (map fst (client_list (w_core w)))) w = w) as ->.
  { unfold on_core, on_room, set_core. change (r_core (w_room w)) with (w_core w).
    rewrite upd_fold_same; [by destruct w as [[] ? ?]|].
    intros l c ([l' c0] & -> & [[k Hk] Hs]%elem_of_client_list)%list_elem_of_fmap Hc.
    cbn [fst] in Hc. assert (c0 = c) as -> by congruence. clear Hc. unfold miss. destruct (cl_lastPingSent c) as [t|] eqn:Et; [|done].
    destruct (Z.ltb_spec (2 * pingInterval) (now - t)); [|done].
    assert (now - t ≤ 2 * pingInterval); [|lia]. apply (Hrecent k l' c); [|done]. by apply vip_client_Some. }
  set (e := EncodeChecked _ _).
  change (foldl _ w (client_list (w_core w))) with (foldl (ping_send e) w (client_list (w_core w))).
  split.
  - intros l c' (c & ? & ? & ? & _)%ping_sends_history. by exists c.
  - intros k l c c' [Hk Hs]%vip_client_Some Hp Hc'.
    destruct (cl_PublicAddr c) as [a|] eqn:Ea; [|done].
    eapply ping_sends_marked; [|exact Ea|exact Hc']. apply elem_of_client_list. eauto.
Qed.

(** ** Registration in an open room *)

Lemma core_eta_conn s m : m = ipConnCount s → set_ipConnCount m s = s.
Proof. intros ->. by destruct s. Qed.

(** count taken and given back leaves the table as it was. *)
Lemma dec_inc_conn cfg m k :
  conn_part cfg m → dec_conn k (<[k := default 0 (m !! k) + 1]> m) = m.
Proof.
  intros Hm. unfold dec_conn. rewrite lookup_insert_eq. destruct (m !! k) as [n|] eqn:E; cbn [default from_option id].
  - apply Hm in E as Hn. destruct (Z.ltb_spec 1 (n + 1)); [|lia].
    rewrite insert_insert_eq. by apply insert_id; rewrite E; f_equal; lia.
  - destruct (Z.ltb_spec 1 (0 + 1)); [lia|]. by apply delete_insert_id.
Qed.

Lemma restored_none u r from cfg s :
  core_ok cfg s → (resolveRestoredClient u r from cfg s).1 = None →
  (resolveRestoredClient u r from cfg s).2 = s.
Proof.
  intros Hok. unfold resolveRestoredClient. destruct (_ <=? _); [done|].
  destruct (first_such _ _) as [[l c]|]; [done|]. intros _. cbn [snd]. core_forms.
  destruct s; cbn in *. f_equal. apply (dec_inc_conn cfg). apply (ok_conn _ _ Hok).
Qed.

Lemma announce_core vip from w : w_core (announce vip from w) = w_core w.
Proof. by destruct (keeps_announce vip from w) as (_ & -> & _). Qed.

Lemma announce_dirty vip from w : w_dirty (announce vip from w) = true.
Proof.
  unfold announce, sendPeerInfoBroadcast. destruct (size _ =? 0)%nat; [done|].
  assert (∀ w, w_dirty (getEncodedPeerInfo w).2 = w_dirty w) as He.
  { intros w'. unfold getEncodedPeerInfo. repeat case_match; done. }
  specialize (He (markDirty (invalidatePeerInfoCache (welcome vip from w)))).
  destruct (getEncodedPeerInfo _) as [e w']. cbn in He. revert w' He.
  induction (public_addrs _) as [|a l IH]; intros w' Hw'; [done|]. cbn [foldl]. apply IH.
  unfold sendCheckedRawBypass. by destruct (sendBypass _ _ _).
Qed.

(** What a registration checks before it counts a connection. *)
Definition well_formed (reg : RegisterPayload) : Prop :=
  IsCompatible (rp_Version reg) AppVersion = true ∧
  1 ≤ RuneCountInString (rp_Username reg) ≤ maxUsernameLen ∧
  (1 ≤ length (rp_RoomID reg) ≤ maxRoomIDLen)%nat.

Lemma register_reaches_new payload reg from w :
  room_ok w → UnmarshalRegister payload = Ok reg → well_formed reg →
  (checkRegRate (w_room w) from).1 = true →
  addr_client (w_core w) (AddrToRateKey from) = None →
  (resolveRestoredClient (rp_Username reg) (rp_RoomID reg) from (w_cfg w) (w_core w)).1 = None →
  ∃ w', handleRegister payload from w = registerNew reg from w' ∧
    w_cfg w' = w_cfg w ∧ w_core w' = w_core w.
Proof.
  intros [Hok _] Hreg (Hcomp & [Hn1 Hn2] & [Hr1 Hr2]) Hrate Hnone Hrest.
  unfold handleRegister. rewrite Hreg, Hcomp. cbn [negb].
  destruct (Z.eqb_spec (RuneCountInString (rp_Username reg)) 0); [lia|].
  destruct (Z.ltb_spec maxUsernameLen (RuneCountInString (rp_Username reg))); [lia|].
  destruct (Nat.eqb_spec (length (rp_RoomID reg)) 0); [lia|].
  destruct (Nat.ltb_spec maxRoomIDLen (length (rp_RoomID reg))); [lia|]. cbn [orb].
  pose proof (keeps_regRate w from) as (Hcfg & Hcore & _).
  destruct (checkRegRate (w_room w) from) as [ok r]. cbn [fst snd] in *. rewrite Hrate. cbn [negb].
  set (w1 := on_room (fun _ => r) w) in *. unfold registerLocked. cbv zeta.
  assert (w_core (on_core (dropStaleChallenge (AddrToRateKey from)) w1) = w_core w) as E.
  { change (dropStaleChallenge (AddrToRateKey from) (w_core w1) = w_core w). rewrite Hcore.
    unfold dropStaleChallenge. by rewrite Hnone. }
  change (w_cfg (on_core (dropStaleChallenge (AddrToRateKey from)) w1)) with (w_cfg w1).
  rewrite E, Hnone, Hcfg. pose proof (restored_none _ _ _ _ _ Hok Hrest) as Hsame.
  destruct (resolveRestoredClient _ _ _ _ _) as [m s]. cbn [fst snd] in *. subst m s.
  eexists. split; [reflexivity|]. split; [exact Hcfg|done].
Qed.

Lemma doRegister_spec reg from w vip b :
  nextAvailableIP (w_cfg w) (w_core w) = Some vip → rand_bytes = Some b →
  clients (w_core w) !! IPKey vip = None →
  ∃ w' l c, doRegisterClient reg from w = (Some vip, w') ∧
    vip_client (w_core w') (IPKey vip) = Some (l, c) ∧
    addr_client (w_core w') (AddrToRateKey from) = Some (l, c) ∧
    cl_Username c = rp_Username reg ∧ cl_authRoomID c = rp_RoomID reg ∧
    cl_VirtualIP c = vip ∧ cl_PublicAddr c = Some from ∧ cl_auth c = authNone ∧
    cl_SessionToken c = copy_into (zeros 16) b ∧ cl_lastSeen c = now ∧
    ipConnCount (w_core w') = ipConnCount (w_core w) ∧
    size (clients (w_core w')) = S (size (clients (w_core w))).
Proof.
  intros Hvip Hrand Hfree. unfold doRegisterClient. rewrite Hvip. unfold GenerateSessionToken.
  rewrite Hrand. cbn [fmap option_fmap option_map]. set (c := set_lastSeen now _).
  rewrite on_core_twice. eexists _, (next_loc (w_core w)), c. split; [reflexivity|].
  match goal with |- context [on_stats ?f (on_core ?g w)] =>
    change (w_core (on_stats f (on_core g w))) with (g (w_core w)) end.
  cbn beta. unfold alloc. core_forms. unfold vip_client, addr_client, client_at.
  cbn [clients store addrMap ipConnCount]. rewrite !lookup_insert_eq. cbn [mbind option_bind].
  rewrite lookup_insert_eq, map_size_insert_None by done. done.
Qed.

(** C37: A well-formed registration (compatible version, 1 to maxUsernameLen characters of
    name, a room name of allowed length) in an open room is accepted when the rate limit
    of its address allows it, its endpoint is unknown to the room, no restored player
    of this name waits, its address has fewer connections than the limit, the room has
    a place and the name is free in it, fewer than 253 players are in and random bytes
    are available: the client gets the least host address that is no player's, is found
    under this address and under the endpoint it registered from, with a fresh session
    token; one more connection is counted for its address, and the room is marked for
    saving. *)
Theorem open_room_admits payload reg from w b :
  room_ok w → UnmarshalRegister payload = Ok reg → well_formed reg →
  (checkRegRate (w_room w) from).1 = true →
  addr_client (w_core w) (AddrToRateKey from) = None →
  (resolveRestoredClient (rp_Username reg) (rp_RoomID reg) from (w_cfg w) (w_core w)).1 = None →
  conn_count (w_core w) (addrToConnIPKey from) < r_maxPerIP (w_cfg w) →
  checkCapacityAndDuplicate (w_cfg w) (w_core w) (rp_Username reg) (rp_RoomID reg) = checkOK →
  r_roomPass (w_cfg w) = [] → (size (clients (w_core w)) < 253)%nat → rand_bytes = Some b →
  let w' := handleRegister payload from w in
  ∃ o vip l c,
    (* the least free host *)
    room_vip (w_cfg w) o = Some vip ∧ 2 ≤ b2z o ≤ 254 ∧ clients (w_core w) !! IPKey vip = None ∧
    (∀ o' vip', 2 ≤ b2z o' < b2z o → room_vip (w_cfg w) o' = Some vip' → is_Some (clients (w_core w) !! IPKey vip')) ∧
    (* its client *)
    vip_client (w_core w') (IPKey vip) = Some (l, c) ∧
    addr_client (w_core w') (AddrToRateKey from) = Some (l, c) ∧
    cl_Username c = rp_Username reg ∧ cl_authRoomID c = rp_RoomID reg ∧
    cl_VirtualIP c = vip ∧ cl_PublicAddr c = Some from ∧ cl_auth c = authNone ∧
    cl_SessionToken c = copy_into (zeros 16) b ∧ cl_lastSeen c = now ∧
    conn_count (w_core w') (addrToConnIPKey from) = conn_count (w_core w) (addrToConnIPKey from) + 1 ∧
    size (clients (w_core w')) = S (size (clients (w_core w))) ∧ w_dirty w' = true.
Proof.
  intros Hok Hreg Hwf Hrate Hnone Hrest Hconn Hck Hpass Hfew Hrand. cbv zeta.
  destruct (register_reaches_new payload reg from w Hok Hreg Hwf Hrate Hnone Hrest)
    as (w1 & -> & Hcfg & Hcore). destruct Hok as [Hok _].
  destruct (nextAvailableIP (w_cfg w) (w_core w)) as [vip|] eqn:Hvip.
  2: { apply (no_vip_full _ _ Hok) in Hvip. lia. }
  destruct (next_vip_least _ _ _ Hok Hvip) as (o & Hv & Ho & Hfree & Hleast). exists o, vip.
  unfold registerNew. rewrite Hcfg, Hcore.
  destruct (Z.leb_spec (r_maxPerIP (w_cfg w)) (conn_count (w_core w) (addrToConnIPKey from))); [lia|].
  set (w2 := on_core _ w1). change (w_cfg w2) with (w_cfg w1). rewrite Hcfg.
  assert (w_core w2 = incrementIPConnCount (addrToConnIPKey from) (w_core w)) as Hcore2
    by (unfold w2; by rewrite <- Hcore).
  assert (checkCapacityAndDuplicate (w_cfg w) (w_core w2) (rp_Username reg) (rp_RoomID reg) = checkOK) as ->
    by (by rewrite Hcore2).
  rewrite Hpass.
  destruct (doRegister_spec reg from w2 vip b) as (w3 & l & c & -> & Hspec); [|done|by rewrite Hcore2|].
  { change (w_cfg w2) with (w_cfg w1). by rewrite Hcfg, Hcore2. }
  destruct Hspec as (? & ? & ? & ? & ? & ? & ? & ? & ? & Hcn & Hsz). exists l, c.
  rewrite announce_core, announce_dirty. unfold conn_count. rewrite Hcn, Hsz, Hcore2.
  split_and!; try done; try lia. unfold incrementIPConnCount. core_forms. by rewrite lookup_insert_eq.
Qed.
End life.

(** *** Witnesses *)

Lemma ex_both_ok' : room_ok ex_both.
Proof. apply (reachable_ok (ex_config []) ex_both (ex_ipv4 []) ex_reachable). Defined.

Definition client_of (l : nat) (w : World) : Client :=
  default (new_client [] [] None authNone [] 0 [] 0) (store (w_core w) !! l).

(** At 31.5 s only Alice, last seen at 1 s, is stale. *)
Definition ex_late : Env := ex_env 31500000000 x03.

Lemma cleanup_removes_exactly_the_stale_witness :
  clients (w_core (@CleanupStale ex_late _ ex_both).2) !! IPKey (ex_vip x03) = Some 1%nat ∧
  clients (w_core (@CleanupStale ex_late _ ex_both).2) !! IPKey (ex_vip x02) = None.
Proof.
  destruct (@cleanup_removes_exactly_the_stale ex_late _ ex_both ex_both_ok') as (H & _ & _). split.
  - apply H. exists (client_of 1 ex_both). vm_compute. split; [reflexivity|discriminate].
  - vm_compute. reflexivity.
Defined.


(** The ticks at 5 s and 10 s. *)
Definition ex_tick1 : World := @pingTick (ex_env (5 * Second) x04) _ ex_both.
Definition ex_tick2 : World := @pingTick (ex_env (10 * Second) x04) _ ex_tick1.

Lemma ex_tick1_ok : room_ok ex_tick1.
Proof. unfold ex_tick1. exact (proj2 (@pres_pingTick (ex_env (5 * Second) x04) _ ex_both) ex_both_ok'). Qed.

Lemma missed_pings_never_recorded_witness :
  ∃ c, client_at (w_core ex_tick1) 0 = Some c ∧
    cl_pingIdx (client_of 0 ex_tick2) = cl_pingIdx c ∧ cl_lastPingSent c = Some (5 * Second).
Proof.
  destruct (@missed_pings_never_recorded (ex_env (10 * Second) x04) _ ex_tick1) as [H _].
  - intros k l c t [_ Hl]%vip_client_Some Ht.
    assert (l = 0%nat ∨ l = 1%nat) as Hl01.
    { pose proof (ok_fresh _ _ (proj1 ex_tick1_ok) l (mk_is_Some _ _ Hl)) as Hlt.
      assert (next_loc (w_core ex_tick1) = 2%nat) as E by (vm_compute; reflexivity). lia. }
    destruct Hl01 as [->| ->]; vm_compute in Hl; injection Hl as <-; vm_compute in Ht; injection Ht as <-;
      vm_compute; discriminate.
  - destruct (H 0%nat (client_of 0 ex_tick2)) as (c & Hc & _ & Hi); [vm_compute; reflexivity|].
    exists c. split; [exact Hc|]. split; [exact Hi|]. vm_compute in Hc. by injection Hc as <-.
Defined.

Lemma open_room_admits_witness :
  let reg := mkRegister (str "lan") (str "carol") AppVersion in
  ∃ vip l c, clients (w_core ex_both) !! IPKey vip = None ∧
    vip_client (w_core (@handleRegister ex_late _ (RegisterPayload_Marshal reg) (ex_addr x05) ex_both)) (IPKey vip)
    = Some (l, c) ∧ cl_Username c = str "carol".
Proof.
  cbv zeta.
  destruct (@open_room_admits ex_late _ (RegisterPayload_Marshal (mkRegister (str "lan") (str "carol") AppVersion))
    (mkRegister (str "lan") (str "carol") AppVersion) (ex_addr x05) ex_both (replicate 16 x03)
    ex_both_ok') as (o & vip & l & c & _ & _ & Hfree & _ & Hv & _ & Hu & _); try (vm_compute; reflexivity).
  - split; [vm_compute; reflexivity|]. split; [split; vm_compute; discriminate|]. vm_compute. lia.
  - vm_compute. lia.
  - exists vip, l, c. split; [exact Hfree|]. split; [exact Hv|exact Hu].
Defined.
