(* ===== verification/RoomAuthFlow.v ===== *)
(** * RoomAuthFlow: what the authentication flow leaves behind

    Branches of handleRegister and handleAuthResponse (src/internal/server/
    room_auth.go) that leave the room's tables in a state their comments do not
    mean: each is stated of any room, and reached by a concrete one. *)

From S2P Require Import Prelude GoNet Crc32 Protocol Messages MessagesData MessagesPeer NetUtil RateLimit Float64 Bandwidth SendQueue Sha256 Auth I18n Client Room RoomHandlers RoomIP RoomInv RoomSafe RoomExample RoomSpec RoomEntry RoomLife.

Section auth_flow.
Context `{Env} `{MapRange}.

(** No client waits for authentication under these names. *)
Definition none_pending (s : Core) (resp : AuthResponsePayload) : Prop :=
  ∀ k l c, addr_client s k = Some (l, c) → cl_auth c = authChallengeSent →
    cl_authRoomID c = ar_RoomID resp → cl_Username c ≠ ar_Username resp.

Lemma findPending_direct k resp s l c :
  addr_client s k = Some (l, c) → (cl_auth c = authChallengeSent ∨ none_pending s resp) →
  findPending k resp s = (Some (l, c), None).
Proof.
  intros Ha Hc. unfold findPending. rewrite Ha. case_bool_decide as Hp; [done|].
  destruct Hc as [?|Hno]; [done|]. destruct (first_such _ _) as [[[k' l'] c']|] eqn:E; [|done].
  exfalso. apply first_such_Some in E as [[Hk Hs]%elem_of_entries Hb].
  repeat setoid_rewrite andb_true_iff in Hb. rewrite !bool_decide_eq_true in Hb.
  destruct Hb as [[Hauth Hroom] Huser]. eapply (Hno k' l' c'); [by apply addr_client_Some|done..].
Qed.

(** An AuthResponse that comes twice - the datagram is duplicated, or the
    client repeats it - cuts a registered player off.  Whatever code it
    carries, the second one unmaps the player's endpoint and gives back its
    connection count, while the player keeps its virtual address: the player's
    packets are ignored until it is dropped as stale. *)
Theorem repeated_response_unmaps_player payload resp from w l c :
  UnmarshalAuthResponse payload = Ok resp → length (ar_HMAC resp) = HMACSize →
  addr_client (w_core w) (AddrToRateKey from) = Some (l, c) → cl_auth c = authNone →
  none_pending (w_core w) resp →
  let s' := w_core (handleAuthResponse payload from w) in
  addr_client s' (AddrToRateKey from) = None ∧ clients s' = clients (w_core w) ∧
  ipBitmap s' = ipBitmap (w_core w) ∧
  ipConnCount s' = rel_conn (cl_PublicAddr c) (ipConnCount (w_core w)) ∧
  pendingAuth s' = dec_pending (pendingAuth (w_core w)).
Proof.
  intros Hu Hl Ha Hauth Hno. cbv zeta. unfold handleAuthResponse.
  rewrite Hu, Hl, Nat.eqb_refl, (findPending_direct _ _ _ _ _ Ha (or_intror Hno)).
  cbn [negb]. rewrite (bool_decide_eq_false_2 (cl_auth c = _)) by congruence. cbn [negb default from_option id].
  set (f := cleanupPendingAuth _ _ _ c).
  assert (w_core (sendKick from (KickAuthAbnormal T) (on_core f w)) = f (w_core w)) as ->.
  { by destruct (keeps_kick from (KickAuthAbnormal T) (on_core f w)) as (_ & -> & _). }
  unfold f, cleanupPendingAuth. rewrite bool_decide_eq_false_2 by (intros Hx; by apply Hx). core_forms.
  split_and!; try done. unfold addr_client. core_forms. by rewrite lookup_delete_eq.
Qed.

(** A client whose code is right but who finds the room full, or its name
    taken, stays a pending client: its endpoint stays mapped and its place among
    the pending authentications taken, while its connection is given back - and
    given back again by every further response it sends. *)
Theorem refused_response_stays_pending payload resp from w l c key :
  room_ok w → UnmarshalAuthResponse payload = Ok resp → length (ar_HMAC resp) = HMACSize →
  addr_client (w_core w) (AddrToRateKey from) = Some (l, c) → cl_auth c = authChallengeSent →
  now - cl_challengeAt c ≤ 15 * Second →
  DeriveKey (r_roomPass (w_cfg w)) (cl_authRoomID c) = Some key →
  VerifyHMAC (Some key) (ar_HMAC resp) (cl_challenge c) (ar_RoomID resp) (ar_Username resp)
    (cl_PublicAddr c) = true →
  checkCapacityAndDuplicate (w_cfg w) (w_core w) (ar_Username resp) (ar_RoomID resp) ≠ checkOK →
  let s' := w_core (handleAuthResponse payload from w) in
  addr_client s' (AddrToRateKey from) = Some (l, c) ∧ pendingAuth s' = pendingAuth (w_core w) ∧
  ipConnCount s' = rel_conn (cl_PublicAddr c) (ipConnCount (w_core w)).
Proof.
  intros [_ Hkeys] Hu Hl Ha Hauth Htime Hkey Hv Hck. cbv zeta. unfold handleAuthResponse.
  rewrite Hu, Hl, Nat.eqb_refl, (findPending_direct _ _ _ _ _ Ha (or_introl Hauth)).
  cbn [negb]. rewrite bool_decide_eq_true_2 by done. cbn [negb].
  destruct (Z.ltb_spec (15 * Second) (now - cl_challengeAt c)); [lia|].
  pose proof (getAuthKey_spec w (cl_authRoomID c) Hkeys) as Hk. rewrite Hkey in Hk.
  destruct (pres_authKey w (cl_authRoomID c)) as [[Hcfg _] Hcore].
  destruct (getAuthKey _ _) as [k r]. cbn [fst snd] in *. subst k. set (w1 := on_room _ w) in *.
  rewrite Hv. cbn [negb]. rewrite Hcfg, Hcore.
  assert (∀ reason, w_core (sendKick from reason (on_core (release_addr (cl_PublicAddr c)) w1))
                    = release_addr (cl_PublicAddr c) (w_core w)) as E.
  { intros reason. destruct (keeps_kick from reason (on_core (release_addr (cl_PublicAddr c)) w1)) as (_ & -> & _).
    by rewrite <- Hcore. }
  assert (∀ s', s' = release_addr (cl_PublicAddr c) (w_core w) →
    addr_client s' (AddrToRateKey from) = Some (l, c) ∧ pendingAuth s' = pendingAuth (w_core w) ∧
    ipConnCount s' = rel_conn (cl_PublicAddr c) (ipConnCount (w_core w))) as Hgoal.
  { intros s' ->. core_forms. by split_and!. }
  destruct (checkCapacityAndDuplicate _ _ _ _); [done|apply Hgoal, E..].
Qed.

(** In an open room whose addresses are exhausted, every refused registration
    leaves one connection counted for its IP that nothing gives back: after
    [maxPerIP] refusals the IP is refused for good. *)
Theorem exhausted_registration_leaks payload reg from w :
  room_ok w → UnmarshalRegister payload = Ok reg → well_formed reg →
  (checkRegRate (w_room w) from).1 = true →
  addr_client (w_core w) (AddrToRateKey from) = None →
  (resolveRestoredClient (rp_Username reg) (rp_RoomID reg) from (w_cfg w) (w_core w)).1 = None →
  conn_count (w_core w) (addrToConnIPKey from) < r_maxPerIP (w_cfg w) →
  checkCapacityAndDuplicate (w_cfg w) (w_core w) (rp_Username reg) (rp_RoomID reg) = checkOK →
  r_roomPass (w_cfg w) = [] → nextAvailableIP (w_cfg w) (w_core w) = None →
  w_core (handleRegister payload from w) = incrementIPConnCount (addrToConnIPKey from) (w_core w).
Proof.
  intros Hok Hreg Hwf Hrate Hnone Hrest Hconn Hck Hpass Hfull.
  destruct (register_reaches_new payload reg from w Hok Hreg Hwf Hrate Hnone Hrest)
    as (w1 & -> & Hcfg & Hcore).
  unfold registerNew. rewrite Hcfg, Hcore.
  destruct (Z.leb_spec (r_maxPerIP (w_cfg w)) (conn_count (w_core w) (addrToConnIPKey from))); [lia|].
  set (w2 := on_core _ w1). change (w_cfg w2) with (w_cfg w1). rewrite Hcfg.
  assert (w_core w2 = incrementIPConnCount (addrToConnIPKey from) (w_core w)) as Hcore2
    by (unfold w2; by rewrite <- Hcore).
  assert (checkCapacityAndDuplicate (w_cfg w) (w_core w2) (rp_Username reg) (rp_RoomID reg) = checkOK) as ->
    by (by rewrite Hcore2).
  rewrite Hpass. unfold doRegisterClient. change (w_cfg w2) with (w_cfg w1). rewrite Hcfg, Hcore2.
  assert (nextAvailableIP (w_cfg w) (incrementIPConnCount (addrToConnIPKey from) (w_core w)) = None) as ->
    by done.
  by destruct (keeps_kick from (KickIPExhausted T) w2) as (_ & -> & _).
Qed.
End auth_flow.

(** *** Witnesses *)

Lemma ex_both_clients l c : store (w_core ex_both) !! l = Some c → cl_auth c = authNone.
Proof.
  intros Hl. pose proof (ok_fresh _ _ (proj1 ex_both_ok') l (mk_is_Some _ _ Hl)) as Hlt.
  assert (next_loc (w_core ex_both) = 2%nat) as E by (vm_compute; reflexivity).
  assert (l = 0%nat ∨ l = 1%nat) as [-> | ->] by lia; vm_compute in Hl; by injection Hl as <-.
Qed.

Definition ex_answer (name : string) (code : list byte) : AuthResponsePayload :=
  mkAuthResponse (str "lan") (str name) code.

Lemma repeated_response_unmaps_player_witness :
  let resp := ex_answer "alice" (zeros 32) in
  addr_client (w_core (@handleAuthResponse ex_late _ (AuthResponsePayload_Marshal resp) (ex_addr x01) ex_both))
    (AddrToRateKey (ex_addr x01)) = None.
Proof.
  cbv zeta.
  refine (proj1 (@repeated_response_unmaps_player ex_late _
    (AuthResponsePayload_Marshal (ex_answer "alice" (zeros 32))) (ex_answer "alice" (zeros 32))
    (ex_addr x01) ex_both 0 (client_of 0 ex_both) _ _ _ _ _)).
  - vm_compute. reflexivity.
  - reflexivity.
  - vm_compute. reflexivity.
  - vm_compute. reflexivity.
  - intros k l c [_ Hs]%addr_client_Some Ha. apply ex_both_clients in Hs. congruence.
Defined.

Definition ex_code_for (name : string) (last : byte) : list byte :=
  HMAC_SHA256 (default [] (DeriveKey ex_pass (str "lan")))
    (transcript (replicate 16 last) (str "lan") (str name) (Some (UDPAddr_String (ex_addr last)))).
(** ** Names *)

Definition ex_event (name : string) (code : list byte) (last : byte) : RoomEvent :=
  EvPacket TypeAuthResponse (AuthResponsePayload_Marshal (ex_answer name code)) (ex_addr last).

(** Two clients ask for the name "alice"; the first enters, and the second answers
    its challenge under the name "eve". *)
Definition ex_twins : World :=
  @room_step ex_env2 _ (ex_event "eve" (ex_code_for "eve" x02) x02)
    (@room_step ex_env2 _ (ex_event "alice" (ex_code_for "alice" x01) x01)
      (ex_register "alice" x02 Second (ex_register "alice" x01 Second (ex_world0 ex_pass)))).

(** The duplicate-name check of an authentication looks at the name in the
    response, the registration uses the name of the Register packet: a client
    that answers its challenge under another name enters a room in which its
    name is taken, and two players of a reachable room have the same name. *)
Theorem players_can_share_a_name :
  reachable (ex_config ex_pass) ex_twins ∧
  ∃ l1 c1 l2 c2, l1 ≠ l2 ∧
    vip_client (w_core ex_twins) (IPKey (ex_vip x02)) = Some (l1, c1) ∧
    vip_client (w_core ex_twins) (IPKey (ex_vip x03)) = Some (l2, c2) ∧
    cl_Username c1 = str "alice" ∧ cl_Username c2 = str "alice" ∧ cl_authRoomID c1 = cl_authRoomID c2.
Proof.
  split; [repeat apply reach_step; apply ex_reachable0|].
  exists 2%nat, (client_of 2 ex_twins), 3%nat, (client_of 3 ex_twins).
  split; [done|]. vm_compute. done.
Qed.
