(* ===== verification/Persist.v ===== *)
(** * Persist: the room on disk

    src/internal/server/persist.go and the snapshot of room_status.go.  The state file is
    the value its JSON text stands for ([RoomState]); times are nanoseconds. *)

From S2P Require Import Prelude GoNet Crc32 Protocol Messages MessagesData MessagesPeer NetUtil RateLimit Float64 Bandwidth SendQueue Sha256 Auth I18n Client Room RoomHandlers RoomIP RoomInv RoomSafe RoomExample RoomSpec RoomEntry RoomLife.

Definition stateVersion : Z := 1.
Definition reconnectGracePeriod : Z := 60 * Second.

Record ClientEntry := mkClientEntry { ce_Username : list byte; ce_VirtualIP : list byte; ce_LastSeen : Z }.

Record RoomState := mkRoomState {
  rs_Version : Z; rs_Subnet : list byte; rs_UpdatedAt : Z; rs_IPBitmap : list Z;
  rs_Clients : gmap (list byte) ClientEntry }.

Section persist.
Context `{Env} `{MapRange}.

(** The entry of one client, under the text of its address. *)
Definition client_entry (c : Client) : ClientEntry :=
  mkClientEntry (cl_Username c) (IP_String (cl_VirtualIP c)) (cl_lastSeen c).

(** Room.SnapshotState *)
Definition SnapshotState (r : Room) : RoomState :=
  let entries := foldl (fun m '(_, c) =>
      if bool_decide (cl_auth c = authChallengeSent) then m
      else <[IP_String (cl_VirtualIP c) := client_entry c]> m)
    ∅ (client_list (r_core r)) in
  mkRoomState stateVersion (IPNet_String (r_subnet (r_cfg r))) now (ipBitmap (r_core r)) entries.

(** The placeholder of a player that has not come back yet. *)
Definition placeholder (e : ClientEntry) (ip : IP) : Client :=
  set_lastSeen (ce_LastSeen e) (new_client (ce_Username e) ip None authNone [] 0 (str "default") 0).

(** One iteration of the loop of loadState. *)
Definition restore_entry (updatedAt : Z) (cfg : RoomCfg) (s : Core) (e : ClientEntry) : Core :=
  match ParseIP (ce_VirtualIP e) with
  | None => s
  | Some ip =>
      match To4 ip with
      | None => s
      | Some ip4 =>
          if (30 * Second <? now - ce_LastSeen e) && (reconnectGracePeriod <? now - updatedAt) then s
          else if negb (Contains (r_subnet cfg) ip) then s
          else
            let octet := octet_of ip4 in
            if (octet <? 2) || (octet =? 255) then s
            else if negb (Z.land (default 0 (ipBitmap s !! Z.to_nat (octet / 64)))
                            (Z.shiftl 1 (octet mod 64)) =? 0) then s
            else
              let s := markIPUsed ip s in
              let '(l, s) := alloc (placeholder e ip) s in
              set_clients (<[IPKey ip := l]> (clients s)) s
      end
  end.

(** Server.loadState, after the file is read and parsed. *)
Definition loadState (state : RoomState) (r : Room) : Room :=
  if negb (rs_Version state =? stateVersion) then r
  else if negb (bool_decide (rs_Subnet state = IPNet_String (r_subnet (r_cfg r)))) then r
  else set_core (foldl (restore_entry (rs_UpdatedAt state) (r_cfg r)) (r_core r)
                   (map snd (go_range (rs_Clients state)))) r.

(** ** The addresses that are restored *)

Lemma Contains24 n b0 b1 b2 b3 ip a0 a1 a2 a3 :
  net_Mask n = mask24 → To4 (net_IP n) = Some [b0; b1; b2; b3] → To4 ip = Some [a0; a1; a2; a3] →
  Contains n ip = bool_decide ([b0; b1; b2] = [a0; a1; a2]).
Proof.
  intros Hm Hn Ha. unfold Contains. rewrite Hm, Hn, Ha. cbn. unfold and_mask. cbn.
  rewrite !byte_and_xff, !byte_and_x00. apply bool_decide_ext. split; intros [= -> -> ->]; done.
Qed.

Lemma land_bit w i : 0 ≤ i → (Z.land w (Z.shiftl 1 i) =? 0) = negb (Z.testbit w i).
Proof.
  intros Hi. rewrite Z.shiftl_1_l. destruct (Z.testbit w i) eqn:E; cbn [negb].
  - apply Z.eqb_neq. intros H0'. assert (Z.testbit (Z.land w (2 ^ i)) i = false) as Hb
      by by rewrite H0', Z.bits_0.
    by rewrite Z.land_spec, E, Z.pow2_bits_true in Hb.
  - apply Z.eqb_eq, Z.bits_inj'. intros j Hj. rewrite Z.bits_0, Z.land_spec, Z.pow2_bits_eqb by done.
    destruct (Z.eqb_spec i j) as [->|]; [by rewrite E|]. apply andb_false_r.
Qed.

Lemma testbit_bit_of bm o :
  Z.testbit (default 0 (bm !! Z.to_nat (o / 64))) (o mod 64) = bit_of bm o.
Proof. unfold bit_of. destruct (bm !! _); [done|]. apply Z.bits_0. Qed.

(** An entry that is restored: a player on a free host of the room. *)
Lemma restore_entry_cases upd cfg s e :
  core_ok cfg s → net_Mask (r_subnet cfg) = mask24 →
  restore_entry upd cfg s e = s ∨
  ∃ o vip, room_vip cfg o = Some vip ∧ 2 ≤ b2z o ≤ 254 ∧ bit_of (ipBitmap s) (b2z o) = false ∧
    ParseIP (ce_VirtualIP e) = Some vip ∧
    restore_entry upd cfg s e =
      (let '(l, s) := alloc (placeholder e vip) (markIPUsed vip s) in
       set_clients (<[IPKey vip := l]> (clients s)) s).
Proof.
  intros Hok Hm. unfold restore_entry. destruct (ParseIP _) as [ip|] eqn:Hp; [|by left].
  destruct (To4 ip) as [ip4|] eqn:H4; [|by left]. destruct (_ && _); [by left|].
  destruct (To4_quad _ _ H4) as (a0 & a1 & a2 & o & ->).
  destruct (ok_net _ _ Hok) as (b0 & b1 & b2 & b3 & Hnet).
  rewrite (Contains24 _ _ _ _ _ _ _ _ _ _ Hm Hnet H4).
  case_bool_decide as E; cbn [negb]; [|by left]. simplify_eq.
  rewrite (ParseIP_To4 _ _ _ _ _ _ Hp H4). change (octet_of [_; _; _; o]) with (b2z o).
  pose proof (b2z_range o).
  destruct (Z.ltb_spec (b2z o) 2); cbn [orb]; [by left|].
  destruct (Z.eqb_spec (b2z o) 255); [by left|].
  pose proof (Z.mod_pos_bound (b2z o) 64 ltac:(lia)).
  rewrite land_bit by lia. rewrite negb_involutive.
  rewrite testbit_bit_of. destruct (bit_of (ipBitmap s) (b2z o)) eqn:Hb; [by left|].
  right. exists o, (IPv4 a0 a1 a2 o). unfold room_vip. rewrite Hnet. split_and!; done || lia.
Qed.

Lemma core_ok_restore upd cfg s e :
  net_Mask (r_subnet cfg) = mask24 → core_ok cfg s → core_ok cfg (restore_entry upd cfg s e).
Proof.
  intros Hm Hok. destruct (restore_entry_cases upd cfg s e Hok Hm) as [->|(o & vip & Hv & Ho & Hb & _ & ->)];
    [done|]. by apply (core_ok_player cfg s _ o).
Qed.

Lemma core_ok_restores upd cfg l s :
  net_Mask (r_subnet cfg) = mask24 → core_ok cfg s → core_ok cfg (foldl (restore_entry upd cfg) s l).
Proof. intros Hm. revert s. induction l; intros s Hok; [done|]. cbn. by apply IHl, core_ok_restore. Qed.

Lemma room_ok_load state r q d :
  net_Mask (r_subnet (r_cfg r)) = mask24 → room_ok (mkWorld r q d) → room_ok (mkWorld (loadState state r) q d).
Proof.
  intros Hm [Hok Hk]. unfold loadState. destruct (negb _); [done|]. destruct (negb _); [done|].
  split; [by apply core_ok_restores|exact Hk].
Qed.
End persist.

(** ** A snapshot restores the room *)

(** The player under a virtual address. *)
Definition player (s : Core) (k : ipkey) (c : Client) : Prop := ∃ l, vip_client s k = Some (l, c).

Lemma player_iff s k c : player s k c ↔ ∃ l, clients s !! k = Some l ∧ store s !! l = Some c.
Proof. unfold player. by setoid_rewrite vip_client_Some. Qed.

Lemma vip_String cfg o vip : room_vip cfg o = Some vip → ParseIP (IP_String vip) = Some vip.
Proof.
  unfold room_vip. destruct (To4 _) as [[|b0 [|b1 [|b2 [|b3 [|]]]]]|]; try done. intros [= <-].
  apply ParseIP_v4_string.
Qed.

Lemma vip_String_inj cfg o1 o2 v1 v2 :
  room_vip cfg o1 = Some v1 → room_vip cfg o2 = Some v2 → IP_String v1 = IP_String v2 → v1 = v2.
Proof. intros E1%vip_String E2%vip_String E. rewrite E in E1. congruence. Qed.

(** Collecting a list into a map, when equal keys have equal values. *)
Lemma collect_lookup {A V} (skip : A → bool) (f : A → list byte) (g : A → V) L k v :
  (∀ x y, x ∈ L → y ∈ L → f x = f y → g x = g y) →
  foldl (fun (m : gmap (list byte) V) x => if skip x then m else <[f x := g x]> m) ∅ L !! k = Some v ↔
  ∃ x, x ∈ L ∧ skip x = false ∧ f x = k ∧ g x = v.
Proof.
  induction L as [|x L IH] using rev_ind; intros Hfun.
  { cbn [foldl]. rewrite lookup_empty. split; [done|]. by intros (x & Hx%elem_of_nil & _). }
  rewrite foldl_snoc.
  assert (∀ y, y ∈ L ++ [x] ↔ y ∈ L ∨ y = x) as Hin by (intros y; by rewrite elem_of_app, list_elem_of_singleton).
  setoid_rewrite Hin in Hfun. setoid_rewrite Hin.
  specialize (IH ltac:(intros; apply Hfun; auto)). destruct (skip x) eqn:Hs.
  - rewrite IH. split.
    + intros (y & ? & ?). exists y. auto.
    + intros (y & [Hy| ->] & Hsy & ?); [by exists y|congruence].
  - rewrite lookup_insert_Some, IH. split.
    + intros [[<- <-]|(Hne & y & ? & ?)]; [exists x|exists y]; auto.
    + intros (y & Hy & Hsy & <- & <-). destruct (decide (f x = f y)) as [E|]; [left|right].
      * split; [done|]. apply Hfun; auto.
      * split; [done|]. exists y. destruct Hy as [?| ->]; [auto|done].
Qed.

Section roundtrip.
Context `{MapRange}.

(** The entries of a snapshot are the players. *)
Lemma snapshot_entries `{Env} r key e :
  core_ok (r_cfg r) (r_core r) →
  rs_Clients (SnapshotState r) !! key = Some e ↔
  ∃ k c, player (r_core r) k c ∧ IP_String (cl_VirtualIP c) = key ∧ client_entry c = e.
Proof.
  intros Hok. cbn [SnapshotState rs_Clients].
  replace (foldl _ _ _) with (foldl (fun (m : gmap (list byte) ClientEntry) x =>
      if bool_decide (cl_auth x.2 = authChallengeSent) then m
      else <[IP_String (cl_VirtualIP x.2) := client_entry x.2]> m) ∅ (client_list (r_core r))).
  2: { generalize (client_list (r_core r)), (∅ : gmap (list byte) ClientEntry). intros L.
       induction L as [|[l c] L IH]; intros m; [done|]. cbn. apply IH. }
  assert (∀ l c, (l, c) ∈ client_list (r_core r) ↔ ∃ k, vip_client (r_core r) k = Some (l, c)) as Hl.
  { intros l c. rewrite elem_of_client_list. setoid_rewrite vip_client_Some. naive_solver. }
  destruct (ok_clients _ _ Hok) as [_ _ Hc _].
  rewrite (collect_lookup (fun x => bool_decide (cl_auth x.2 = authChallengeSent))
    (fun x => IP_String (cl_VirtualIP x.2)) (fun x => client_entry x.2)).
  - split.
    + intros ([l c] & [k Hk]%Hl & _ & ? & ?). exists k, c. split; [by exists l|done].
    + intros (k & c & [l Hk] & ? & ?). exists (l, c). split; [apply Hl; by exists k|].
      apply vip_client_Some in Hk as [Hk Hs].
      destruct (Hc _ _ Hk) as (c' & o & vip & ? & Ha & _). simplify_eq.
      split; [|done]. apply bool_decide_eq_false. cbn. congruence.
  - intros [l1 c1] [l2 c2] [k1 E1]%Hl [k2 E2]%Hl. cbn. intros E.
    apply vip_client_Some in E1 as [E1 S1], E2 as [E2 S2].
    destruct (Hc _ _ E1) as (? & o1 & v1 & ? & _ & V1 & <- & -> & _).
    destruct (Hc _ _ E2) as (? & o2 & v2 & ? & _ & V2 & <- & -> & _). simplify_eq.
    apply (vip_String_inj _ _ _ _ _ V1 V2) in E. congruence.
Qed.

Definition timely `{Env} (upd : Z) (e : ClientEntry) : Prop :=
  now - ce_LastSeen e ≤ 30 * Second ∨ now - upd ≤ reconnectGracePeriod.

Definition entry_of (cfg : RoomCfg) (e : ClientEntry) (o : byte) (vip : IP) : Prop :=
  room_vip cfg o = Some vip ∧ 2 ≤ b2z o ≤ 254 ∧ ce_VirtualIP e = IP_String vip.

Lemma restore_timely `{Env} upd cfg s e o vip :
  core_ok cfg s → net_Mask (r_subnet cfg) = mask24 → entry_of cfg e o vip → timely upd e →
  bit_of (ipBitmap s) (b2z o) = false →
  restore_entry upd cfg s e =
    (let '(l, s) := alloc (placeholder e vip) (markIPUsed vip s) in
     set_clients (<[IPKey vip := l]> (clients s)) s).
Proof.
  intros Hok Hm (Hv & Ho & He) Ht Hb. unfold restore_entry. rewrite He, (vip_String _ _ _ Hv).
  destruct (ok_net _ _ Hok) as (b0 & b1 & b2 & b3 & Hnet).
  unfold room_vip in Hv. rewrite Hnet in Hv. injection Hv as <-. rewrite To4_IPv4.
  rewrite (Contains24 _ _ _ _ _ _ _ _ _ _ Hm Hnet (To4_IPv4 _ _ _ _)), bool_decide_eq_true_2 by done.
  change (octet_of [_; _; _; o]) with (b2z o). cbn [negb].
  destruct (Z.ltb_spec (b2z o) 2); [lia|]. destruct (Z.eqb_spec (b2z o) 255); [lia|]. cbn [orb].
  pose proof (Z.mod_pos_bound (b2z o) 64 ltac:(lia)).
  rewrite land_bit, negb_involutive, testbit_bit_of, Hb by lia.
  destruct (Z.ltb_spec (30 * Second) (now - ce_LastSeen e)); [|done].
  destruct (Z.ltb_spec reconnectGracePeriod (now - upd)); [|done].
  destruct Ht; lia.
Qed.

Lemma add_player s c o vip cfg k c' :
  core_ok cfg s → room_vip cfg o = Some vip → bit_of (ipBitmap s) (b2z o) = false →
  player (let '(l, s) := alloc c (markIPUsed vip s) in
          set_clients (<[IPKey vip := l]> (clients s)) s) k c' ↔
  player s k c' ∨ k = IPKey vip ∧ c' = c.
Proof.
  intros Hok Hv Hb. pose proof (fresh_None _ _ Hok) as Hfr.
  pose proof (free_vip_None _ s o vip Hok Hv Hb) as Hnone.
  rewrite !player_iff. cbn. rewrite markIPUsed_form. cbn. split.
  - intros (l & [[<- <-]|[Hne Hk]]%lookup_insert_Some & Hs).
    + right. rewrite lookup_insert_eq in Hs. by simplify_eq.
    + left. exists l. split; [done|]. apply lookup_insert_Some in Hs as [[<- <-]|[_ ?]]; [|done].
      destruct (ok_clients _ _ Hok) as [_ _ Hc _]. destruct (Hc _ _ Hk) as (? & ? & ? & ? & _). congruence.
  - intros [(l & Hk & Hs)|[-> ->]].
    + exists l. rewrite lookup_insert_ne by congruence. split; [done|].
      rewrite lookup_insert_ne by congruence. done.
    + exists (next_loc s). by rewrite !lookup_insert_eq.
Qed.

(** Restoring a list of entries of distinct free hosts. *)
Lemma restores_spec `{Env} upd cfg L s :
  core_ok cfg s → net_Mask (r_subnet cfg) = mask24 →
  (∀ e, e ∈ L → timely upd e ∧ ∃ o vip, entry_of cfg e o vip ∧ bit_of (ipBitmap s) (b2z o) = false) →
  NoDup (map ce_VirtualIP L) →
  let s' := foldl (restore_entry upd cfg) s L in
  core_ok cfg s' ∧ addrMap s' = addrMap s ∧
  ∀ k c, player s' k c ↔
    player s k c ∨ ∃ e o vip, e ∈ L ∧ entry_of cfg e o vip ∧ k = IPKey vip ∧ c = placeholder e vip.
Proof.
  intros Hok Hm. revert s Hok. induction L as [|e L IH]; intros s Hok Hin Hnd; cbn [foldl].
  { split; [done|]. split; [done|]. intros k c. set_solver. }
  cbn in Hnd. apply NoDup_cons in Hnd as [Hni Hnd].
  destruct (Hin e ltac:(set_solver)) as [Ht (o & vip & He & Hb)].
  pose proof (core_ok_restore upd cfg s e Hm Hok) as Hok1.
  rewrite (restore_timely upd cfg s e o vip Hok Hm He Ht Hb) in *.
  pose proof (λ k c, add_player s (placeholder e vip) o vip cfg k c Hok (proj1 He) Hb) as Hadd.
  set (s1 := let '(l, s) := alloc _ _ in _) in *.
  assert (ipBitmap s1 = used_bits vip (ipBitmap s) ∧ addrMap s1 = addrMap s) as [Hbm Ham].
  { subst s1. cbn. by rewrite markIPUsed_form. }
  destruct (IH s1) as (IH1 & IH2 & IH3); [done| |done|].
  { intros e' He'. destruct (Hin e' ltac:(set_solver)) as [Ht' (o' & vip' & (Hv' & Ho' & Hs') & Hb')].
    split; [done|]. exists o', vip'. split; [done|]. rewrite Hbm.
    destruct (used_bits_spec cfg o vip (ipBitmap s) (b2z o') (proj1 He)) as [_ ->];
      [apply (cp_bitmap _ _ _ _ (ok_clients _ _ Hok))|lia|].
    rewrite Hb'. cbn [orb]. apply Z.eqb_neq. intros Eo%b2z_inj. subst o'. apply Hni.
    apply list_elem_of_fmap. exists e'. split; [|done]. destruct He as (Hv & _ & ->). rewrite Hs'. congruence. }
  split; [done|]. split; [congruence|]. intros k c. rewrite IH3, Hadd. clear IH3 Hadd. split.
  - intros [[?|[-> ->]]|(e' & o' & vip' & ? & ?)]; [by left|right; exists e, o, vip; set_solver|].
    right. exists e', o', vip'. set_solver.
  - intros [?|(e' & o' & vip' & [->|?]%elem_of_cons & He' & -> & ->)]; [by left; left| |].
    + left. right. destruct He as (Hv & _ & Hs), He' as (Hv' & _ & Hs').
      rewrite (vip_String_inj cfg _ _ _ _ Hv Hv') by congruence. done.
    + right. by exists e', o', vip'.
Qed.
End roundtrip.

Lemma NewRoom_mask t c r : NewRoom t c = Some r → net_Mask (r_subnet (r_cfg r)) = mask24.
Proof. unfold NewRoom. case_bool_decide as E; cbn [negb]; [|done]. by intros [= <-]. Qed.

Lemma host_vips_marked cfg s o vip :
  core_ok cfg s → room_vip cfg o = Some vip → 2 ≤ b2z o ≤ 254 →
  bit_of (ipBitmap s) (b2z o) = true ↔ is_Some (clients s !! IPKey vip).
Proof.
  intros Hok Hv Ho. destruct (ok_clients _ _ Hok) as [_ _ Hc Hb]. split; [by apply Hb|].
  intros [l Hl]. destruct (Hc _ _ Hl) as (c & o' & vip' & _ & _ & Hv' & _ & E & _ & Hbit).
  by rewrite (room_vip_inj _ _ _ _ _ Hv Hv' E).
Qed.

Lemma fresh_room t c r :
  NewRoom t c = Some r → ipv4_subnet c →
  core_ok (r_cfg r) (r_core r) ∧ r_subnet (r_cfg r) = rc_Subnet c ∧ net_Mask (r_subnet (r_cfg r)) = mask24 ∧
  clients (r_core r) = ∅ ∧ addrMap (r_core r) = ∅.
Proof.
  intros Hnew Hv4. destruct (NewRoom_ok t c r (newRateLimitedQueue None) false Hv4 Hnew) as [Hok _].
  pose proof (NewRoom_mask _ _ _ Hnew).
  destruct (NewRoom_spec _ _ _ Hnew) as (cfg & bm & <- & Hc & _ & Hs & _). split; [exact Hok|]. by rewrite Hc.
Qed.

Section players.
Context (cfg : RoomCfg) (s : Core) (Hok : core_ok cfg s).

Lemma player_entry k p :
  player s k p → ∃ o, entry_of cfg (client_entry p) o (cl_VirtualIP p) ∧ k = IPKey (cl_VirtualIP p).
Proof.
  intros (l & [Hk Hs]%vip_client_Some). destruct (ok_clients _ _ Hok) as [_ _ Hc _].
  destruct (Hc _ _ Hk) as (? & o & vip & ? & _ & Hv & <- & -> & Ho & _). simplify_eq.
  by exists o.
Qed.

Lemma player_is_Some k : (∃ c, player s k c) ↔ is_Some (clients s !! k).
Proof.
  split.
  - intros (c & l & [Hk _]%vip_client_Some). by exists l.
  - intros [l Hl]. destruct (ok_clients _ _ Hok) as [_ _ Hc _].
    destruct (Hc _ _ Hl) as (c & _ & _ & Hs & _). exists c, l. by apply vip_client_Some.
Qed.
End players.

(** The bitmap is a function of the set of players. *)
Lemma bits_by_players cfg1 cfg2 s1 s2 o :
  core_ok cfg1 s1 → core_ok cfg2 s2 → r_subnet cfg1 = r_subnet cfg2 →
  (∀ k, (∃ c, player s1 k c) ↔ (∃ c, player s2 k c)) → 0 ≤ o < 256 →
  bit_of (ipBitmap s1) o = bit_of (ipBitmap s2) o.
Proof.
  intros Hok1 Hok2 Hsub Hp Ho.
  destruct (decide (2 ≤ o ≤ 254)) as [Hr|Hr].
  - destruct (room_vip_total cfg1 s1 (z2b o) Hok1) as [vip Hv].
    assert (room_vip cfg2 (z2b o) = Some vip) as Hv2 by (unfold room_vip in *; by rewrite <- Hsub).
    pose proof (host_vips_marked _ _ _ _ Hok1 Hv) as E1. pose proof (host_vips_marked _ _ _ _ Hok2 Hv2) as E2.
    rewrite host_octet in E1, E2 by lia.
    rewrite <- player_is_Some in E1, E2 by done. rewrite Hp, <- E2 in E1 by lia.
    apply eq_true_iff_eq, E1. lia.
  - destruct (cp_reserved _ _ _ _ (ok_clients _ _ Hok1)) as (A1 & A2 & A3).
    destruct (cp_reserved _ _ _ _ (ok_clients _ _ Hok2)) as (B1 & B2 & B3).
    assert (o = 0 ∨ o = 1 ∨ o = 255) as [-> | [-> | ->]] by lia; congruence.
Qed.

Lemma snapshot_list `{Env} `{MapRange} r :
  core_ok (r_cfg r) (r_core r) →
  let L := map snd (go_range (rs_Clients (SnapshotState r))) in
  (∀ e, e ∈ L ↔ ∃ k p, player (r_core r) k p ∧ client_entry p = e) ∧ NoDup (map ce_VirtualIP L).
Proof.
  intros Hok L. split.
  - intros e. unfold L. rewrite list_elem_of_fmap. split.
    + intros ([key e'] & -> & Hin%elem_of_go_range). apply snapshot_entries in Hin; [|done].
      destruct Hin as (k & p & ? & _ & ?). by exists k, p.
    + intros (k & p & Hp & <-). exists (IP_String (cl_VirtualIP p), client_entry p). split; [done|].
      apply elem_of_go_range, snapshot_entries; [done|]. by exists k, p.
  - unfold L. rewrite map_map. assert (∀ x, x ∈ go_range (rs_Clients (SnapshotState r)) →
      ce_VirtualIP (snd x) = fst x) as E.
    { intros [key e] Hin%elem_of_go_range. apply snapshot_entries in Hin as (? & p & _ & <- & <-); done. }
    erewrite map_ext_in; [apply NoDup_go_range|]. intros x Hx%list_elem_of_In. by apply E.
Qed.

(** C15: snapshot of a room, loaded into a fresh room of the same subnet while its
    players are recent (heard of within 30 seconds of the restart, or
    saved within the grace period), restores exactly its players: each under
    its virtual address with its name and last-seen time, offline, and the bitmap
    marks the same hosts. *)
Theorem snapshot_load_roundtrip `{MapRange} (e1 e2 : Env) r t c r0 :
  core_ok (r_cfg r) (r_core r) → NewRoom t c = Some r0 → rc_Subnet c = r_subnet (r_cfg r) →
  (∀ k p, player (r_core r) k p → @timely e2 (@now e1) (client_entry p)) →
  let s' := r_core (@loadState e2 _ (@SnapshotState e1 _ r) r0) in
  core_ok (r_cfg r0) s' ∧ addrMap s' = ∅ ∧
  (∀ k p', player s' k p' ↔
     ∃ p, player (r_core r) k p ∧ p' = placeholder (client_entry p) (cl_VirtualIP p)) ∧
  (∀ o, 0 ≤ o < 256 → bit_of (ipBitmap s') o = bit_of (ipBitmap (r_core r)) o).
Proof.
  intros Hok Hnew Hsub Ht. cbv zeta.
  destruct (fresh_room _ _ _ Hnew) as (Hok0 & Hs0 & Hm0 & Hc0 & Ha0).
  { unfold ipv4_subnet. rewrite Hsub. apply Hok. }
  rewrite Hsub in Hs0. unfold loadState. cbn [SnapshotState rs_Version rs_Subnet rs_UpdatedAt].
  rewrite Hs0, bool_decide_eq_true_2 by done. change (stateVersion =? stateVersion) with true.
  cbn [negb set_core r_core]. destruct (@snapshot_list e1 _ r Hok) as [HL Hnd].
  set (L := map snd _) in *.
  assert (∀ o, room_vip (r_cfg r0) o = room_vip (r_cfg r) o) as Hvip
    by (intros; unfold room_vip; by rewrite Hs0).
  destruct (@restores_spec e2 (@now e1) (r_cfg r0) L (r_core r0) Hok0 Hm0) as (Hok' & Ha' & Hp'); [|done|].
  { intros e (k & p & Hp & <-)%HL. split; [by eapply Ht|].
    destruct (player_entry _ _ Hok _ _ Hp) as (o & (Hv & Ho & He) & _).
    exists o, (cl_VirtualIP p). unfold entry_of. rewrite Hvip. split; [done|].
    rewrite <- Hvip in Hv.
    pose proof (host_vips_marked _ _ _ _ Hok0 Hv Ho) as [Hb _]. rewrite Hc0, lookup_empty in Hb.
    destruct (bit_of _ _); [|done]. by destruct Hb. }
  assert (∀ k p', player (foldl (@restore_entry e2 (@now e1) (r_cfg r0)) (r_core r0) L) k p' ↔
     ∃ p, player (r_core r) k p ∧ p' = placeholder (client_entry p) (cl_VirtualIP p)) as Hplayers.
  { intros k p'. rewrite Hp'. split.
    - intros [(l & [Hl _]%vip_client_Some)|(e & o & vip & (k' & p & Hp & <-)%HL & (Hv & _ & He) & -> & ->)].
      + by rewrite Hc0, lookup_empty in Hl.
      + exists p. destruct (player_entry _ _ Hok _ _ Hp) as (o' & (Hv' & _ & _) & ->).
        rewrite Hvip in Hv. by rewrite (vip_String_inj _ _ _ _ _ Hv' Hv He) in *.
    - intros (p & Hp & ->). right. destruct (player_entry _ _ Hok _ _ Hp) as (o & (Hv & Ho & He) & ->).
      exists (client_entry p), o, (cl_VirtualIP p). unfold entry_of. rewrite Hvip.
      split; [apply HL; by exists (IPKey (cl_VirtualIP p)), p|done]. }
  split; [done|]. split; [congruence|]. split; [done|].
  intros o Ho. eapply bits_by_players; [exact Hok'|exact Hok|done| |done].
  intros k. setoid_rewrite Hplayers. naive_solver.
Qed.

(** *** Witness: Alice and Bob survive a restart *)

Definition ex_saved : RoomState := @SnapshotState (ex_env (10 * Second) x00) _ (w_room ex_both).
Definition ex_restart : Env := ex_env (20 * Second) x00.
Definition ex_restored : Room := @loadState ex_restart _ ex_saved (ex_room []).

Lemma ex_both_saved_ok : core_ok (w_cfg ex_both) (w_core ex_both).
Proof. apply (proj1 (reachable_ok (ex_config []) ex_both (ex_ipv4 []) ex_reachable)). Qed.

Lemma snapshot_load_roundtrip_witness :
  (∃ p, player (r_core ex_restored) (IPKey (ex_vip x03)) p) ∧
  bit_of (ipBitmap (r_core ex_restored)) 3 = true.
Proof.
  destruct (snapshot_load_roundtrip (ex_env (10 * Second) x00) ex_restart (w_room ex_both) 0 (ex_config [])
    (ex_room []) ex_both_saved_ok ltac:(reflexivity) ltac:(vm_compute; reflexivity)) as (_ & _ & Hp & Hb).
  { intros k p _. right. vm_compute. discriminate. }
  split.
  - assert (is_Some (vip_client (w_core ex_both) (IPKey (ex_vip x03)))) as [[l c] Hc]
      by (vm_compute; by eexists).
    eexists. apply Hp. exists c. split; [by exists l|reflexivity].
  - refine (eq_trans (Hb 3 _) _); [lia|]. vm_compute. reflexivity.
Defined.

(** ** What a restart changes *)

Section restart.
Context `{Env} `{MapRange}.

(** player restored from disk is taken over without the password.  Whatever
    the room's password, a Register packet with the name of an offline player
    that was restored from the state file, from an unknown endpoint and with the
    room name "default", is answered with this player's address: the endpoint is
    mapped to a player of this name, no challenge is sent. *)
Theorem restored_player_needs_no_password reg from w k e ip :
  core_ok (w_cfg w) (w_core w) →
  player (w_core w) k (placeholder e ip) →
  rp_Username reg = ce_Username e → rp_RoomID reg = str "default" →
  addr_client (w_core w) (AddrToRateKey from) = None →
  conn_count (w_core w) (addrToConnIPKey from) < r_maxPerIP (w_cfg w) →
  ∃ l c, addr_client (w_core (registerLocked reg from w)) (AddrToRateKey from) = Some (l, c) ∧
    cl_Username c = rp_Username reg ∧ cl_auth c = authNone ∧ cl_PublicAddr c = Some from ∧
    clients (w_core w) !! IPKey (cl_VirtualIP c) = Some l ∧
    pendingAuth (w_core (registerLocked reg from w)) = pendingAuth (w_core w).
Proof.
  intros Hok (l0 & Hp) Hu Hr Hnone Hcount. unfold registerLocked.
  assert (dropStaleChallenge (AddrToRateKey from) (w_core w) = w_core w) as Hdrop
    by (unfold dropStaleChallenge; by rewrite Hnone).
  set (w1 := on_core (dropStaleChallenge _) w). assert (w_core w1 = w_core w) as E1 by exact Hdrop.
  rewrite E1, Hnone. change (w_cfg w1) with (w_cfg w).
  unfold resolveRestoredClient. destruct (Z.leb_spec (r_maxPerIP (w_cfg w)) (conn_count (w_core w) (addrToConnIPKey from))); [lia|].
  set (s1 := incrementIPConnCount _ _).
  assert (core_ok (w_cfg w) s1) as Hok1 by by apply core_ok_inc.
  assert (store s1 = store (w_core w) ∧ clients s1 = clients (w_core w) ∧
    pendingAuth s1 = pendingAuth (w_core w)) as (Es & Ec & Epend) by done. clearbody s1.
  set (pred := fun '(_, c) => _). destruct (first_such pred (client_list s1)) as [[l c]|] eqn:Hf.
  - apply first_such_Some in Hf as [Hin Hpred]. unfold pred in Hpred.
    repeat setoid_rewrite andb_true_iff in Hpred. rewrite !bool_decide_eq_true in Hpred.
    destruct Hpred as [[[Hcu _] _] Hca]. destruct (listed_client _ _ _ _ Hok1 Hin) as (Hs & _ & Hc).
    set (w2 := on_core _ w1).
    assert (w_core (announce (cl_VirtualIP c) from w2) = w_core w2) as E2 by apply keeps_announce.
    rewrite E2. exists l, (set_lastSeen now (set_PublicAddr (Some from) c)). split; [|by rewrite <- Ec].
    apply addr_client_Some. unfold w2. cbn. rewrite lookup_insert_eq, lookup_alter_eq, Hs. done.
  - exfalso. apply vip_client_Some in Hp as [Hk Hs].
    rewrite <- Ec in Hk. rewrite <- Es in Hs.
    eapply first_such_None in Hf; [|apply elem_of_client_list; split; [by exists k|exact Hs]].
    unfold pred in Hf. cbn in Hf. by rewrite Hu, Hr, !bool_decide_eq_true_2 in Hf.
Qed.

(** The grace period does not keep a player: one that was restored although it
    had been silent for more than 30 seconds is removed by the first cleanup,
    whenever that runs. *)
Theorem grace_period_ineffective w k l e ip :
  room_ok w → 30 * Second < now - ce_LastSeen e →
  vip_client (w_core w) k = Some (l, placeholder e ip) →
  clients (w_core (CleanupStale w).2) !! k = None.
Proof.
  intros Hok Hstale Hp. destruct (clients _ !! k) as [l'|] eqn:Hk; [|done].
  apply (cleanup_clients w k l' Hok) in Hk as (c & Hc & Hfresh). rewrite Hp in Hc. simplify_eq.
  cbn in Hfresh. lia.
Qed.
End restart.

(** *** Witnesses: Alice's place is taken by a stranger, or lost *)

Definition ex_locked : World := mkWorld (@loadState ex_restart _ ex_saved (ex_room ex_pass)) (newRateLimitedQueue None) false.
Definition ex_alice_entry : ClientEntry := mkClientEntry (str "alice") (str "10.10.0.2") Second.

Lemma ex_locked_ok : room_ok ex_locked.
Proof.
  apply room_ok_load; [reflexivity|].
  apply (proj1 (reachable_ok (ex_config ex_pass) _ (ex_ipv4 ex_pass) (ex_reachable0 ex_pass))).
Qed.

Lemma ex_locked_alice :
  vip_client (w_core ex_locked) (IPKey (ex_vip x02)) = Some (1%nat, placeholder ex_alice_entry (ex_vip x02)).
Proof. vm_compute. reflexivity. Qed.

Lemma restored_player_needs_no_password_witness :
  r_roomPass (w_cfg ex_locked) = ex_pass ∧
  ∃ l c, addr_client (w_core (@registerLocked ex_restart _
      (mkRegister (str "default") (str "alice") AppVersion) (ex_addr x09) ex_locked))
      (AddrToRateKey (ex_addr x09)) = Some (l, c) ∧ cl_auth c = authNone.
Proof.
  split; [vm_compute; reflexivity|].
  destruct (@restored_player_needs_no_password ex_restart _
    (mkRegister (str "default") (str "alice") AppVersion) (ex_addr x09) ex_locked
    (IPKey (ex_vip x02)) ex_alice_entry (ex_vip x02) (proj1 ex_locked_ok)
    (ex_intro _ 1%nat ex_locked_alice) eq_refl eq_refl) as (l & c & Ha & _ & Hc & _).
  - vm_compute. reflexivity.
  - vm_compute. reflexivity.
  - exists l, c. split; [exact Ha|exact Hc].
Defined.

Definition ex_first_tick : Env := ex_env (35 * Second) x00.
Lemma grace_period_ineffective_witness :
  clients (w_core (@CleanupStale ex_first_tick _ ex_locked).2) !! IPKey (ex_vip x02) = None.
Proof.
  refine (@grace_period_ineffective ex_first_tick _ ex_locked (IPKey (ex_vip x02)) 1%nat ex_alice_entry
    (ex_vip x02) ex_locked_ok _ ex_locked_alice).
  vm_compute. reflexivity.
Defined.
