(* ===== verification/Subnet.v ===== *)
(** * Subnet: the /24 networks of the rooms

    src/internal/server/subnet.go.  The list of local networks is what
    getLocalSubnets collected from the machine. *)

From S2P Require Import Prelude GoNet NetUtil Client Room RoomHandlers RoomIP RoomInv Persist.

(** Server.subnetOverlapsAny *)
Definition subnetOverlapsAny (candidate : IPNet) (others : list IPNet) : bool :=
  existsb (fun other =>
    IP_Equal (net_IP candidate) (net_IP other)
    || (Contains candidate (net_IP other) || Contains other (net_IP candidate))) others.

(** [int(ip.To4()[2])]; the subnets of a server are IPv4. *)
Definition third_octet (ip : IP) : Z := b2z (nth 2 (default [] (To4 ip)) x00).

Definition candidate_subnet (baseIP : IP) (idx : Z) : IPNet :=
  mkIPNet (IPv4 (nth 0 baseIP x00) (nth 1 baseIP x00) (z2b idx) x00) mask24.

(** The highest third octet in use. *)
Definition max_used (baseIP : IP) (rooms : list IPNet) : Z :=
  let maxIdx := b2z (nth 2 baseIP x00) in
  let maxIdx := if maxIdx <? 1 then 1 else maxIdx in
  foldl (fun maxIdx n => let octet := third_octet (net_IP n) in
                         if maxIdx <? octet then octet else maxIdx) maxIdx rooms.

(** The scan from [nextIdx] up to 254. *)
Fixpoint scan_subnets (fuel : nat) (baseIP : IP) (locals : list IPNet) (nextIdx : Z) : option IPNet :=
  match fuel with
  | O => None
  | S fuel =>
      if 254 <? nextIdx then None
      else let candidate := candidate_subnet baseIP nextIdx in
           if subnetOverlapsAny candidate locals then scan_subnets fuel baseIP locals (nextIdx + 1)
           else Some candidate
  end.

(** Server.allocateSubnet: the third octets are below 256, so 256 rounds are
    enough. *)
Definition allocateSubnet (base : option IPNet) (rooms locals : list IPNet) : option IPNet :=
  match (n ← base; To4 (net_IP n)) with
  | None => None
  | Some baseIP => scan_subnets 256 baseIP locals (max_used baseIP rooms + 1)
  end.

(** ** Facts *)

Lemma max_used_spec baseIP rooms :
  b2z (nth 2 baseIP x00) ≤ max_used baseIP rooms ∧ 1 ≤ max_used baseIP rooms ∧
  (∀ n, n ∈ rooms → third_octet (net_IP n) ≤ max_used baseIP rooms) ∧
  (max_used baseIP rooms = Z.max 1 (b2z (nth 2 baseIP x00)) ∨
   ∃ n, n ∈ rooms ∧ max_used baseIP rooms = third_octet (net_IP n)).
Proof.
  unfold max_used. set (m0 := if _ <? 1 then 1 else _).
  assert (m0 = Z.max 1 (b2z (nth 2 baseIP x00))) as E0 by (unfold m0; case_match; lia).
  clearbody m0. induction rooms as [|n rooms IH] using rev_ind.
  - cbn. split_and!; [lia|lia| |by left]. intros n Hn. by apply elem_of_nil in Hn.
  - rewrite foldl_snoc. destruct IH as (H1 & H2 & H3 & H4). set (m := foldl _ m0 rooms) in *.
    cbn zeta. assert (∀ n', n' ∈ rooms ++ [n] → n' ∈ rooms ∨ n' = n) as Hin
      by (intros n'; rewrite elem_of_app, list_elem_of_singleton; done).
    destruct (Z.ltb_spec m (third_octet (net_IP n))).
    + split_and!; [lia|lia| |].
      * intros n' [Hn| ->]%Hin; [|lia]. apply H3 in Hn. lia.
      * right. exists n. split; [|done]. apply elem_of_app. right. by apply list_elem_of_singleton.
    + split_and!; [lia|lia| |].
      * intros n' [Hn| ->]%Hin; [by apply H3|lia].
      * destruct H4 as [?|(n' & ? & ?)]; [by left|right]. exists n'. split; [|done].
        apply elem_of_app. by left.
Qed.

Lemma scan_subnets_spec fuel baseIP locals idx :
  255 - idx ≤ Z.of_nat fuel →
  match scan_subnets fuel baseIP locals idx with
  | Some n => ∃ i, n = candidate_subnet baseIP i ∧ idx ≤ i ≤ 254 ∧ subnetOverlapsAny n locals = false ∧
                   ∀ j, idx ≤ j < i → subnetOverlapsAny (candidate_subnet baseIP j) locals = true
  | None => ∀ i, idx ≤ i ≤ 254 → subnetOverlapsAny (candidate_subnet baseIP i) locals = true
  end.
Proof.
  revert idx. induction fuel as [|fuel IH]; intros idx Hf; cbn [scan_subnets]; [lia|].
  destruct (Z.ltb_spec 254 idx); [lia|].
  destruct (subnetOverlapsAny (candidate_subnet baseIP idx) locals) eqn:Ho.
  - specialize (IH (idx + 1) ltac:(lia)). destruct (scan_subnets _ _ _ _) as [n|].
    + destruct IH as (i & -> & Hi & Hn & Hmin). exists i. split_and!; [done|lia|lia|done|].
      intros j Hj. destruct (Z.eq_dec j idx) as [->|]; [done|]. apply Hmin. lia.
    + intros i Hi. destruct (Z.eq_dec i idx) as [->|]; [done|]. apply IH. lia.
  - exists idx. split_and!; [done|lia|lia|done|lia].
Qed.

(** An overlap of two networks: an address in both. *)
Lemma no_overlap candidate locals n :
  subnetOverlapsAny candidate locals = false → n ∈ locals →
  Contains candidate (net_IP n) = false ∧ Contains n (net_IP candidate) = false.
Proof.
  unfold subnetOverlapsAny. intros Hf Hn%list_elem_of_In.
  destruct (Contains candidate (net_IP n)) eqn:E1; [|destruct (Contains n (net_IP candidate)) eqn:E2; [|done]].
  all: exfalso; rewrite <- not_true_iff_false in Hf; apply Hf, existsb_exists; exists n; split; [done|].
  - by rewrite E1, orb_true_r.
  - by rewrite E2, !orb_true_r.
Qed.

Lemma candidate_octet baseIP i : 0 ≤ i ≤ 254 → third_octet (net_IP (candidate_subnet baseIP i)) = i.
Proof. intros Hi. change (b2z (z2b i) = i). rewrite b2z_z2b, Z.mod_small; lia. Qed.

(** C38: The network a new room gets is a.b.i.0/24 with the prefix of the base network,
    i at most 254 and higher than the base's own third octet and than that of every
    room: no other room has it, and it neither contains the address of a local
    network nor lies in one.  i is the least such number; there is no network
    exactly when none is left. *)
Theorem allocateSubnet_spec base rooms locals a b c d :
  To4 (net_IP base) = Some [a; b; c; d] →
  match allocateSubnet (Some base) rooms locals with
  | Some n =>
      ∃ i, n = mkIPNet (IPv4 a b (z2b i) x00) mask24 ∧ b2z c < i ≤ 254 ∧ third_octet (net_IP n) = i ∧
        (∀ r, r ∈ rooms → third_octet (net_IP r) < i) ∧
        (∀ l, l ∈ locals → Contains n (net_IP l) = false ∧ Contains l (net_IP n) = false) ∧
        (∀ j, max_used [a; b; c; d] rooms < j < i →
           subnetOverlapsAny (mkIPNet (IPv4 a b (z2b j) x00) mask24) locals = true)
  | None =>
      ∀ i, max_used [a; b; c; d] rooms < i ≤ 254 →
        subnetOverlapsAny (mkIPNet (IPv4 a b (z2b i) x00) mask24) locals = true
  end.
Proof.
  intros Hb. unfold allocateSubnet. cbn [mbind option_bind]. rewrite Hb.
  destruct (max_used_spec [a; b; c; d] rooms) as (H1 & H2 & H3 & _). cbn [nth] in H1.
  set (m := max_used _ rooms) in *.
  pose proof (scan_subnets_spec 256 [a; b; c; d] locals (m + 1) ltac:(lia)) as Hs.
  destruct (scan_subnets _ _ _ _) as [n|].
  - destruct Hs as (i & -> & Hi & Ho & Hmin). exists i. split; [done|]. split; [lia|].
    split; [apply candidate_octet; lia|]. split.
    + intros r Hr. apply H3 in Hr. lia.
    + split; [intros l Hl; by apply (no_overlap _ locals)|]. intros j Hj. apply Hmin. lia.
  - intros i Hi. apply Hs. lia.
Qed.

Definition ex_base : IPNet := mkIPNet (IPv4 x0a x0a x01 x00) mask24.
Definition ex_lan : IPNet := mkIPNet (IPv4 x0a x0a x03 x05) mask24.
Definition ex_room_net (i : byte) : IPNet := mkIPNet (IPv4 x0a x0a i x00) mask24.

Lemma allocateSubnet_spec_witness :
  allocateSubnet (Some ex_base) [ex_room_net x02] [ex_lan] = Some (ex_room_net x04) ∧
  ∃ i, ex_room_net x04 = mkIPNet (IPv4 x0a x0a (z2b i) x00) mask24 ∧ 1 < i ≤ 254.
Proof.
  pose proof (allocateSubnet_spec ex_base [ex_room_net x02] [ex_lan] x0a x0a x01 x00 eq_refl) as Hs.
  assert (allocateSubnet (Some ex_base) [ex_room_net x02] [ex_lan] = Some (ex_room_net x04)) as E
    by (vm_compute; reflexivity).
  split; [exact E|]. rewrite E in Hs. destruct Hs as (i & Hi & Hr & _). exists i. split; [exact Hi|exact Hr].
Defined.

(** Networks below the highest one in use are never handed out again: while a room
    has a.b.254.0/24 no room can be created, however many networks are free. *)
Theorem highest_subnet_blocks base rooms locals r :
  r ∈ rooms → third_octet (net_IP r) = 254 → allocateSubnet (Some base) rooms locals = None.
Proof.
  intros Hr H254. unfold allocateSubnet. cbn [mbind option_bind].
  destruct (To4 (net_IP base)) as [ip|]; [|done].
  destruct (max_used_spec ip rooms) as (_ & _ & H3 & _). apply H3 in Hr.
  change 256%nat with (S 255). cbn [scan_subnets].
  destruct (Z.ltb_spec 254 (max_used ip rooms + 1)); [done|lia].
Qed.

Lemma highest_subnet_blocks_witness :
  allocateSubnet (Some ex_base) [ex_room_net xfe] [] = None ∧
  allocateSubnet (Some ex_base) [] [] = Some (ex_room_net x02).
Proof.
  split; [|vm_compute; reflexivity].
  apply (highest_subnet_blocks ex_base [ex_room_net xfe] [] (ex_room_net xfe)); [|vm_compute; reflexivity].
  apply list_elem_of_here.
Defined.
