(* ===== verification/Server.v ===== *)
(** * Server: packet dispatch, rooms and addresses

    src/internal/server/server.go and keepalive_server.go.  Rooms are locations of [heap]:
    [rooms] and [addrToRoom] may hold the same one, and [addrToRoom] one that was
    removed from [rooms].  The two sources of packets, the UDP socket and the TCP
    bridges, give [receive]; a worker handles one job at a time. *)

From S2P Require Import Prelude GoNet Crc32 Protocol Messages MessagesData MessagesPeer NetUtil RateLimit Float64 Bandwidth SendQueue Sha256 Auth I18n Client Room RoomHandlers RoomIP RoomInv RoomSafe Persist Subnet.

Definition defaultMaxRooms : Z := 64.
Definition roomIdleTimeout : Z := 300 * Second.

(** The fields of Config the model reads. *)
Record Config := mkConfig {
  cf_Subnet : IPNet; cf_MaxPlayers : Z; cf_RoomPass : list byte; cf_MaxPerIP : Z;
  cf_StateDir : bool; cf_MultiRoom : bool; cf_BandwidthLimit : Z; cf_MaxRooms : Z }.

Record pktJob := mkJob { job_data : list byte; job_addr : UDPAddr }.

(** Fixed by New. *)
Record ServerCfg := mkServerCfg {
  workers : Z; chanBuf : Z; multiRoom : bool; maxRooms : Z; roomPass : list byte;
  cachedEncrypted : bool; baseSubnet : option IPNet; localSubnets : list IPNet;
  defaultRoom : option nat; stateEnabled : bool }.

Record Server := mkServer {
  s_cfg : ServerCfg;
  heap : gmap nat Room; next_room : nat;
  rooms : gmap (list byte) nat; addrToRoom : gmap RateKey nat;
  s_q : rateLimitedQueue; s_rate : rateShards; pktCh : list pktJob;
  totalPacketsDropped : Z; s_sendErrors : Z; persistDirty : bool; disk : option RoomState }.

(** ** Setters *)

Definition set_heap h (s : Server) := mkServer (s_cfg s) h (next_room s) (rooms s) (addrToRoom s) (s_q s) (s_rate s) (pktCh s) (totalPacketsDropped s) (s_sendErrors s) (persistDirty s) (disk s).
Definition set_rooms m (s : Server) := mkServer (s_cfg s) (heap s) (next_room s) m (addrToRoom s) (s_q s) (s_rate s) (pktCh s) (totalPacketsDropped s) (s_sendErrors s) (persistDirty s) (disk s).
Definition set_addrToRoom m (s : Server) := mkServer (s_cfg s) (heap s) (next_room s) (rooms s) m (s_q s) (s_rate s) (pktCh s) (totalPacketsDropped s) (s_sendErrors s) (persistDirty s) (disk s).
Definition set_q q (s : Server) := mkServer (s_cfg s) (heap s) (next_room s) (rooms s) (addrToRoom s) q (s_rate s) (pktCh s) (totalPacketsDropped s) (s_sendErrors s) (persistDirty s) (disk s).
Definition set_rate r (s : Server) := mkServer (s_cfg s) (heap s) (next_room s) (rooms s) (addrToRoom s) (s_q s) r (pktCh s) (totalPacketsDropped s) (s_sendErrors s) (persistDirty s) (disk s).
Definition set_pktCh l (s : Server) := mkServer (s_cfg s) (heap s) (next_room s) (rooms s) (addrToRoom s) (s_q s) (s_rate s) l (totalPacketsDropped s) (s_sendErrors s) (persistDirty s) (disk s).
Definition add_dropped (s : Server) := mkServer (s_cfg s) (heap s) (next_room s) (rooms s) (addrToRoom s) (s_q s) (s_rate s) (pktCh s) (u64 (totalPacketsDropped s + 1)) (s_sendErrors s) (persistDirty s) (disk s).
Definition add_sendErrors (s : Server) := mkServer (s_cfg s) (heap s) (next_room s) (rooms s) (addrToRoom s) (s_q s) (s_rate s) (pktCh s) (totalPacketsDropped s) (s_sendErrors s + 1) (persistDirty s) (disk s).
Definition set_persistDirty b (s : Server) := mkServer (s_cfg s) (heap s) (next_room s) (rooms s) (addrToRoom s) (s_q s) (s_rate s) (pktCh s) (totalPacketsDropped s) (s_sendErrors s) b (disk s).
Definition set_disk d (s : Server) := mkServer (s_cfg s) (heap s) (next_room s) (rooms s) (addrToRoom s) (s_q s) (s_rate s) (pktCh s) (totalPacketsDropped s) (s_sendErrors s) (persistDirty s) d.

Definition room_named (s : Server) (id : list byte) : option (nat * Room) :=
  l ← rooms s !! id; r ← heap s !! l; Some (l, r).
Definition room_of (s : Server) (k : RateKey) : option (nat * Room) :=
  l ← addrToRoom s !! k; r ← heap s !! l; Some (l, r).

(** Runs a room's code on the room at [l]: it shares the send queue, and its
    [onDirty] is set for the default room only. *)
Definition in_room (l : nat) (f : World → World) (s : Server) : Server :=
  match heap s !! l with
  | None => s
  | Some r =>
      let w := f (mkWorld r (s_q s) false) in
      let dirty := persistDirty s || (w_dirty w && bool_decide (defaultRoom (s_cfg s) = Some l)) in
      set_persistDirty dirty (set_q (w_q w) (set_heap (<[l := w_room w]> (heap s)) s))
  end.

(** new room object under its name. *)
Definition add_room (id : list byte) (r : Room) (s : Server) : nat * Server :=
  let l := next_room s in
  (l, mkServer (s_cfg s) (<[l := r]> (heap s)) (S l) (<[id := l]> (rooms s)) (addrToRoom s) (s_q s)
        (s_rate s) (pktCh s) (totalPacketsDropped s) (s_sendErrors s) (persistDirty s) (disk s)).

Section server.
Context `{Env} `{MapRange}.

(** ** Creation *)

(** The worker count and the length of the packet channel. *)
Definition worker_count (maxPlayers : Z) : Z :=
  let workers := Z.quot maxPlayers 2 in
  let workers := if workers <? 16 then 16 else workers in
  if 64 <? workers then 64 else workers.
Definition channel_size (maxPlayers : Z) : Z :=
  let chanBuf := maxPlayers * 128 in
  if chanBuf <? 8192 then 8192 else chanBuf.

(** New, with a bound socket; [locals] are the machine's networks and [file] the
    parsed state file, if there is one. *)
Definition New (cfg : Config) (locals : list IPNet) (file : option RoomState) : option Server :=
  if negb (bool_decide (net_Mask (cf_Subnet cfg) = mask24)) then None else
  let maxPerIP := if cf_MaxPerIP cfg <=? 0 then 3 else cf_MaxPerIP cfg in
  let maxRooms := if (cf_MaxRooms cfg <=? 0) && cf_MultiRoom cfg then defaultMaxRooms else cf_MaxRooms cfg in
  let encrypted := negb (bool_decide (cf_RoomPass cfg = [])) in
  let empty scfg := mkServer scfg ∅ 0 ∅ ∅
    (newRateLimitedQueue (Some (NewBandwidthLimiter (cf_BandwidthLimit cfg)))) newRateShardsArray [] 0 0 false
    file in
  let scfg base def := mkServerCfg (worker_count (cf_MaxPlayers cfg)) (channel_size (cf_MaxPlayers cfg))
    (cf_MultiRoom cfg) maxRooms (cf_RoomPass cfg) encrypted base locals def (cf_StateDir cfg) in
  if cf_MultiRoom cfg then Some (empty (scfg (Some (cf_Subnet cfg)) None))
  else
    r ← NewRoom now (mkRoomConfig (str "default") (cf_RoomPass cfg) (cf_Subnet cfg) (cf_MaxPlayers cfg) maxPerIP);
    let r := match file with
             | Some state => if cf_StateDir cfg then loadState state r else r
             | None => r
             end in
    Some (snd (add_room (str "default") r (empty (scfg None (Some 0%nat))))).

(** ** Receiving *)

(** One datagram of the UDP socket or one packet of a TCP bridge. *)
Definition receive (data : list byte) (from : UDPAddr) (s : Server) : Server :=
  if (length data <? HeaderLen + ChecksumLen)%nat then s else
  let '(ok, shards) := checkRate (s_rate s) from in
  let s := set_rate shards s in
  if negb ok then add_dropped s
  else if Z.of_nat (length (pktCh s)) <? chanBuf (s_cfg s)
  then set_pktCh (pktCh s ++ [mkJob data from]) s
  else add_dropped s.

(** ** Sending *)

(** Server.sendChecked *)
Definition srv_sendChecked (typ : byte) (payload : list byte) (to : UDPAddr) (s : Server) : Server :=
  let '(ok, q) := rlq_send now (s_q s) (EncodeChecked typ payload) to priorityHigh in
  let s := set_q q s in
  if ok then s else add_sendErrors s.

(** Server.sendKickCode *)
Definition srv_sendKickCode (to : UDPAddr) (code : byte) (reason : list byte) (s : Server) : Server :=
  srv_sendChecked TypeKick (KickPayload_Marshal (mkKick reason code)) to s.
Definition srv_sendKick (to : UDPAddr) (reason : list byte) (s : Server) : Server :=
  srv_sendKickCode to KickCodeNone reason s.

(** ** NAT probe *)

(** Server.handleNATProbe *)
Definition handleNATProbe (payload : list byte) (from : UDPAddr) (s : Server) : Server :=
  match UnmarshalNATProbe payload with
  | Ok probeID =>
      srv_sendChecked TypeNATResponse
        (NATResponsePayload_Marshal (mkNATResponse probeID NATTypeUnknown (Some from) None)) from s
  | _ => s
  end.

(** ** Rebind *)

(** Server.sendRebindAck *)
Definition sendRebindAck (to : UDPAddr) (success : bool) (s : Server) : Server :=
  srv_sendChecked TypeRebindAck (RebindAckPayload_Marshal success) to s.

(** The first room, in range order, that has a player of this address. *)
Definition find_vip (vipKey : ipkey) (s : Server) : option (nat * Room * nat * Client) :=
  let hits := omap (fun '(_, rl) =>
    r ← heap s !! rl; '(l, c) ← vip_client (r_core r) vipKey; Some (rl, r, l, c)) (go_range (rooms s)) in
  head hits.

(** The proof the client gives: the HMAC of its virtual address, or in a room
    without password a recent sign of life. *)
Definition rebind_allowed (r : Room) (c : Client) (req : RebindPayload) : bool :=
  match r_roomPass (r_cfg r) with
  | [] => negb (30 * Second <? now - cl_lastSeen c)
  | pass =>
      if (length (rb_HMAC req) =? 0)%nat then false else
      match DeriveKey pass (cl_authRoomID c) with
      | None => false
      | Some key =>
          hmac_Equal (rb_HMAC req)
            (ComputeHMAC (Some key) [] (cl_authRoomID c) (cl_Username c)
               (Some (mkUDPAddr (rb_VirtualIP req) 0 [])))
      end
  end.

(** Server.handleRebind *)
Definition handleRebind (payload : list byte) (from : UDPAddr) (s : Server) : Server :=
  match UnmarshalRebind payload with
  | Ok req =>
      if negb (bool_decide (is_Some (To4 (rb_VirtualIP req)))) then sendRebindAck from false s else
      let vipKey := IPKey (rb_VirtualIP req) in
      match find_vip vipKey s with
      | None => sendRebindAck from false s
      | Some (rl, r, l, c) =>
          if negb (rebind_allowed r c req) then sendRebindAck from false s
          else if negb (bool_decide (is_Some (clients (r_core r) !! vipKey))) then sendRebindAck from false s
          else
            let s := in_room rl (fun w =>
              on_stats (set_lastActivity now) (on_core (move_client l c from) w)) s in
            let s :=
              if multiRoom (s_cfg s) then
                let m := match cl_PublicAddr c with
                         | Some a => delete (AddrToRateKey a) (addrToRoom s)
                         | None => addrToRoom s
                         end in
                set_addrToRoom (<[AddrToRateKey from := rl]> m) s
              else s in
            let s := sendRebindAck from true s in
            in_room rl (sendPeerInfoToClient from) s
      end
  | _ => s
  end.

(** ** Multi-room dispatch *)

(** Find or create the room of a Register packet; otherwise the reason it is
    refused. *)
Definition find_or_create (id : list byte) (s : Server) : (list byte + nat) * Server :=
  match rooms s !! id with
  | Some l => (inr l, s)
  | None =>
      if (0 <? maxRooms (s_cfg s)) && (maxRooms (s_cfg s) <=? Z.of_nat (size (rooms s)))
      then (inl (str "server room limit reached"), s)
      else
        let in_use := omap (fun '(_, l) => (fun r => r_subnet (r_cfg r)) <$> heap s !! l) (go_range (rooms s)) in
        let base := match (l ← defaultRoom (s_cfg s); heap s !! l) with
                    | Some r => Some (r_subnet (r_cfg r))
                    | None => baseSubnet (s_cfg s) end in
        match allocateSubnet base in_use (localSubnets (s_cfg s)) with
        | None => (inl (str "no available subnets for new room"), s)
        | Some subnet =>
            match NewRoom now (mkRoomConfig id (roomPass (s_cfg s)) subnet 254 3) with
            | None => (inl (str "failed to create room"), s)
            | Some r => let '(l, s) := add_room id r s in (inr l, s)
            end
        end
  end.

(** Server.handleRegisterMultiRoom *)
Definition handleRegisterMultiRoom (payload : list byte) (from : UDPAddr) (s : Server) : Server :=
  match UnmarshalRegister payload with
  | Ok reg =>
      if (length (rp_RoomID reg) =? 0)%nat || (maxRoomIDLen <? length (rp_RoomID reg))%nat
      then srv_sendKick from (KickInvalidRoom T) s
      else
      match find_or_create (rp_RoomID reg) s with
      | (inl reason, s) => srv_sendKick from reason s
      | (inr l, s) =>
          let fromKey := AddrToRateKey from in
          let s := in_room l (HandlePacket TypeRegister payload from) s in
          let registered := match heap s !! l with
                            | Some r => bool_decide (is_Some (addrMap (r_core r) !! fromKey))
                            | None => false end in
          if registered then set_addrToRoom (<[fromKey := l]> (addrToRoom s)) s else s
      end
  | _ => s
  end.

(** Server.handlePacketMultiRoom *)
Definition handlePacketMultiRoom (msg : Message) (from : UDPAddr) (s : Server) : Server :=
  if bool_decide (Type_ msg = TypeRegister) then handleRegisterMultiRoom (Payload msg) from s
  else
    match room_of s (AddrToRateKey from) with
    | None => s
    | Some (l, r) =>
        if r_stopped r then s
        else in_room l (HandlePacket (Type_ msg) (Payload msg) from) s
    end.

(** ** Dispatch *)

(** The packets that are never encrypted: their checksum is verified even where
    AEAD protects the others. *)
Definition pre_auth (typ : byte) : bool :=
  bool_decide (typ = TypeRegister) || bool_decide (typ = TypeNATProbe)
  || bool_decide (typ = TypeAuthResponse) || bool_decide (typ = TypeRebind).

Definition dispatch (msg : Message) (from : UDPAddr) (s : Server) : Server :=
  if bool_decide (Type_ msg = TypeNATProbe) then handleNATProbe (Payload msg) from s
  else if bool_decide (Type_ msg = TypeRebind) then handleRebind (Payload msg) from s
  else if multiRoom (s_cfg s) then handlePacketMultiRoom msg from s
  else match defaultRoom (s_cfg s) with
       | Some l => in_room l (HandlePacket (Type_ msg) (Payload msg) from) s
       | None => s
       end.

Definition version_mismatch_reason : list byte :=
  str "Protocol version mismatch: server=" ++ itoa (b2z ProtocolVersion) ++ str ", please update your client".

(** Server.handlePacket *)
Definition handlePacket (data : list byte) (from : UDPAddr) (s : Server) : Server :=
  if cachedEncrypted (s_cfg s) then
    match Decode data with
    | Ok msg =>
        if pre_auth (Type_ msg) then
          match VerifyChecksum data with Ok _ => dispatch msg from s | _ => s end
        else dispatch msg from s
    | _ => s
    end
  else
    match DecodeChecked data with
    | Ok msg => dispatch msg from s
    | Err (ErrUnsupportedVersion _) =>
        srv_sendKickCode from KickCodeVersionMismatch version_mismatch_reason s
    | _ => s
    end.

(** One job of Server.worker. *)
Definition worker (s : Server) : Server :=
  match pktCh s with
  | [] => s
  | job :: l => handlePacket (job_data job) (job_addr job) (set_pktCh l s)
  end.

(** ** Ticks *)

(** The locations of the rooms, in range order. *)
Definition room_locs (s : Server) : list nat := map snd (go_range (rooms s)).

(** Server.cleanupStaleClients *)
Definition cleanupStaleClients (s : Server) : Server :=
  foldl (fun s l => in_room l (fun w =>
    let '(changed, w) := CleanupStale w in
    if changed then invalidatePeerInfoCache w else w) s) s (room_locs s).

(** [room.addrMap[k] == nil] for the room an address is routed to. *)
Definition route_stale (s : Server) (k : RateKey) : bool :=
  match room_of s k with
  | Some (_, r) => negb (bool_decide (is_Some (addrMap (r_core r) !! k)))
  | None => false
  end.

(** Server.cleanupStaleAddrToRoom *)
Definition cleanupStaleAddrToRoom (s : Server) : Server :=
  let stale := List.filter (route_stale s) (map fst (go_range (addrToRoom s))) in
  foldl (fun s k => if route_stale s k then set_addrToRoom (delete k (addrToRoom s)) s else s) s stale.

(** One room of cleanupIdleRooms. *)
Definition idle_step (s : Server) (entry : list byte * nat) : Server :=
  let '(roomID, l) := entry in
  if bool_decide (roomID = str "default") then s else
  match heap s !! l with
  | None => s
  | Some room =>
      if 0 <? ClientCount room then s
      else if roomIdleTimeout <? now - lastActivity (r_stats room) then
        set_rooms (delete roomID (rooms s)) (set_heap (<[l := Stop room]> (heap s)) s)
      else s
  end.

(** Server.cleanupIdleRooms *)
Definition cleanupIdleRooms (s : Server) : Server := foldl idle_step s (go_range (rooms s)).

(** One tick of Server.keepaliveLoop. *)
Definition keepaliveTick (s : Server) : Server :=
  let s := cleanupStaleClients s in
  if multiRoom (s_cfg s) then cleanupIdleRooms (cleanupStaleAddrToRoom s) else s.

(** Server.saveState, when the file can be written. *)
Definition saveState (s : Server) : Server :=
  if negb (stateEnabled (s_cfg s)) then s else
  match (l ← defaultRoom (s_cfg s); heap s !! l) with
  | None => s
  | Some r => set_disk (Some (SnapshotState r)) s
  end.

(** One tick of Server.persistLoop. *)
Definition persistTick (s : Server) : Server :=
  if negb (stateEnabled (s_cfg s)) then s
  else if persistDirty s then saveState (set_persistDirty false s) else s.

(** One tick of Server.bwCleanupLoop. *)
Definition bwCleanupTick (s : Server) : Server :=
  set_q (mkRLQ (rlq_sq (s_q s)) (limiter_Cleanup now (rlq_limiter (s_q s)) (300 * Second))) s.

(** Server.Close: players are told, the queue drains, the state is saved, the
    rooms stop. *)
Definition Close (s : Server) : Server :=
  let s := foldl (fun s l => in_room l notifyShutdown s) s (room_locs s) in
  let s := set_q (mkRLQ (drain (rlq_sq (s_q s))) (rlq_limiter (s_q s))) s in
  let s := saveState s in
  foldl (fun s l => in_room l (on_room Stop) s) s (room_locs s).

(** ** Events *)

Inductive ServerEvent :=
| SvReceive (data : list byte) (from : UDPAddr)
| SvWorker
| SvRateTick
| SvKeepalive
| SvPersist
| SvBwCleanup
| SvRoom (l : nat) (ev : RoomEvent). (** a tick of a running room *)

(** The room events that are ticks. *)
Definition is_tick (ev : RoomEvent) : bool :=
  match ev with EvPeerInfoTick | EvPingTick | EvRegTick => true | _ => false end.

Definition server_step (ev : ServerEvent) (s : Server) : Server :=
  match ev with
  | SvReceive data from => receive data from s
  | SvWorker => worker s
  | SvRateTick => set_rate (rateTick (s_rate s)) s
  | SvKeepalive => keepaliveTick s
  | SvPersist => persistTick s
  | SvBwCleanup => bwCleanupTick s
  | SvRoom l ev =>
      match heap s !! l with
      | Some r => if r_stopped r || negb (is_tick ev) then s else in_room l (room_step ev) s
      | None => s
      end
  end.
End server.
