(* ===== verification/ServerExample.v ===== *)
(** * ServerExample: concrete servers

    Small histories of datagrams the witnesses of the server theorems run. *)

From S2P Require Import Prelude GoNet Crc32 Protocol Messages MessagesData MessagesPeer NetUtil RateLimit Float64 Bandwidth SendQueue Sha256 Auth I18n Client Room RoomHandlers RoomIP RoomInv RoomSafe RoomExample Persist Subnet Server.

Definition ex_srv_config (pass : list byte) (multi : bool) : Config :=
  mkConfig (mkIPNet (IPv4 x0a x0a x00 x00) mask24) 4 pass 3 false multi 0 2.

Lemma ex_srv_ok pass multi : is_Some (@New (ex_env 0 x00) _ (ex_srv_config pass multi) [] None).
Proof. by destruct multi; eexists. Qed.
Definition ex_srv (pass : list byte) (multi : bool) : Server := is_Some_proj (ex_srv_ok pass multi).

(** datagram arrives and is handled, at second [t]. *)
Definition deliver (t : Z) (seed : byte) (data : list byte) (from : UDPAddr) (s : Server) : Server :=
  let e := ex_env (t * Second) seed in
  @server_step e _ SvWorker (@server_step e _ (SvReceive data from) s).

Definition ex_register_packet (room name : string) : list byte :=
  EncodeChecked TypeRegister (RegisterPayload_Marshal (mkRegister (str room) (str name) AppVersion)).

(** Alice and Bob in two rooms of a multi-room server. *)
Definition ex_two_rooms : Server :=
  deliver 2 x02 (ex_register_packet "blue" "bob") (ex_addr x02)
    (deliver 1 x01 (ex_register_packet "red" "alice") (ex_addr x01) (ex_srv [] true)).

(** Alice has been challenged by a server with a password, and her response waits
    in the packet channel. *)
Definition ex_response_packet (pass : list byte) : list byte :=
  EncodeChecked TypeAuthResponse
    (AuthResponsePayload_Marshal (mkAuthResponse (str "lan") (str "alice") (ex_code pass))).
Definition ex_srv_challenged : Server :=
  deliver 1 x01 (ex_register_packet "lan" "alice") (ex_addr x01) (ex_srv ex_pass false).
Definition ex_srv_waiting : Server :=
  @server_step ex_env2 _ (SvReceive (ex_response_packet ex_pass) (ex_addr x01)) ex_srv_challenged.

(** The names of a server's players by room and address. *)
Definition player_name (s : Server) (id : list byte) (vip : IP) : option (list byte) :=
  '(_, r) ← room_named s id; '(_, c) ← vip_client (r_core r) (IPKey vip); Some (cl_Username c).

Example ex_two_rooms_players :
  player_name ex_two_rooms (str "red") (IPv4 x0a x0a x02 x02) = Some (str "alice") ∧
  player_name ex_two_rooms (str "blue") (IPv4 x0a x0a x03 x02) = Some (str "bob") ∧
  size (addrToRoom ex_two_rooms) = 2%nat.
Proof. vm_compute. done. Qed.

Example ex_login :
  player_name ex_srv_waiting (str "default") (ex_vip x02) = None ∧
  player_name (@server_step ex_env2 _ SvWorker ex_srv_waiting) (str "default") (ex_vip x02) = Some (str "alice").
Proof. vm_compute. done. Qed.
