(* ===== verification/TcpAccept.v ===== *)
(** * Server: TCP clients

    tcpAcceptLoop and the routing of replies of src/internal/server/server.go, with
    UDPTCPBridge of src/internal/netutil/tcptransport.go.  A bridge is the
    transport it holds and a synthetic UDP address; the candidates tried for one
    connection share its transport, so transports are locations. *)

From S2P Require Import Prelude GoNet Crc32 Protocol Messages MessagesData MessagesPeer NetUtil RateLimit Float64 Bandwidth SendQueue Sha256 Auth I18n Client Room RoomHandlers RoomExample Persist Subnet Server ServerExample.

(** [tcpPortCounter] is an atomic.Uint32; [tcpBridges] maps the key of a synthetic
    address to the location of the bridge's transport. *)
Record TcpSide := mkTcpSide {
  tcpPortCounter : Z; tcpBridges : gmap RateKey nat; transports : gmap nat TCPTransport }.

Definition set_bridges m (st : TcpSide) : TcpSide := mkTcpSide (tcpPortCounter st) m (transports st).
Definition set_transports m (st : TcpSide) : TcpSide := mkTcpSide (tcpPortCounter st) (tcpBridges st) m.

Definition maxPortAttempts : nat := Z.to_nat 65536.

Definition syntheticAddr (port : Z) : UDPAddr := mkUDPAddr (IPv4 x7f x00 x00 xfe) port [].
Definition synthetic_key (port : Z) : RateKey := AddrToRateKey (syntheticAddr port).

(** The port the counter gives. *)
Definition port_of (counter : Z) : Z := let port := counter mod 65536 in if port =? 0 then 1 else port.

(** TCPTransport.Close on a shared transport; UDPTCPBridge.Stop is this and a wait. *)
Definition Bridge_Stop (conn : nat) (st : TcpSide) : TcpSide :=
  set_transports (alter TCP_Close conn (transports st)) st.

(** The loop over ports: the key under which the bridge was stored. *)
Fixpoint claim_port (attempts : nat) (conn : nat) (st : TcpSide) : option RateKey * TcpSide :=
  match attempts with
  | O => (None, st)
  | S attempts =>
      let counter := u32 (tcpPortCounter st + 1) in
      let st := mkTcpSide counter (tcpBridges st) (transports st) in
      let key := synthetic_key (port_of counter) in
      match tcpBridges st !! key with
      | None => (Some key, set_bridges (<[key := conn]> (tcpBridges st)) st)
      | Some _ => claim_port attempts conn (Bridge_Stop conn st)
      end
  end.

(** One accepted connection, whose transport is [conn]. *)
Definition tcp_accept (conn : nat) (st : TcpSide) : option RateKey * TcpSide :=
  match claim_port maxPortAttempts conn st with
  | (None, st) => (None, Bridge_Stop conn st)
  | r => r
  end.

(** The goroutine of a bridge: every packet of the connection is received under the
    synthetic address; the end of the loop deletes the bridge and stops it.  The
    input of the transport is what the connection delivers until it fails. *)
Definition bridge_addr (key : RateKey) : UDPAddr := syntheticAddr (rk_Port key).

Definition bridge_run (key : RateKey) (conn : nat) (s : Server) (st : TcpSide) : Server * TcpSide :=
  match transports st !! conn with
  | None => (s, st)
  | Some t =>
      let packets := fst (ReceiveLoop (S (length (tcp_in t))) t) in
      (foldl (fun s data => receive data (bridge_addr key) s) s packets,
       Bridge_Stop conn (set_bridges (delete key (tcpBridges st)) st))
  end.

(** The routing closure of New: whether the packet was for a bridge. *)
Definition tcpWrite (addr : UDPAddr) (data : list byte) (st : TcpSide) : bool * TcpSide :=
  match tcpBridges st !! AddrToRateKey addr with
  | None => (false, st)
  | Some conn =>
      match transports st !! conn with
      | Some t => (* a failed Send is logged *)
                  let '(_, t) := TCP_Send t data in
                  (true, set_transports (<[conn := t]> (transports st)) st)
      | None => (true, st)
      end
  end.

(** sendQueue.writeUDP: the datagrams of the UDP socket, in order. *)
Definition write_entry (a : list sendEntry * TcpSide) (e : sendEntry) : list sendEntry * TcpSide :=
  let '(udp, st) := a in
  let '(ok, st) := tcpWrite (se_addr e) (se_data e) st in
  if ok then (udp, st) else (udp ++ [e], st).
Definition transmit (l : list sendEntry) (st : TcpSide) : list sendEntry * TcpSide :=
  foldl write_entry ([], st) l.

(** The bridges at Close. *)
Definition close_bridges (st : TcpSide) : TcpSide :=
  set_bridges ∅ (foldl (fun st '(_, conn) => Bridge_Stop conn st) st (map_to_list (tcpBridges st))).

(** ** Facts *)

Definition free_port (st : TcpSide) (p : Z) : Prop := tcpBridges st !! synthetic_key p = None.

Lemma port_of_range c : 1 ≤ port_of c ≤ 65535.
Proof.
  unfold port_of. pose proof (Z.mod_pos_bound c 65536 ltac:(lia)).
  destruct (Z.eqb_spec (c mod 65536) 0); lia.
Qed.

Lemma synthetic_key_inj p q : 1 ≤ p ≤ 65535 → 1 ≤ q ≤ 65535 → synthetic_key p = synthetic_key q → p = q.
Proof.
  intros Hp Hq E. apply (f_equal rk_Port) in E. cbn in E. unfold u16 in E.
  rewrite !Z.mod_small in E by lia. done.
Qed.

Lemma port_of_u32 c : port_of (u32 c) = port_of c.
Proof.
  unfold port_of, u32. rewrite (Z.mod_eq c (2 ^ 32)) by done.
  replace (c - 2 ^ 32 * (c / 2 ^ 32)) with (c + (- (65536 * (c / 2 ^ 32))) * 65536) by lia.
  by rewrite Z_mod_plus_full.
Qed.

(** The port of the attempt after [i] collisions. *)
Definition attempt (st : TcpSide) (i : nat) : Z := port_of (tcpPortCounter st + 1 + Z.of_nat i).

Lemma attempts_cover st p : 1 ≤ p ≤ 65535 → ∃ i, (i < maxPortAttempts)%nat ∧ attempt st i = p.
Proof.
  intros Hp. set (c := tcpPortCounter st + 1).
  pose proof (Z.mod_pos_bound (p - c) 65536 ltac:(lia)) as Hb.
  exists (Z.to_nat ((p - c) mod 65536)). split; [unfold maxPortAttempts; lia|].
  unfold attempt, port_of. fold c. rewrite Z2Nat.id by lia.
  rewrite Z.add_mod_idemp_r by lia. replace (c + (p - c)) with p by lia.
  rewrite Z.mod_small by lia. destruct (Z.eqb_spec p 0); lia.
Qed.

Lemma TCP_Close_idem t : TCP_Close (TCP_Close t) = TCP_Close t.
Proof. unfold TCP_Close. destruct (tcp_closed t) eqn:E; by rewrite ?E. Qed.

Lemma alter_Close_idem conn (m : gmap nat TCPTransport) :
  alter TCP_Close conn (alter TCP_Close conn m) = alter TCP_Close conn m.
Proof.
  apply map_eq. intros j. destruct (decide (j = conn)) as [->|Hne].
  - rewrite !lookup_alter_eq. destruct (m !! conn); [|done]. cbn. by rewrite TCP_Close_idem.
  - by rewrite !lookup_alter_ne.
Qed.

(** What [n] attempts find: the first free port, or that there is none. *)
Lemma claim_port_spec n conn st :
  match claim_port n conn st with
  | (Some k, st') => ∃ i, (i < n)%nat ∧ free_port st (attempt st i) ∧
      (∀ j, (j < i)%nat → ¬ free_port st (attempt st j)) ∧ k = synthetic_key (attempt st i) ∧
      tcpBridges st' = <[k := conn]> (tcpBridges st) ∧
      transports st' = match i with O => transports st | S _ => alter TCP_Close conn (transports st) end
  | (None, st') => (∀ i, (i < n)%nat → ¬ free_port st (attempt st i)) ∧ tcpBridges st' = tcpBridges st ∧
      transports st' = match n with O => transports st | S _ => alter TCP_Close conn (transports st) end
  end.
Proof.
  revert st. induction n as [|n IH]; intros st; cbn [claim_port]; [split; [lia|done]|].
  assert (∀ i, attempt (mkTcpSide (u32 (tcpPortCounter st + 1)) (tcpBridges st) (alter TCP_Close conn (transports st))) i
               = attempt st (S i)) as Hatt.
  { intros i. unfold attempt. cbn [tcpPortCounter]. rewrite <- (port_of_u32 (u32 _ + 1 + _)).
    rewrite <- (port_of_u32 (tcpPortCounter st + 1 + Z.of_nat (S i))). f_equal. unfold u32.
    rewrite <- !Z.add_assoc, Z.add_mod_idemp_l by lia. f_equal. lia. }
  assert (port_of (u32 (tcpPortCounter st + 1)) = attempt st 0) as ->
    by (rewrite port_of_u32; unfold attempt; f_equal; lia).
  cbn [tcpBridges]. destruct (tcpBridges st !! synthetic_key (attempt st 0)) as [c0|] eqn:E0.
  - assert (¬ free_port st (attempt st 0)) as H0 by (unfold free_port; congruence).
    specialize (IH (mkTcpSide (u32 (tcpPortCounter st + 1)) (tcpBridges st) (alter TCP_Close conn (transports st)))).
    unfold Bridge_Stop, set_transports. cbn [tcpPortCounter tcpBridges transports].
    destruct (claim_port n conn _) as [[k|] st'].
    + destruct IH as (i & Hi & Hfree & Hprev & Hk & Hbr & Htr). rewrite Hatt in Hfree, Hk.
      exists (S i). split_and!; [lia|done| |done|done|].
      * intros [|j] Hj; [done|]. rewrite <- Hatt. apply Hprev. lia.
      * rewrite Htr. cbn [transports]. destruct i; [done|apply alter_Close_idem].
    + destruct IH as (Hnone & Hbr & Htr). split_and!; [|done|].
      * intros [|i] Hi; [done|]. rewrite <- Hatt. apply Hnone. lia.
      * rewrite Htr. cbn [transports]. destruct n; [done|apply alter_Close_idem].
  - exists O. split_and!; [lia|done|lia|done|done|done].
Qed.

#[local] Opaque maxPortAttempts.

(** Accepting a TCP connection always ends: the bridge is stored under the
    synthetic address of the first free port after the counter, and the connection
    is refused, and closed, exactly when all 65535 ports are in use.  The
    connection stays open only when the first port tried is free. *)
Theorem tcp_accept_spec conn st :
  match tcp_accept conn st with
  | (Some k, st') => ∃ p, 1 ≤ p ≤ 65535 ∧ k = synthetic_key p ∧ free_port st p ∧
      tcpBridges st' = <[k := conn]> (tcpBridges st) ∧
      (free_port st (port_of (tcpPortCounter st + 1)) → transports st' = transports st) ∧
      (¬ free_port st (port_of (tcpPortCounter st + 1)) → transports st' = alter TCP_Close conn (transports st))
  | (None, st') => (∀ p, 1 ≤ p ≤ 65535 → ¬ free_port st p) ∧ tcpBridges st' = tcpBridges st ∧
      transports st' = alter TCP_Close conn (transports st)
  end.
Proof.
  unfold tcp_accept. pose proof (claim_port_spec maxPortAttempts conn st) as Hspec.
  assert (port_of (tcpPortCounter st + 1) = attempt st 0) as -> by (unfold attempt; f_equal; lia).
  destruct (claim_port _ _ _) as [[k|] st'].
  - destruct Hspec as (i & Hi & Hfree & Hprev & -> & Hbr & Htr). exists (attempt st i).
    split_and!; [apply port_of_range..|done|done|done| |]; rewrite Htr.
    + intros H0. destruct i; [done|]. destruct (Hprev O); [lia|done].
    + intros H0. by destruct i.
  - destruct Hspec as (Hnone & Hbr & Htr). split_and!; [|done|].
    + intros p Hp. destruct (attempts_cover st p Hp) as (i & Hi & <-). by apply Hnone.
    + cbn [Bridge_Stop set_transports transports]. rewrite Htr.
      destruct maxPortAttempts; [done|apply alter_Close_idem].
Qed.

Lemma bridge_addr_key p : 1 ≤ p ≤ 65535 → bridge_addr (synthetic_key p) = syntheticAddr p.
Proof.
  intros Hp. unfold bridge_addr, synthetic_key, AddrToRateKey. cbn. unfold u16. by rewrite Z.mod_small by lia.
Qed.

(** The receive loop of a transport whose stream is made of frames. *)
Lemma ReceiveLoop_frames ps out room fuel :
  Forall frame_ok ps → (length ps < fuel)%nat →
  ReceiveLoop fuel (mkTCP out (frames ps) false room) = (ps, Some TCPReadHeader).
Proof.
  intros H. revert fuel. induction H as [|p ps Hp Hps IH]; intros [|fuel] Hf; try (cbn in Hf; lia); [done|].
  cbn [ReceiveLoop]. unfold frames. cbn [map concat]. rewrite TCP_Receive_frame by done.
  fold (frames ps). rewrite IH by (cbn in Hf; lia). done.
Qed.

Lemma length_frames ps : Forall frame_ok ps → (length ps ≤ length (frames ps))%nat.
Proof.
  intros H. induction H as [|p ps Hp Hps IH]; [done|].
  unfold frames in *. cbn [map concat]. unfold frame_ok in Hp. rewrite !length_app. cbn [Datatypes.length]. lia.
Qed.

(** C20: The TCP path of a client, when the first port the counter gives is free: the
    server receives every packet (of 1 to 65535 bytes) whose Send succeeded at the client, in order,
    under the synthetic address of that port, as if they had been datagrams from
    there; when the connection ends the bridge is gone. *)
Theorem tcp_client_received s st conn ps client room room' :
  let p := port_of (tcpPortCounter st + 1) in
  free_port st p → Forall frame_ok ps → send_all (mkTCP [] [] false room) ps = Ok client →
  transports st !! conn = Some (mkTCP [] (tcp_out client) false room') →
  ∃ st', tcp_accept conn st = (Some (synthetic_key p), st') ∧
    let '(s', st'') := bridge_run (synthetic_key p) conn s st' in
    s' = foldl (fun s data => receive data (syntheticAddr p) s) s ps ∧
    tcpBridges st'' = tcpBridges st.
Proof.
  intros p Hfree Hps Hsend Hconn. apply send_all_ok in Hsend; [|done..]. cbn [tcp_out app] in Hsend. rewrite Hsend in Hconn.
  pose proof (port_of_range (tcpPortCounter st + 1)) as Hp. fold p in Hp.
  destruct (tcp_accept conn st) as [[k|] st'] eqn:Hacc.
  - pose proof (claim_port_spec maxPortAttempts conn st) as Hspec. unfold tcp_accept in Hacc.
    assert (attempt st 0 = p) as E0 by (unfold attempt, p; f_equal; lia).
    destruct (claim_port _ _ _) as [[k'|] st1]; [|done]. injection Hacc as -> ->.
    destruct Hspec as (i & _ & _ & Hprev & -> & Hbr & Htr).
    destruct i as [|i]; [|destruct (Hprev O); [lia|by rewrite E0]].
    rewrite E0 in *. exists st'. split; [done|]. unfold bridge_run. rewrite Htr, Hconn. cbn [tcp_in tcp_out app].
    rewrite ReceiveLoop_frames; [|done|pose proof (length_frames _ Hps); lia]. cbn [fst].
    rewrite bridge_addr_key by done. split; [done|]. cbn [Bridge_Stop set_transports set_bridges tcpBridges].
    rewrite Hbr. by apply delete_insert_id.
  - pose proof (tcp_accept_spec conn st) as Hspec. rewrite Hacc in Hspec.
    destruct Hspec as (Hnone & _). by destruct (Hnone p).
Qed.

(** After a collision the transport the new bridge shares with the failed
    candidate is closed: the client is accepted, under the address of a free port,
    and dropped without one of its packets being received. *)
Theorem tcp_collision_drops_client s st conn :
  ¬ free_port st (port_of (tcpPortCounter st + 1)) → (∃ p, 1 ≤ p ≤ 65535 ∧ free_port st p) →
  is_Some (transports st !! conn) →
  ∃ k st', tcp_accept conn st = (Some k, st') ∧ tcpBridges st' !! k = Some conn ∧
    let '(s', st'') := bridge_run k conn s st' in s' = s ∧ tcpBridges st'' = tcpBridges st.
Proof.
  intros Hocc (p & Hp & Hfree) [t Hconn]. pose proof (tcp_accept_spec conn st) as Hspec.
  destruct (tcp_accept conn st) as [[k|] st'].
  - destruct Hspec as (q & Hq & -> & Hqf & Hbr & _ & Htr). exists (synthetic_key q), st'. split; [done|].
    rewrite Hbr, lookup_insert_eq. split; [done|]. unfold bridge_run.
    rewrite (Htr Hocc), lookup_alter_eq, Hconn. cbn [fmap option_fmap option_map].
    assert (tcp_closed (TCP_Close t) = true) as Hcl by (unfold TCP_Close; by destruct (tcp_closed t) eqn:E).
    cbn [ReceiveLoop]. unfold TCP_Receive. rewrite Hcl. cbn [fst foldl]. split; [done|].
    cbn [Bridge_Stop set_transports set_bridges tcpBridges]. rewrite Hbr. by apply delete_insert_id.
  - destruct Hspec as (Hnone & _). by destruct (Hnone p Hp).
Qed.

(** ** Reachable states of the bridges *)

Inductive tcp_step : TcpSide → TcpSide → Prop :=
| TsAccept conn t st :
    (* a new connection *)
    transports st !! conn = None →
    tcp_step st (snd (tcp_accept conn (set_transports (<[conn := t]> (transports st)) st)))
| TsEnd key conn s st :
    tcpBridges st !! key = Some conn → tcp_step st (snd (bridge_run key conn s st))
| TsWrite addr data st : tcp_step st (snd (tcpWrite addr data st))
| TsClose st : tcp_step st (close_bridges st).

Inductive tcp_reach : TcpSide → Prop :=
| TrStart : tcp_reach (mkTcpSide 0 ∅ ∅)
| TrStep st st' : tcp_reach st → tcp_step st st' → tcp_reach st'.

(** Every bridge has a transport of its own and the address of a port. *)
Record bridges_ok (st : TcpSide) : Prop := {
  bo_own : ∀ k1 k2 c, tcpBridges st !! k1 = Some c → tcpBridges st !! k2 = Some c → k1 = k2;
  bo_conn : ∀ k c, tcpBridges st !! k = Some c → is_Some (transports st !! c);
  bo_port : ∀ k c, tcpBridges st !! k = Some c → ∃ p, 1 ≤ p ≤ 65535 ∧ k = synthetic_key p }.

Lemma bridges_ok_sub st st' :
  bridges_ok st → tcpBridges st' ⊆ tcpBridges st → dom (transports st) ⊆ dom (transports st') → bridges_ok st'.
Proof.
  intros [H1 H2 H3] Hsub Hdom. rewrite map_subseteq_spec in Hsub. split.
  - intros k1 k2 c G1%Hsub G2%Hsub. by eapply H1.
  - intros k c G%Hsub. apply elem_of_dom, Hdom, elem_of_dom. by eapply H2.
  - intros k c G%Hsub. by eapply H3.
Qed.

Lemma foldl_Bridge_Stop l st :
  let st' := foldl (fun st '((_, conn) : RateKey * nat) => Bridge_Stop conn st) st l in
  tcpBridges st' = tcpBridges st ∧ dom (transports st') = dom (transports st).
Proof.
  revert st. induction l as [|[k c] l IH]; intros st; [done|]. cbn [foldl].
  destruct (IH (Bridge_Stop c st)) as [-> ->]. cbn. by rewrite dom_alter_L.
Qed.

Lemma tcp_step_ok st st' : bridges_ok st → tcp_step st st' → bridges_ok st'.
Proof.
  intros Hok Hst. destruct Hst as [conn t st Hnew|key conn s st Hk|addr data st|st].
  - set (st1 := set_transports _ st).
    assert (bridges_ok st1) as Hok1.
    { eapply bridges_ok_sub; [done|done|]. cbn. rewrite dom_insert_L. set_solver. }
    assert (is_Some (transports st1 !! conn)) as Hc1 by (cbn; rewrite lookup_insert_eq; by eexists).
    assert (∀ k, tcpBridges st1 !! k ≠ Some conn) as Hfresh.
    { intros k Hkc. destruct (bo_conn _ Hok _ _ Hkc) as [t' Ht']. congruence. }
    pose proof (tcp_accept_spec conn st1) as Hspec. destruct (tcp_accept conn st1) as [[k|] st'] eqn:Hacc; cbn [snd].
    + destruct Hspec as (p & Hp & -> & Hfree & Hbr & Htr1 & Htr2).
      assert (dom (transports st') = dom (transports st1)) as Hdom.
      { destruct (decide (free_port st1 (port_of (tcpPortCounter st1 + 1)))) as [G|G];
          [by rewrite (Htr1 G)|by rewrite (Htr2 G), dom_alter_L]. }
      split; intros k1.
      * intros k2 c. rewrite Hbr, !lookup_insert_Some.
        intros [[<- <-]|[_ G1]] [[<- ?]|[_ G2]]; try done; try by destruct (Hfresh k2); [..|congruence].
        -- by destruct (Hfresh k1); subst.
        -- by eapply (bo_own _ Hok1).
      * intros c. rewrite Hbr, lookup_insert_Some, <- elem_of_dom, Hdom, elem_of_dom.
        intros [[_ <-]|[_ G]]; [done|by eapply (bo_conn _ Hok1)].
      * intros c. rewrite Hbr, lookup_insert_Some. intros [[<- _]|[_ G]]; [by eexists|by eapply (bo_port _ Hok1)].
    + destruct Hspec as (_ & Hbr & Htr). eapply bridges_ok_sub; [exact Hok1|by rewrite Hbr|by rewrite Htr, dom_alter_L].
  - unfold bridge_run. destruct (transports st !! conn); [|done].
    eapply bridges_ok_sub; [done| |]; cbn; [apply delete_subseteq|by rewrite dom_alter_L].
  - unfold tcpWrite. destruct (tcpBridges st !! _) as [c|]; [|done].
    destruct (transports st !! c) as [t|]; [|done].
    destruct (TCP_Send t data) as [? t']. eapply bridges_ok_sub; [done|done|].
    cbn. rewrite dom_insert_L. set_solver.
  - unfold close_bridges. destruct (foldl_Bridge_Stop (map_to_list (tcpBridges st)) st) as [E1 E2].
    eapply bridges_ok_sub; [done| |]; cbn; [apply map_empty_subseteq|by rewrite E2].
Qed.

Lemma tcp_reach_ok st : tcp_reach st → bridges_ok st.
Proof. intros H. induction H; [by split|by eapply tcp_step_ok]. Qed.

(** What is written for the bridge at [k]. *)
Definition for_bridge (k : RateKey) (l : list sendEntry) : list (list byte) :=
  map se_data (List.filter (fun e => bool_decide (AddrToRateKey (se_addr e) = k)) l).

(** A transport after writing [ps]: a closed one refuses them, and a connection takes
    what it has room for. *)
Definition after_sends (t : TCPTransport) (ps : list (list byte)) : TCPTransport :=
  if tcp_closed t then t
  else let '(written, room, _) := conn_write (tcp_room t) (frames ps) in
       mkTCP (tcp_out t ++ written) (tcp_in t) false room.

Lemma after_sends_snoc t ps p :
  Z.of_nat (length p) ≤ 65535 → snd (TCP_Send (after_sends t ps) p) = after_sends t (ps ++ [p]).
Proof.
  intros Hp. unfold after_sends, TCP_Send. destruct (tcp_closed t) eqn:Hc; [by rewrite Hc|].
  pose proof (conn_write_app (tcp_room t) (frames ps) (len16 p ++ p)) as Happ.
  assert (frames (ps ++ [p]) = frames ps ++ len16 p ++ p) as ->.
  { unfold frames. rewrite map_app, concat_app. cbn [map concat]. by rewrite app_nil_r. }
  destruct (conn_write (tcp_room t) (frames ps)) as [[wa r1] ok1]. cbn [tcp_closed tcp_out tcp_in tcp_room].
  destruct (Z.ltb_spec 65535 (Z.of_nat (length p))); [lia|]. fold (len16 p).
  destruct (conn_write r1 _) as [[wb r2] ok2]. destruct (conn_write _ (frames ps ++ _)) as [[w r] ok]. cbn [snd fst] in *.
  injection Happ as -> ->. by rewrite app_assoc.
Qed.

Lemma for_bridge_snoc k l e :
  for_bridge k (l ++ [e]) = for_bridge k l ++ (if bool_decide (AddrToRateKey (se_addr e) = k) then [se_data e] else []).
Proof. unfold for_bridge. rewrite List.filter_app, map_app. cbn. by destruct (bool_decide _). Qed.

Lemma tcpWrite_bridges addr data st : tcpBridges (snd (tcpWrite addr data st)) = tcpBridges st.
Proof.
  unfold tcpWrite. destruct (tcpBridges st !! _); [|done]. destruct (transports st !! _); [|done].
  by destruct (TCP_Send _ _) as [? t'].
Qed.

Lemma transmit_inv st l :
  bridges_ok st → Forall (fun e => Z.of_nat (length (se_data e)) ≤ 65535) l →
  let '(udp, st') := transmit l st in
  tcpBridges st' = tcpBridges st ∧
  udp = List.filter (fun e => bool_decide (tcpBridges st !! AddrToRateKey (se_addr e) = None)) l ∧
  ∀ k c t, tcpBridges st !! k = Some c → transports st !! c = Some t →
    transports st' !! c = Some (after_sends t (for_bridge k l)).
Proof.
  intros Hok. induction l as [|e l IH] using rev_ind; intros Hl.
  { split_and!; [done..|]. intros k c t _ Ht. cbn. rewrite Ht. f_equal. unfold after_sends.
    destruct t as [o i [] [n|]]; [done..| |]; cbn; by rewrite ?take_nil, ?Nat.sub_0_r, ?app_nil_r. }
  apply Forall_app in Hl as [Hl [He _]%Forall_cons_1]. specialize (IH Hl).
  unfold transmit in *. rewrite foldl_snoc. destruct (foldl write_entry ([], st) l) as [udp st1].
  destruct IH as (Hbr & Hudp & Htr). unfold write_entry.
  pose proof (tcpWrite_bridges (se_addr e) (se_data e) st1) as Hbr1.
  unfold tcpWrite in *. rewrite Hbr in *. set (ke := AddrToRateKey (se_addr e)) in *.
  rewrite List.filter_app. cbn [List.filter]. fold ke.
  destruct (tcpBridges st !! ke) as [ce|] eqn:Eke.
  - destruct (bo_conn _ Hok _ _ Eke) as [te Hte]. rewrite (Htr _ _ _ Eke Hte) in *.
    rewrite bool_decide_eq_false_2 by done. rewrite app_nil_r.
    pose proof (after_sends_snoc te (for_bridge ke l) (se_data e) He) as Hs.
    assert (∀ m : gmap nat TCPTransport, m !! ce = Some (after_sends te (for_bridge ke (l ++ [e]))) →
      (∀ c, c ≠ ce → m !! c = transports st1 !! c) →
      ∀ k c t, tcpBridges st !! k = Some c → transports st !! c = Some t →
        m !! c = Some (after_sends t (for_bridge k (l ++ [e])))) as Hm.
    { intros m Hce Hother k c t Hk Ht. destruct (decide (c = ce)) as [->|Hne].
      - assert (k = ke) as -> by by eapply (bo_own _ Hok). rewrite Hce. congruence.
      - rewrite (Hother c Hne), (Htr _ _ _ Hk Ht), for_bridge_snoc. fold ke.
        rewrite bool_decide_eq_false_2, app_nil_r; [done|]. intros ->. congruence. }
    rewrite for_bridge_snoc in Hm. fold ke in Hm. rewrite bool_decide_eq_true_2 in Hm by done. rewrite <- Hs in Hm.
    destruct (TCP_Send (after_sends te (for_bridge ke l)) (se_data e)) as [? t']; cbn [snd] in *.
    split_and!; [done|done|]. apply Hm; cbn; [by rewrite lookup_insert_eq|].
    intros c Hc. by rewrite lookup_insert_ne.
  - rewrite bool_decide_eq_true_2 by done. split_and!; [done|by rewrite Hudp|].
    intros k c t Hk Ht. rewrite (Htr _ _ _ Hk Ht), for_bridge_snoc. fold ke.
    rewrite bool_decide_eq_false_2, app_nil_r; [done|]. intros ->. congruence.
Qed.

(** C18: Replies find their client: in every reachable state of the bridges, of the
    packets the send queue writes, the UDP socket sends exactly those for addresses
    without a bridge, in order, and every open TCP connection carries, framed and
    in order, exactly the packets for the synthetic address of its bridge - all of
    them while writing to it succeeds, otherwise the bytes up to the point at which it
    fails. *)
Theorem replies_routed st l :
  tcp_reach st → Forall (fun e => Z.of_nat (length (se_data e)) ≤ 65535) l →
  let '(udp, st') := transmit l st in
  udp = List.filter (fun e => bool_decide (tcpBridges st !! AddrToRateKey (se_addr e) = None)) l ∧
  ∀ k c, tcpBridges st !! k = Some c → ∃ t, transports st !! c = Some t ∧
    (tcp_closed t = false →
     let stream := frames (for_bridge k l) in
     match tcp_room t with
     | None => transports st' !! c = Some (mkTCP (tcp_out t ++ stream) (tcp_in t) false None)
     | Some n => transports st' !! c = Some (mkTCP (tcp_out t ++ take n stream) (tcp_in t) false (Some (n - length stream)%nat))
     end).
Proof.
  intros Hr%tcp_reach_ok Hl. pose proof (transmit_inv st l Hr Hl) as H.
  destruct (transmit l st) as [udp st']. destruct H as (_ & Hudp & Htr). split; [done|].
  intros k c Hk. destruct (bo_conn _ Hr _ _ Hk) as [t Ht]. exists t. split; [done|]. intros Hc.
  rewrite (Htr _ _ _ Hk Ht). unfold after_sends. rewrite Hc. by destruct (tcp_room t).
Qed.

(** Two TCP clients never share an address, so never a player: the bridges of a
    reachable state have distinct transports and synthetic addresses with distinct
    ports, at most 65535 of them. *)
Theorem tcp_clients_apart st :
  tcp_reach st →
  (∀ k1 k2 c, tcpBridges st !! k1 = Some c → tcpBridges st !! k2 = Some c → k1 = k2) ∧
  (∀ k c, tcpBridges st !! k = Some c → ∃ p, 1 ≤ p ≤ 65535 ∧ k = AddrToRateKey (syntheticAddr p)) ∧
  Z.of_nat (size (tcpBridges st)) ≤ 65535.
Proof.
  intros Hr%tcp_reach_ok. split; [apply (bo_own _ Hr)|]. split; [apply (bo_port _ Hr)|].
  rewrite <- size_dom. set (ports := list_to_set (map synthetic_key (seqZ 1 65535)) : gset RateKey).
  assert (dom (tcpBridges st) ⊆ ports) as Hsub.
  { intros k [c Hk]%elem_of_dom. destruct (bo_port _ Hr _ _ Hk) as (p & Hp & ->).
    unfold ports. apply elem_of_list_to_set, list_elem_of_fmap. exists p. split; [done|].
    apply elem_of_seqZ. lia. }
  apply subseteq_size in Hsub. unfold ports in Hsub. rewrite size_list_to_set in Hsub.
  - rewrite length_map, length_seqZ in Hsub. lia.
  - apply NoDup_fmap_2_strong; [|apply NoDup_seqZ].
    intros p q Hp%elem_of_seqZ Hq%elem_of_seqZ. apply synthetic_key_inj; lia.
Qed.

(** ** Concrete runs *)

(** A connection that sends two packets, and the states before and after it is
    accepted; [ex_taken] has the next port in use. *)
Definition ex_packets : list (list byte) := [str "0123456789"; str "abcdefghij"].
Definition ex_transport : TCPTransport := mkTCP [] (frames ex_packets) false None.
Definition ex_tcp : TcpSide := mkTcpSide 6 ∅ {[ 4%nat := ex_transport ]}.
Definition ex_taken : TcpSide := mkTcpSide 6 {[ synthetic_key 7 := 3%nat ]} {[ 4%nat := ex_transport ]}.

Lemma ex_packets_ok : Forall frame_ok ex_packets.
Proof. unfold ex_packets, frame_ok. repeat (apply Forall_cons_2; [cbn; lia|]). apply Forall_nil_2. Qed.

Definition ex_open : Server := ex_srv [] false.

Lemma tcp_client_received_witness :
  ∃ st', tcp_accept 4 ex_tcp = (Some (synthetic_key 7), st') ∧
    fst (bridge_run (synthetic_key 7) 4 ex_open st')
    = foldl (fun s data => receive data (syntheticAddr 7) s) ex_open ex_packets.
Proof.
  destruct (tcp_client_received ex_open ex_tcp 4 ex_packets (mkTCP (frames ex_packets) [] false None) None None) as (st' & H1 & H2);
    [reflexivity|exact ex_packets_ok|reflexivity|reflexivity|].
  exists st'. split; [exact H1|]. change (port_of (tcpPortCounter ex_tcp + 1)) with 7 in H2.
  destruct (bridge_run (synthetic_key 7) 4 ex_open st') as [s' st'']. exact (proj1 H2).
Defined.

Lemma tcp_collision_drops_client_witness :
  ∃ k st', tcp_accept 4 ex_taken = (Some k, st') ∧ fst (bridge_run k 4 ex_open st') = ex_open.
Proof.
  destruct (tcp_collision_drops_client ex_open ex_taken 4) as (k & st' & H1 & _ & H2).
  - intros E. vm_compute in E. discriminate.
  - exists 8. split; [lia|reflexivity].
  - eexists. reflexivity.
  - exists k, st'. split; [exact H1|]. destruct (bridge_run k 4 ex_open st') as [s' st'']. exact (proj1 H2).
Defined.

(** A server with one TCP client. *)
Definition ex_one_client : TcpSide :=
  snd (tcp_accept 0 (mkTcpSide 0 ∅ {[ 0%nat := mkTCP [] [] false None ]})).

Lemma ex_one_client_reach : tcp_reach ex_one_client.
Proof. apply (TrStep (mkTcpSide 0 ∅ ∅)); [constructor|]. by apply (TsAccept 0 (mkTCP [] [] false None)). Qed.

Lemma replies_routed_witness :
  let l := [mkEntry (str "ping") (syntheticAddr 1) priorityHigh;
            mkEntry (str "data") (mkUDPAddr [x0a; x00; x00; x01] 5000 []) priorityHigh] in
  fst (transmit l ex_one_client) = [mkEntry (str "data") (mkUDPAddr [x0a; x00; x00; x01] 5000 []) priorityHigh].
Proof.
  intros l. pose proof (replies_routed ex_one_client l ex_one_client_reach) as H.
  destruct (transmit l ex_one_client) as [udp st']. destruct H as [-> _].
  - repeat (apply Forall_cons_2; [cbn; lia|]). apply Forall_nil_2.
  - vm_compute. reflexivity.
Defined.

Lemma tcp_clients_apart_witness : Z.of_nat (size (tcpBridges ex_one_client)) ≤ 65535.
Proof. exact (proj2 (proj2 (tcp_clients_apart ex_one_client ex_one_client_reach))). Defined.
