(* ===== verification/ServerSpec.v ===== *)
(** * ServerSpec: what a server promises

    The invariant of the reachable states of a server: its rooms keep theirs, have
    distinct networks and the server's password, and are at most as many as
    allowed.  Then the theorems that follow for the players of all rooms. *)

From S2P Require Import Prelude GoNet Crc32 Protocol Messages MessagesData MessagesPeer NetUtil RateLimit Float64 Bandwidth SendQueue Sha256 Auth I18n Client Room RoomHandlers RoomIP RoomInv RoomSafe RoomExample RoomSpec RoomEntry Persist Subnet Server ServerExample.

(** ** Rooms of a heap *)

(** [room_ok] of a room, whatever queue it shares. *)
Definition room_good (r : Room) : Prop := room_ok (mkWorld r (newRateLimitedQueue None) false).

Lemma room_good_any r q d : room_good r ↔ room_ok (mkWorld r q d).
Proof. done. Qed.

(** Every room of [h] is still there, with its configuration and invariant. *)
Definition hpres (h h' : gmap nat Room) : Prop :=
  ∀ l, match h !! l, h' !! l with
       | Some r, Some r' => r_cfg r' = r_cfg r ∧ (room_good r → room_good r')
       | None, None => True
       | _, _ => False
       end.
#[export] Instance hpres_preorder : PreOrder hpres.
Proof.
  split.
  - intros h l. by destruct (h !! l).
  - intros h1 h2 h3 H12 H23 l. specialize (H12 l). specialize (H23 l).
    destruct (h1 !! l), (h2 !! l), (h3 !! l); try done.
    destruct H12 as [E1 ?], H23 as [E2 ?]. split; [congruence|auto].
Qed.

Definition routes_ok (s : Server) : Prop := ∀ k l, addrToRoom s !! k = Some l → is_Some (heap s !! l).

(** step that neither adds nor removes a room. *)
Record srel (s s' : Server) : Prop := {
  sr_cfg : s_cfg s' = s_cfg s;
  sr_rooms : rooms s' = rooms s;
  sr_next : next_room s' = next_room s;
  sr_heap : hpres (heap s) (heap s');
  sr_routes : routes_ok s → routes_ok s' }.
#[export] Instance srel_preorder : PreOrder srel.
Proof.
  split.
  - intros s. split; done.
  - intros s1 s2 s3 [] []. split; try congruence; [by etransitivity|auto].
Qed.

Lemma hpres_is_Some h h' l : hpres h h' → is_Some (h !! l) ↔ is_Some (h' !! l).
Proof. intros Hp. specialize (Hp l). destruct (h !! l), (h' !! l); try done; split; by eexists. Qed.

Lemma hpres_Some h h' l r :
  hpres h h' → h !! l = Some r → ∃ r', h' !! l = Some r' ∧ r_cfg r' = r_cfg r ∧ (room_good r → room_good r').
Proof. intros Hp Hl. specialize (Hp l). rewrite Hl in Hp. destruct (h' !! l); [naive_solver|done]. Qed.

Lemma hpres_Some_inv h h' l r' :
  hpres h h' → h' !! l = Some r' → ∃ r, h !! l = Some r ∧ r_cfg r' = r_cfg r ∧ (room_good r → room_good r').
Proof. intros Hp Hl. specialize (Hp l). rewrite Hl in Hp. destruct (h !! l); [naive_solver|done]. Qed.

Lemma srel_heap s s' :
  s_cfg s' = s_cfg s → rooms s' = rooms s → next_room s' = next_room s →
  addrToRoom s' = addrToRoom s → hpres (heap s) (heap s') → srel s s'.
Proof.
  intros E1 E2 E3 E4 Hp. split; try done. intros Hr k l Hk. rewrite E4 in Hk.
  apply (hpres_is_Some _ _ l Hp). by eapply Hr.
Qed.

Lemma srel_same s s' :
  s_cfg s' = s_cfg s → rooms s' = rooms s → next_room s' = next_room s →
  addrToRoom s' = addrToRoom s → heap s' = heap s → srel s s'.
Proof. intros E1 E2 E3 E4 E5. apply srel_heap; try done. by rewrite E5. Qed.

Lemma srel_in_room l f s : (∀ w, pres w (f w)) → srel s (in_room l f s).
Proof.
  intros Hf. unfold in_room. destruct (heap s !! l) as [r|] eqn:E; [|done].
  apply srel_heap; try done. intros l'. cbn [heap set_persistDirty set_q set_heap].
  destruct (decide (l = l')) as [<-|Hne].
  - rewrite E, lookup_insert_eq. exact (Hf (mkWorld r (s_q s) false)).
  - rewrite lookup_insert_ne by done. by destruct (heap s !! l').
Qed.

Lemma srel_foldl {A} (f : Server → A → Server) L s : (∀ s a, srel s (f s a)) → srel s (foldl f s L).
Proof.
  intros Hf. revert s. induction L as [|a L IH]; intros s; [done|]. cbn [foldl].
  etransitivity; [apply Hf|apply IH].
Qed.

Lemma srel_route s k l : is_Some (heap s !! l) → srel s (set_addrToRoom (<[k := l]> (addrToRoom s)) s).
Proof.
  intros Hl. split; try done. intros Hr k' l'. cbn. intros [[_ <-]|[_ Hk]]%lookup_insert_Some; [done|by eapply Hr].
Qed.

Lemma srel_unroute s k : srel s (set_addrToRoom (delete k (addrToRoom s)) s).
Proof. split; try done. intros Hr k' l'. cbn. intros [_ Hk]%lookup_delete_Some. by eapply Hr. Qed.

Create HintDb server discriminated.

Section frames.
Context `{Env} `{MapRange}.

Lemma srel_send t p to s : srel s (srv_sendChecked t p to s).
Proof. unfold srv_sendChecked. destruct (rlq_send _ _ _ _ _) as [[] q]; by apply srel_same. Qed.
Lemma srel_kick to reason s : srel s (srv_sendKick to reason s).
Proof. apply srel_send. Qed.
Lemma srel_kickCode to code reason s : srel s (srv_sendKickCode to code reason s).
Proof. apply srel_send. Qed.
Lemma srel_ack to b s : srel s (sendRebindAck to b s).
Proof. apply srel_send. Qed.

Lemma srel_receive data from s : srel s (receive data from s).
Proof.
  unfold receive. destruct (_ <? _)%nat; [done|]. destruct (checkRate _ _) as [[] sh]; cbn [negb];
    [destruct (_ <? _)|]; by apply srel_same.
Qed.

Lemma srel_NATProbe p from s : srel s (handleNATProbe p from s).
Proof. unfold handleNATProbe. destruct (UnmarshalNATProbe p); [apply srel_send|done..]. Qed.

Lemma find_vip_Some k s rl r l c :
  find_vip k s = Some (rl, r, l, c) →
  (∃ id, rooms s !! id = Some rl) ∧ heap s !! rl = Some r ∧ vip_client (r_core r) k = Some (l, c).
Proof.
  unfold find_vip. set (L := omap _ _). intros Hh.
  assert ((rl, r, l, c) ∈ L) as Hin by (destruct L; [done|]; injection Hh as ->; apply list_elem_of_here).
  apply list_elem_of_omap in Hin as ([id rl'] & Hin & He). apply elem_of_go_range in Hin.
  destruct (heap s !! rl') as [r'|] eqn:Er; [|done]. cbn in He.
  destruct (vip_client (r_core r') k) as [[l' c']|] eqn:Ec; [|done]. cbn in He. simplify_eq.
  split; [by exists id|done].
Qed.

(** The move of a rebind, on the room it found the player in. *)
Lemma srel_move k s rl r l c from :
  heap s !! rl = Some r → vip_client (r_core r) k = Some (l, c) →
  srel s (in_room rl (fun w => on_stats (set_lastActivity now) (on_core (move_client l c from) w)) s).
Proof.
  intros Hr Hc. unfold in_room. rewrite Hr. apply srel_heap; try done. intros l'.
  cbn [heap set_persistDirty set_q set_heap]. destruct (decide (rl = l')) as [<-|Hne].
  - rewrite Hr, lookup_insert_eq. split; [done|]. intros [Hok Hk]. split; [|done].
    by eapply core_ok_move.
  - rewrite lookup_insert_ne by done. by destruct (heap s !! l').
Qed.

Lemma srel_rebind p from s : srel s (handleRebind p from s).
Proof.
  unfold handleRebind. destruct (UnmarshalRebind p) as [req| |]; [|done..].
  destruct (negb _); [apply srel_ack|]. set (k := IPKey _).
  destruct (find_vip k s) as [[[[rl r] l] c]|] eqn:Hf; [|apply srel_ack].
  apply find_vip_Some in Hf as (_ & Hr & Hc).
  destruct (negb _); [apply srel_ack|]. destruct (negb _); [apply srel_ack|].
  cbv zeta. set (s1 := in_room rl _ s).
  assert (srel s s1) as H1 by by eapply srel_move.
  transitivity s1; [done|].
  match goal with |- srel _ (in_room _ _ (sendRebindAck _ _ ?x)) => transitivity x end.
  - destruct (multiRoom _); [|done].
    assert (is_Some (heap s1 !! rl)) as Hl by (apply (hpres_is_Some _ _ rl (sr_heap _ _ H1)); by eexists).
    destruct (cl_PublicAddr c) as [a|]; [|by apply srel_route].
    transitivity (set_addrToRoom (delete (AddrToRateKey a) (addrToRoom s1)) s1); [apply srel_unroute|].
    by apply (srel_route (set_addrToRoom _ s1)).
  - etransitivity; [apply srel_ack|]. apply srel_in_room. intros w. apply pres_keeps; auto with room.
Qed.
End frames.

(** ** The invariant *)

Definition cfg_ipv4 (cfg : Config) : Prop := ∃ a b c d, To4 (net_IP (cf_Subnet cfg)) = Some [a; b; c; d].

(** The network of a live room. *)
Definition room_net (s : Server) (id : list byte) (n : IPNet) : Prop :=
  ∃ l r, rooms s !! id = Some l ∧ heap s !! l = Some r ∧ r_subnet (r_cfg r) = n.

Record srv_ok (cfg : Config) (s : Server) : Prop := {
  so_good : ∀ l r, heap s !! l = Some r → room_good r ∧ r_roomPass (r_cfg r) = cf_RoomPass cfg;
  so_fresh : ∀ l, is_Some (heap s !! l) → (l < next_room s)%nat;
  so_live : ∀ id l, rooms s !! id = Some l → ∃ r, heap s !! l = Some r ∧ r_roomID (r_cfg r) = id;
  so_routes : routes_ok s;
  so_net : ∀ id n, room_net s id n → ∃ a b i c d d',
    net_Mask n = mask24 ∧
    To4 (net_IP n) = Some [a; b; i; d] ∧ To4 (net_IP (cf_Subnet cfg)) = Some [a; b; c; d'];
  so_distinct : ∀ id1 id2 n1 n2, room_net s id1 n1 → room_net s id2 n2 → id1 ≠ id2 →
    third_octet (net_IP n1) ≠ third_octet (net_IP n2);
  so_size : Z.of_nat (size (rooms s)) ≤ (if cf_MultiRoom cfg then maxRooms (s_cfg s) else 1);
  so_multi : multiRoom (s_cfg s) = cf_MultiRoom cfg ∧ roomPass (s_cfg s) = cf_RoomPass cfg ∧
    (cf_MultiRoom cfg = true → 0 < maxRooms (s_cfg s) ∧ defaultRoom (s_cfg s) = None ∧
       baseSubnet (s_cfg s) = Some (cf_Subnet cfg)) ∧
    (cf_MultiRoom cfg = false → ∀ id, is_Some (rooms s !! id) → id = str "default") }.

Lemma room_net_srel s s' id n : srel s s' → room_net s' id n → room_net s id n.
Proof.
  intros Hr (l & r' & Hl & Hh & <-). apply (hpres_Some_inv (heap s)) in Hh as (r & Hh & E & _); [|apply Hr].
  exists l, r. rewrite <- (sr_rooms _ _ Hr), E. done.
Qed.

Lemma srv_ok_srel cfg s s' : srv_ok cfg s → srel s s' → srv_ok cfg s'.
Proof.
  intros [H1 H2 H3 H4 H5 H6 H7 H8] Hr. split.
  - intros l r' Hh. apply (hpres_Some_inv (heap s)) in Hh as (r & Hh & -> & Hg); [|apply Hr].
    destruct (H1 _ _ Hh). auto.
  - intros l Hl. rewrite (sr_next _ _ Hr). apply H2, (hpres_is_Some _ _ l (sr_heap _ _ Hr)), Hl.
  - intros id l. rewrite (sr_rooms _ _ Hr). intros (r & Hh & <-)%H3.
    apply (hpres_Some _ (heap s')) in Hh as (r' & ? & E & _); [|apply Hr]. exists r'. by rewrite E.
  - by apply Hr.
  - intros id n Hn. by eapply H5, room_net_srel.
  - intros id1 id2 n1 n2 Hn1 Hn2. apply (H6 id1 id2); by eapply room_net_srel.
  - by rewrite (sr_rooms _ _ Hr), (sr_cfg _ _ Hr).
  - by rewrite (sr_rooms _ _ Hr), (sr_cfg _ _ Hr).
Qed.

(** room is removed from the table of names; it may be stopped. *)
Lemma srv_ok_unname cfg s id l r :
  srv_ok cfg s → rooms s !! id = Some l → heap s !! l = Some r →
  srv_ok cfg (set_rooms (delete id (rooms s)) (set_heap (<[l := Stop r]> (heap s)) s)).
Proof.
  intros Hok Hid Hl.
  assert (srel s (set_heap (<[l := Stop r]> (heap s)) s)) as Hr.
  { apply srel_heap; try done. intros l'. cbn [heap set_heap]. destruct (decide (l = l')) as [<-|Hne].
    - by rewrite Hl, lookup_insert_eq.
    - rewrite lookup_insert_ne by done. by destruct (heap s !! l'). }
  pose proof (srv_ok_srel _ _ _ Hok Hr) as [H1 H2 H3 H4 H5 H6 H7 H8]. set (s1 := set_heap _ s) in *.
  assert (∀ id' n, room_net (set_rooms (delete id (rooms s)) s1) id' n → room_net s1 id' n) as Hn.
  { intros id' n (l' & r' & Hl' & Hr'). exists l', r'. cbn [rooms set_rooms] in Hl'. by apply lookup_delete_Some in Hl' as [_ ?]. }
  split; try done.
  - intros id' l'. cbn. intros [_ Hl']%lookup_delete_Some. by apply H3.
  - intros id' n Hn'. by eapply H5, Hn.
  - intros id1 id2 n1 n2 Hn1 Hn2. apply (H6 id1 id2); by apply Hn.
  - cbn [rooms set_rooms]. pose proof (map_size_delete_Some id (rooms s) (mk_is_Some _ _ Hid)).
    change (s_cfg (set_rooms _ s1)) with (s_cfg s1). change (rooms s1) with (rooms s) in H7.
    destruct (cf_MultiRoom cfg); lia.
  - destruct H8 as (M1 & M2 & M3 & M4). split; [done|]. split; [done|]. split; [done|].
    intros Hm id' [l' Hl']. cbn [rooms set_rooms] in Hl'. apply lookup_delete_Some in Hl' as [_ Hl']. apply (M4 Hm). by exists l'.
Qed.

(** The networks [find_or_create] collects. *)
Definition nets_in_use `{MapRange} (s : Server) : list IPNet :=
  omap (fun '(_, l) => (fun r => r_subnet (r_cfg r)) <$> heap s !! l) (go_range (rooms s)).

Lemma elem_of_nets `{MapRange} s n : n ∈ nets_in_use s ↔ ∃ id, room_net s id n.
Proof.
  unfold nets_in_use. rewrite list_elem_of_omap. split.
  - intros ([id l] & Hin%elem_of_go_range & Hn). destruct (heap s !! l) as [r|] eqn:E; [|done].
    exists id, l, r. by injection Hn.
  - intros (id & l & r & Hl & Hr & <-). exists (id, l). rewrite elem_of_go_range. split; [done|].
    by rewrite Hr.
Qed.

(** room with the network given to it. *)
Lemma srv_ok_add `{MapRange} cfg s id n t r :
  cfg_ipv4 cfg → srv_ok cfg s → cf_MultiRoom cfg = true → rooms s !! id = None →
  Z.of_nat (size (rooms s)) < maxRooms (s_cfg s) →
  allocateSubnet (Some (cf_Subnet cfg)) (nets_in_use s) (localSubnets (s_cfg s)) = Some n →
  NewRoom t (mkRoomConfig id (roomPass (s_cfg s)) n 254 3) = Some r →
  srv_ok cfg (add_room id r s).2.
Proof.
  intros (a & b & c & d & Hbase) [H1 H2 H3 H4 H5 H6 H7 H8] Hm Hid Hsz Hal Hnew.
  set (nx := next_room s). assert (heap s !! nx = None) as Hfr.
  { destruct (heap s !! nx) eqn:E; [|done]. pose proof (H2 nx ltac:(by eexists)). unfold nx in *. lia. }
  assert (∃ i, net_Mask n = mask24 ∧ To4 (net_IP n) = Some [a; b; z2b i; x00] ∧ third_octet (net_IP n) = i ∧
    ∀ r, r ∈ nets_in_use s → third_octet (net_IP r) < i) as (i & Hmask & Hn4 & Hi & Hlt).
  { unfold allocateSubnet in Hal. cbn [mbind option_bind] in Hal. rewrite Hbase in Hal.
    pose proof (scan_subnets_spec 256 [a; b; c; d] (localSubnets (s_cfg s))
      (max_used [a; b; c; d] (nets_in_use s) + 1)) as Hs.
    destruct (max_used_spec [a; b; c; d] (nets_in_use s)) as (_ & M2 & M3 & _).
    rewrite Hal in Hs. destruct Hs as (i & -> & Hi & _); [lia|]. exists i.
    split; [done|]. split; [apply To4_IPv4|]. split; [apply candidate_octet; lia|]. intros r' Hr'%M3. lia. }
  pose proof (NewRoom_spec _ _ _ Hnew) as (rc & bm & Erc & _ & _ & Hsub & _ & Hpass & _).
  assert (r_roomID (r_cfg r) = id) as Hrid.
  { unfold NewRoom in Hnew. destruct (negb _); [done|]. by injection Hnew as <-. }
  assert (∀ id' n', room_net (add_room id r s).2 id' n' → (id' = id ∧ n' = n) ∨ (id' ≠ id ∧ room_net s id' n')) as Hnet.
  { intros id' n' (l & r' & Hl & Hr' & <-). cbn in Hl, Hr'. fold nx in Hl, Hr'.
    apply lookup_insert_Some in Hl as [[<- <-]|[Hne Hl]].
    - rewrite lookup_insert_eq in Hr'. injection Hr' as <-. left. by rewrite Erc.
    - right. split; [done|]. exists l, r'. split; [done|]. apply lookup_insert_Some in Hr' as [[<- _]|[_ ?]]; [|done].
      destruct (H3 _ _ Hl) as (? & ? & _). congruence. }
  split; cbn [add_room snd heap next_room rooms s_cfg addrToRoom]; fold nx.
  - intros l r' [[<- <-]|[_ Hl]]%lookup_insert_Some; [|by eapply H1].
    split; [|rewrite Erc, Hpass; apply H8].
    eapply (NewRoom_ok t _ r); [|exact Hnew]. by exists a, b, (z2b i), x00.
  - intros l [x [[<- _]|[_ Hl]]%lookup_insert_Some]; [lia|].
    specialize (H2 l ltac:(by eexists)). unfold nx. lia.
  - intros id' l [[<- <-]|[Hne Hl]]%lookup_insert_Some; [exists r; by rewrite lookup_insert_eq|].
    destruct (H3 _ _ Hl) as (r' & Hr' & ?). exists r'. rewrite lookup_insert_ne by congruence. done.
  - intros k l Hl. apply H4 in Hl as [r' Hr']. apply lookup_insert_is_Some'. right. by exists r'.
  - intros id' n' [[-> ->]|[_ Hn]]%Hnet; [|by eapply H5].
    by exists a, b, (z2b i), c, x00, d.
  - intros id1 id2 n1 n2 [[-> ->]|[_ Hn1]]%Hnet [[-> ->]|[_ Hn2]]%Hnet Hne; [done| | |by eapply H6].
    + assert (n2 ∈ nets_in_use s) as Hin%Hlt by (apply elem_of_nets; by exists id2). lia.
    + assert (n1 ∈ nets_in_use s) as Hin%Hlt by (apply elem_of_nets; by exists id1). lia.
  - rewrite map_size_insert_None by done. rewrite Hm in *. lia.
  - destruct H8 as (M1 & M2 & M3 & _). split; [done|]. split; [done|]. split; [done|]. by rewrite Hm.
Qed.

Section steps.
Context `{Env} `{MapRange}.

(** The three outcomes of looking a room up. *)
Lemma find_or_create_cases cfg id s :
  srv_ok cfg s → cf_MultiRoom cfg = true →
  (∃ reason, find_or_create id s = (inl reason, s) ∧ rooms s !! id = None) ∨
  (∃ l, find_or_create id s = (inr l, s) ∧ rooms s !! id = Some l) ∨
  (∃ n r, rooms s !! id = None ∧ Z.of_nat (size (rooms s)) < maxRooms (s_cfg s) ∧
     allocateSubnet (Some (cf_Subnet cfg)) (nets_in_use s) (localSubnets (s_cfg s)) = Some n ∧
     NewRoom now (mkRoomConfig id (roomPass (s_cfg s)) n 254 3) = Some r ∧
     find_or_create id s = (inr (next_room s), (add_room id r s).2)).
Proof.
  intros Hok Hm. destruct (so_multi _ _ Hok) as (_ & _ & Hmulti & _).
  destruct (Hmulti Hm) as (Hmax & Hdef & Hbase).
  unfold find_or_create. destruct (rooms s !! id) as [l|] eqn:Hid; [right; left; by exists l|].
  destruct (Z.ltb_spec 0 (maxRooms (s_cfg s))); [|lia].
  destruct (Z.leb_spec (maxRooms (s_cfg s)) (Z.of_nat (size (rooms s)))); cbn [andb]; [left; by eexists|].
  rewrite Hdef, Hbase. cbn [mbind option_bind]. fold (nets_in_use s).
  destruct (allocateSubnet _ _ _) as [n|] eqn:Hal; [|left; by eexists].
  destruct (NewRoom _ _) as [r|] eqn:Hnew; [|left; by eexists].
  right. right. by exists n, r.
Qed.

Lemma srv_ok_register cfg p from s :
  cfg_ipv4 cfg → srv_ok cfg s → cf_MultiRoom cfg = true → srv_ok cfg (handleRegisterMultiRoom p from s).
Proof.
  intros Hv4 Hok Hm. unfold handleRegisterMultiRoom. destruct (UnmarshalRegister p) as [reg| |]; [|done..].
  destruct (_ || _); [eapply srv_ok_srel; [done|apply srel_kick]|].
  assert (∀ l s', srv_ok cfg s' →
    let s1 := in_room l (HandlePacket TypeRegister p from) s' in
    srv_ok cfg (if (match heap s1 !! l with
                    | Some r => bool_decide (is_Some (addrMap (r_core r) !! AddrToRateKey from))
                    | None => false end)
                then set_addrToRoom (<[AddrToRateKey from := l]> (addrToRoom s1)) s1 else s1)) as Hreg.
  { intros l s' Hok'. cbv zeta. set (s1 := in_room _ _ s').
    assert (srv_ok cfg s1) as Hok1 by (eapply srv_ok_srel; [done|]; apply srel_in_room, pres_HandlePacket).
    destruct (heap s1 !! l) as [r|] eqn:Hl; [|done]. case_bool_decide; [|done].
    eapply srv_ok_srel; [done|]. apply srel_route. by exists r. }
  destruct (find_or_create_cases cfg (rp_RoomID reg) s Hok Hm)
    as [(reason & -> & _)|[(l & -> & _)|(n & r & Hid & Hsz & Hal & Hnew & ->)]].
  - eapply srv_ok_srel; [done|apply srel_kick].
  - by apply Hreg.
  - apply Hreg. by eapply srv_ok_add.
Qed.

Lemma srv_ok_dispatch cfg msg from s : cfg_ipv4 cfg → srv_ok cfg s → srv_ok cfg (dispatch msg from s).
Proof.
  intros Hv4 Hok. unfold dispatch.
  case_bool_decide; [eapply srv_ok_srel; [done|apply srel_NATProbe]|].
  case_bool_decide; [eapply srv_ok_srel; [done|apply srel_rebind]|].
  destruct (multiRoom (s_cfg s)) eqn:Hm.
  - unfold handlePacketMultiRoom. case_bool_decide.
    + apply srv_ok_register; [done|done|]. destruct (so_multi _ _ Hok) as [<- _]. done.
    + destruct (room_of s _) as [[l r]|]; [|done]. destruct (r_stopped r); [done|].
      eapply srv_ok_srel; [done|]. apply srel_in_room, pres_HandlePacket.
  - destruct (defaultRoom (s_cfg s)); [|done].
    eapply srv_ok_srel; [done|]. apply srel_in_room, pres_HandlePacket.
Qed.

Lemma srv_ok_worker cfg s : cfg_ipv4 cfg → srv_ok cfg s → srv_ok cfg (worker s).
Proof.
  intros Hv4 Hok. unfold worker. destruct (pktCh s) as [|job l]; [done|].
  set (s1 := set_pktCh l s). assert (srv_ok cfg s1) as Hok1 by (eapply srv_ok_srel; [done|]; by apply srel_same).
  unfold handlePacket. destruct (cachedEncrypted _).
  - destruct (Decode _) as [msg| |]; [|done..].
    destruct (pre_auth _); [|by apply srv_ok_dispatch].
    destruct (VerifyChecksum _); [by apply srv_ok_dispatch|done..].
  - destruct (DecodeChecked _) as [msg|[]|]; try done; [by apply srv_ok_dispatch|].
    eapply srv_ok_srel; [done|apply srel_kickCode].
Qed.

Lemma srel_cleanupClients s : srel s (cleanupStaleClients s).
Proof.
  apply srel_foldl. intros s' l. apply srel_in_room. intros w.
  exact (pres_room_step EvCleanup w).
Qed.

Lemma srel_cleanupRoutes s : srel s (cleanupStaleAddrToRoom s).
Proof. apply srel_foldl. intros s' k. destruct (route_stale s' k); [apply srel_unroute|done]. Qed.

Lemma srv_ok_idle cfg s : srv_ok cfg s → srv_ok cfg (cleanupIdleRooms s).
Proof.
  intros Hok. unfold cleanupIdleRooms.
  assert (∀ L s', srv_ok cfg s' → NoDup L.*1 → (∀ id l, (id, l) ∈ L → rooms s' !! id = Some l) →
    srv_ok cfg (foldl idle_step s' L)) as Hfold; [|apply Hfold; [done|apply NoDup_go_range|intros id l; apply elem_of_go_range]].
  clear s Hok. induction L as [|[id l] L IH]; intros s Hok Hnd Hin; cbn [foldl]; [done|].
  apply NoDup_cons in Hnd as [Hni Hnd].
  assert (∀ id l, (id, l) ∈ L → rooms s !! id = Some l) as Hin' by (intros; apply Hin; by right).
  unfold idle_step at 2. case_bool_decide; [by apply IH|]. destruct (heap s !! l) as [r|] eqn:Hl; [|by apply IH].
  destruct (0 <? _); [by apply IH|]. destruct (_ <? _); [|by apply IH].
  apply IH; [apply srv_ok_unname; [done|apply Hin; by left|done]|done|].
  intros id' l' Hl'. cbn. rewrite lookup_delete_ne; [by apply Hin'|]. intros ->. apply Hni.
  apply list_elem_of_fmap. by exists (id', l').
Qed.

Lemma srv_ok_step cfg ev s : cfg_ipv4 cfg → srv_ok cfg s → srv_ok cfg (server_step ev s).
Proof.
  intros Hv4 Hok. destruct ev as [data from| | | | | |l ev]; cbn [server_step].
  - eapply srv_ok_srel; [done|apply srel_receive].
  - by apply srv_ok_worker.
  - eapply srv_ok_srel; [done|]. by apply srel_same.
  - unfold keepaliveTick. assert (srv_ok cfg (cleanupStaleClients s)) as Hok1
      by (eapply srv_ok_srel; [done|apply srel_cleanupClients]).
    destruct (multiRoom _); [|done]. apply srv_ok_idle. eapply srv_ok_srel; [done|apply srel_cleanupRoutes].
  - eapply srv_ok_srel; [done|]. unfold persistTick, saveState. repeat case_match; by apply srel_same.
  - eapply srv_ok_srel; [done|]. by apply srel_same.
  - destruct (heap s !! l) as [r|]; [|done]. destruct (_ || _); [done|].
    eapply srv_ok_srel; [done|]. apply srel_in_room, pres_room_step.
Qed.

Lemma New_multi cfg locals file s :
  New cfg locals file = Some s → cf_MultiRoom cfg = true →
  heap s = ∅ ∧ rooms s = ∅ ∧ addrToRoom s = ∅ ∧ pktCh s = [] ∧ multiRoom (s_cfg s) = true ∧
  roomPass (s_cfg s) = cf_RoomPass cfg ∧ 0 < maxRooms (s_cfg s) ∧ defaultRoom (s_cfg s) = None ∧
  baseSubnet (s_cfg s) = Some (cf_Subnet cfg) ∧
  cachedEncrypted (s_cfg s) = negb (bool_decide (cf_RoomPass cfg = [])).
Proof.
  intros Hnew Hm. unfold New in Hnew. destruct (negb (bool_decide (net_Mask _ = _))); [done|].
  rewrite Hm in Hnew. injection Hnew as <-. rewrite andb_true_r. cbn. split_and!; try done.
  destruct (Z.leb_spec (cf_MaxRooms cfg) 0); [done|lia].
Qed.

(** The one room of a server in single-room mode. *)
Lemma New_single cfg locals file s :
  New cfg locals file = Some s → cf_MultiRoom cfg = false →
  ∃ r0 r maxPerIP, NewRoom now (mkRoomConfig (str "default") (cf_RoomPass cfg) (cf_Subnet cfg)
      (cf_MaxPlayers cfg) maxPerIP) = Some r0 ∧
    (r = r0 ∨ ∃ st, r = loadState st r0) ∧
    heap s = {[0%nat := r]} ∧ rooms s = {[str "default" := 0%nat]} ∧ addrToRoom s = ∅ ∧ pktCh s = [] ∧
    next_room s = 1%nat ∧ multiRoom (s_cfg s) = false ∧ roomPass (s_cfg s) = cf_RoomPass cfg ∧
    cachedEncrypted (s_cfg s) = negb (bool_decide (cf_RoomPass cfg = [])).
Proof.
  intros Hnew Hm. unfold New in Hnew. destruct (negb (bool_decide (net_Mask _ = _))); [done|].
  rewrite Hm in Hnew. set (maxPerIP := if cf_MaxPerIP cfg <=? 0 then 3 else _) in *.
  destruct (NewRoom _ _) as [r0|] eqn:Hr; [|done]. cbn [mbind option_bind] in Hnew. injection Hnew as <-.
  eexists r0, _, maxPerIP. split; [done|]. split; [|by split_and!].
  destruct file as [st|]; [|by left]. destruct (cf_StateDir cfg); [right; by exists st|by left].
Qed.

Lemma srv_ok_New cfg locals file s :
  cfg_ipv4 cfg → New cfg locals file = Some s → srv_ok cfg s ∧ pktCh s = [].
Proof.
  intros Hv4 Hnew. destruct (cf_MultiRoom cfg) eqn:Hm.
  - destruct (New_multi _ _ _ _ Hnew Hm) as (Eh & Er & Ea & Ep & E1 & E2 & E3 & E4 & E5 & _).
    split; [|done]. split; unfold routes_ok, room_net; rewrite ?Eh, ?Er, ?Ea, ?Hm.
    + intros l r Hl. by rewrite lookup_empty in Hl.
    + intros l [x Hl]. by rewrite lookup_empty in Hl.
    + intros id l Hl. by rewrite lookup_empty in Hl.
    + intros k l Hl. by rewrite lookup_empty in Hl.
    + intros id n (l & r & Hl & _). by rewrite lookup_empty in Hl.
    + intros id1 id2 n1 n2 (l & r & Hl & _). by rewrite lookup_empty in Hl.
    + rewrite map_size_empty. lia.
    + done.
  - destruct (New_single _ _ _ _ Hnew Hm)
      as (r0 & r & mp & Hr0 & Hload & Eh & Er & Ea & Ep & En & E1 & E2 & _).
    split; [|done].
    assert (room_good r0) as Hg0 by (eapply NewRoom_ok; [|exact Hr0]; exact Hv4).
    assert (room_good r ∧ r_cfg r = r_cfg r0) as [Hg Hc].
    { destruct Hload as [-> |[st ->]]; [done|]. split.
      - apply room_ok_load; [|done]. by apply (NewRoom_mask _ _ _ Hr0).
      - unfold loadState. by repeat case_match. }
    pose proof (NewRoom_spec _ _ _ Hr0) as (rc & bm & Erc & _ & _ & Hsub & _ & Hpass & _).
    rewrite Erc in Hc. assert (r_roomID rc = str "default") as Hid.
    { rewrite <- Erc. unfold NewRoom in Hr0. destruct (negb _); [done|]. by injection Hr0 as <-. }
    assert (∀ id n, room_net s id n → n = cf_Subnet cfg ∧ id = str "default") as Hnet.
    { intros id n (l & r' & Hl & Hr' & <-). rewrite Er, lookup_singleton_Some in Hl. destruct Hl as [<- <-].
      rewrite Eh, lookup_singleton_Some in Hr'. destruct Hr' as [_ <-]. by rewrite Hc, Hsub. }
    split; unfold routes_ok; rewrite ?Eh, ?Er, ?Ea, ?Hm, ?En.
    + intros l r' [<- <-]%lookup_singleton_Some. by rewrite Hc, Hpass.
    + intros l [x [<- _]%lookup_singleton_Some]. lia.
    + intros id l [<- <-]%lookup_singleton_Some. exists r. by rewrite lookup_singleton_eq, Hc.
    + intros k l Hl. by rewrite lookup_empty in Hl.
    + intros id n [-> _]%Hnet. destruct Hv4 as (a & b & c & d & E). exists a, b, c, c, d, d.
      split; [|done]. pose proof (NewRoom_mask _ _ _ Hr0) as Hmask. by rewrite Erc, Hsub in Hmask.
    + intros id1 id2 n1 n2 [_ ->]%Hnet [_ ->]%Hnet Hne. done.
    + rewrite map_size_singleton. done.
    + split_and!; try done. intros _ id [x [<- _]%lookup_singleton_Some]. done.
Qed.
End steps.

(** ** Reachable servers *)

Inductive sreach `{MapRange} (cfg : Config) : Server → Prop :=
| sreach_new (e : Env) locals file s : New cfg locals file = Some s → sreach cfg s
| sreach_step (e : Env) ev s : sreach cfg s → sreach cfg (server_step ev s)
| sreach_queue s q : sreach cfg s → sq_iter (rlq_sq (s_q s)) q →
    sreach cfg (set_q (mkRLQ q (rlq_limiter (s_q s))) s).

(** The player of a room under a virtual address. *)
Definition srv_player (s : Server) (id : list byte) (k : ipkey) (l : nat) (c : Client) : Prop :=
  ∃ rl r, rooms s !! id = Some rl ∧ heap s !! rl = Some r ∧ vip_client (r_core r) k = Some (l, c).

Section reachable.
Context `{MapRange} (cfg : Config) (Hv4 : cfg_ipv4 cfg).

Lemma sreach_ok s : sreach cfg s → srv_ok cfg s.
Proof.
  induction 1 as [e locals file s Hn|e ev s _ IH|s q _ IH _].
  - by eapply srv_ok_New.
  - by apply srv_ok_step.
  - eapply srv_ok_srel; [done|]. by apply srel_same.
Qed.

Lemma srv_ok_unique s id1 id2 k l1 l2 c1 c2 :
  srv_ok cfg s → srv_player s id1 k l1 c1 → srv_player s id2 k l2 c2 →
  id1 = id2 ∧ l1 = l2 ∧ c1 = c2 ∧
  ∃ n, room_net s id1 n ∧ Contains n (cl_VirtualIP c1) = true.
Proof.
  intros Hs (rl1 & r1 & Hid1 & Hh1 & Hc1) (rl2 & r2 & Hid2 & Hh2 & Hc2).
  assert (∀ id rl r l c, rooms s !! id = Some rl → heap s !! rl = Some r →
    vip_client (r_core r) k = Some (l, c) →
    ∃ a b i d o, net_Mask (r_subnet (r_cfg r)) = mask24 ∧
      To4 (net_IP (r_subnet (r_cfg r))) = Some [a; b; i; d] ∧
      cl_VirtualIP c = IPv4 a b i o ∧ k = IPKey (IPv4 a b i o)) as Haddr.
  { intros id rl r l c Hid Hh [Hk Hst]%vip_client_Some.
    destruct (so_net _ _ Hs id (r_subnet (r_cfg r)) ltac:(by exists rl, r)) as (a & b & i & c' & d & d' & Hm & Hn & _).
    destruct (so_good _ _ Hs _ _ Hh) as [[Hok _] _]. unfold w_core, w_cfg in Hok. cbn [w_room] in Hok.
    destruct (ok_clients _ _ Hok) as [_ _ Hcl _].
    destruct (Hcl _ _ Hk) as (c'' & o & vip & ? & _ & Hv & <- & -> & _). simplify_eq.
    unfold room_vip in Hv. rewrite Hn in Hv. injection Hv as <-. by exists a, b, i, d, o. }
  destruct (Haddr _ _ _ _ _ Hid1 Hh1 Hc1) as (a1 & b1 & i1 & d1 & o1 & Hm1 & Hn1 & Hv1 & Hk1).
  destruct (Haddr _ _ _ _ _ Hid2 Hh2 Hc2) as (a2 & b2 & i2 & d2 & o2 & Hm2 & Hn2 & Hv2 & Hk2).
  assert (i1 = i2) as ->.
  { rewrite Hk1 in Hk2. eapply IPKey_inj_v4 in Hk2; [|apply To4_IPv4..]. by injection Hk2. }
  assert (id1 = id2) as ->.
  { destruct (decide (id1 = id2)) as [|Hne]; [done|]. exfalso.
    apply (so_distinct _ _ Hs id1 id2 (r_subnet (r_cfg r1)) (r_subnet (r_cfg r2))); [by exists rl1, r1|by exists rl2, r2|done|].
    unfold third_octet. by rewrite Hn1, Hn2. }
  assert (rl1 = rl2) as -> by congruence. assert (r1 = r2) as -> by congruence.
  rewrite Hc1 in Hc2. injection Hc2 as -> ->. split_and!; try done.
  exists (r_subnet (r_cfg r2)). split; [by exists rl2, r2|].
  rewrite Hv1, (Contains24 _ _ _ _ _ _ _ _ _ _ Hm1 Hn1 (To4_IPv4 _ _ _ _)).
  by apply bool_decide_eq_true_2.
Qed.

(** C2: In every reachable state of a server, in either mode, after any history of
    datagrams, ticks and clean-ups: a virtual address belongs to at most one
    player of all the rooms - it finds the same room and the same client - and
    this player's address is a host of its room's own network. *)
Theorem players_unique_across_rooms s id1 id2 k l1 l2 c1 c2 :
  sreach cfg s → srv_player s id1 k l1 c1 → srv_player s id2 k l2 c2 →
  id1 = id2 ∧ l1 = l2 ∧ c1 = c2 ∧
  ∃ n, room_net s id1 n ∧ Contains n (cl_VirtualIP c1) = true.
Proof. intros Hs%sreach_ok. by apply srv_ok_unique. Qed.

(** C7: In every reachable state of a multi-room server there are at most maxRooms
    rooms, the networks of two rooms have no IPv4 address in common, and every
    room has the server's password. *)
Theorem rooms_disjoint_and_bounded s :
  sreach cfg s → cf_MultiRoom cfg = true →
  Z.of_nat (size (rooms s)) ≤ maxRooms (s_cfg s) ∧
  (∀ id1 id2 n1 n2 ip ip4, room_net s id1 n1 → room_net s id2 n2 → id1 ≠ id2 → To4 ip = Some ip4 →
     Contains n1 ip = true → Contains n2 ip = false) ∧
  (∀ id l, rooms s !! id = Some l → ∃ r, heap s !! l = Some r ∧ r_roomID (r_cfg r) = id ∧
     r_roomPass (r_cfg r) = cf_RoomPass cfg).
Proof.
  intros Hs%sreach_ok Hm. split; [pose proof (so_size _ _ Hs) as Hsz; by rewrite Hm in Hsz|]. split.
  - intros id1 id2 n1 n2 ip ip4 Hn1 Hn2 Hne Hip Hc.
    destruct (so_net _ _ Hs _ _ Hn1) as (a1 & b1 & i1 & ? & d1 & ? & M1 & E1 & _).
    destruct (so_net _ _ Hs _ _ Hn2) as (a2 & b2 & i2 & ? & d2 & ? & M2 & E2 & _).
    destruct (To4_quad _ _ Hip) as (p0 & p1 & p2 & p3 & ->).
    rewrite (Contains24 _ _ _ _ _ _ _ _ _ _ M1 E1 Hip) in Hc. apply bool_decide_eq_true in Hc.
    rewrite (Contains24 _ _ _ _ _ _ _ _ _ _ M2 E2 Hip). apply bool_decide_eq_false. intros E.
    apply (so_distinct _ _ Hs _ _ _ _ Hn1 Hn2 Hne). unfold third_octet. rewrite E1, E2. simplify_eq. done.
  - intros id l Hl. destruct (so_live _ _ Hs _ _ Hl) as (r & Hr & Hid). exists r.
    by destruct (so_good _ _ Hs _ _ Hr).
Qed.
End reachable.
