(* ===== verification/ServerEntry.v ===== *)
(** * ServerEntry: who enters a server, and what a stranger's packet can do

    The guarantee of RoomEntry at the level of datagrams: through the decoding,
    the dispatch and the tables of the server. *)

From S2P Require Import Prelude GoNet Crc32 Protocol Messages MessagesData MessagesPeer NetUtil RateLimit Float64 Bandwidth SendQueue Sha256 Auth I18n Client Room RoomHandlers RoomIP RoomInv RoomSafe RoomExample RoomSpec RoomEntry Persist Subnet Server ServerExample ServerSpec.

(** ** Steps that add no player to any room *)

Definition no_new (s s' : Server) : Prop :=
  ∀ rl r' k l, heap s' !! rl = Some r' → clients (r_core r') !! k = Some l →
    ∃ r, heap s !! rl = Some r ∧ clients (r_core r) !! k = Some l.
#[export] Instance no_new_preorder : PreOrder no_new.
Proof.
  split.
  - intros s rl r' k l Hr Hk. by exists r'.
  - intros s1 s2 s3 H12 H23 rl r' k l Hr Hk. destruct (H23 _ _ _ _ Hr Hk) as (r & Hr' & Hk').
    by apply (H12 rl r).
Qed.

Lemma no_new_heap s s' : heap s' = heap s → no_new s s'.
Proof. intros E rl r' k l Hr Hk. rewrite E in Hr. by exists r'. Qed.

Lemma no_new_in_room l f s :
  (∀ r, heap s !! l = Some r → no_entry (mkWorld r (s_q s) false) (f (mkWorld r (s_q s) false))) →
  no_new s (in_room l f s).
Proof.
  intros Hf. unfold in_room. destruct (heap s !! l) as [r|] eqn:E; [|done].
  intros rl r' k l' Hr Hk. cbn [heap set_persistDirty set_q set_heap] in Hr.
  apply lookup_insert_Some in Hr as [[<- <-]|[_ Hr]]; [|by exists r'].
  exists r. split; [done|]. eapply lookup_weaken; [exact Hk|]. exact (Hf r eq_refl).
Qed.

Lemma no_new_foldl {A} (f : Server → A → Server) L s : (∀ s a, no_new s (f s a)) → no_new s (foldl f s L).
Proof.
  intros Hf. revert s. induction L as [|a L IH]; intros s; [done|]. cbn [foldl].
  etransitivity; [apply Hf|apply IH].
Qed.

Section entry.
Context `{Env} `{MapRange}.

Lemma no_new_send t p to s : no_new s (srv_sendChecked t p to s).
Proof. unfold srv_sendChecked. destruct (rlq_send _ _ _ _ _) as [[] q]; by apply no_new_heap. Qed.
Lemma no_new_kick to reason s : no_new s (srv_sendKick to reason s).
Proof. apply no_new_send. Qed.

Lemma no_new_rebind p from s : no_new s (handleRebind p from s).
Proof.
  unfold handleRebind. destruct (UnmarshalRebind p) as [req| |]; [|done..].
  destruct (negb _); [apply no_new_send|].
  destruct (find_vip _ s) as [[[[rl r] l] c]|]; [|apply no_new_send].
  destruct (negb _); [apply no_new_send|]. destruct (negb _); [apply no_new_send|]. cbv zeta.
  set (s1 := in_room rl _ s).
  assert (no_new s s1) as Hs1.
  { apply no_new_in_room. intros r' _. apply no_entry_refl. symmetry. apply (clients_move l c from (r_core r')). }
  match goal with |- no_new _ (in_room _ _ (sendRebindAck _ _ ?x)) => transitivity x end.
  - transitivity s1; [done|]. destruct (multiRoom _); [|done]. by apply no_new_heap.
  - etransitivity; [apply no_new_send|]. apply no_new_in_room. intros r' _.
    apply no_entry_keeps. auto with room.
Qed.

(** packet that is not an AuthResponse, in a room with a password. *)
Lemma no_new_room l t p from s :
  (∀ r, heap s !! l = Some r → r_roomPass (r_cfg r) ≠ []) → t ≠ TypeAuthResponse →
  no_new s (in_room l (HandlePacket t p from) s).
Proof.
  intros Hpass Ht. apply no_new_in_room. intros r Hr.
  refine (no_entry_step (EvPacket t p from) (mkWorld r (s_q s) false) (Hpass r Hr) _). congruence.
Qed.

Lemma no_new_tick l ev s : is_tick ev = true → no_new s (in_room l (room_step ev) s).
Proof.
  intros Ht. apply no_new_in_room. intros r _.
  destruct (step_cases ev (mkWorld r (s_q s) false)) as [?|[(p & from & ->)|(p & from & ->)]]; done.
Qed.

Lemma no_new_cleanupClients s : no_new s (cleanupStaleClients s).
Proof.
  apply no_new_foldl. intros s' l. apply no_new_in_room. intros r _.
  destruct (step_cases EvCleanup (mkWorld r (s_q s') false)) as [?|[(p & from & ?)|(p & from & ?)]]; done.
Qed.

Lemma no_new_cleanupIdle s : no_new s (cleanupIdleRooms s).
Proof.
  apply no_new_foldl. intros s' [id l]. unfold idle_step. case_bool_decide; [done|].
  destruct (heap s' !! l) as [r|] eqn:El; [|done]. destruct (0 <? _); [done|]. destruct (_ <? _); [|done].
  intros rl r' k l' Hr Hk. cbn in Hr. apply lookup_insert_Some in Hr as [[<- <-]|[_ Hr]]; [by exists r|by exists r'].
Qed.

Lemma no_new_cleanupRoutes s : no_new s (cleanupStaleAddrToRoom s).
Proof. apply no_new_foldl. intros s' k. destruct (route_stale s' k); [by apply no_new_heap|done]. Qed.

Lemma no_new_register cfg p from s :
  cfg_ipv4 cfg → srv_ok cfg s → cf_MultiRoom cfg = true → cf_RoomPass cfg ≠ [] →
  no_new s (handleRegisterMultiRoom p from s).
Proof.
  intros Hv4 Hok Hm Hpass. unfold handleRegisterMultiRoom.
  destruct (UnmarshalRegister p) as [reg| |]; [|done..]. destruct (_ || _); [apply no_new_kick|].
  assert (∀ l s', srv_ok cfg s' → no_new s s' →
    let s1 := in_room l (HandlePacket TypeRegister p from) s' in
    no_new s (if (match heap s1 !! l with
                  | Some r => bool_decide (is_Some (addrMap (r_core r) !! AddrToRateKey from))
                  | None => false end)
              then set_addrToRoom (<[AddrToRateKey from := l]> (addrToRoom s1)) s1 else s1)) as Hreg.
  { intros l s' Hok' Hs'. cbv zeta. set (s1 := in_room _ _ s'). transitivity s1.
    - transitivity s'; [done|]. apply no_new_room; [|done]. intros r Hr.
      by destruct (so_good _ _ Hok' _ _ Hr) as [_ ->].
    - destruct (match heap s1 !! l with Some _ => _ | None => _ end); [by apply no_new_heap|done]. }
  destruct (find_or_create_cases cfg (rp_RoomID reg) s Hok Hm)
    as [(reason & -> & _)|[(l & -> & _)|(n & r & Hid & Hsz & Hal & Hnew & ->)]].
  - apply no_new_kick.
  - by apply Hreg.
  - apply Hreg; [by eapply srv_ok_add|].
    intros rl r' k l' Hr Hk. cbn in Hr. apply lookup_insert_Some in Hr as [[<- <-]|[_ Hr]]; [|by exists r'].
    pose proof (NewRoom_spec _ _ _ Hnew) as (rc & bm & _ & Hcore & _). rewrite Hcore in Hk. cbn in Hk. by rewrite lookup_empty in Hk.
Qed.

(** Only an AuthResponse that reaches a room can add a player. *)
Lemma dispatch_cases cfg msg from s :
  cfg_ipv4 cfg → srv_ok cfg s → cf_RoomPass cfg ≠ [] →
  no_new s (dispatch msg from s) ∨
  (Type_ msg = TypeAuthResponse ∧ ∃ l, dispatch msg from s = in_room l (HandlePacket TypeAuthResponse (Payload msg) from) s).
Proof.
  intros Hv4 Hok Hpass.
  assert (∀ l r, heap s !! l = Some r → r_roomPass (r_cfg r) ≠ []) as Hrooms.
  { intros l r Hr. by destruct (so_good _ _ Hok _ _ Hr) as [_ ->]. }
  unfold dispatch. case_bool_decide; [left; unfold handleNATProbe; destruct (UnmarshalNATProbe _); [apply no_new_send|done..]|].
  case_bool_decide; [left; apply no_new_rebind|].
  destruct (multiRoom (s_cfg s)) eqn:Hm.
  - unfold handlePacketMultiRoom. case_bool_decide.
    + left. eapply no_new_register; [done|done| |done]. by rewrite <- (proj1 (so_multi _ _ Hok)).
    + destruct (room_of s _) as [[l r]|]; [|by left]. destruct (r_stopped r); [by left|].
      destruct (decide (Type_ msg = TypeAuthResponse)) as [E|]; [right|left].
      * split; [done|]. exists l. by rewrite E.
      * apply no_new_room; [by apply Hrooms|done].
  - destruct (defaultRoom (s_cfg s)) as [l|]; [|by left].
    destruct (decide (Type_ msg = TypeAuthResponse)) as [E|]; [right|left].
    + split; [done|]. exists l. by rewrite E.
    + apply no_new_room; [by apply Hrooms|done].
Qed.

(** The same for a job of the packet channel. *)
Lemma worker_cases cfg s :
  cfg_ipv4 cfg → srv_ok cfg s → cf_RoomPass cfg ≠ [] → cachedEncrypted (s_cfg s) = true →
  no_new s (worker s) ∨
  ∃ job rest msg body l, pktCh s = job :: rest ∧ Decode (job_data job) = Ok msg ∧
    Type_ msg = TypeAuthResponse ∧ VerifyChecksum (job_data job) = Ok body ∧
    worker s = in_room l (HandlePacket TypeAuthResponse (Payload msg) (job_addr job)) (set_pktCh rest s).
Proof.
  intros Hv4 Hok Hpass Henc. unfold worker. destruct (pktCh s) as [|job rest]; [by left|].
  set (s1 := set_pktCh rest s).
  assert (srv_ok cfg s1) as Hok1 by (eapply srv_ok_srel; [done|]; by apply srel_same).
  assert (no_new s s1) as Hs1 by by apply no_new_heap.
  unfold handlePacket. change (s_cfg s1) with (s_cfg s). rewrite Henc.
  destruct (Decode (job_data job)) as [msg| |] eqn:Hd; [|by left..].
  destruct (dispatch_cases cfg msg (job_addr job) s1 Hv4 Hok1 Hpass) as [Hn|(Ht & l & Hdis)].
  - left. destruct (pre_auth _); [destruct (VerifyChecksum _)|]; done || by transitivity s1.
  - rewrite Ht. change (pre_auth TypeAuthResponse) with true. cbn iota.
    destruct (VerifyChecksum (job_data job)) as [body| |] eqn:Hv; [|by left..].
    right. exists job, rest, msg, body, l. done.
Qed.

(** C4: On a server with a password, in either mode, a new player appears in a room -
    an existing one or one created in the step - only when a worker takes a
    datagram whose checksum is right and which decodes to an AuthResponse that
    carries the HMAC, under the key derived from the server's password, of a
    challenge this room sent to a pending client at most 15 seconds before. *)
Theorem server_password_required cfg ev s rl r' k l :
  cfg_ipv4 cfg → srv_ok cfg s → cf_RoomPass cfg ≠ [] → cachedEncrypted (s_cfg s) = true →
  heap (server_step ev s) !! rl = Some r' → clients (r_core r') !! k = Some l →
  (∀ r, heap s !! rl = Some r → clients (r_core r) !! k = None) →
  ev = SvWorker ∧ ∃ job rest msg body r resp loc c a key,
    pktCh s = job :: rest ∧ Decode (job_data job) = Ok msg ∧ Type_ msg = TypeAuthResponse ∧
    VerifyChecksum (job_data job) = Ok body ∧
    heap s !! rl = Some r ∧ UnmarshalAuthResponse (Payload msg) = Ok resp ∧
    store (r_core r) !! loc = Some c ∧ cl_auth c = authChallengeSent ∧ cl_PublicAddr c = Some a ∧
    now - cl_challengeAt c ≤ 15 * Second ∧
    DeriveKey (cf_RoomPass cfg) (cl_authRoomID c) = Some key ∧
    ar_HMAC resp = HMAC_SHA256 key (transcript (cl_challenge c) (ar_RoomID resp) (ar_Username resp)
                                      (Some (UDPAddr_String a))).
Proof.
  intros Hv4 Hok Hpass Henc Hr' Hk Hnone.
  assert (∀ s', no_new s s' → heap s' !! rl = Some r' → False) as Hcontra.
  { intros s' Hn Hh. destruct (Hn _ _ _ _ Hh Hk) as (r & Hr & Hkr). rewrite (Hnone r Hr) in Hkr. done. }
  destruct ev as [data from| | | | | |rl' ev]; cbn [server_step] in Hr'.
  - exfalso. apply (Hcontra (receive data from s)); [|done]. apply no_new_heap. unfold receive.
    destruct (_ <? _)%nat; [done|]. destruct (checkRate _ _) as [[] sh]; cbn [negb]; [destruct (_ <? _)|]; done.
  - split; [done|].
    destruct (worker_cases cfg s Hv4 Hok Hpass Henc) as [Hn|(job & rest & msg & body & rl' & Hq & Hd & Ht & Hv & Hw)];
      [by exfalso; eapply Hcontra|].
    rewrite Hw in Hr'. unfold in_room in Hr'. change (heap (set_pktCh rest s)) with (heap s) in Hr'.
    destruct (heap s !! rl') as [r|] eqn:Hh; [|by exfalso; apply (Hcontra s)].
    cbn [heap set_persistDirty set_q set_heap] in Hr'.
    apply lookup_insert_Some in Hr' as [[-> <-]|[_ Hr']]; [|by exfalso; apply (Hcontra s)].
    destruct (so_good _ _ Hok _ _ Hh) as [Hgood Hp].
    destruct (entry_by_response (Payload msg) (job_addr job) (mkWorld r (s_q s) false) k l Hgood (Hnone r Hh) Hk)
      as (resp & loc & c & a & key & Hu & Hst & Ha & Hpa & Ht15 & Hkey & Hmac & _).
    unfold w_cfg in Hkey. cbn [w_room] in Hkey. rewrite Hp in Hkey.
    by exists job, rest, msg, body, r, resp, loc, c, a, key.
  - exfalso. by apply (Hcontra s).
  - exfalso. eapply Hcontra; [|exact Hr']. unfold keepaliveTick. destruct (multiRoom _).
    + etransitivity; [apply no_new_cleanupClients|]. etransitivity; [apply no_new_cleanupRoutes|apply no_new_cleanupIdle].
    + apply no_new_cleanupClients.
  - exfalso. eapply Hcontra; [|exact Hr']. apply no_new_heap. unfold persistTick, saveState. by repeat case_match.
  - exfalso. by apply (Hcontra s).
  - exfalso. destruct (heap s !! rl') as [r|]; [|by apply (Hcontra s)].
    destruct (r_stopped r || negb (is_tick ev)) eqn:Et; [by apply (Hcontra s)|].
    apply orb_false_iff in Et as [_ Et%negb_false_iff]. eapply Hcontra; [|exact Hr']. by apply no_new_tick.
Qed.

(** multi-room server ignores whatever it receives from an endpoint no room
    knows, Register, NATProbe and Rebind packets apart: the packet changes
    nothing, so the relay's migration of endpoints and the search for a pending
    client by name are out of reach in this mode. *)
Theorem unknown_endpoint_ignored data msg from s :
  multiRoom (s_cfg s) = true → addrToRoom s !! AddrToRateKey from = None →
  (if cachedEncrypted (s_cfg s) then Decode data else DecodeChecked data) = Ok msg →
  Type_ msg ≠ TypeRegister → Type_ msg ≠ TypeNATProbe → Type_ msg ≠ TypeRebind →
  handlePacket data from s = s.
Proof.
  intros Hm Hnone Hdec Hr Hn Hb.
  assert (dispatch msg from s = s) as Hd.
  { unfold dispatch. rewrite !bool_decide_eq_false_2, Hm by done.
    unfold handlePacketMultiRoom. rewrite bool_decide_eq_false_2 by done.
    unfold room_of. by rewrite Hnone. }
  unfold handlePacket. destruct (cachedEncrypted (s_cfg s)).
  - rewrite Hdec. destruct (pre_auth _); [destruct (VerifyChecksum data)|]; done.
  - by rewrite Hdec.
Qed.
End entry.

(** *** Witnesses *)

Lemma ex_srv_reach pass multi : sreach (ex_srv_config pass multi) (ex_srv pass multi).
Proof. apply (sreach_new _ (ex_env 0 x00) [] None). by destruct multi. Qed.
Lemma ex_srv_ipv4 pass multi : cfg_ipv4 (ex_srv_config pass multi).
Proof. exists x0a, x0a, x00, x00. reflexivity. Qed.
Lemma sreach_deliver cfg t seed data from s : sreach cfg s → sreach cfg (deliver t seed data from s).
Proof. intros Hs. apply (sreach_step _ (ex_env _ _)), (sreach_step _ (ex_env _ _)), Hs. Qed.

Lemma server_password_required_witness :
  ∃ c key, DeriveKey ex_pass (cl_authRoomID c) = Some key ∧ cl_auth c = authChallengeSent.
Proof.
  assert ((fun r' => clients (r_core r') !! IPKey (ex_vip x02)) <$>
    heap (@server_step ex_env2 _ SvWorker ex_srv_waiting) !! 0%nat = Some (Some 1%nat)) as Hk
    by (vm_compute; reflexivity).
  destruct (heap (@server_step ex_env2 _ SvWorker ex_srv_waiting) !! 0%nat) as [r'|] eqn:Hr'; [|discriminate Hk].
  injection Hk as Hk.
  destruct (@server_password_required ex_env2 _ (ex_srv_config ex_pass false) SvWorker ex_srv_waiting
    0%nat r' (IPKey (ex_vip x02)) 1%nat (ex_srv_ipv4 _ _)
    (sreach_ok _ (ex_srv_ipv4 _ _) _ (sreach_step _ ex_env2 _ _ (sreach_deliver _ _ _ _ _ _ (ex_srv_reach ex_pass false)))))
    as (_ & job & rest & msg & body & r & resp & loc & c & a & key & _ & _ & _ & _ & _ & _ & _ & Hauth & _ & _ & Hkey & _).
  - intros E. discriminate E.
  - vm_compute. reflexivity.
  - exact Hr'.
  - exact Hk.
  - intros r Hr. assert (match heap ex_srv_waiting !! 0%nat with
      | Some r => clients (r_core r) !! IPKey (ex_vip x02) = None | None => True end) as Hn
      by (vm_compute; reflexivity).
    rewrite Hr in Hn. exact Hn.
  - exists c, key. split; [exact Hkey|exact Hauth].
Defined.

Lemma unknown_endpoint_ignored_witness :
  let data := EncodeChecked TypeDisconnect [] in
  @handlePacket (ex_env 5 x00) _ data (ex_addr x07) ex_two_rooms = ex_two_rooms.
Proof.
  cbv zeta. refine (unknown_endpoint_ignored (EncodeChecked TypeDisconnect []) (mkMessage TypeDisconnect [])
    (ex_addr x07) ex_two_rooms _ _ _ _ _ _); try (vm_compute; reflexivity); vm_compute; discriminate.
Defined.

Lemma ex_two_reach : sreach (ex_srv_config [] true) ex_two_rooms.
Proof. apply sreach_deliver, sreach_deliver, ex_srv_reach. Qed.

(** Bob in the blue room. *)
Definition ex_bob_room : option (nat * Room) := room_named ex_two_rooms (str "blue").
Definition ex_bob_vip : ipkey := IPKey (IPv4 x0a x0a x03 x02).

Lemma room_named_player s id k l c :
  ('(_, r) ← room_named s id; vip_client (r_core r) k) = Some (l, c) → srv_player s id k l c.
Proof.
  unfold room_named, srv_player. intros Hb.
  destruct (rooms s !! id) as [rl|] eqn:Hrl; [|discriminate Hb]. cbn [mbind option_bind] in Hb.
  destruct (heap s !! rl) as [r|] eqn:Hr; [|discriminate Hb].
  by exists rl, r.
Qed.
Definition ex_bob_playing : option (nat * Client) := '(_, r) ← ex_bob_room; vip_client (r_core r) ex_bob_vip.
Lemma ex_bob_some : bool_decide (is_Some ex_bob_playing) = true.
Proof. vm_compute. reflexivity. Qed.
Lemma ex_bob_player : ∃ l c, srv_player ex_two_rooms (str "blue") ex_bob_vip l c.
Proof.
  destruct (proj1 (bool_decide_eq_true _) ex_bob_some) as [[l c] Hb].
  exists l, c. exact (room_named_player _ _ _ _ _ Hb).
Qed.

Lemma players_unique_across_rooms_witness : ∃ l c n,
  srv_player ex_two_rooms (str "blue") ex_bob_vip l c ∧
  room_net ex_two_rooms (str "blue") n ∧ Contains n (cl_VirtualIP c) = true.
Proof.
  destruct ex_bob_player as (l & c & Hp).
  destruct (players_unique_across_rooms (ex_srv_config [] true) (ex_srv_ipv4 _ _) ex_two_rooms
    (str "blue") (str "blue") ex_bob_vip l l c c ex_two_reach Hp Hp) as (_ & _ & _ & n & Hn & Hc).
  exists l, c, n. split; [exact Hp|]. split; [exact Hn|exact Hc].
Defined.

Lemma rooms_disjoint_and_bounded_witness :
  size (rooms ex_two_rooms) = 2%nat ∧ Z.of_nat (size (rooms ex_two_rooms)) ≤ maxRooms (s_cfg ex_two_rooms).
Proof.
  split; [vm_compute; reflexivity|].
  exact (proj1 (rooms_disjoint_and_bounded (ex_srv_config [] true) (ex_srv_ipv4 _ _) ex_two_rooms
    ex_two_reach eq_refl)).
Defined.
