(* ===== verification/ServerRebind.v ===== *)
(** * ServerRebind: moving a session to a new address

    handleRebind of src/internal/server/keepalive_server.go: what an accepted request
    does, who is refused, and what the proof it carries does not bind. *)

From S2P Require Import Prelude GoNet Crc32 Protocol Messages MessagesData MessagesPeer NetUtil RateLimit Float64 Bandwidth SendQueue Sha256 Auth I18n Client Room RoomHandlers RoomIP RoomInv RoomSafe RoomExample RoomSpec Persist Subnet Server ServerExample ServerSpec.

Section rebind.
Context `{Env} `{MapRange}.

Lemma send_frame t p to s :
  heap (srv_sendChecked t p to s) = heap s ∧ rooms (srv_sendChecked t p to s) = rooms s ∧
  addrToRoom (srv_sendChecked t p to s) = addrToRoom s ∧ s_cfg (srv_sendChecked t p to s) = s_cfg s.
Proof. unfold srv_sendChecked. by destruct (rlq_send _ _ _ _ _) as [[] q]. Qed.

Lemma heap_in_room l f s l' :
  heap (in_room l f s) !! l' =
    if decide (l = l') then (fun r => w_room (f (mkWorld r (s_q s) false))) <$> heap s !! l' else heap s !! l'.
Proof.
  unfold in_room. destruct (heap s !! l) as [r|] eqn:E; cbn [heap set_persistDirty set_q set_heap].
  - destruct (decide (l = l')) as [<-|Hne]; [by rewrite lookup_insert_eq, E|by rewrite lookup_insert_ne].
  - destruct (decide (l = l')) as [<-|Hne]; [by rewrite E|done].
Qed.

Lemma tables_in_room l f s :
  rooms (in_room l f s) = rooms s ∧ addrToRoom (in_room l f s) = addrToRoom s ∧ s_cfg (in_room l f s) = s_cfg s.
Proof. unfold in_room. by destruct (heap s !! l). Qed.

(** An accepted request, as one change of the player's room and, in multi-room
    mode, of the routes. *)
Lemma rebind_accepted payload from s req rl r l c :
  UnmarshalRebind payload = Ok req → is_Some (To4 (rb_VirtualIP req)) →
  find_vip (IPKey (rb_VirtualIP req)) s = Some (rl, r, l, c) → rebind_allowed r c req = true →
  let s' := handleRebind payload from s in
  (∃ r', heap s' !! rl = Some r' ∧ r_core r' = move_client l c from (r_core r) ∧ r_cfg r' = r_cfg r) ∧
  (∀ rl', rl' ≠ rl → heap s' !! rl' = heap s !! rl') ∧
  rooms s' = rooms s ∧ s_cfg s' = s_cfg s ∧
  addrToRoom s' =
    if multiRoom (s_cfg s) then
      <[AddrToRateKey from := rl]>
        (match cl_PublicAddr c with Some a => delete (AddrToRateKey a) (addrToRoom s) | None => addrToRoom s end)
    else addrToRoom s.
Proof.
  intros Hu H4 Hf Hal. cbv zeta. pose proof (find_vip_Some _ _ _ _ _ _ Hf) as (_ & Hr & [Hk Hst]%vip_client_Some).
  unfold handleRebind. rewrite Hu, Hf, Hal, (bool_decide_eq_true_2 _ H4). cbn [negb].
  rewrite (bool_decide_eq_true_2 (is_Some _)) by (by eexists). cbn [negb].
  set (s1 := in_room rl _ s). destruct (tables_in_room rl
    (fun w => on_stats (set_lastActivity now) (on_core (move_client l c from) w)) s) as (T1 & T2 & T3). fold s1 in T1, T2, T3.
  set (s2 := if multiRoom (s_cfg s1) then _ else s1).
  assert (heap s2 = heap s1 ∧ rooms s2 = rooms s ∧ s_cfg s2 = s_cfg s ∧ addrToRoom s2 =
    if multiRoom (s_cfg s) then
      <[AddrToRateKey from := rl]>
        (match cl_PublicAddr c with Some a => delete (AddrToRateKey a) (addrToRoom s) | None => addrToRoom s end)
    else addrToRoom s) as (E1 & E2 & E3 & E4).
  { unfold s2. rewrite T3, T2. destruct (multiRoom (s_cfg s)); [|done]. cbn. by rewrite T1. }
  clearbody s2. destruct (send_frame TypeRebindAck (RebindAckPayload_Marshal true) from s2) as (F1 & F2 & F3 & F4).
  fold (sendRebindAck from true s2) in F1, F2, F3, F4. set (s3 := sendRebindAck from true s2) in *. clearbody s3.
  destruct (tables_in_room rl (sendPeerInfoToClient from) s3) as (-> & -> & ->). rewrite F2, F3, F4, E2, E3, E4.
  split; [|split; [|done]].
  - rewrite heap_in_room, decide_True, F1, E1 by done. unfold s1.
    rewrite heap_in_room, decide_True, Hr by done. cbn [fmap option_fmap option_map].
    eexists. split; [done|]. match goal with |- context [sendPeerInfoToClient from ?w] =>
      pose proof (keeps_peerinfo from w) as (K1 & K2 & _) end.
    unfold w_core in K2. unfold w_cfg in K1. by rewrite K1, K2.
  - intros rl' Hne. rewrite heap_in_room, decide_False, F1, E1 by done. unfold s1.
    by rewrite heap_in_room, decide_False by done.
Qed.

(** What moving a client leaves alone: the other clients, every endpoint but the old and
    the new one of this client, and the other tables. *)
Lemma move_frame l c from s :
  (∀ l', l' ≠ l → store (move_client l c from s) !! l' = store s !! l') ∧
  (∀ k, k ≠ AddrToRateKey from → (∀ own, cl_PublicAddr c = Some own → AddrToRateKey own ≠ k) →
     addrMap (move_client l c from s) !! k = addrMap s !! k) ∧
  clients (move_client l c from s) = clients s ∧ ipBitmap (move_client l c from s) = ipBitmap s ∧
  pendingAuth (move_client l c from s) = pendingAuth s ∧ ipConnCount (move_client l c from s) = ipConnCount s.
Proof.
  unfold move_client. split; [|split].
  - intros l' Hne. destruct (cl_PublicAddr c); core_forms; by rewrite lookup_alter_ne.
  - intros k Hk Hown. destruct (cl_PublicAddr c) as [own|]; core_forms; rewrite lookup_insert_ne by done; [|done].
    rewrite lookup_delete_ne; [done|]. by apply Hown.
  - by destruct (cl_PublicAddr c).
Qed.

(** C13: A rebind request that is accepted moves exactly the player of its virtual
    address: in its room the player answers at the new endpoint and no longer at
    the old one; every other player of the room, every other endpoint, the addresses and
    the counts are as before - only an endpoint equal to the new one, if the room knew
    it, is taken over from whoever had it; in multi-room mode the packets of the new
    endpoint are routed to this room and those of the old one no longer, and no other
    route changes; all other rooms are unchanged.  A request that is refused changes no
    room and no route. *)
Theorem rebind_moves_the_player payload from s req :
  UnmarshalRebind payload = Ok req → is_Some (To4 (rb_VirtualIP req)) →
  let s' := handleRebind payload from s in
  match find_vip (IPKey (rb_VirtualIP req)) s with
  | Some (rl, r, l, c) =>
      if rebind_allowed r c req then
        (∃ r', heap s' !! rl = Some r' ∧ r_cfg r' = r_cfg r ∧
           (* the player *)
           addr_client (r_core r') (AddrToRateKey from)
             = Some (l, set_lastSeen now (set_PublicAddr (Some from) c)) ∧
           (∀ own, cl_PublicAddr c = Some own → AddrToRateKey own ≠ AddrToRateKey from →
             addr_client (r_core r') (AddrToRateKey own) = None) ∧
           (* and nobody else *)
           (∀ l', l' ≠ l → store (r_core r') !! l' = store (r_core r) !! l') ∧
           (∀ k, k ≠ AddrToRateKey from → (∀ own, cl_PublicAddr c = Some own → AddrToRateKey own ≠ k) →
              addrMap (r_core r') !! k = addrMap (r_core r) !! k) ∧
           clients (r_core r') = clients (r_core r) ∧ ipBitmap (r_core r') = ipBitmap (r_core r) ∧
           pendingAuth (r_core r') = pendingAuth (r_core r) ∧ ipConnCount (r_core r') = ipConnCount (r_core r)) ∧
        (∀ rl', rl' ≠ rl → heap s' !! rl' = heap s !! rl') ∧ rooms s' = rooms s ∧
        (if multiRoom (s_cfg s) then
           addrToRoom s' !! AddrToRateKey from = Some rl ∧
           (∀ own, cl_PublicAddr c = Some own → AddrToRateKey own ≠ AddrToRateKey from →
             addrToRoom s' !! AddrToRateKey own = None) ∧
           (∀ k, k ≠ AddrToRateKey from → (∀ own, cl_PublicAddr c = Some own → AddrToRateKey own ≠ k) →
              addrToRoom s' !! k = addrToRoom s !! k)
         else addrToRoom s' = addrToRoom s)
      else heap s' = heap s ∧ rooms s' = rooms s ∧ addrToRoom s' = addrToRoom s
  | None => heap s' = heap s ∧ rooms s' = rooms s ∧ addrToRoom s' = addrToRoom s
  end.
Proof.
  intros Hu H4. cbv zeta. destruct (find_vip _ s) as [[[[rl r] l] c]|] eqn:Hf.
  - destruct (rebind_allowed r c req) eqn:Hal.
    + destruct (rebind_accepted payload from s req rl r l c Hu H4 Hf Hal) as ((r' & Hr' & Hcore & Hcfg) & Hoth & Hrooms & _ & Hroutes).
      apply find_vip_Some in Hf as (_ & _ & [_ Hst]%vip_client_Some).
      destruct (move_client_spec l c from (r_core r) Hst) as [M1 M2].
      split; [|split; [done|split; [done|]]].
      * exists r'. rewrite Hcore. split; [done|]. split; [done|]. split; [done|]. split; [done|]. apply move_frame.
      * rewrite Hroutes. destruct (multiRoom (s_cfg s)); [|done]. split; [apply lookup_insert_eq|]. split.
        -- intros own -> Hne. rewrite lookup_insert_ne by done. apply lookup_delete_eq.
        -- intros k Hk Hown. rewrite lookup_insert_ne by done. destruct (cl_PublicAddr c) as [own|]; [|done].
           rewrite lookup_delete_ne; [done|]. by apply Hown.
    + unfold handleRebind. rewrite Hu, Hf, Hal, (bool_decide_eq_true_2 _ H4). cbn [negb].
      by destruct (send_frame TypeRebindAck (RebindAckPayload_Marshal false) from s) as (? & ? & ? & _).
  - unfold handleRebind. rewrite Hu, Hf, (bool_decide_eq_true_2 _ H4). cbn [negb].
    by destruct (send_frame TypeRebindAck (RebindAckPayload_Marshal false) from s) as (? & ? & ? & _).
Qed.
End rebind.

(** ** The proof of a rebind is not bound to an address or a time *)

Lemma rebind_allowed_replay (e1 e2 : Env) r1 r2 c1 c2 req :
  r_roomPass (r_cfg r1) ≠ [] → r_roomPass (r_cfg r2) = r_roomPass (r_cfg r1) →
  cl_authRoomID c2 = cl_authRoomID c1 → cl_Username c2 = cl_Username c1 →
  @rebind_allowed e1 r1 c1 req = true → @rebind_allowed e2 r2 c2 req = true.
Proof.
  unfold rebind_allowed. intros Hp -> -> ->. by destruct (r_roomPass (r_cfg r1)).
Qed.

(** rebind request with a valid HMAC can be replayed: once a packet was accepted
    for a player of a password-protected room, the same packet is accepted at any later
    time from any address while a player of the same name and room name has this
    virtual address, and its endpoint becomes whoever sent the packet. *)
Theorem rebind_replay `{MapRange} (e1 e2 : Env) payload req s1 rl1 r1 l1 c1 s2 rl2 r2 l2 c2 from2 :
  UnmarshalRebind payload = Ok req → is_Some (To4 (rb_VirtualIP req)) →
  find_vip (IPKey (rb_VirtualIP req)) s1 = Some (rl1, r1, l1, c1) →
  r_roomPass (r_cfg r1) ≠ [] → @rebind_allowed e1 r1 c1 req = true →
  find_vip (IPKey (rb_VirtualIP req)) s2 = Some (rl2, r2, l2, c2) →
  r_roomPass (r_cfg r2) = r_roomPass (r_cfg r1) →
  cl_authRoomID c2 = cl_authRoomID c1 → cl_Username c2 = cl_Username c1 →
  ∃ r', heap (@handleRebind e2 _ payload from2 s2) !! rl2 = Some r' ∧
    (fst <$> addr_client (r_core r') (AddrToRateKey from2)) = Some l2.
Proof.
  intros Hu H4 _ Hp Hal Hf2 Hpass Hroom Huser.
  pose proof (rebind_allowed_replay e1 e2 r1 r2 c1 c2 req Hp Hpass Hroom Huser Hal) as Hal2.
  destruct (@rebind_accepted e2 _ payload from2 s2 req rl2 r2 l2 c2 Hu H4 Hf2 Hal2) as ((r' & Hr' & Hcore & _) & _).
  exists r'. split; [done|]. apply find_vip_Some in Hf2 as (_ & _ & [_ Hst]%vip_client_Some).
  destruct (@move_client_spec e2 l2 c2 from2 (r_core r2) Hst) as [M1 _]. by rewrite Hcore, M1.
Qed.

(** *** Witnesses: Alice moves; her request is replayed by somebody else *)

Definition ex_move : RebindPayload := mkRebind [x0a; x0a; x02; x02] [].
Definition ex_move_payload : list byte := default [] (RebindPayload_Marshal ex_move).

Lemma rebind_moves_the_player_witness :
  multiRoom (s_cfg ex_two_rooms) = true ∧
  addrToRoom (@handleRebind (ex_env (5 * Second) x00) _ ex_move_payload (ex_addr x09) ex_two_rooms)
    !! AddrToRateKey (ex_addr x09) = Some 0%nat.
Proof.
  assert (multiRoom (s_cfg ex_two_rooms) = true) as Hm by (vm_compute; reflexivity).
  split; [exact Hm|].
  pose proof (@rebind_moves_the_player (ex_env (5 * Second) x00) _ ex_move_payload (ex_addr x09) ex_two_rooms ex_move
    eq_refl ltac:(by eexists)) as Hs. cbv zeta in Hs.
  assert ((fun '(rl, r, _, c) => (rl, @rebind_allowed (ex_env (5 * Second) x00) r c ex_move))
    <$> find_vip (IPKey (rb_VirtualIP ex_move)) ex_two_rooms = Some (0%nat, true)) as Hf by (vm_compute; reflexivity).
  destruct (find_vip _ ex_two_rooms) as [[[[rl r] l] c]|]; [|discriminate Hf].
  injection Hf as -> Hal. rewrite Hal, Hm in Hs. exact (proj1 (proj2 (proj2 (proj2 Hs)))).
Defined.

Definition ex_srv_in : Server := @server_step ex_env2 _ SvWorker ex_srv_waiting.
Definition ex_proof : RebindPayload :=
  mkRebind [x0a; x0a; x00; x02]
    (default [] (ComputeHMAC (DeriveKey ex_pass (str "lan")) [] (str "lan") (str "alice")
                   (Some (mkUDPAddr [x0a; x0a; x00; x02] 0 [])))).
Definition ex_proof_payload : list byte := default [] (RebindPayload_Marshal ex_proof).
Definition ex_hour : Env := ex_env (3600 * Second) x00.

(** What the two tests of the replay see of a state. *)
Definition ex_facts (e : Env) : option (nat * nat * list byte * list byte * list byte * bool) :=
  (fun '(rl, r, l, c) => (rl, l, r_roomPass (r_cfg r), cl_authRoomID c, cl_Username c, @rebind_allowed e r c ex_proof))
    <$> find_vip (IPKey (rb_VirtualIP ex_proof)) ex_srv_in.
Lemma ex_facts_ok : ex_facts ex_env2 = Some (0%nat, 1%nat, ex_pass, str "lan", str "alice", true).
Proof. vm_compute. reflexivity. Qed.

Lemma rebind_replay_witness :
  ∃ r', heap (@handleRebind ex_hour _ ex_proof_payload (ex_addr x63) ex_srv_in) !! 0%nat = Some r' ∧
    (fst <$> addr_client (r_core r') (AddrToRateKey (ex_addr x63))) = Some 1%nat.
Proof.
  pose proof ex_facts_ok as Hf. unfold ex_facts in Hf.
  destruct (find_vip (IPKey (rb_VirtualIP ex_proof)) ex_srv_in) as [[[[rl r] l] c]|] eqn:E; [|discriminate Hf].
  cbn [fmap option_fmap option_map] in Hf. injection Hf as -> -> Hp Hr Hu Hal.
  refine (@rebind_replay _ ex_env2 ex_hour ex_proof_payload ex_proof ex_srv_in 0%nat r 1%nat c ex_srv_in 0%nat r 1%nat c
    (ex_addr x63) _ _ E _ Hal E eq_refl eq_refl eq_refl).
  - vm_compute. reflexivity.
  - eexists. vm_compute. reflexivity.
  - rewrite Hp. intros Hn. discriminate Hn.
Defined.

(** ** The connection count stays with the old address *)

(** Alice enters from .1, moves to .9 and leaves; three times. *)
Definition ex_round (t : Z) (seed : byte) (s : Server) : Server :=
  let s := deliver t seed (ex_register_packet "lan" "alice") (ex_addr x01) s in
  let s := deliver (t + 1) x00 (EncodeChecked TypeRebind (default [] (RebindPayload_Marshal (mkRebind [x0a; x0a; x00; x02] [])))) (ex_addr x09) s in
  deliver (t + 2) x00 (EncodeChecked TypeDisconnect []) (ex_addr x09) s.
Definition ex_rounds : Server := ex_round 7 x03 (ex_round 4 x02 (ex_round 1 x01 (ex_srv [] false))).

(** The players, and the connections counted for an address, of the default room. *)
Definition ex_room_facts (s : Server) : option (nat * Z) :=
  '(_, r) ← room_named s (str "default");
  Some (size (clients (r_core r)), conn_count (r_core r) (addrToConnIPKey (ex_addr x01))).

(** rebind does not move the connection count: a player that enters from one
    address, migrates to another and leaves is counted for the first address for
    ever.  After three such visits the room is empty, three connections are counted for
    the address (the limit), and a fourth Register from it is refused. *)
Theorem rebind_leaks_connections :
  ex_room_facts (ex_round 1 x01 (ex_srv [] false)) = Some (0%nat, 1) ∧
  ex_room_facts ex_rounds = Some (0%nat, 3) ∧
  ex_room_facts (deliver 10 x04 (ex_register_packet "lan" "alice") (ex_addr x01) ex_rounds) = Some (0%nat, 3) ∧
  ex_room_facts (deliver 10 x04 (ex_register_packet "lan" "alice") (ex_addr x02) ex_rounds) = Some (1%nat, 3).
Proof. vm_compute. done. Qed.
