(* ===== verification/ServerLife.v ===== *)
(** * ServerLife: intake, clean-up and shutdown of a server

    receive, the keepalive tick and Close of src/internal/server/server.go and
    keepalive_server.go. *)

From S2P Require Import Prelude GoNet Crc32 Protocol Messages MessagesData MessagesPeer NetUtil RateLimit Float64 Bandwidth SendQueue Sha256 Auth I18n Client Room RoomHandlers RoomIP RoomInv RoomSafe RoomExample RoomSpec Persist Subnet Server ServerExample ServerSpec ServerRebind.

(** ** Intake *)

(** Every datagram is accounted for: one shorter than six bytes is ignored; any
    other is either queued, last in line, when its endpoint is within the rate
    limit and the channel has room, or counted as dropped.  The channel never
    exceeds its size, and no room changes before a worker takes the packet. *)
Theorem receive_accounts data from s :
  Z.of_nat (length (pktCh s)) ≤ chanBuf (s_cfg s) →
  let s' := receive data from s in
  Z.of_nat (length (pktCh s')) ≤ chanBuf (s_cfg s') ∧ heap s' = heap s ∧
  if (length data <? 6)%nat then s' = s
  else if fst (checkRate (s_rate s) from) && (Z.of_nat (length (pktCh s)) <? chanBuf (s_cfg s))
  then pktCh s' = pktCh s ++ [mkJob data from] ∧ totalPacketsDropped s' = totalPacketsDropped s
  else pktCh s' = pktCh s ∧ totalPacketsDropped s' = u64 (totalPacketsDropped s + 1).
Proof.
  intros Hlen. cbv zeta. unfold receive. change (HeaderLen + ChecksumLen)%nat with 6%nat.
  destruct (length data <? 6)%nat; [done|]. destruct (checkRate (s_rate s) from) as [[] sh]; cbn [fst negb andb]; [|done].
  change (pktCh (set_rate sh s)) with (pktCh s). change (s_cfg (set_rate sh s)) with (s_cfg s).
  destruct (Z.ltb_spec (Z.of_nat (length (pktCh s))) (chanBuf (s_cfg s))); [|done].
  split; [|done]. cbn. rewrite length_app. cbn. lia.
Qed.

Lemma receive_accounts_witness :
  let data := EncodeChecked TypeKeepAlive [] in
  pktCh (receive data (ex_addr x01) ex_two_rooms) = [mkJob data (ex_addr x01)].
Proof.
  cbv zeta. set (data := EncodeChecked TypeKeepAlive []).
  assert ((length data <? 6)%nat = false) as E1 by (vm_compute; reflexivity).
  assert (fst (checkRate (s_rate ex_two_rooms) (ex_addr x01)) = true) as E2 by (vm_compute; reflexivity).
  assert (pktCh ex_two_rooms = []) as E3 by (vm_compute; reflexivity).
  assert (chanBuf (s_cfg ex_two_rooms) = 8192) as E4 by (vm_compute; reflexivity).
  pose proof (receive_accounts data (ex_addr x01) ex_two_rooms) as Hs.
  rewrite E1, E2, E3, E4 in Hs. exact (proj1 (proj2 (proj2 (Hs ltac:(discriminate))))).
Defined.

(** ** Clean-up *)

Section cleanup.
Context `{Env} `{MapRange}.

Lemma filter_routes (L : list RateKey) s k :
  addrToRoom (foldl (fun s k => if route_stale s k then set_addrToRoom (delete k (addrToRoom s)) s else s) s L) !! k
    = if bool_decide (k ∈ L) && route_stale s k then None else addrToRoom s !! k.
Proof.
  revert s. induction L as [|k0 L IH]; intros s; cbn [foldl]; [done|].
  destruct (route_stale s k0) eqn:Es.
  - rewrite IH. cbn [addrToRoom set_addrToRoom]. destruct (decide (k = k0)) as [->|Hne].
    + rewrite (bool_decide_eq_true_2 (k0 ∈ k0 :: L)) by (by left). rewrite Es, lookup_delete_eq. cbn [andb].
      by destruct (_ && _).
    + rewrite lookup_delete_ne by done.
      assert (route_stale (set_addrToRoom (delete k0 (addrToRoom s)) s) k = route_stale s k) as ->.
      { unfold route_stale, room_of. cbn. by rewrite lookup_delete_ne. }
      assert (bool_decide (k ∈ k0 :: L) = bool_decide (k ∈ L)) as ->; [|done].
      apply bool_decide_ext. rewrite elem_of_cons. naive_solver.
  - rewrite IH. destruct (decide (k = k0)) as [->|Hne].
    + by rewrite Es, !andb_false_r.
    + assert (bool_decide (k ∈ k0 :: L) = bool_decide (k ∈ L)) as ->; [|done].
      apply bool_decide_ext. rewrite elem_of_cons. naive_solver.
Qed.

(** After a keepalive tick's pass over the routes, an endpoint is routed exactly
    when it was before and the room it leads to still knows it. *)
Theorem routes_after_cleanup s k l :
  routes_ok s →
  addrToRoom (cleanupStaleAddrToRoom s) !! k = Some l ↔
  ∃ r, addrToRoom s !! k = Some l ∧ heap s !! l = Some r ∧ is_Some (addrMap (r_core r) !! k).
Proof.
  intros Hr. unfold cleanupStaleAddrToRoom. rewrite filter_routes.
  assert (route_stale s k = true → k ∈ List.filter (route_stale s) (map fst (go_range (addrToRoom s)))) as Hin.
  { intros Hs. rewrite list_elem_of_In, filter_In. split; [|done]. rewrite <- list_elem_of_In.
    unfold route_stale, room_of in Hs. destruct (addrToRoom s !! k) as [l'|] eqn:E; [|done].
    apply list_elem_of_fmap. exists (k, l'). split; [done|]. by apply elem_of_go_range. }
  destruct (route_stale s k) eqn:Es.
  - rewrite bool_decide_eq_true_2 by auto. cbn [andb]. split; [done|].
    intros (r & Hk & Hh & Ha). unfold route_stale, room_of in Es. rewrite Hk in Es. cbn in Es.
    rewrite Hh in Es. cbn in Es. by rewrite bool_decide_eq_true_2 in Es.
  - rewrite andb_false_r. split; [|naive_solver]. intros Hk.
    destruct (Hr _ _ Hk) as [r Hh]. exists r. split; [done|]. split; [done|].
    unfold route_stale, room_of in Es. rewrite Hk in Es. cbn in Es. rewrite Hh in Es. cbn in Es.
    by apply negb_false_iff, bool_decide_eq_true in Es.
Qed.

(** room that stays: the default one, one with players, or one used within the
    last five minutes. *)
Definition room_stays (id : list byte) (r : Room) : bool :=
  bool_decide (id = str "default") || (0 <? ClientCount r)
  || negb (roomIdleTimeout <? now - lastActivity (r_stats r)).

Lemma idle_step_cases s id l :
  (idle_step s (id, l) = s ∧ ∀ r, heap s !! l = Some r → room_stays id r = true) ∨
  ∃ r, heap s !! l = Some r ∧ room_stays id r = false ∧
    idle_step s (id, l) = set_rooms (delete id (rooms s)) (set_heap (<[l := Stop r]> (heap s)) s).
Proof.
  unfold idle_step, room_stays. case_bool_decide; [by left|]. destruct (heap s !! l) as [r|]; [|by left].
  destruct (0 <? ClientCount r) eqn:E1; [left; split; [done|]; intros ? [= <-]; by rewrite E1|].
  destruct (roomIdleTimeout <? now - lastActivity (r_stats r)) eqn:E2.
  - right. exists r. by rewrite E1, E2.
  - left. split; [done|]. intros ? [= <-]. by rewrite E1, E2.
Qed.

(** Other rooms are not touched. *)
Lemma idle_fold_other L s id l :
  (∀ id' l', (id', l') ∈ L → id' ≠ id ∧ l' ≠ l) →
  rooms (foldl idle_step s L) !! id = rooms s !! id ∧ heap (foldl idle_step s L) !! l = heap s !! l.
Proof.
  revert s. induction L as [|[id0 l0] L IH]; intros s Hin; [done|]. cbn [foldl].
  destruct (IH (idle_step s (id0, l0))) as [-> ->]; [intros; apply Hin; by right|].
  destruct (Hin id0 l0 ltac:(by left)) as [Hi Hl].
  destruct (idle_step_cases s id0 l0) as [[-> _]|(r & _ & _ & ->)]; [done|]. cbn.
  by rewrite lookup_delete_ne, lookup_insert_ne by done.
Qed.

(** The clean-up of idle rooms removes a room exactly when it is not the default one,
    has no player and saw no activity for more than five minutes; a removed room
    is stopped, the others are unchanged. *)
Theorem idle_rooms_removed cfg s id l r :
  srv_ok cfg s → rooms s !! id = Some l → heap s !! l = Some r →
  let s' := cleanupIdleRooms s in
  if room_stays id r then rooms s' !! id = Some l ∧ heap s' !! l = Some r
  else rooms s' !! id = None ∧ heap s' !! l = Some (Stop r).
Proof.
  intros Hok Hid Hh. cbv zeta. unfold cleanupIdleRooms.
  assert ((id, l) ∈ go_range (rooms s)) as Hin by by apply elem_of_go_range.
  apply list_elem_of_split in Hin as (L1 & L2 & HL).
  pose proof (NoDup_go_range (rooms s)) as Hnd. rewrite HL in Hnd |- *.
  rewrite fmap_app, fmap_cons in Hnd. apply NoDup_app in Hnd as (_ & Hnd1 & [Hnd2 _]%NoDup_cons).
  assert (∀ id' l', (id', l') ∈ L1 ∨ (id', l') ∈ L2 → id' ≠ id ∧ l' ≠ l) as Hother.
  { intros id' l' Hin. assert (id' ≠ id) as Hne.
    - intros ->. destruct Hin as [Hin|Hin]; apply (list_elem_of_fmap_2 fst) in Hin; cbn in Hin.
      + by apply (Hnd1 _ Hin); left.
      + by apply Hnd2.
    - split; [done|]. intros ->. apply Hne. assert (rooms s !! id' = Some l) as Hid'.
      { apply elem_of_go_range. rewrite HL. destruct Hin; set_solver. }
      destruct (so_live _ _ Hok _ _ Hid') as (? & ? & <-). destruct (so_live _ _ Hok _ _ Hid) as (? & ? & <-). congruence. }
  rewrite foldl_app. cbn [foldl].
  destruct (idle_fold_other L2 (idle_step (foldl idle_step s L1) (id, l)) id l) as [-> ->]; [auto|].
  destruct (idle_fold_other L1 s id l) as [E1 E2]; [auto|]. rewrite Hid in E1. rewrite Hh in E2.
  destruct (idle_step_cases (foldl idle_step s L1) id l) as [[-> Hstay]|(r0 & Hr0 & Hgo & ->)].
  - by rewrite (Hstay _ E2).
  - rewrite E2 in Hr0. injection Hr0 as <-. rewrite Hgo. cbn. by rewrite lookup_delete_eq, lookup_insert_eq.
Qed.
End cleanup.

(** *** Witnesses: Alice has left the red room *)

Definition ex_red_empty : Server := deliver 3 x00 (EncodeChecked TypeDisconnect []) (ex_addr x01) ex_two_rooms.
Definition ex_later : Env := ex_env (400 * Second) x00.

Lemma ex_red_reach : sreach (ex_srv_config [] true) ex_red_empty.
Proof.
  do 3 (apply (sreach_step _ (ex_env _ _)), (sreach_step _ (ex_env _ _))).
  apply (sreach_new _ (ex_env 0 x00) [] None). reflexivity.
Qed.
Lemma ex_red_ok : srv_ok (ex_srv_config [] true) ex_red_empty.
Proof. apply sreach_ok; [|apply ex_red_reach]. exists x0a, x0a, x00, x00. reflexivity. Qed.

Lemma routes_after_cleanup_witness :
  addrToRoom ex_red_empty !! AddrToRateKey (ex_addr x01) = Some 0%nat ∧
  addrToRoom (cleanupStaleAddrToRoom ex_red_empty) !! AddrToRateKey (ex_addr x01) ≠ Some 0%nat.
Proof.
  split; [vm_compute; reflexivity|]. intros Hk.
  destruct (proj1 (routes_after_cleanup ex_red_empty _ _ (so_routes _ _ ex_red_ok)) Hk) as (r & _ & Hr & Ha).
  assert ((fun r => addrMap (r_core r) !! AddrToRateKey (ex_addr x01)) <$> heap ex_red_empty !! 0%nat = Some None) as E
    by (vm_compute; reflexivity).
  rewrite Hr in E. injection E as E. rewrite E in Ha. by destruct Ha.
Defined.

Lemma idle_rooms_removed_witness :
  rooms ex_red_empty !! str "red" = Some 0%nat ∧
  rooms (@cleanupIdleRooms ex_later _ ex_red_empty) !! str "red" = None.
Proof.
  assert (rooms ex_red_empty !! str "red" = Some 0%nat) as Hid by (vm_compute; reflexivity).
  split; [exact Hid|].
  assert (@room_stays ex_later (str "red") <$> heap ex_red_empty !! 0%nat = Some false) as E by (vm_compute; reflexivity).
  destruct (heap ex_red_empty !! 0%nat) as [r|] eqn:Hr; [|discriminate E].
  pose proof (@idle_rooms_removed ex_later _ (ex_srv_config [] true) ex_red_empty (str "red") 0%nat r ex_red_ok Hid Hr) as Hs.
  injection E as E. rewrite E in Hs. exact (proj1 Hs).
Defined.

(** ** Shutdown *)

Section shutdown.
Context `{Env} `{MapRange}.

Definition shutdown_packet : list byte :=
  EncodeChecked TypeKick (KickPayload_Marshal (mkKick (str "server shutdown") KickCodeShutdown)).

(** The endpoints of a room's players. *)
Definition room_targets (s : Server) (l : nat) : list UDPAddr :=
  match heap s !! l with Some r => public_addrs (client_list (r_core r)) | None => [] end.

Definition kick_entries (ts : list UDPAddr) : list sendEntry :=
  map (fun a => mkEntry shutdown_packet a priorityHigh) ts.

Lemma notify_queue ts w :
  Z.of_nat (length (sq_ch (rlq_sq (w_q w))) + length ts) ≤ sq_maxSize (rlq_sq (w_q w)) →
  let w' := foldl (fun w addr => sendChecked TypeKick
    (KickPayload_Marshal (mkKick (str "server shutdown") KickCodeShutdown)) addr w) w ts in
  rlq_sq (w_q w') = mkQueue (sq_ch (rlq_sq (w_q w)) ++ kick_entries ts) (sq_broadcastCh (rlq_sq (w_q w)))
                      (sq_maxSize (rlq_sq (w_q w))) (sq_out (rlq_sq (w_q w))) ∧
  w_room w' = w_room w.
Proof.
  revert w. induction ts as [|a ts IH]; intros w Hlen; cbn [foldl kick_entries map].
  { rewrite app_nil_r. by destruct (rlq_sq (w_q w)). }
  cbv zeta. cbn [Datatypes.length] in Hlen. set (w1 := sendChecked _ _ a w).
  assert (rlq_sq (w_q w1) = mkQueue (sq_ch (rlq_sq (w_q w)) ++ [mkEntry shutdown_packet a priorityHigh])
    (sq_broadcastCh (rlq_sq (w_q w))) (sq_maxSize (rlq_sq (w_q w))) (sq_out (rlq_sq (w_q w))) ∧
    w_room w1 = w_room w) as [E1 E2].
  { unfold w1, sendChecked, queue_send, rlq_send, sq_send.
    destruct (Z.ltb_spec (Z.of_nat (length (sq_ch (rlq_sq (w_q w))))) (sq_maxSize (rlq_sq (w_q w)))); [done|lia]. }
  destruct (IH w1) as [-> ->]; rewrite E1; cbn [sq_ch sq_maxSize sq_broadcastCh sq_out].
  - rewrite length_app. cbn. lia.
  - rewrite <- app_assoc. done.
Qed.

Lemma notify_room l s :
  Z.of_nat (length (sq_ch (rlq_sq (s_q s))) + length (room_targets s l)) ≤ sq_maxSize (rlq_sq (s_q s)) →
  let s' := in_room l notifyShutdown s in
  rlq_sq (s_q s') = mkQueue (sq_ch (rlq_sq (s_q s)) ++ kick_entries (room_targets s l))
    (sq_broadcastCh (rlq_sq (s_q s))) (sq_maxSize (rlq_sq (s_q s))) (sq_out (rlq_sq (s_q s))) ∧
  (∀ l', room_targets s' l' = room_targets s l') ∧ heap s' = heap s.
Proof.
  unfold room_targets at 1 2, in_room. intros Hlen. destruct (heap s !! l) as [r|] eqn:E.
  - destruct (notify_queue (public_addrs (client_list (r_core r))) (mkWorld r (s_q s) false) Hlen) as [E1 E2].
    unfold notifyShutdown. cbn [w_core w_room w_q] in *. cbv zeta. cbn [s_q set_persistDirty set_q heap set_heap].
    split; [exact E1|]. assert (∀ x, <[l := r]> (heap s) = x → x = heap s) as Hid
      by (intros x <-; by apply insert_id).
    unfold room_targets. cbn [heap set_persistDirty set_q set_heap].
    split; [intros l'|]; unfold w_core; cbn [w_room]; rewrite E2; cbn [w_room]; by rewrite insert_id.
  - cbn. rewrite app_nil_r. by destruct (rlq_sq (s_q s)).
Qed.

Lemma notify_rooms L s :
  Z.of_nat (length (sq_ch (rlq_sq (s_q s))) + length (concat (map (room_targets s) L)))
    ≤ sq_maxSize (rlq_sq (s_q s)) →
  let s' := foldl (fun s l => in_room l notifyShutdown s) s L in
  rlq_sq (s_q s') = mkQueue (sq_ch (rlq_sq (s_q s)) ++ kick_entries (concat (map (room_targets s) L)))
    (sq_broadcastCh (rlq_sq (s_q s))) (sq_maxSize (rlq_sq (s_q s))) (sq_out (rlq_sq (s_q s))) ∧
  heap s' = heap s ∧ rooms s' = rooms s ∧ s_cfg s' = s_cfg s.
Proof.
  revert s. induction L as [|l L IH]; intros s Hlen; cbn [foldl map concat].
  { cbn. rewrite app_nil_r. by destruct (rlq_sq (s_q s)). }
  cbv zeta. cbn [map concat] in Hlen. rewrite length_app in Hlen.
  destruct (notify_room l s) as (E1 & E2 & E3); [lia|]. destruct (tables_in_room l notifyShutdown s) as (T1 & _ & T3).
  set (s1 := in_room l notifyShutdown s) in *.
  assert (map (room_targets s1) L = map (room_targets s) L) as Em by by apply map_ext.
  destruct (IH s1) as (-> & -> & -> & ->); [|].
  - rewrite Em, E1. cbn [sq_ch sq_maxSize]. unfold kick_entries. rewrite length_app, length_map. lia.
  - rewrite Em, E1, E3, T1, T3. cbn [sq_ch sq_broadcastCh sq_maxSize sq_out].
    unfold kick_entries. by rewrite map_app, <- app_assoc.
Qed.

(** Closing a server tells every player of every room, provided the send queue has
    room for them: after Close the queue is empty, and behind everything that was
    pending the packets written contain a shutdown notice for each endpoint of a
    player; the state of the default room is saved when persistence is on. *)
Theorem Close_tells_everyone s :
  Z.of_nat (length (sq_ch (rlq_sq (s_q s))) + length (concat (map (room_targets s) (room_locs s))))
    ≤ sq_maxSize (rlq_sq (s_q s)) →
  let s' := Close s in
  (∀ id l r k n c a, rooms s !! id = Some l → heap s !! l = Some r →
     vip_client (r_core r) k = Some (n, c) → cl_PublicAddr c = Some a →
     mkEntry shutdown_packet a priorityHigh ∈ sq_out (rlq_sq (s_q s'))) ∧
  (∀ e, e ∈ sq_ch (rlq_sq (s_q s)) ++ sq_broadcastCh (rlq_sq (s_q s)) → e ∈ sq_out (rlq_sq (s_q s'))) ∧
  (∀ l r, stateEnabled (s_cfg s) = true → defaultRoom (s_cfg s) = Some l → heap s !! l = Some r →
     disk s' = Some (SnapshotState r)) ∧
  sq_ch (rlq_sq (s_q s')) = [] ∧ sq_broadcastCh (rlq_sq (s_q s')) = [].
Proof.
  intros Hlen. cbv zeta. unfold Close.
  destruct (notify_rooms (room_locs s) s Hlen) as (Eq & Eh & Er & Ec).
  set (s1 := foldl _ s (room_locs s)) in *. clearbody s1.
  set (s2 := set_q _ s1).
  assert (∀ L s, let s' := foldl (fun s l => in_room l (on_room Stop) s) s L in s_q s' = s_q s ∧ disk s' = disk s) as Hstop.
  { clear. intros L. induction L as [|l L IH]; intros s; [done|]. cbn [foldl]. cbv zeta.
    destruct (IH (in_room l (on_room Stop) s)) as [-> ->]. unfold in_room. by destruct (heap s !! l). }
  destruct (Hstop (room_locs (saveState s2)) (saveState s2)) as [-> ->].
  assert (s_q (saveState s2) = s_q s2) as -> by (unfold saveState; repeat case_match; done).
  assert (rlq_sq (s_q s2) = drain (rlq_sq (s_q s1))) as -> by done.
  unfold drain, drainBroadcast, drainMain. rewrite !writeAll_eq, Eq. cbn [sq_ch sq_broadcastCh sq_maxSize sq_out set_ch set_bcast].
  split; [|split; [|split; [|done]]].
  - intros id l r k n c a Hid Hh [Hk Hs]%vip_client_Some Ha.
    rewrite !elem_of_app. left. right. right. unfold kick_entries. apply list_elem_of_fmap. exists a. split; [done|].
    apply list_elem_of_In, in_concat. exists (room_targets s l). split.
    + apply in_map. unfold room_locs. apply list_elem_of_In, list_elem_of_fmap. exists (id, l).
      by rewrite elem_of_go_range.
    + apply list_elem_of_In. unfold room_targets. rewrite Hh. unfold public_addrs. apply list_elem_of_omap.
      exists (n, c). split; [|done]. apply elem_of_client_list. split; [by exists k|done].
  - intros e. rewrite !elem_of_app. tauto.
  - intros l r He Hd Hh. unfold saveState. change (s_cfg s2) with (s_cfg s1). change (heap s2) with (heap s1).
    rewrite Ec, Eh, He, Hd. cbn [negb mbind option_bind]. by rewrite Hh.
Qed.
End shutdown.

Definition ex_bob_key : ipkey := IPKey (IPv4 x0a x0a x03 x02).
Definition ex_blue : Room := default (ex_room []) (heap ex_two_rooms !! 1%nat).
Definition ex_bob : Client :=
  default (new_client [] [] None authNone [] 0 [] 0) (snd <$> vip_client (r_core ex_blue) ex_bob_key).
Lemma ex_blue_name : rooms ex_two_rooms !! str "blue" = Some 1%nat.
Proof. vm_compute. reflexivity. Qed.
Lemma ex_blue_room : heap ex_two_rooms !! 1%nat = Some ex_blue.
Proof. vm_compute. reflexivity. Qed.
Lemma ex_bob_client : vip_client (r_core ex_blue) ex_bob_key = Some (0%nat, ex_bob).
Proof. vm_compute. reflexivity. Qed.
Lemma ex_bob_addr : cl_PublicAddr ex_bob = Some (ex_addr x02).
Proof. vm_compute. reflexivity. Qed.

Lemma ex_two_rooms_room :
  Z.of_nat (length (sq_ch (rlq_sq (s_q ex_two_rooms)))
    + length (concat (map (room_targets ex_two_rooms) (room_locs ex_two_rooms))))
  ≤ sq_maxSize (rlq_sq (s_q ex_two_rooms)).
Proof. vm_compute. discriminate. Qed.

Lemma Close_tells_everyone_witness :
  mkEntry shutdown_packet (ex_addr x02) priorityHigh ∈ sq_out (rlq_sq (s_q (@Close ex_later _ ex_two_rooms))).
Proof.
  exact (proj1 (@Close_tells_everyone ex_later _ ex_two_rooms ex_two_rooms_room) (str "blue") 1%nat ex_blue
    ex_bob_key 0%nat ex_bob (ex_addr x02) ex_blue_name ex_blue_room ex_bob_client ex_bob_addr).
Defined.
