(* ===== verification/Sends.v ===== *)
(** * Sends: what the handlers do to the send queue

    Handlers only send: whatever a room or the server does with a packet or a tick,
    the queue changes by a sequence of accepted sends, so no packet that waits or was
    written is lost, reordered or changed, and the channels respect their sizes. *)

From S2P Require Import Prelude GoNet Crc32 Protocol Messages MessagesData MessagesPeer NetUtil RateLimit Float64 Bandwidth SendQueue Sha256 Auth I18n Client Room RoomHandlers RoomIP RoomInv RoomSafe Persist Subnet Server.

(** ** Sends *)

(** One accepted send of the queue. *)
Inductive sq_sent : sendQueue → sendQueue → Prop :=
| sent_send q d a p q' : sq_send q d a p = (true, q') → sq_sent q q'
| sent_broadcast q d a q' : sendBroadcast q d a = (true, q') → sq_sent q q'.

(** A packet handed to the queue, for the main or for the broadcast channel. *)
Inductive SendRequest := ToMain (d : list byte) (a : UDPAddr) (p : sendPriority) | ToBroadcast (d : list byte) (a : UDPAddr).

Definition request_entry (r : SendRequest) : sendEntry :=
  match r with ToMain d a p => mkEntry d a p | ToBroadcast d a => mkEntry d a priorityLow end.
Definition request (r : SendRequest) (q : sendQueue) : bool * sendQueue :=
  match r with ToMain d a p => sq_send q d a p | ToBroadcast d a => sendBroadcast q d a end.

(** Requests one after another: one packet for each that is answered with true. *)
Fixpoint requests (l : list SendRequest) (q : sendQueue) : list sendEntry * sendQueue :=
  match l with
  | [] => ([], q)
  | r :: l =>
      let '(ok, q1) := request r q in
      let '(acc, q2) := requests l q1 in
      ((if ok then [request_entry r] else []) ++ acc, q2)
  end.

Lemma sq_sent_requests q q' : rtc sq_sent q q' → ∃ l acc, requests l q = (acc, q').
Proof.
  induction 1 as [q|q q1 q2 H1 _ (l & acc & Hl)]; [by exists [], []|].
  destruct H1 as [q d a p q1 Hs|q d a q1 Hs].
  - exists (ToMain d a p :: l), (mkEntry d a p :: acc). cbn. by rewrite Hs, Hl.
  - exists (ToBroadcast d a :: l), (mkEntry d a priorityLow :: acc). cbn. by rewrite Hs, Hl.
Qed.

Lemma requests_steps l q acc q' : requests l q = (acc, q') → sq_steps q acc q'.
Proof.
  revert q acc. induction l as [|r l IH]; intros q acc; cbn; [intros [= <- <-]; constructor|].
  destruct (request r q) as [ok q1] eqn:E1. destruct (requests l q1) as [acc1 q2] eqn:E2. intros [= <- ->].
  apply IH in E2. destruct ok; cbn.
  - destruct r; cbn in *; by econstructor.
  - assert (q1 = q) as ->; [|done]. destruct r; cbn in E1; unfold sq_send, sendBroadcast in E1; destruct (_ <? _); by simplify_eq.
Qed.

(** What any number of sends leaves of a queue: every list grows at its end. *)
Record sent_facts (q q' : sendQueue) (lc lb lo : list sendEntry) : Prop := {
  sf_ch : sq_ch q' = sq_ch q ++ lc;
  sf_bcast : sq_broadcastCh q' = sq_broadcastCh q ++ lb;
  sf_out : sq_out q' = sq_out q ++ lo;
  sf_max : sq_maxSize q' = sq_maxSize q;
  sf_low : Forall (fun e => is_high e = false) (lb ++ lo) }.

Lemma sent_grows q q' : rtc sq_sent q q' → ∃ lc lb lo, sent_facts q q' lc lb lo.
Proof.
  induction 1 as [q|q q1 q2 H1 _ (lc & lb & lo & [E1 E2 E3 E4 E5])].
  { exists [], [], []. split; rewrite ?app_nil_r; done || constructor. }
  destruct H1 as [q d a p q1 Hs|q d a q1 Hs].
  - unfold sq_send in Hs. destruct (_ <? _); [|done]. injection Hs as <-. cbn in *.
    exists (mkEntry d a p :: lc), lb, lo. split; [by rewrite E1, <- app_assoc|done..].
  - unfold sendBroadcast in Hs. destruct (_ <? _); injection Hs as <-; cbn in *.
    + exists lc, (mkEntry d a priorityLow :: lb), lo.
      split; [done|by rewrite E2, <- app_assoc|done|done|by constructor].
    + exists lc, lb, (mkEntry d a priorityLow :: lo).
      split; [done|done|by rewrite E3, <- app_assoc|done|].
      apply Forall_app in E5 as [? ?]. apply Forall_app. split; [done|by constructor].
Qed.

(** The channels within their sizes, the broadcast channel without control packets. *)
Record queue_ok (q : sendQueue) : Prop := {
  qo_ch : Z.of_nat (length (sq_ch q)) ≤ sq_maxSize q;
  qo_bcast : Z.of_nat (length (sq_broadcastCh q)) ≤ broadcastChSize;
  qo_low : sq_wf q }.

Lemma queue_ok_sent q q' : rtc sq_sent q q' → queue_ok q → queue_ok q'.
Proof.
  induction 1 as [q|q q1 q2 H1 _ IH]; [done|]. intros [Hc Hb Hl]. apply IH. destruct H1 as [q d a p q1 Hs|q d a q1 Hs].
  - unfold sq_send in Hs. destruct (Z.ltb_spec (Z.of_nat (length (sq_ch q))) (sq_maxSize q)); [|done].
    injection Hs as <-. split; cbn; [rewrite length_app; cbn; lia|done|done].
  - unfold sendBroadcast in Hs.
    destruct (Z.ltb_spec (Z.of_nat (length (sq_broadcastCh q))) broadcastChSize); injection Hs as <-; split; cbn; try done.
    + rewrite length_app. cbn. lia.
    + apply Forall_app. split; [done|by constructor].
Qed.

Lemma queue_ok_iter q q' : sq_iter q q' → queue_ok q → queue_ok q'.
Proof.
  intros [q0 Hne|q0 Hne] [Hc Hb Hl].
  - destruct (run_main_spec q0 Hne) as ([_ Hm] & Eb & _ & Hp). unfold pending in Hp. rewrite Eb in Hp.
    split; [rewrite Hm; lia|by rewrite Eb|unfold sq_wf; by rewrite Eb].
  - destruct (run_broadcast_spec q0 Hne Hl) as ([_ Hm] & Ec & Hl' & _ & Hp). unfold pending in Hp. rewrite Ec in Hp.
    split; [by rewrite Hm, Ec|lia|done].
Qed.

(** ** Rooms *)

Definition sends (w w' : World) : Prop := rtc sq_sent (rlq_sq (w_q w)) (rlq_sq (w_q w')).
#[export] Instance sends_preorder : PreOrder sends.
Proof. split; [intros w; apply rtc_refl|]. intros x y z Hxy Hyz. unfold sends in *. by etrans. Qed.

Lemma sends_same w w' : rlq_sq (w_q w') = rlq_sq (w_q w) → sends w w'.
Proof. unfold sends. by intros ->. Qed.

Lemma rlq_send_sent n q d a p : rtc sq_sent (rlq_sq q) (rlq_sq (snd (rlq_send n q d a p))).
Proof.
  unfold rlq_send. match goal with |- context [let '(ok, lim) := ?x in _] => destruct x as [[] lim] end; [|done].
  destruct (sq_send _ _ _ _) as [[] q'] eqn:E; cbn.
  - by eapply rtc_once, sent_send.
  - unfold sq_send in E. destruct (_ <? _); [done|]. by injection E as <-.
Qed.

Create HintDb sends discriminated.

Section rooms.
Context `{Env} `{MapRange}.

Lemma sends_queue_send d to p w : sends w (queue_send d to p w).
Proof.
  unfold sends, queue_send. pose proof (rlq_send_sent now (w_q w) d to p) as Hs.
  by destruct (rlq_send _ _ _ _) as [[] q].
Qed.
Lemma sends_sendChecked t d to w : sends w (sendChecked t d to w).
Proof. apply sends_queue_send. Qed.
Lemma sends_sendCheckedRaw d to w : sends w (sendCheckedRaw d to w).
Proof. apply sends_queue_send. Qed.
Lemma sends_bypass d to w : sends w (sendCheckedRawBypass d to w).
Proof.
  unfold sends, sendCheckedRawBypass, sendBypass. destruct (sendBroadcast _ _ _) as [b q] eqn:E. cbn.
  apply rtc_once, (sent_broadcast _ d to). unfold sendBroadcast in *. by destruct (_ <? _); injection E as <- <-.
Qed.
Lemma sends_kickCode to c r w : sends w (sendKickCode to c r w).
Proof. apply (sends_sendChecked TypeKick _ to w). Qed.
Lemma sends_kick to r w : sends w (sendKick to r w).
Proof. apply sends_kickCode. Qed.
Lemma sends_assign vip to w : sends w (sendAssignIP vip to w).
Proof. unfold sendAssignIP. destruct (AssignIPPayload_Marshal _); [apply sends_sendChecked|done]. Qed.
Lemma sends_encoded w : sends w (getEncodedPeerInfo w).2.
Proof. unfold getEncodedPeerInfo. repeat case_match; by apply sends_same. Qed.
Lemma sends_foldl {A} (f : World → A → World) l w : (∀ w a, sends w (f w a)) → sends w (foldl f w l).
Proof.
  intros Hf. revert w. induction l as [|a l IH]; intros w; [done|]. cbn [foldl].
  etransitivity; [apply Hf|apply IH].
Qed.
Lemma sends_peerinfo to w : sends w (sendPeerInfoToClient to w).
Proof.
  unfold sendPeerInfoToClient. pose proof (sends_encoded w) as Hk.
  destruct (getEncodedPeerInfo w) as [e w']. etransitivity; [apply Hk|apply sends_sendCheckedRaw].
Qed.
Lemma sends_peerbroadcast w : sends w (sendPeerInfoBroadcast w).
Proof.
  unfold sendPeerInfoBroadcast. destruct (size _ =? 0)%nat; [done|].
  pose proof (sends_encoded w) as Hk. destruct (getEncodedPeerInfo w) as [e w'].
  etransitivity; [apply Hk|]. apply sends_foldl. intros. apply sends_bypass.
Qed.
Lemma sends_welcome vip to w : sends w (welcome vip to w).
Proof. etransitivity; [apply sends_assign|apply sends_peerinfo]. Qed.
Lemma sends_announce vip to w : sends w (announce vip to w).
Proof.
  unfold announce. transitivity (markDirty (invalidatePeerInfoCache (welcome vip to w))); [|apply sends_peerbroadcast].
  apply (sends_welcome vip to).
Qed.
Lemma sends_shutdown w : sends w (notifyShutdown w).
Proof. apply sends_foldl. intros. apply sends_sendChecked. Qed.
Lemma sends_unicast e a w : sends w (relay_unicast e a w).
Proof.
  unfold relay_unicast. destruct (rlq_limiter _); [|apply sends_sendCheckedRaw].
  destruct (IP_Equal _ _); [apply sends_sendCheckedRaw|]. destruct (Allow _ _ _ _) as [[] lim]; [|by apply sends_same].
  etransitivity; [|apply (sends_sendCheckedRaw e a)]. by apply sends_same.
Qed.
End rooms.

#[export] Hint Resolve sends_sendChecked sends_sendCheckedRaw sends_bypass sends_kickCode sends_kick sends_assign
  sends_peerinfo sends_peerbroadcast sends_welcome sends_announce sends_unicast : sends.

(** The goal's last world only sends more than one before it. *)
Ltac sending :=
  repeat first
    [ solve [apply sends_same; reflexivity]
    | match goal with |- sends ?w ?w' =>
        let skip x := (transitivity x; [|solve [auto with sends]]) in
        let same x := (transitivity x; [|apply sends_same; reflexivity]) in
        match w' with
        | sendChecked _ _ _ ?x => skip x
        | sendKick _ _ ?x => skip x
        | sendKickCode _ _ _ ?x => skip x
        | welcome _ _ ?x => skip x
        | announce _ _ ?x => skip x
        | sendPeerInfoBroadcast ?x => skip x
        | sendPeerInfoToClient _ ?x => skip x
        | on_stats _ ?x => same x
        | on_core _ ?x => same x
        | on_room _ ?x => same x
        | markDirty ?x => same x
        | invalidatePeerInfoCache ?x => same x
        end end ].

Section handlers.
Context `{Env} `{MapRange}.

Lemma sends_doRegister reg from w : sends w (doRegisterClient reg from w).2.
Proof. unfold doRegisterClient. repeat case_match; by apply sends_same. Qed.
Lemma sends_doChallenge reg from w : sends w (doSendAuthChallenge reg from w).2.
Proof. unfold doSendAuthChallenge. repeat case_match; by apply sends_same. Qed.

Lemma sends_registerNew reg from w : sends w (registerNew reg from w).
Proof.
  unfold registerNew. destruct (_ <=? _); [sending|]. set (w1 := on_core _ w).
  transitivity w1; [by apply sends_same|]. destruct (checkCapacityAndDuplicate _ _ _ _); [|sending..].
  destruct (r_roomPass _).
  - pose proof (sends_doRegister reg from w1) as Hd. destruct (doRegisterClient reg from w1) as [[vip|] w2]; sending; exact Hd.
  - destruct (_ <=? _); [sending|].
    pose proof (sends_doChallenge reg from w1) as Hd. destruct (doSendAuthChallenge reg from w1) as [[ch|] w2]; sending; exact Hd.
Qed.

Lemma sends_handleRegister p from w : sends w (handleRegister p from w).
Proof.
  unfold handleRegister. destruct (UnmarshalRegister p) as [reg| |]; [|done..].
  destruct (negb (IsCompatible _ _)); [sending|]. destruct (_ || _); [sending|]. destruct (_ || _); [sending|].
  destruct (checkRegRate _ _) as [[] r]; cbn [negb]; [|sending].
  unfold registerLocked. set (w1 := on_core _ (on_room _ w)). transitivity w1; [by apply sends_same|].
  destruct (addr_client _ _) as [[l c]|]; [sending|].
  destruct (resolveRestoredClient _ _ _ _ _) as [[c|] s]; [sending|].
  etransitivity; [|apply sends_registerNew]. by apply sends_same.
Qed.

Lemma sends_handleAuthResponse p from w : sends w (handleAuthResponse p from w).
Proof.
  unfold handleAuthResponse. destruct (UnmarshalAuthResponse p) as [resp| |]; [|done..].
  destruct (negb _); [done|]. destruct (findPending _ _ _) as [[[l c]|] old]; [|sending].
  destruct (negb _); [sending|]. destruct (_ <? _); [sending|].
  destruct (getAuthKey _ _) as [[key|] r]; [|sending]. destruct (negb _); [sending|].
  destruct (checkCapacityAndDuplicate _ _ _ _); [|sending..].
  unfold admitAuthenticated. set (w1 := on_core _ _). transitivity w1; [by apply sends_same|].
  match goal with |- context [doRegisterClient ?r from w1] => pose proof (sends_doRegister r from w1) as Hd;
    destruct (doRegisterClient r from w1) as [[vip|] w2] end; sending; exact Hd.
Qed.

Lemma sends_CleanupStale w : sends w (CleanupStale w).2.
Proof. unfold CleanupStale. destruct (foldl _ _ _) as [[] s]; by apply sends_same. Qed.

Lemma sends_pingTick w : sends w (pingTick w).
Proof.
  unfold pingTick. destruct (size _ =? 0)%nat; [done|]. cbv zeta.
  match goal with |- sends w (foldl _ (on_core ?f w) _) => transitivity (on_core f w); [by apply sends_same|] end.
  apply sends_foldl. intros w' [l c]. destruct (cl_PublicAddr c) as [a|]; [|done].
  etransitivity; [|apply sends_sendCheckedRaw]. by apply sends_same.
Qed.

Lemma sends_handleRelay payload from w : sends w (handleRelay payload from w).
Proof.
  unfold handleRelay. destruct (length payload <? 8)%nat; [done|].
  set (pair := match addr_client _ _ with Some sender => _ | None => _ end).
  assert (sends w pair.2) as Hp by (subst pair; repeat case_match; by apply sends_same).
  destruct pair as [[[l c]|] w1]; cbn [snd] in Hp; [|done].
  destruct (negb _); [done|]. destruct (negb _); [done|].
  destruct (relay_targets _ _ _ _) as [|t ts]; [done|].
  sending. transitivity w1; [done|]. apply sends_foldl. intros w' a.
  case_match; auto with sends.
Qed.

Lemma sends_HandlePacket t p from w : sends w (HandlePacket t p from w).
Proof.
  unfold HandlePacket.
  repeat (case_bool_decide; [solve [apply sends_handleRegister | apply sends_handleAuthResponse
    | apply sends_handleRelay
    | unfold handleKeepAliveWithPayload; repeat case_match; by apply sends_same
    | unfold handleDisconnect; repeat case_match; by apply sends_same
    | unfold handlePong; repeat case_match; by apply sends_same
    | unfold handlePeerRequest; destruct (addr_client _ _); sending
    | unfold handleHolePunch; repeat case_match; sending]|]).
  done.
Qed.

Lemma sends_room_step ev w : sends w (room_step ev w).
Proof.
  destruct ev; cbn [room_step].
  - apply sends_HandlePacket.
  - unfold peerInfoTick. destruct (peerInfoDirty _); [|done]. sending; apply sends_same; reflexivity.
  - apply sends_pingTick.
  - by apply sends_same.
  - pose proof (sends_CleanupStale w) as Hc. destruct (CleanupStale w) as [[] w']; cbn in *; sending; exact Hc.
  - apply sends_shutdown.
Qed.
End handlers.

(** ** The server *)

Definition srv_sends (s s' : Server) : Prop := rtc sq_sent (rlq_sq (s_q s)) (rlq_sq (s_q s')).
#[export] Instance srv_sends_preorder : PreOrder srv_sends.
Proof. split; [intros s; apply rtc_refl|]. intros x y z Hxy Hyz. unfold srv_sends in *. by etrans. Qed.

Lemma srv_sends_same s s' : rlq_sq (s_q s') = rlq_sq (s_q s) → srv_sends s s'.
Proof. unfold srv_sends. by intros ->. Qed.

Lemma srv_sends_in_room l f s : (∀ w, sends w (f w)) → srv_sends s (in_room l f s).
Proof. intros Hf. unfold in_room. destruct (heap s !! l) as [r|]; [|done]. exact (Hf (mkWorld r (s_q s) false)). Qed.

Lemma srv_sends_foldl {A} (f : Server → A → Server) l s : (∀ s a, srv_sends s (f s a)) → srv_sends s (foldl f s l).
Proof.
  intros Hf. revert s. induction l as [|a l IH]; intros s; [done|]. cbn [foldl].
  etransitivity; [apply Hf|apply IH].
Qed.

Section server.
Context `{Env} `{MapRange}.

Lemma srv_sends_sendChecked t d to s : srv_sends s (srv_sendChecked t d to s).
Proof.
  unfold srv_sends, srv_sendChecked. pose proof (rlq_send_sent now (s_q s) (EncodeChecked t d) to priorityHigh) as Hs.
  by destruct (rlq_send _ _ _ _) as [[] q].
Qed.

Lemma srv_sends_kick to r s : srv_sends s (srv_sendKick to r s).
Proof. apply srv_sends_sendChecked. Qed.

Lemma srv_sends_rebind payload from s : srv_sends s (handleRebind payload from s).
Proof.
  unfold handleRebind. destruct (UnmarshalRebind payload) as [req| |]; [|done..].
  destruct (negb _); [apply srv_sends_sendChecked|].
  destruct (find_vip _ s) as [[[[rl r] l] c]|]; [|apply srv_sends_sendChecked].
  destruct (negb _); [apply srv_sends_sendChecked|]. destruct (negb _); [apply srv_sends_sendChecked|].
  etransitivity; [|apply srv_sends_in_room, sends_peerinfo].
  etransitivity; [|apply srv_sends_sendChecked].
  assert (∀ w, sends w (on_stats (set_lastActivity now) (on_core (move_client l c from) w))) as Hm
    by (intros; by apply sends_same).
  destruct (multiRoom _); (etransitivity; [by apply (srv_sends_in_room rl _ s Hm)|by apply srv_sends_same]).
Qed.

Lemma srv_sends_find_or_create id s : srv_sends s (find_or_create id s).2.
Proof. unfold find_or_create, add_room. repeat case_match; simplify_eq; by apply srv_sends_same. Qed.

Lemma srv_sends_multi payload from s : srv_sends s (handleRegisterMultiRoom payload from s).
Proof.
  unfold handleRegisterMultiRoom. destruct (UnmarshalRegister payload) as [reg| |]; [|done..].
  destruct (_ || _); [apply srv_sends_kick|].
  pose proof (srv_sends_find_or_create (rp_RoomID reg) s) as Hf.
  destruct (find_or_create _ s) as [[reason|l] s1]; cbn [snd] in Hf.
  - etransitivity; [exact Hf|apply srv_sends_kick].
  - transitivity s1; [exact Hf|]. pose proof (srv_sends_in_room l (HandlePacket TypeRegister payload from) s1
      (fun w => sends_HandlePacket _ _ _ w)) as Hr.
    match goal with |- context [if ?b then _ else _] => destruct b end; exact Hr.
Qed.

Lemma srv_sends_handlePacket data from s : srv_sends s (handlePacket data from s).
Proof.
  assert (∀ msg, srv_sends s (dispatch msg from s)) as Hd.
  { intros msg. unfold dispatch. destruct (bool_decide _).
    { unfold handleNATProbe. destruct (UnmarshalNATProbe _); [apply srv_sends_sendChecked|done..]. }
    destruct (bool_decide _); [apply srv_sends_rebind|]. destruct (multiRoom _).
    - unfold handlePacketMultiRoom. destruct (bool_decide _); [apply srv_sends_multi|].
      destruct (room_of _ _) as [[l r]|]; [|done]. destruct (r_stopped r); [done|].
      apply srv_sends_in_room. intros. apply sends_HandlePacket.
    - destruct (defaultRoom _); [|done]. apply srv_sends_in_room. intros. apply sends_HandlePacket. }
  unfold handlePacket. destruct (cachedEncrypted _).
  - destruct (Decode data) as [msg| |]; [|done..]. destruct (pre_auth _); [|apply Hd].
    destruct (VerifyChecksum data); [apply Hd|done..].
  - destruct (DecodeChecked data) as [msg|[]|]; try done. apply srv_sends_sendChecked.
Qed.

(** Every event of the server only sends. *)
Lemma srv_sends_step ev s : srv_sends s (server_step ev s).
Proof.
  destruct ev as [data from| | | | | |l ev]; cbn [server_step].
  - unfold receive. destruct (_ <? _)%nat; [done|]. destruct (checkRate _ _) as [[] sh]; cbn [negb]; [|by apply srv_sends_same].
    destruct (_ <? _); by apply srv_sends_same.
  - unfold worker. destruct (pktCh s) as [|job q]; [done|].
    etransitivity; [|apply srv_sends_handlePacket]. by apply srv_sends_same.
  - by apply srv_sends_same.
  - unfold keepaliveTick. assert (srv_sends s (cleanupStaleClients s)) as Hc.
    { apply srv_sends_foldl. intros s' l. apply srv_sends_in_room. intros w.
      pose proof (sends_CleanupStale w) as Hw. destruct (CleanupStale w) as [[] w']; exact Hw. }
    destruct (multiRoom _); [|done]. etransitivity; [exact Hc|]. unfold cleanupIdleRooms. set (s1 := cleanupStaleClients s).
    transitivity (cleanupStaleAddrToRoom s1).
    + unfold cleanupStaleAddrToRoom. apply srv_sends_foldl. intros s' k. destruct (route_stale s' k); by apply srv_sends_same.
    + apply srv_sends_foldl. intros s' [id l]. unfold idle_step. repeat case_match; by apply srv_sends_same.
  - unfold persistTick, saveState. repeat case_match; by apply srv_sends_same.
  - by apply srv_sends_same.
  - destruct (heap s !! l); [|done]. destruct (_ || _); [done|]. apply srv_sends_in_room. intros. apply sends_room_step.
Qed.

End server.
