(* ===== verification/StateFile.v ===== *)
(** * StateFile: the state file on disk

    Server.saveState of src/internal/server/persist.go, one step for each system
    call.  It writes a file beside the state file and renames it.  persistLoop and
    Close call it from two goroutines: a step moves one of the savers.  Names refer to
    files by their inode, because an open file keeps its inode when its name goes. *)

From S2P Require Import Prelude.

(** What the names room-state.json and room-state.json.tmp refer to, and the contents of
    the files. *)
Record FS := mkFS { fs_path : option nat; fs_tmp : option nat; fs_data : gmap nat (list byte); fs_next : nat }.

Definition state_file (fs : FS) : option (list byte) := f ← fs_path fs; fs_data fs !! f.

(** Where a saveState is. *)
Inductive Saver :=
| Resting
| Marshalled (data : list byte)             (* the text of the snapshot; the directory is not made *)
| DirMade (data : list byte)
| TmpOpen (f : nat) (data : list byte)      (* os.WriteFile opened and truncated the file *)
| Written (data : list byte)                (* os.WriteFile returned nil *)
| Unlinking.                                (* os.Rename failed *)
#[export] Instance Saver_eq_dec : EqDecision Saver.
Proof. solve_decision. Defined.

(** open(2) of the temporary file with O_CREATE and O_TRUNC *)
Definition open_tmp (fs : FS) : nat * FS :=
  match fs_tmp fs with
  | Some f => (f, mkFS (fs_path fs) (Some f) (<[f := []]> (fs_data fs)) (fs_next fs))
  | None => let f := fs_next fs in (f, mkFS (fs_path fs) (Some f) (<[f := []]> (fs_data fs)) (S f))
  end.

(** write(2) at offset 0: longer contents keep their tail. *)
Definition write_file (f : nat) (data : list byte) (fs : FS) : FS :=
  let old := default [] (fs_data fs !! f) in
  mkFS (fs_path fs) (fs_tmp fs) (<[f := data ++ drop (length data) old]> (fs_data fs)) (fs_next fs).

Definition rename_tmp (fs : FS) : option FS :=
  match fs_tmp fs with
  | Some f => Some (mkFS (Some f) None (fs_data fs) (fs_next fs))
  | None => None
  end.
Definition remove_tmp (fs : FS) : FS := mkFS (fs_path fs) None (fs_data fs) (fs_next fs).

(** The next system call of saveState; [n] is the system's answer: the number of bytes
    written, for the others 0 for a failure.  A short write is an error. *)
Definition saver_step (n : nat) (s : Saver) (fs : FS) : Saver * FS :=
  match s with
  | Resting => (Resting, fs)
  | Marshalled data => if (n =? 0)%nat then (Resting, fs) else (DirMade data, fs)
  | DirMade data => if (n =? 0)%nat then (Resting, fs) else let '(f, fs) := open_tmp fs in (TmpOpen f data, fs)
  | TmpOpen f data =>
      let fs := write_file f (take n data) fs in
      if (n <? length data)%nat then (Resting, fs) else (Written data, fs)
  | Written data =>
      if (n =? 0)%nat then (Unlinking, fs)
      else match rename_tmp fs with Some fs => (Resting, fs) | None => (Unlinking, fs) end
  | Unlinking => (Resting, if (n =? 0)%nat then fs else remove_tmp fs)
  end.

(** ** Two savers *)

Inductive SaveEvent :=
| SaveStart (i : bool) (data : list byte)   (* saver [i] calls saveState *)
| SaveStep (i : bool) (n : nat)
| SaveCrash.                                (* the process ends: no step follows *)

Record Saving := mkSaving { sv_fs : FS; sv_loop : Saver; sv_close : Saver }.

Definition saver (i : bool) (w : Saving) : Saver := if i then sv_loop w else sv_close w.
Definition set_saver (i : bool) (s : Saver) (fs : FS) (w : Saving) : Saving :=
  if i then mkSaving fs s (sv_close w) else mkSaving fs (sv_loop w) s.

Definition save_event (w : Saving) (e : SaveEvent) : Saving :=
  match e with
  | SaveStart i data => match saver i w with Resting => set_saver i (Marshalled data) (sv_fs w) w | _ => w end
  | SaveStep i n => let '(s, fs) := saver_step n (saver i w) (sv_fs w) in set_saver i s fs w
  | SaveCrash => mkSaving (sv_fs w) Resting Resting
  end.
Definition save_events (w : Saving) (l : list SaveEvent) : Saving := foldl save_event w l.

(** A state directory as a run finds it: the names of two files, or none. *)
Record fs_ok (fs : FS) : Prop := {
  fo_apart : ∀ f, fs_path fs = Some f → fs_tmp fs ≠ Some f;
  fo_path : ∀ f, fs_path fs = Some f → (f < fs_next fs)%nat ∧ is_Some (fs_data fs !! f);
  fo_tmp : ∀ f, fs_tmp fs = Some f → (f < fs_next fs)%nat ∧ is_Some (fs_data fs !! f) }.

(** ** One saver at a time *)

(** No saver starts while the other one is at work. *)
Fixpoint exclusive (w : Saving) (l : list SaveEvent) : bool :=
  match l with
  | [] => true
  | e :: l =>
      match e with SaveStart i _ => bool_decide (saver (negb i) w = Resting) | _ => true end
      && exclusive (save_event w e) l
  end.

(** What a saver at work has done to the directory. *)
Definition saver_ok (s : Saver) (fs : FS) : Prop :=
  match s with
  | TmpOpen f _ => fs_tmp fs = Some f ∧ fs_data fs !! f = Some []
  | Written data => ∃ f, fs_tmp fs = Some f ∧ fs_data fs !! f = Some data
  | _ => True
  end.

Lemma state_file_write f data fs : fs_path fs ≠ Some f → state_file (write_file f data fs) = state_file fs.
Proof.
  intros Hne. unfold state_file, write_file. cbn. destruct (fs_path fs) as [g|]; cbn; [|done].
  by rewrite lookup_insert_ne by congruence.
Qed.

Lemma lookup_insert_is_Some_old (m : gmap nat (list byte)) f g x : is_Some (m !! g) → is_Some (<[f := x]> m !! g).
Proof. intros Hg. destruct (decide (f = g)) as [->|]; [rewrite lookup_insert_eq; by eexists|by rewrite lookup_insert_ne]. Qed.

(** Whatever the savers do, the two names refer to different files, which exist. *)
Lemma fs_ok_step n s fs : fs_ok fs → fs_ok (snd (saver_step n s fs)).
Proof.
  intros Hfs. pose proof Hfs as [H1 H2 H3].
  assert (∀ f d, fs_ok (write_file f d fs)) as Hw.
  { intros f d. split; cbn; [done|..]; intros g Hg; [destruct (H2 g Hg)|destruct (H3 g Hg)];
      (split; [done|by apply lookup_insert_is_Some_old]). }
  destruct s; cbn [saver_step]; try done; try (by case_match).
  - case_match; [done|]. unfold open_tmp. destruct (fs_tmp fs) as [f|] eqn:Et; split; cbn.
    + intros g Hg [= <-]. by eapply H1.
    + intros g Hg. destruct (H2 g Hg). split; [done|by apply lookup_insert_is_Some_old].
    + intros g [= <-]. destruct (H3 f eq_refl). split; [done|]. rewrite lookup_insert_eq. by eexists.
    + intros g Hg [= <-]. destruct (H2 _ Hg). lia.
    + intros g Hg. destruct (H2 g Hg). split; [lia|by apply lookup_insert_is_Some_old].
    + intros g [= <-]. split; [lia|]. rewrite lookup_insert_eq. by eexists.
  - case_match; apply Hw.
  - case_match; [done|]. unfold rename_tmp. destruct (fs_tmp fs) as [f|] eqn:Et; [|done]. split; cbn; [done| |done].
    intros g [= <-]. by apply H3.
Qed.

(** One system call of a lone saver: the state file keeps its contents, or the call is
    the rename of a complete text. *)
Lemma saver_step_ok n s fs : fs_ok fs → saver_ok s fs →
  let '(s', fs') := saver_step n s fs in
  fs_ok fs' ∧ saver_ok s' fs' ∧
  (state_file fs' = state_file fs ∨ ∃ data, s = Written data ∧ s' = Resting ∧ state_file fs' = Some data).
Proof.
  intros Hfs Hs. pose proof (fs_ok_step n s fs Hfs) as Hok. pose proof Hfs as [H1 H2 H3].
  destruct (saver_step n s fs) as [s' fs'] eqn:E. split; [exact Hok|]. clear Hok.
  destruct s as [|data|data|f data|data|]; cbn [saver_step] in E.
  - injection E as <- <-. split; [done|by left].
  - case_match; injection E as <- <-; (split; [done|by left]).
  - case_match; [injection E as <- <-; split; [done|by left]|]. unfold open_tmp in E.
    destruct (fs_tmp fs) as [f|] eqn:Et; injection E as <- <-; (split; [split; [done|apply lookup_insert_eq]|left]);
      unfold state_file; cbn; (destruct (fs_path fs) as [g|] eqn:Ep; [|done]); cbn.
    + rewrite lookup_insert_ne; [done|]. intros ->. by eapply H1.
    + rewrite lookup_insert_ne; [done|]. destruct (H2 g eq_refl). lia.
  - destruct Hs as [Et Ed]. assert (fs_path fs ≠ Some f) as Hne by (intros Ef; by apply (H1 f Ef)).
    destruct (Nat.ltb_spec n (length data)); injection E as <- <-; (split; [|left; by apply state_file_write]); [done|].
    exists f. split; [done|]. unfold write_file. cbn. rewrite lookup_insert_eq, Ed. cbn.
    by rewrite drop_nil, app_nil_r, take_ge by lia.
  - destruct Hs as (f & Et & Ed). case_match; [injection E as <- <-; split; [done|by left]|].
    unfold rename_tmp in E. rewrite Et in E. injection E as <- <-. split; [done|].
    right. exists data. split_and!; [done..|]. unfold state_file. cbn. by rewrite Ed.
  - case_match; injection E as <- <-; (split; [done|by left]).
Qed.

(** The text a saver carries. *)
Definition saver_text (s : Saver) : option (list byte) :=
  match s with Marshalled data | DirMade data | TmpOpen _ data | Written data => Some data | Resting | Unlinking => None end.

Lemma saver_step_text n s fs data : saver_text (fst (saver_step n s fs)) = Some data → saver_text s = Some data.
Proof.
  destruct s; cbn [saver_step]; try destruct (open_tmp fs); try destruct (rename_tmp fs);
    repeat match goal with |- context [if ?b then _ else _] => destruct b end; done.
Qed.

(** At most one saver is at work, on texts that satisfy [Q]; the state file is as it was
    or one of them. *)
Record lone (Q : list byte → Prop) (old : option (list byte)) (w : Saving) : Prop := {
  ln_fs : fs_ok (sv_fs w);
  ln_one : ∃ i, saver (negb i) w = Resting ∧ saver_ok (saver i w) (sv_fs w);
  ln_text : ∀ i data, saver_text (saver i w) = Some data → Q data;
  ln_state : state_file (sv_fs w) = old ∨ ∃ data, Q data ∧ state_file (sv_fs w) = Some data }.

Lemma saver_set i j s fs w : saver j (set_saver i s fs w) = if bool_decide (i = j) then s else saver j w.
Proof. by destruct i, j. Qed.
Lemma sv_fs_set i s fs w : sv_fs (set_saver i s fs w) = fs.
Proof. by destruct i. Qed.

Lemma lone_set Q old i s fs w : lone Q old w → saver (negb i) w = Resting → fs_ok fs → saver_ok s fs →
  (∀ data, saver_text s = Some data → Q data) →
  (state_file fs = state_file (sv_fs w) ∨ ∃ data, Q data ∧ state_file fs = Some data) → lone Q old (set_saver i s fs w).
Proof.
  intros [_ _ H3 H4] Hr Hfs Hs Ht Hst. split.
  - by rewrite sv_fs_set.
  - exists i. destruct i; cbn in *; done.
  - intros j data. rewrite saver_set. case_bool_decide; eauto.
  - rewrite sv_fs_set. destruct Hst as [->|?]; eauto.
Qed.

Lemma lone_event (Q : list byte → Prop) old w e : lone Q old w →
  match e with SaveStart i data => saver (negb i) w = Resting ∧ Q data | _ => True end → lone Q old (save_event w e).
Proof.
  intros Hl He. pose proof Hl as [H1 (j & Hj & Hok) H3 H4]. destruct e as [i data|i n|]; cbn [save_event].
  - destruct He as [Hr HQ]. destruct (saver i w) eqn:Es; try done.
    apply lone_set; try done; [|by left]. by intros ? [= <-].
  - assert (saver (negb i) w = Resting ∧ saver_ok (saver i w) (sv_fs w) ∨ saver i w = Resting) as [[Hr Hi]|Hr].
    { destruct i, j; cbn in *; auto. }
    + pose proof (saver_step_ok n _ _ H1 Hi) as Hs. pose proof (saver_step_text n (saver i w) (sv_fs w)) as Ht.
      destruct (saver_step n (saver i w) (sv_fs w)) as [s' fs']. destruct Hs as (Hf' & Hs' & Hst). cbn in Ht.
      apply lone_set; try done; [by eauto|]. destruct Hst as [->|(data & E & _ & ->)]; [by left|].
      right. exists data. split; [|done]. apply (H3 i). by rewrite E.
    + rewrite Hr. cbn. by destruct w, i; cbn in *; subst.
  - split; cbn; [done|by exists true|by intros []|done].
Qed.

Lemma lone_events (Q : list byte → Prop) old l w :
  lone Q old w → exclusive w l = true → (∀ i data, SaveStart i data ∈ l → Q data) → lone Q old (save_events w l).
Proof.
  revert w. induction l as [|e l IH]; intros w Hw He HQ; [done|]. cbn in *. apply andb_true_iff in He as [He Hl].
  apply IH; [|done|set_solver]. apply lone_event; [done|]. destruct e as [i data| |]; try done.
  apply bool_decide_eq_true in He. split; [done|]. apply (HQ i). left.
Qed.

(** C27: While the two savers do not overlap, saving is atomic: after any number of system
    calls that succeed, fail or write less than they should, and a crash between any
    two of them, the state file has its old contents or the whole text of one of the
    snapshots. *)
Theorem save_atomic fs l : fs_ok fs → exclusive (mkSaving fs Resting Resting) l = true →
  let fs' := sv_fs (save_events (mkSaving fs Resting Resting) l) in
  state_file fs' = state_file fs ∨ ∃ i data, SaveStart i data ∈ l ∧ state_file fs' = Some data.
Proof.
  intros Hfs Hl. cbv zeta. set (w := mkSaving fs Resting Resting) in *.
  assert (lone (fun data => ∃ i, SaveStart i data ∈ l) (state_file fs) (save_events w l)) as Hw.
  { apply lone_events; [|done|by eauto]. split; cbn; [done|by exists true|by intros []|by left]. }
  destruct (ln_state _ _ _ Hw) as [?|(data & [i ?] & ?)]; [by left|right; by exists i, data].
Qed.

(** The system calls of one saver, one after the other. *)
Definition saver_run (ns : list nat) (s : Saver) (fs : FS) : Saver * FS :=
  foldl (fun '(s, fs) n => saver_step n s fs) (s, fs) ns.

Lemma save_events_run i ns w :
  save_events w (map (SaveStep i) ns) =
  set_saver i (fst (saver_run ns (saver i w) (sv_fs w))) (snd (saver_run ns (saver i w) (sv_fs w))) w.
Proof.
  revert w. induction ns as [|n ns IH]; intros w; [by destruct w, i|]. cbn [map save_events foldl].
  unfold save_events in IH. rewrite IH. cbn [save_event]. unfold saver_run. cbn [foldl].
  destruct (saver_step n (saver i w) (sv_fs w)) as [s fs]. rewrite saver_set, sv_fs_set, bool_decide_eq_true_2 by done.
  by destruct i, w.
Qed.

Lemma saver_run_whole fs data : fs_ok fs →
  ∃ fs', saver_run [1; 1; length data; 1]%nat (Marshalled data) fs = (Resting, fs') ∧ state_file fs' = Some data ∧ fs_ok fs'.
Proof.
  intros Hfs. unfold saver_run. cbn [foldl saver_step Nat.eqb].
  pose proof (saver_step_ok 1%nat (DirMade data) fs Hfs I) as H3. cbn [saver_step Nat.eqb] in H3.
  destruct (open_tmp fs) as [f fs3]. destruct H3 as (Hfs3 & Hs3 & _). cbn [saver_step].
  pose proof (saver_step_ok (length data) (TmpOpen f data) fs3 Hfs3 Hs3) as H4. cbn [saver_step] in H4.
  rewrite Nat.ltb_irrefl in *. destruct H4 as (Hfs4 & Hs4 & _).
  pose proof (saver_step_ok 1%nat (Written data) _ Hfs4 Hs4) as H5. destruct Hs4 as (g & Et & Ed).
  cbn [saver_step Nat.eqb] in *. unfold rename_tmp in *. rewrite Et in *.
  eexists. split; [done|]. split; [|by destruct H5]. unfold state_file. cbn [fs_path mbind option_bind]. exact Ed.
Qed.

(** A save that is not disturbed and whose calls succeed puts its text in place, whatever
    failed saves left behind. *)
Theorem save_succeeds fs i data : fs_ok fs →
  let w := save_events (mkSaving fs Resting Resting) (SaveStart i data :: map (SaveStep i) [1; 1; length data; 1]%nat) in
  state_file (sv_fs w) = Some data ∧ saver i w = Resting ∧ fs_ok (sv_fs w).
Proof.
  intros Hfs. cbv zeta. change (save_events _ (?e :: ?l)) with (save_events (save_event (mkSaving fs Resting Resting) e) l).
  rewrite save_events_run.
  assert (∀ w, w = save_event (mkSaving fs Resting Resting) (SaveStart i data) → saver i w = Marshalled data ∧ sv_fs w = fs)
    as Hw by (intros w ->; by destruct i).
  destruct (Hw _ eq_refl) as [-> ->]. destruct (saver_run_whole fs data Hfs) as (fs' & -> & Hst & Hok).
  cbn [fst snd]. by rewrite saver_set, sv_fs_set, bool_decide_eq_true_2.
Qed.

(** ** Both savers at once *)

(** The calls of persistLoop's saver ([true]) and of Close's, interleaved: both open the
    temporary file, then both write it. *)
Definition overlap (dl dc : list byte) : list SaveEvent :=
  [SaveStart true dl; SaveStart false dc] ++ [SaveStep true 1; SaveStep false 1; SaveStep true 1; SaveStep false 1]
  ++ [SaveStep true (length dl); SaveStep false (length dc)].

(** Opening an empty temporary file changes nothing. *)
Lemma open_tmp_again fs f : fs_tmp fs = Some f → fs_data fs !! f = Some [] → open_tmp fs = (f, fs).
Proof. intros Et Ed. unfold open_tmp. rewrite Et, insert_id by done. destruct fs. cbn in *. by subst. Qed.

(** Both savers hold the same file; the second to write leaves the tail of a longer first
    text behind its own.  The rename of the first puts the mixture in place, the second
    finds no temporary file, and both have returned. *)
Theorem overlapping_saves_mix fs dl dc : fs_ok fs →
  let w := save_events (mkSaving fs Resting Resting)
    (overlap dl dc ++ [SaveStep true 1; SaveStep false 1; SaveStep false 1]%nat) in
  state_file (sv_fs w) = Some (dc ++ drop (length dc) dl) ∧ sv_loop w = Resting ∧ sv_close w = Resting.
Proof.
  intros Hfs. cbv zeta. unfold overlap, save_events. rewrite !foldl_app. cbn [foldl save_event saver sv_loop sv_close set_saver sv_fs saver_step Nat.eqb].
  destruct (open_tmp fs) as [f fs1] eqn:Eo.
  assert (fs_tmp fs1 = Some f ∧ fs_data fs1 !! f = Some []) as [Et Ed].
  { pose proof (saver_step_ok 1%nat (DirMade dl) fs Hfs I) as Hs. cbn in Hs. rewrite Eo in Hs. by destruct Hs as (_ & ? & _). }
  cbn [foldl save_event saver sv_loop sv_close set_saver sv_fs saver_step Nat.eqb].
  rewrite (open_tmp_again fs1 f Et Ed). cbn [saver_step sv_loop sv_close sv_fs].
  rewrite !Nat.ltb_irrefl, !firstn_all. cbn [saver_step sv_loop sv_close sv_fs Nat.eqb].
  rewrite !Nat.ltb_irrefl, !firstn_all. cbn [saver_step sv_loop sv_close sv_fs Nat.eqb].
  set (fs2 := write_file f dc _). assert (rename_tmp fs2 = Some (mkFS (Some f) None (fs_data fs2) (fs_next fs2))) as ->
    by (unfold rename_tmp; cbn; by rewrite Et).
  cbn [saver_step rename_tmp fs_tmp sv_loop sv_close sv_fs Nat.eqb]. split; [|done].
  unfold state_file. cbn. by rewrite !lookup_insert_eq, Ed; cbn; rewrite drop_nil, app_nil_r.
Qed.

(** When one saver truncates the file the other has just written and the process ends
    after the rename, the state file is empty. *)
Theorem overlapping_saves_truncate fs dl dc : fs_ok fs →
  let w := save_events (mkSaving fs Resting Resting)
    ([SaveStart true dl; SaveStart false dc; SaveStep false 1; SaveStep false 1; SaveStep false (length dc)]
     ++ [SaveStep true 1; SaveStep true 1; SaveStep false 1; SaveCrash]) in
  state_file (sv_fs w) = Some [].
Proof.
  intros Hfs. cbv zeta. unfold save_events. rewrite foldl_app.
  cbn [foldl save_event saver sv_loop sv_close set_saver sv_fs saver_step Nat.eqb].
  destruct (open_tmp fs) as [f fs1] eqn:Eo.
  assert (fs_tmp fs1 = Some f) as Et.
  { pose proof (saver_step_ok 1%nat (DirMade dl) fs Hfs I) as Hs. cbn in Hs. rewrite Eo in Hs. by destruct Hs as (_ & [? _] & _). }
  cbn [foldl save_event saver sv_loop sv_close set_saver sv_fs saver_step Nat.eqb].
  rewrite Nat.ltb_irrefl. cbn [set_saver save_event saver sv_loop sv_close sv_fs saver_step Nat.eqb].
  unfold open_tmp. cbn [fs_tmp write_file]. rewrite Et. cbn. unfold state_file. cbn. by rewrite lookup_insert_eq.
Qed.

(** *** Witnesses *)

Definition ex_fs : FS := mkFS (Some 0%nat) None {[ 0%nat := str "old" ]} 1.
Lemma ex_fs_ok : fs_ok ex_fs.
Proof. split; cbn; [done| |done]. intros f [= <-]. split; [lia|by eexists]. Qed.

(** A write that fails half-way, a save that succeeds, and one the process does not
    live to end. *)
Definition ex_saves : list SaveEvent :=
  [SaveStart true (str "first"); SaveStep true 1; SaveStep true 1; SaveStep true 2;
   SaveStart false (str "second"); SaveStep false 1; SaveStep false 1; SaveStep false 6; SaveStep false 1;
   SaveStart true (str "third"); SaveStep true 1; SaveStep true 1; SaveStep true 5; SaveCrash]%nat.

Lemma save_atomic_witness :
  state_file (sv_fs (save_events (mkSaving ex_fs Resting Resting) ex_saves)) = Some (str "second") ∧
  let fs' := sv_fs (save_events (mkSaving ex_fs Resting Resting) ex_saves) in
  (state_file fs' = state_file ex_fs ∨ ∃ i data, SaveStart i data ∈ ex_saves ∧ state_file fs' = Some data).
Proof. split; [vm_compute; reflexivity|]. apply (save_atomic ex_fs ex_saves ex_fs_ok). vm_compute. reflexivity. Defined.

Lemma save_succeeds_witness :
  state_file (sv_fs (save_events (mkSaving ex_fs Resting Resting)
    (SaveStart true (str "new") :: map (SaveStep true) [1; 1; 3; 1]%nat))) = Some (str "new").
Proof. exact (proj1 (save_succeeds ex_fs true (str "new") ex_fs_ok)). Defined.

Lemma overlapping_saves_mix_witness :
  state_file (sv_fs (save_events (mkSaving ex_fs Resting Resting)
    (overlap (str "three players") (str "two") ++ [SaveStep true 1; SaveStep false 1; SaveStep false 1]%nat)))
  = Some (str "twoee players").
Proof. exact (proj1 (overlapping_saves_mix ex_fs (str "three players") (str "two") ex_fs_ok)). Defined.

Lemma overlapping_saves_truncate_witness :
  state_file (sv_fs (save_events (mkSaving ex_fs Resting Resting)
    ([SaveStart true (str "new"); SaveStart false (str "new"); SaveStep false 1; SaveStep false 1; SaveStep false 3]
     ++ [SaveStep true 1; SaveStep true 1; SaveStep false 1; SaveCrash])%nat)) = Some [].
Proof. exact (overlapping_saves_truncate ex_fs (str "new") (str "new") ex_fs_ok). Defined.
