(* ===== verification/ServerProc.v ===== *)
(** * ServerProc: a server process from start to exit

    The goroutines of cmd/server/main.go and of Server.Run and Server.Close in
    src/internal/server/server.go: the read loop, the run loop of the send queue,
    persistLoop, the signal handler with Close, and the workers and tickers whose
    steps are the events of Server.v.  A move is one step of one goroutine.  The
    shutdown is the interleaving of their moves. *)

From S2P Require Import Prelude GoNet Crc32 Protocol Messages MessagesData MessagesPeer NetUtil RateLimit Float64 Bandwidth SendQueue Sha256 Auth I18n Client Room RoomHandlers RoomIP RoomInv RoomSafe RoomExample RoomSpec Persist Subnet Server ServerExample ServerSpec ServerLife Sends StateFile.

(** The text of a snapshot: json.MarshalIndent. *)
Class StateText := marshal : RoomState → list byte.

(** The goroutine of sendQueue.run *)
Inductive QueueState :=
| QueueOff        (* Run has not started it *)
| QueueOn
| QueueDraining   (* it saw the cancellation or Stop, and drained the main channel *)
| QueueDone.      (* [drained] is closed *)

(** The goroutine of persistLoop *)
Inductive LoopState := LoopOff | LoopWaiting | LoopSaving (last : bool) | LoopDone.

(** Server.Run, called by main *)
Inductive RunState :=
| RunOff
| RunLaunched     (* the goroutines run; the read loop is not entered *)
| RunReading
| RunDone.        (* Run returned *)

(** Server.Close *)
Inductive CloseState :=
| CloseIdle
| CloseNotify (ls : list nat)   (* the rooms still to be told *)
| CloseStop | CloseWait | CloseSave | CloseConn | CloseJoin | CloseRooms | CloseDone.

Record Proc := mkProc {
  p_srv : Server;
  p_ctx : bool;               (* the context of main is cancelled *)
  p_stop : bool;              (* the queue's [stopCh] is closed *)
  p_queue : QueueState; p_loop : LoopState; p_close : CloseState; p_run : RunState;
  p_conn : bool;              (* the UDP socket is open *)
  p_saving : Saving;          (* the state directory; savers: persistLoop and Close *)
  p_exited : bool }.

Definition with_srv v p := mkProc v (p_ctx p) (p_stop p) (p_queue p) (p_loop p) (p_close p) (p_run p) (p_conn p) (p_saving p) (p_exited p).
Definition with_ctx v p := mkProc (p_srv p) v (p_stop p) (p_queue p) (p_loop p) (p_close p) (p_run p) (p_conn p) (p_saving p) (p_exited p).
Definition with_stop v p := mkProc (p_srv p) (p_ctx p) v (p_queue p) (p_loop p) (p_close p) (p_run p) (p_conn p) (p_saving p) (p_exited p).
Definition with_queue v p := mkProc (p_srv p) (p_ctx p) (p_stop p) v (p_loop p) (p_close p) (p_run p) (p_conn p) (p_saving p) (p_exited p).
Definition with_loop v p := mkProc (p_srv p) (p_ctx p) (p_stop p) (p_queue p) v (p_close p) (p_run p) (p_conn p) (p_saving p) (p_exited p).
Definition with_close v p := mkProc (p_srv p) (p_ctx p) (p_stop p) (p_queue p) (p_loop p) v (p_run p) (p_conn p) (p_saving p) (p_exited p).
Definition with_run v p := mkProc (p_srv p) (p_ctx p) (p_stop p) (p_queue p) (p_loop p) (p_close p) v (p_conn p) (p_saving p) (p_exited p).
Definition with_conn v p := mkProc (p_srv p) (p_ctx p) (p_stop p) (p_queue p) (p_loop p) (p_close p) (p_run p) v (p_saving p) (p_exited p).
Definition with_saving v p := mkProc (p_srv p) (p_ctx p) (p_stop p) (p_queue p) (p_loop p) (p_close p) (p_run p) (p_conn p) v (p_exited p).
Definition with_exited v p := mkProc (p_srv p) (p_ctx p) (p_stop p) (p_queue p) (p_loop p) (p_close p) (p_run p) (p_conn p) (p_saving p) v.

Definition p_sq (p : Proc) : sendQueue := rlq_sq (s_q (p_srv p)).
Definition with_sq (q : sendQueue) (p : Proc) : Proc :=
  with_srv (set_q (mkRLQ q (rlq_limiter (s_q (p_srv p)))) (p_srv p)) p.

(** What a goroutine can do next. *)
Inductive Move :=
| MvLaunch | MvRead                       (* Run *)
| MvReadError                             (* ReadFromUDP fails on an open socket *)
| MvReadClosed                            (* ... because the socket is closed *)
| MvExit                                  (* main returns after Run *)
| MvEvent (e : Env) (ev : ServerEvent)    (* a worker, a ticker, a datagram *)
| MvQueueMain | MvQueueBroadcast | MvDrainMain | MvDrainBroadcast
| MvTick (e : Env) | MvLast (e : Env) | MvLoopCall (n : nat) | MvLoopSaved
| MvSignal                                (* the signal handler cancels the context *)
| MvHandlerCloses                         (* ... and calls Close *)
| MvCallClose                             (* Close called by other code *)
| MvNotify (e : Env) | MvNotified | MvStop | MvWaited (e : Env) | MvSaveCall (n : nat) | MvSaved
| MvCloseConn | MvJoined | MvStopRooms.

(** The events a goroutine other than persistLoop takes. *)
Definition is_persist (ev : ServerEvent) : bool := match ev with SvPersist => true | _ => false end.

Section proc.
Context `{MapRange} `{StateText}.

(** saveState up to the first system call. *)
Definition save_start `{Env} (i : bool) (s : Server) (w : Saving) : Saving :=
  if negb (stateEnabled (s_cfg s)) then w else
  match (l ← defaultRoom (s_cfg s); heap s !! l) with
  | None => w
  | Some r => save_event w (SaveStart i (marshal (SnapshotState r)))
  end.

Definition resting (i : bool) (w : Saving) : bool := bool_decide (saver i w = Resting).

(** Server.Run: the goroutines are started, then the read loop runs until a read fails. *)
Definition Run_step (m : Move) (p : Proc) : option Proc :=
  match m, p_run p with
  | MvLaunch, RunOff =>
      let loop := if stateEnabled (s_cfg (p_srv p)) then LoopWaiting else LoopDone in
      Some (with_run RunLaunched (with_queue QueueOn (with_loop loop p)))
  | MvRead, RunLaunched => Some (with_run RunReading p)
  | MvReadError, RunReading => if p_conn p then Some (with_run RunDone p) else None
  | MvReadClosed, RunReading => if p_conn p then None else Some (with_run RunDone p)
  | _, _ => None
  end.

(** sendQueue.run: a batch of one channel, or the end. *)
Definition queue_step (m : Move) (p : Proc) : option Proc :=
  match m, p_queue p with
  | MvQueueMain, QueueOn => match sq_ch (p_sq p) with [] => None | _ :: _ => Some (with_sq (run_main (p_sq p)) p) end
  | MvQueueBroadcast, QueueOn =>
      match sq_broadcastCh (p_sq p) with [] => None | _ :: _ => Some (with_sq (run_broadcast (p_sq p)) p) end
  | MvDrainMain, QueueOn =>
      if p_ctx p || p_stop p then Some (with_queue QueueDraining (with_sq (drainMain (p_sq p)) p)) else None
  | MvDrainBroadcast, QueueDraining => Some (with_queue QueueDone (with_sq (drainBroadcast (p_sq p)) p))
  | _, _ => None
  end.

(** persistLoop: a tick that finds the dirty flag, or the last save. *)
Definition persistLoop_step (m : Move) (p : Proc) : option Proc :=
  match m, p_loop p with
  | MvTick e, LoopWaiting =>
      if persistDirty (p_srv p)
      then Some (with_loop (LoopSaving false) (with_saving (@save_start e true (p_srv p) (p_saving p))
             (with_srv (set_persistDirty false (p_srv p)) p)))
      else None
  | MvLast e, LoopWaiting =>
      if p_ctx p then Some (with_loop (LoopSaving true) (with_saving (@save_start e true (p_srv p) (p_saving p)) p)) else None
  | MvLoopCall n, LoopSaving _ =>
      if resting true (p_saving p) then None else Some (with_saving (save_event (p_saving p) (SaveStep true n)) p)
  | MvLoopSaved, LoopSaving last =>
      if resting true (p_saving p) then Some (with_loop (if last then LoopDone else LoopWaiting) p) else None
  | _, _ => None
  end.

(** The signal handler of main, and other callers of Close. *)
Definition handler_step (m : Move) (p : Proc) : option Proc :=
  match m, p_close p with
  | MvSignal, _ => if p_ctx p then None else Some (with_ctx true p)
  | MvHandlerCloses, CloseIdle => if p_ctx p then Some (with_close (CloseNotify (room_locs (p_srv p))) p) else None
  | MvCallClose, CloseIdle => Some (with_close (CloseNotify (room_locs (p_srv p))) p)
  | _, _ => None
  end.

(** sendQueue.Stop closes [stopCh]; WaitDrain waits for [drained], which run closes. *)
Definition queue_Stop (p : Proc) : Proc := if p_stop p then p else with_stop true p.
Definition queue_drained (p : Proc) : bool := match p_queue p with QueueDone => true | _ => false end.

(** Server.Close up to the rooms; what it cancels is the context of rooms created
    later, not that of these goroutines. *)
Definition Close_step (m : Move) (p : Proc) : option Proc :=
  match m, p_close p with
  | MvNotify e, CloseNotify (l :: ls) =>
      Some (with_close (CloseNotify ls) (with_srv (in_room l (@notifyShutdown e _) (p_srv p)) p))
  | MvNotified, CloseNotify [] => Some (with_close CloseStop p)
  | MvStop, CloseStop => Some (with_close CloseWait (queue_Stop p))
  | MvWaited e, CloseWait =>
      if queue_drained p then Some (with_close CloseSave (with_saving (@save_start e false (p_srv p) (p_saving p)) p)) else None
  | MvSaveCall n, CloseSave =>
      if resting false (p_saving p) then None else Some (with_saving (save_event (p_saving p) (SaveStep false n)) p)
  | MvSaved, CloseSave => if resting false (p_saving p) then Some (with_close CloseConn p) else None
  | MvCloseConn, CloseConn => Some (with_close CloseJoin (with_conn false p))
  | MvJoined, CloseJoin =>
      (* the WaitGroup counts the read loop only *)
      match p_run p with RunReading => None | _ => Some (with_close CloseRooms p) end
  | MvStopRooms, CloseRooms =>
      let s := foldl (fun s l => in_room l (on_room Stop) s) (p_srv p) (room_locs (p_srv p)) in
      Some (with_close CloseDone (with_srv s p))
  | _, _ => None
  end.

(** The move, when its goroutine can make it. *)
Definition proc_step (m : Move) (p : Proc) : option Proc :=
  if p_exited p then None else
  match m with
  | MvLaunch | MvRead | MvReadError | MvReadClosed => Run_step m p
  | MvExit => match p_run p with RunDone => Some (with_exited true p) | _ => None end
  | MvEvent e ev =>
      match p_run p with
      | RunOff => None
      | _ => if is_persist ev then None else Some (with_srv (@server_step e _ ev (p_srv p)) p)
      end
  | MvQueueMain | MvQueueBroadcast | MvDrainMain | MvDrainBroadcast => queue_step m p
  | MvTick _ | MvLast _ | MvLoopCall _ | MvLoopSaved => persistLoop_step m p
  | MvSignal | MvHandlerCloses | MvCallClose => handler_step m p
  | MvNotify _ | MvNotified | MvStop | MvWaited _ | MvSaveCall _ | MvSaved | MvCloseConn | MvJoined | MvStopRooms => Close_step m p
  end.

Definition moves (l : list Move) (p : Proc) : option Proc := foldl (fun p m => p ≫= proc_step m) (Some p) l.

(** A process that main has created the server of. *)
Definition new_proc (s : Server) (fs : FS) : Proc :=
  mkProc s false false QueueOff LoopOff CloseIdle RunOff true (mkSaving fs Resting Resting) false.

Definition pstep (p p' : Proc) : Prop := ∃ m, proc_step m p = Some p'.

Inductive preach : Proc → Prop :=
| preach_new (e : Env) cfg locals file s fs : New cfg locals file = Some s → fs_ok fs → preach (new_proc s fs)
| preach_step p p' : preach p → pstep p p' → preach p'.
End proc.

(** The step of a move, opened. *)
Ltac open_step := unfold proc_step, Run_step, queue_step, persistLoop_step, handler_step, Close_step, queue_Stop, queue_drained.
Tactic Notation "open_step" "in" hyp(H) :=
  unfold proc_step, Run_step, queue_step, persistLoop_step, handler_step, Close_step, queue_Stop, queue_drained in H.

(** ** The invariant of the phases *)

Definition close_rank (c : CloseState) : nat :=
  match c with
  | CloseIdle => 0 | CloseNotify _ => 1 | CloseStop => 2 | CloseWait => 3 | CloseSave => 4
  | CloseConn => 5 | CloseJoin => 6 | CloseRooms => 7 | CloseDone => 8
  end.

Definition loop_saving (l : LoopState) : bool := match l with LoopSaving _ => true | _ => false end.

Record proc_ok (p : Proc) : Prop := {
  po_queue : p_queue p = QueueOff ↔ p_run p = RunOff;
  po_loop : p_loop p = LoopOff ↔ p_run p = RunOff;
  po_stop : (3 ≤ close_rank (p_close p))%nat → p_stop p = true;
  po_drained : (4 ≤ close_rank (p_close p))%nat → p_queue p = QueueDone;
  po_drain : p_queue p = QueueDraining ∨ p_queue p = QueueDone → p_ctx p || p_stop p = true;
  po_conn : p_conn p = false ↔ (6 ≤ close_rank (p_close p))%nat;
  po_close : p_close p ≠ CloseSave → sv_close (p_saving p) = Resting;
  po_saver : loop_saving (p_loop p) = false → sv_loop (p_saving p) = Resting;
  po_exit : p_exited p = true → p_run p = RunDone }.

Section steps.
Context `{MapRange} `{StateText}.

Lemma saver_start_other `{Env} i s w : saver (negb i) (save_start i s w) = saver (negb i) w.
Proof. unfold save_start. repeat case_match; try done. cbn. destruct (saver i w), i; done. Qed.
Lemma saver_step_other i n w : saver (negb i) (save_event w (SaveStep i n)) = saver (negb i) w.
Proof. cbn. by destruct (saver_step _ _ _), i. Qed.

Lemma proc_ok_step m p p' : proc_ok p → proc_step m p = Some p' → proc_ok p'.
Proof.
  destruct p as [srv ctx stop q lp cl rn cn sv ex]. intros [H1 H2 H3 H4 H5 H6 H7 H8 H9] Hs. open_step in Hs. cbn in *.
  assert (∀ b, sv_loop (save_event sv (SaveStep false b)) = sv_loop sv) as E1 by (intros b; apply (saver_step_other false b sv)).
  assert (∀ b, sv_close (save_event sv (SaveStep true b)) = sv_close sv) as E2 by (intros b; apply (saver_step_other true b sv)).
  assert (∀ e : Env, sv_loop (save_start false srv sv) = sv_loop sv) as E3 by (intros e; apply (saver_start_other false)).
  assert (∀ e : Env, sv_close (save_start true srv sv) = sv_close sv) as E4 by (intros e; apply (saver_start_other true)).
  destruct ex; [done|]. destruct m; revert Hs; repeat case_match; intros; simplify_eq/=; split; cbn -[save_event resting] in *;
    rewrite ?E1, ?E2, ?E3, ?E4; try done; try tauto; try (intros; first [lia|congruence|tauto]);
    try solve [intuition (congruence || lia) | intros; apply H3; lia | intros; apply H4; lia | rewrite H6; split; lia
      | intros _; match goal with Hr : resting _ _ = true |- _ => by apply bool_decide_eq_true in Hr end
      | intros _; apply H8; by rewrite (proj2 H2)].
Qed.

Lemma proc_ok_new s fs : proc_ok (new_proc s fs).
Proof. split; cbn; try done; try lia; try (by intros [?|?]); split; done || lia. Qed.

Lemma preach_ok p : preach p → proc_ok p.
Proof. induction 1 as [|p p' _ IH [m Hm]]; [apply proc_ok_new|by eapply proc_ok_step]. Qed.
End steps.

(** ** The queue *)

Section queue.
Context `{MapRange} `{StateText}.

(** What a move does to the queue. *)
Inductive queue_move (p p' : Proc) : Prop :=
| qm_sends : rtc sq_sent (p_sq p) (p_sq p') → (p_queue p' = p_queue p ∨ p_queue p = QueueOff ∧ p_queue p' = QueueOn) → queue_move p p'
| qm_iter : p_queue p = QueueOn → p_queue p' = QueueOn → sq_iter (p_sq p) (p_sq p') → queue_move p p'
| qm_main : p_queue p = QueueOn → p_queue p' = QueueDraining → p_sq p' = drainMain (p_sq p) → queue_move p p'
| qm_broadcast : p_queue p = QueueDraining → p_queue p' = QueueDone → p_sq p' = drainBroadcast (p_sq p) → queue_move p p'.

Lemma srv_sends_stop l s : srv_sends s (in_room l (on_room Stop) s).
Proof. apply srv_sends_in_room. intros w. by apply sends_same. Qed.

Lemma step_queue m p p' : proc_ok p → proc_step m p = Some p' → queue_move p p'.
Proof.
  intros Hok. open_step. destruct (p_exited p); [done|].
  assert (∀ p1, p_sq p1 = p_sq p → p_queue p1 = p_queue p → queue_move p p1) as Hsame.
  { intros p1 Hs Hq. apply qm_sends; [by rewrite Hs|by left]. }
  destruct m; repeat case_match; intros Heq; simplify_eq; try (by apply Hsame);
    try solve [apply qm_sends; [apply rtc_refl|right; split; [by apply (po_queue _ Hok)|done]]
      | apply qm_sends; [apply (srv_sends_step _ (p_srv p))|by left]].
  - apply qm_iter; [done|done|]. apply iter_main. congruence.
  - apply qm_iter; [done|done|]. apply iter_broadcast. congruence.
  - by apply qm_main.
  - by apply qm_broadcast.
  - apply qm_sends; [|by left]. apply (srv_sends_in_room _ _ (p_srv p)). intros w. apply (@sends_shutdown e).
  - apply qm_sends; [|by left]. apply (srv_sends_foldl _ _ (p_srv p)). intros s l. apply srv_sends_stop.
Qed.

Lemma queue_ok_new n l : queue_ok (rlq_sq (mkRLQ (newSendQueue n) l)) ↔ 0 ≤ n.
Proof. split; [by intros [? _ _]|]. intros Hn. by split; [|cbn; unfold broadcastChSize; lia|apply Forall_nil_2]. Qed.

Lemma preach_queue p : preach p → queue_ok (p_sq p).
Proof.
  induction 1 as [e cfg locals file s fs Hn _|p p' Hp IH [m Hm]].
  - assert (∃ l, s_q s = mkRLQ (newSendQueue 8192) l) as [l Hl].
    { revert Hn. unfold New. destruct (negb _); [done|]. destruct (cf_MultiRoom cfg); [intros [= <-]; by eexists|].
      destruct (NewRoom _ _) as [r|]; intros [= <-]. by eexists. }
    unfold p_sq. cbn. rewrite Hl. by apply queue_ok_new.
  - destruct (step_queue m p p' (preach_ok p Hp) Hm) as [Hs _|_ _ Hi|_ _ Hs|_ _ Hs].
    + by eapply queue_ok_sent.
    + by eapply queue_ok_iter.
    + rewrite Hs. unfold drainMain. rewrite writeAll_eq. destruct IH. split; cbn; [lia|done..].
    + rewrite Hs. unfold drainBroadcast. rewrite writeAll_eq. destruct IH. split; cbn; [done|lia|by apply Forall_nil_2].
Qed.

Lemma preach_steps p p' : preach p → rtc pstep p p' → preach p'.
Proof. intros Hp Hs. induction Hs as [|p p1 p2 H1 _ IH]; [done|]. apply IH. by eapply preach_step. Qed.

Lemma sent_highs q q' : rtc sq_sent q q' →
  highs (sq_out q') = highs (sq_out q) ∧ ∃ l, sq_ch q' = sq_ch q ++ l.
Proof.
  intros (lc & lb & lo & [E1 _ E3 _ E5])%sent_grows. apply Forall_app in E5 as [_ E5].
  rewrite E3, highs_app, (highs_none lo), app_nil_r by done. eauto.
Qed.

(** control packet that is written, or waits while the goroutine of the queue runs. *)
Definition on_its_way (e : sendEntry) (p : Proc) : Prop :=
  e ∈ highs (sq_out (p_sq p)) ∨ p_queue p = QueueOn ∧ e ∈ highs (sq_ch (p_sq p)).

Lemma on_its_way_step e p p' : preach p → pstep p p' → on_its_way e p → on_its_way e p'.
Proof.
  intros Hp [m Hm] Hw. pose proof (preach_queue p Hp) as [_ _ Hlow].
  destruct (step_queue m p p' (preach_ok p Hp) Hm) as [Hs Hq|Hq Hq' Hi|Hq Hq' Hs|Hq Hq' Hs].
  - apply sent_highs in Hs as [Ho [l Hl]]. unfold on_its_way. rewrite Ho, Hl, highs_app, elem_of_app.
    destruct Hw as [?|[Hon ?]]; [by left|]. right. split; [|by left]. destruct Hq as [?|[? _]]; congruence.
  - destruct (sq_iter_sound _ _ Hlow Hi) as (_ & _ & Hh & _). unfold sq_highs in Hh.
    assert (e ∈ highs (sq_out (p_sq p)) ++ highs (sq_ch (p_sq p))) as Hin
      by (apply elem_of_app; destruct Hw as [?|[_ ?]]; auto).
    rewrite <- Hh in Hin. apply elem_of_app in Hin as [?|?]; [by left|by right].
  - left. rewrite Hs. unfold drainMain. rewrite writeAll_eq. cbn. rewrite highs_app. apply elem_of_app.
    destruct Hw as [?|[_ ?]]; auto.
  - left. rewrite Hs. unfold drainBroadcast. rewrite writeAll_eq. cbn. rewrite highs_app. apply elem_of_app.
    destruct Hw as [?|[? _]]; [by left|congruence].
Qed.

(** C26: Closing a running server: every endpoint that Close tells is written a notice before
    Close saves the state, whatever the other goroutines do meanwhile, when the queue's
    goroutine runs at that moment and the channel has room. *)
Theorem notice_written (e : Env) p l ls a p1 p' :
  preach p → p_queue p = QueueOn → p_close p = CloseNotify (l :: ls) → a ∈ room_targets (p_srv p) l →
  Z.of_nat (length (sq_ch (p_sq p)) + length (room_targets (p_srv p) l)) ≤ sq_maxSize (p_sq p) →
  proc_step (MvNotify e) p = Some p1 → rtc pstep p1 p' → (4 ≤ close_rank (p_close p'))%nat →
  mkEntry shutdown_packet a priorityHigh ∈ sq_out (p_sq p').
Proof.
  intros Hp Hq Hc Ha Hroom Hm Hs Hr. assert (preach p1) as Hp1 by (eapply preach_step; [done|by eexists]).
  assert (on_its_way (mkEntry shutdown_packet a priorityHigh) p1) as Hw.
  { open_step in Hm. destruct (p_exited p); [done|]. rewrite Hc in Hm. injection Hm as <-. right. split; [done|].
    destruct (notify_room l (p_srv p) Hroom) as [Eq _]. unfold p_sq. cbn [p_srv with_close with_srv]. rewrite Eq.
    cbn [sq_ch]. rewrite highs_app, elem_of_app. right. rewrite highs_all; [unfold kick_entries; apply list_elem_of_fmap; by exists a|].
    unfold kick_entries. apply List.Forall_map, Forall_true. done. }
  assert (preach p' ∧ on_its_way (mkEntry shutdown_packet a priorityHigh) p') as [Hp' [Hin|[Hon _]]].
  { clear -Hs Hp1 Hw. induction Hs as [|p1 p2 p3 H1 _ IH]; [done|]. apply IH; [by eapply preach_step|by eapply on_its_way_step]. }
  - unfold highs in Hin. apply list_elem_of_In, filter_In in Hin as [Hin _]. by apply list_elem_of_In.
  - by rewrite (po_drained _ (preach_ok _ Hp') Hr) in Hon.
Qed.

(** Once the queue's goroutine has seen the cancellation no control packet is written
    any more. *)
Lemma silent_after_drain p p' : preach p → p_queue p = QueueDraining ∨ p_queue p = QueueDone → rtc pstep p p' →
  highs (sq_out (p_sq p')) = highs (sq_out (p_sq p)).
Proof.
  intros Hp Hq Hs. induction Hs as [|p p1 p2 [m Hm] _ IH]; [done|].
  assert (preach p1) as Hp1 by (eapply preach_step; [done|by eexists]). pose proof (preach_queue p Hp) as [_ _ Hlow].
  destruct (step_queue m p p1 (preach_ok p Hp) Hm) as [H1 Hq1|E|E|_ Hq1 H1]; [|destruct Hq; congruence..|].
  - rewrite IH; [by apply sent_highs in H1 as [-> _]|done|]. destruct Hq1 as [->|[E _]]; [done|]. rewrite E in Hq. by destruct Hq.
  - rewrite IH; [|done|by right]. rewrite H1. unfold drainBroadcast. rewrite writeAll_eq. cbn.
    by rewrite highs_app, (highs_none (sq_broadcastCh _)), app_nil_r.
Qed.
End queue.

(** ** The shutdown ends *)

(** The moves of the shutdown itself: all but new work, read errors, and the calls that
    begin it.  The exit of main, which cuts it short, is not one of them. *)
Definition inside (m : Move) : bool :=
  match m with MvReadError | MvExit | MvEvent _ _ | MvTick _ | MvSignal | MvCallClose => false | _ => true end.

Section ending.
Context `{MapRange} `{StateText}.

Definition closing_step (p p' : Proc) : Prop := ∃ m, inside m = true ∧ proc_step m p = Some p'.

Definition close_weight (p : Proc) : nat :=
  match p_close p with
  | CloseIdle => 9 + length (room_locs (p_srv p))
  | CloseNotify ls => 8 + length ls
  | c => 8 - close_rank c
  end.
Definition saver_rank (s : Saver) : nat :=
  match s with Resting => 0 | Marshalled _ => 5 | DirMade _ => 4 | TmpOpen _ _ => 3 | Written _ => 2 | Unlinking => 1 end.
Definition queue_rank (q : QueueState) : nat :=
  match q with QueueOff => 3 | QueueOn => 2 | QueueDraining => 1 | QueueDone => 0 end.
Definition loop_rank (l : LoopState) : nat :=
  match l with LoopOff => 0 | LoopSaving false => 11 | LoopWaiting => 10 | LoopSaving true => 1 | LoopDone => 0 end.
Definition run_rank (r : RunState) : nat :=
  match r with RunOff => 20 | RunLaunched => 2 | RunReading => 1 | RunDone => 0 end.
Definition work (p : Proc) : nat :=
  pending (p_sq p) + queue_rank (p_queue p) + loop_rank (p_loop p) + run_rank (p_run p)
  + saver_rank (sv_loop (p_saving p)) + saver_rank (sv_close (p_saving p)).

Lemma saver_rank_step n s fs : s ≠ Resting → (saver_rank (fst (saver_step n s fs)) < saver_rank s)%nat.
Proof.
  intros Hs. destruct s; cbn [saver_step]; try done; try destruct (open_tmp fs); try destruct (rename_tmp fs);
    repeat match goal with |- context [if ?b then _ else _] => destruct b end; cbn; lia.
Qed.

Lemma saver_rank_call i n w : resting i w = false →
  (saver_rank (sv_loop (save_event w (SaveStep i n))) + saver_rank (sv_close (save_event w (SaveStep i n)))
   < saver_rank (sv_loop w) + saver_rank (sv_close w))%nat.
Proof.
  intros Hr%bool_decide_eq_false. pose proof (saver_rank_step n (saver i w) (sv_fs w) Hr) as Hlt. cbn.
  destruct (saver_step n _ _) as [s fs], i; cbn in *; lia.
Qed.

Lemma saver_rank_start `{Env} s w :
  (saver_rank (sv_loop (save_start true s w)) + saver_rank (sv_close (save_start true s w))
   ≤ 5 + saver_rank (sv_loop w) + saver_rank (sv_close w))%nat.
Proof.
  unfold save_start. repeat case_match; try lia. destruct w as [fs [] sc]; cbn; lia.
Qed.

(** Every move of the shutdown brings Close forward, or finishes work it waits for. *)
Lemma closing_progress p p' : preach p → closing_step p p' →
  (close_weight p' < close_weight p)%nat ∨ close_weight p' = close_weight p ∧ (work p' < work p)%nat.
Proof.
  intros Hp (m & Hin & Hm). pose proof (preach_queue p Hp) as [_ _ Hlow].
  assert (sq_ch (p_sq p) ≠ [] → pending (run_main (p_sq p)) < pending (p_sq p))%nat as Hmain
    by (intros Hne; apply (run_main_spec _ Hne)).
  assert (sq_broadcastCh (p_sq p) ≠ [] → pending (run_broadcast (p_sq p)) < pending (p_sq p))%nat as Hbc
    by (intros Hne; apply (run_broadcast_spec _ Hne Hlow)).
  assert (pending (drainMain (p_sq p)) ≤ pending (p_sq p) ∧ pending (drainBroadcast (p_sq p)) ≤ pending (p_sq p))%nat as [Hdm Hdb]
    by (unfold drainMain, drainBroadcast, pending; rewrite !writeAll_eq; cbn; lia).
  unfold p_sq in *. destruct p as [srv ctx stop q lp cl rn cn sv ex]. open_step in Hm. cbn in *. destruct ex; [done|].
  destruct m; try done; revert Hm; repeat case_match; intros; simplify_eq; unfold close_weight, work, p_sq;
    cbn -[save_event resting pending room_locs] in *; try (left; cbn; lia); try (right; split; [done|cbn; lia]);
    (right; split; [done|]).
  - specialize (Hmain ltac:(unfold p_sq in *; cbn in *; congruence)). lia.
  - specialize (Hbc ltac:(unfold p_sq in *; cbn in *; congruence)). lia.
  - pose proof (saver_rank_start srv sv). lia.
  - match goal with Hr : resting _ _ = false, Hs : saver_step ?n _ _ = (?s, ?fs) |- _ =>
      apply bool_decide_eq_false in Hr; pose proof (saver_rank_step n _ (sv_fs sv) Hr) as Hlt; cbn in Hlt; rewrite Hs in Hlt end.
    cbn in Hlt. lia.
  - match goal with Hr : resting _ _ = false, Hs : saver_step ?n _ _ = (?s, ?fs) |- _ =>
      apply bool_decide_eq_false in Hr; pose proof (saver_rank_step n _ (sv_fs sv) Hr) as Hlt; cbn in Hlt; rewrite Hs in Hlt end.
    cbn in Hlt. lia.
Qed.

Lemma closing_pstep p p' : closing_step p p' → pstep p p'.
Proof. intros (m & _ & Hm). by exists m. Qed.

Lemma closing_sn p : preach p → sn closing_step p.
Proof.
  remember (close_weight p) as n eqn:En. remember (work p) as k eqn:Ek. revert k p En Ek.
  induction (lt_wf n) as [n _ IHn]. intros k. induction (lt_wf k) as [k _ IHk]. intros p -> -> Hp.
  constructor. intros p' Hs. unfold flip in Hs. assert (preach p') as Hp' by (eapply preach_step; [done|by apply closing_pstep]).
  destruct (closing_progress p p' Hp Hs) as [Hlt|[Heq Hlt]]; [by eapply IHn|by eapply IHk].
Qed.

(** What the shutdown keeps. *)
Lemma closing_keeps p p' : preach p → p_exited p = false → p_ctx p = true ∨ p_close p ≠ CloseIdle → rtc closing_step p p' →
  preach p' ∧ p_exited p' = false ∧ (p_ctx p' = true ∨ p_close p' ≠ CloseIdle) ∧ (p_ctx p = true → p_ctx p' = true).
Proof.
  intros Hp Hx Hc Hs. induction Hs as [|p p1 p2 H1 _ IH]; [done|].
  assert (preach p1) as Hp1 by (eapply preach_step; [done|by apply closing_pstep]).
  assert (p_exited p1 = false ∧ (p_ctx p1 = true ∨ p_close p1 ≠ CloseIdle) ∧ (p_ctx p = true → p_ctx p1 = true)) as (Hx1 & Hc1 & Hk).
  { destruct H1 as (m & Hin & Hm). open_step in Hm. rewrite Hx in Hm. clear IH Hp Hp1.
    destruct m; try done; revert Hm; repeat case_match; intros; simplify_eq; cbn; (split; [done|]);
      (split; [|done]); try done; try (right; congruence); tauto. }
  destruct (IH Hp1 Hx1 Hc1) as (? & ? & ? & Hk2). split_and!; auto.
Qed.

Definition some_env : Env := Build_Env 0 en None.

(** The moves to try: the answers of the system do not matter here. *)
Definition closers : list Move :=
  [MvLaunch; MvRead; MvReadClosed; MvHandlerCloses; MvNotify some_env; MvNotified; MvStop; MvWaited some_env;
   MvSaveCall 0; MvSaved; MvCloseConn; MvJoined; MvStopRooms; MvDrainMain; MvDrainBroadcast; MvLast some_env;
   MvLoopCall 0; MvLoopSaved].

Definition stopped (p : Proc) : Prop :=
  p_close p = CloseDone ∧ p_run p = RunDone ∧ p_queue p = QueueDone ∧ (p_ctx p = true → p_loop p = LoopDone).

(** When none of them is possible everything has stopped. *)
Lemma closing_stuck p : preach p → p_exited p = false → p_ctx p = true ∨ p_close p ≠ CloseIdle →
  Forall (fun m => proc_step m p = None) closers → stopped p.
Proof.
  intros Hp Hx Hc Hnf. pose proof (preach_ok p Hp) as Hok. unfold closers in Hnf. rewrite !Forall_cons in Hnf.
  destruct Hnf as (N1 & N2 & N3 & N4 & N5 & N6 & N7 & N8 & N9 & N10 & N11 & N12 & N13 & N14 & N15 & N16 & N17 & N18 & _).
  unfold proc_step, Run_step, queue_step, persistLoop_step, handler_step, Close_step, queue_Stop, queue_drained in *. rewrite Hx in *.
  assert (p_run p ≠ RunOff ∧ p_run p ≠ RunLaunched) as [Hr1 Hr2] by (destruct (p_run p); by split).
  assert (p_close p ≠ CloseIdle) as Hci by (destruct Hc as [Hc|Hc]; [intros E; by rewrite E, Hc in N4|done]).
  assert (p_queue p ≠ QueueOff) as Hq by (intros E; by apply (po_queue _ Hok) in E).
  assert ((6 ≤ close_rank (p_close p))%nat → p_run p = RunDone) as Hrun.
  { intros Hr. apply (po_conn _ Hok) in Hr. rewrite Hr in N3. by destruct (p_run p). }
  assert (p_close p = CloseDone) as Hdone.
  { pose proof (po_stop _ Hok) as Hstop. destruct (p_close p) as [|[|l ls]| | | | | | |]; try done.
    - rewrite (Hstop ltac:(cbn; lia)), orb_true_r in N14. by destruct (p_queue p).
    - by destruct (resting false _).
    - by rewrite (Hrun ltac:(cbn; lia)) in N12. }
  rewrite Hdone in Hrun. specialize (Hrun ltac:(cbn; lia)). unfold stopped. split_and!; [done..| |].
  - apply (po_drained _ Hok). rewrite Hdone. cbn. lia.
  - intros Ex. rewrite Ex in N16. pose proof (po_loop _ Hok) as Hl. rewrite Hrun in Hl.
    destruct (p_loop p); try done; [by destruct (proj1 Hl)|]. by destruct (resting true _).
Qed.

Lemma closing_nf p : preach p → p_exited p = false → p_ctx p = true ∨ p_close p ≠ CloseIdle → nf closing_step p → stopped p.
Proof.
  intros Hp Hx Hc Hnf. apply closing_stuck; try done. apply Forall_forall. intros m Hm.
  destruct (proc_step m p) as [p1|] eqn:E; [|done]. destruct Hnf. exists p1, m. split; [|done].
  clear E. unfold closers in Hm. by repeat (apply elem_of_cons in Hm as [->|Hm]; [done|]); apply elem_of_nil in Hm.
Qed.

(** C25: The shutdown itself cannot hang: once the context is cancelled or Close is called,
    only finitely many moves of it are possible in any order, no two goroutines wait
    for each other, and when none is left Close and Run have returned and the queue's
    goroutine has ended, and if the context was cancelled persistLoop too (it waits for
    the context alone, so after a mere Close it never returns).  The moves are those
    of the goroutines that shut down: datagrams, ticks, the workers' events, read
    errors, further signals and calls of Close, and the exit of main, which cuts the
    shutdown short, are not among them. *)
Theorem shutdown_terminates p : preach p → p_exited p = false → p_ctx p = true ∨ p_close p ≠ CloseIdle →
  sn closing_step p ∧ ∀ p', rtc closing_step p p' → nf closing_step p' →
    p_close p' = CloseDone ∧ p_run p' = RunDone ∧ p_queue p' = QueueDone ∧ (p_ctx p = true → p_loop p' = LoopDone).
Proof.
  intros Hp Hx Hc. split; [by apply closing_sn|]. intros p' Hs Hnf.
  destruct (closing_keeps p p' Hp Hx Hc Hs) as (Hp' & Hx' & Hc' & Hk).
  destruct (closing_nf p' Hp' Hx' Hc' Hnf) as (? & ? & ? & Hl). split_and!; auto.
Qed.

(** It can always be brought to its end. *)
Lemma shutdown_end p : preach p → p_exited p = false → p_ctx p = true ∨ p_close p ≠ CloseIdle →
  ∃ p', rtc closing_step p p' ∧ stopped p'.
Proof.
  intros Hp. induction (closing_sn p Hp) as [p _ IH]. intros Hx Hc.
  destruct (List.find (fun m => match proc_step m p with None => false | Some _ => true end) closers) as [m|] eqn:Ef.
  2:{ exists p. split; [done|]. apply closing_stuck; try done. apply Forall_forall. intros m Hm%list_elem_of_In.
      pose proof (List.find_none _ _ Ef m Hm) as E. cbn in E. by destruct (proc_step m p). }
  - apply List.find_some in Ef as [Hm%list_elem_of_In Hs]. destruct (proc_step m p) as [p1|] eqn:E; [|done].
    assert (closing_step p p1) as H1.
    { exists m. split; [|done]. clear E Hs. unfold closers in Hm.
      by repeat (apply elem_of_cons in Hm as [->|Hm]; [done|]); apply elem_of_nil in Hm. }
    destruct (closing_keeps p p1 Hp Hx Hc (rtc_once _ _ H1)) as (Hp1 & Hx1 & Hc1 & _).
    destruct (IH p1 H1 Hp1 Hx1 Hc1) as (p2 & ? & ?). exists p2. split; [by eapply rtc_l|done].
Qed.
End ending.

(** ** What a signal costs *)

Section signal.
Context `{MapRange} `{StateText}.

Lemma step_pstep m p p' : proc_step m p = Some p' → pstep p p'.
Proof. by exists m. Qed.

Lemma rtc_closing p p' : rtc closing_step p p' → rtc pstep p p'.
Proof. apply rtc_subrel. intros x y. apply closing_pstep. Qed.

(** C29: The signal handler of main cancels the context before it calls Close, so the queue's
    goroutine can end first: from every running server there is a run of the shutdown
    to its end in which the only control packets written are those that waited before
    the signal; no player is told. *)
Theorem signal_silences p :
  preach p → p_exited p = false → p_queue p = QueueOn → p_close p = CloseIdle → p_ctx p = false →
  ∃ p', rtc pstep p p' ∧ stopped p' ∧
    highs (sq_out (p_sq p')) = highs (sq_out (p_sq p)) ++ highs (sq_ch (p_sq p)).
Proof.
  intros Hp Hx Hq Hc Hctx. set (p1 := with_ctx true p).
  assert (pstep p p1) as S1 by (apply (step_pstep MvSignal); open_step; by rewrite Hx, Hctx).
  set (p2 := with_queue QueueDraining (with_sq (drainMain (p_sq p1)) p1)).
  assert (pstep p1 p2) as S2 by (apply (step_pstep MvDrainMain); open_step; cbn; by rewrite Hx, Hq).
  assert (preach p2) as Hp2 by (eapply preach_step; [eapply preach_step; [done|exact S1]|exact S2]).
  destruct (shutdown_end p2 Hp2) as (p3 & Hs & Hst); [done|by left|].
  exists p3. split; [eapply rtc_l; [exact S1|]; eapply rtc_l; [exact S2|]; by apply rtc_closing|].
  split; [done|]. rewrite (silent_after_drain p2 p3 Hp2); [|by left|by apply rtc_closing].
  unfold p2, p_sq, with_sq, drainMain. cbn. rewrite writeAll_eq. cbn. by rewrite highs_app.
Qed.

(** Close tells the rooms: their configuration and the tables of the server stay. *)
Lemma notify_all (e : Env) ls p : p_exited p = false →
  ∃ s', rtc pstep (with_close (CloseNotify ls) p) (with_close (CloseNotify []) (with_srv s' p)) ∧
    s_cfg s' = s_cfg (p_srv p) ∧ ∀ l, is_Some (heap (p_srv p) !! l) → is_Some (heap s' !! l).
Proof.
  intros Hx. revert p Hx. induction ls as [|l ls IH]; intros p Hx.
  { exists (p_srv p). split; [|done]. by destruct p. }
  set (s1 := in_room l notifyShutdown (p_srv p)). destruct (IH (with_srv s1 p) Hx) as (s2 & Hs & Hc & Hh).
  exists s2. split; [|split].
  - eapply rtc_l; [|exact Hs]. apply (step_pstep (MvNotify e)). open_step. cbn. by rewrite Hx.
  - rewrite Hc. cbn. unfold s1, in_room. by destruct (heap (p_srv p) !! l).
  - intros l' Hl'. apply Hh. cbn. unfold s1, in_room. destruct (heap (p_srv p) !! l) as [r|]; [|done]. cbn.
    destruct (decide (l = l')) as [->|]; [rewrite lookup_insert_eq; by eexists|by rewrite lookup_insert_ne].
Qed.

Lemma preach_fs p : preach p → fs_ok (sv_fs (p_saving p)).
Proof.
  assert (∀ i n w, fs_ok (sv_fs w) → fs_ok (sv_fs (save_event w (SaveStep i n)))) as Hcall.
  { intros i n w Hw. cbn. pose proof (fs_ok_step n (saver i w) _ Hw) as Hs. destruct (saver_step _ _ _). by destruct i. }
  assert (∀ (e : Env) i s w, fs_ok (sv_fs w) → fs_ok (sv_fs (save_start i s w))) as Hstart.
  { intros e i s w Hw. unfold save_start. repeat case_match; try done. cbn. by destruct (saver i w), i. }
  induction 1 as [e cfg locals file s fs _ Hfs|p p' _ IH [m Hm]]; [done|]. revert Hm. open_step.
  destruct (p_exited p); [done|]. destruct m; repeat case_match; intros; simplify_eq; cbn -[save_event]; auto.
Qed.

(** The signal, the beginning of persistLoop's last save, the end of the queue's
    goroutine, the call of Close. *)
Lemma signal_prefix srv stop cn fs l r :
  stateEnabled (s_cfg srv) = true → defaultRoom (s_cfg srv) = Some l → heap srv !! l = Some r →
  let dl := marshal (@SnapshotState some_env _ r) in
  let q := mkRLQ (drainMain (rlq_sq (s_q srv))) (rlq_limiter (s_q srv)) in
  let s1 := set_q (mkRLQ (drainBroadcast (rlq_sq q)) (rlq_limiter q)) (set_q q srv) in
  rtc pstep (mkProc srv false stop QueueOn LoopWaiting CloseIdle RunReading cn (mkSaving fs Resting Resting) false)
    (mkProc s1 true stop QueueDone (LoopSaving true) (CloseNotify (room_locs s1)) RunReading cn (mkSaving fs (Marshalled dl) Resting) false).
Proof.
  intros Hen Hdef Hroom. cbv zeta.
  eapply rtc_l; [by apply (step_pstep MvSignal)|]. cbn.
  eapply rtc_l; [apply (step_pstep (MvLast some_env)); open_step; unfold save_start; cbn; by rewrite Hen, Hdef; cbn; rewrite Hroom|]. cbn.
  eapply rtc_l; [by apply (step_pstep MvDrainMain)|]. eapply rtc_l; [by apply (step_pstep MvDrainBroadcast)|].
  eapply rtc_once. by apply (step_pstep MvHandlerCloses).
Qed.

(** Close, from the last room told to its own save. *)
Lemma close_to_save s stop cn fs dl l r :
  stateEnabled (s_cfg s) = true → defaultRoom (s_cfg s) = Some l → heap s !! l = Some r →
  rtc pstep (mkProc s true stop QueueDone (LoopSaving true) (CloseNotify []) RunReading cn (mkSaving fs (Marshalled dl) Resting) false)
    (mkProc s true true QueueDone (LoopSaving true) CloseSave RunReading cn
      (mkSaving fs (Marshalled dl) (Marshalled (marshal (@SnapshotState some_env _ r)))) false).
Proof.
  intros Hen Hdef Hroom. eapply rtc_l; [by apply (step_pstep MvNotified)|].
  eapply rtc_l; [apply (step_pstep MvStop); reflexivity|]. unfold queue_Stop; cbn [p_stop]. replace (if stop then _ else _)
    with (mkProc s true true QueueDone (LoopSaving true) CloseStop RunReading cn (mkSaving fs (Marshalled dl) Resting) false)
    by by destruct stop.
  apply rtc_once, (step_pstep (MvWaited some_env)). open_step; unfold save_start. cbn. rewrite Hen, Hdef. cbn. by rewrite Hroom.
Qed.

(** Both saving: persistLoop for the last time, and Close. *)
Definition both_saving s cn sv : Proc := mkProc s true true QueueDone (LoopSaving true) CloseSave RunReading cn sv false.

Lemma close_call n s cn sv c' fs' : sv_close sv ≠ Resting → saver_step n (sv_close sv) (sv_fs sv) = (c', fs') →
  pstep (both_saving s cn sv) (both_saving s cn (mkSaving fs' (sv_loop sv) c')).
Proof.
  intros Hr Hs. apply (step_pstep (MvSaveCall n)). cbn. unfold resting. cbn. rewrite bool_decide_eq_false_2 by done. by rewrite Hs.
Qed.
Lemma loop_call n s cn sv c' fs' : sv_loop sv ≠ Resting → saver_step n (sv_loop sv) (sv_fs sv) = (c', fs') →
  pstep (both_saving s cn sv) (both_saving s cn (mkSaving fs' c' (sv_close sv))).
Proof.
  intros Hr Hs. apply (step_pstep (MvLoopCall n)). cbn. unfold resting. cbn. rewrite bool_decide_eq_false_2 by done. by rewrite Hs.
Qed.

(** Close writes its file, persistLoop truncates it, Close renames it, main returns. *)
Lemma save_race_exit s cn fs dl dc : fs_ok fs →
  ∃ sv', state_file (sv_fs sv') = Some [] ∧
    rtc pstep (both_saving s cn (mkSaving fs (Marshalled dl) (Marshalled dc)))
      (mkProc s true true QueueDone (LoopSaving true) CloseJoin RunDone false sv' true).
Proof.
  intros Hfs. destruct (saver_step 1 (DirMade dc) fs) as [st1 fs1] eqn:E1.
  assert (∃ f, st1 = TmpOpen f dc) as [f ->] by (cbn in E1; destruct (open_tmp fs); injection E1 as <- _; by eexists).
  pose proof (saver_step_ok 1%nat (DirMade dc) fs Hfs I) as H1. rewrite E1 in H1. destruct H1 as (Hfs1 & Hs1 & _).
  destruct (saver_step (length dc) (TmpOpen f dc) fs1) as [st2 fs2] eqn:E2.
  assert (st2 = Written dc) as -> by (cbn [saver_step] in E2; rewrite Nat.ltb_irrefl in E2; by injection E2).
  pose proof (saver_step_ok (length dc) (TmpOpen f dc) fs1 Hfs1 Hs1) as H2. rewrite E2 in H2. destruct H2 as (Hfs2 & _ & _).
  destruct (saver_step 1 (DirMade dl) fs2) as [st3 fs3] eqn:E3.
  assert (∃ g, st3 = TmpOpen g dl) as [g ->] by (cbn in E3; destruct (open_tmp fs2); injection E3 as <- _; by eexists).
  pose proof (saver_step_ok 1%nat (DirMade dl) fs2 Hfs2 I) as H3. rewrite E3 in H3. destruct H3 as (_ & [Et Ed] & _).
  exists (mkSaving (mkFS (Some g) None (fs_data fs3) (fs_next fs3)) (TmpOpen g dl) Resting). split; [exact Ed|].
  eapply rtc_l; [by apply (close_call 1)|]. eapply rtc_l; [by eapply (close_call 1)|]. eapply rtc_l; [by eapply (close_call (length dc))|].
  eapply rtc_l; [by apply (loop_call 1)|]. eapply rtc_l; [by eapply (loop_call 1)|].
  eapply rtc_l; [eapply (close_call 1); [done|]; cbn; unfold rename_tmp; by rewrite Et|].
  eapply rtc_l; [by apply (step_pstep MvSaved)|].
  eapply rtc_l; [by apply (step_pstep MvCloseConn)|]. eapply rtc_l; [by apply (step_pstep MvReadClosed)|].
  apply rtc_once. by apply (step_pstep MvExit).
Qed.

(** C30: The cancellation also makes persistLoop save the state once more, into the same
    temporary file as Close, and main does not wait for it: a server that is stopped by
    a signal while nothing is being saved can leave an empty state file behind. *)
Theorem signal_can_empty_state p l r :
  preach p → p_exited p = false → p_queue p = QueueOn → p_loop p = LoopWaiting → p_close p = CloseIdle →
  p_run p = RunReading → p_ctx p = false →
  stateEnabled (s_cfg (p_srv p)) = true → defaultRoom (s_cfg (p_srv p)) = Some l → heap (p_srv p) !! l = Some r →
  ∃ p', rtc pstep p p' ∧ p_exited p' = true ∧ p_close p' = CloseJoin ∧ state_file (sv_fs (p_saving p')) = Some [].
Proof.
  intros Hp Hx Hq Hl Hc Hr Hctx Hen Hdef Hroom. pose proof (preach_ok p Hp) as Hok. pose proof (preach_fs p Hp) as Hfs.
  assert (p_saving p = mkSaving (sv_fs (p_saving p)) Resting Resting) as Hsv.
  { pose proof (po_close _ Hok) as E1. pose proof (po_saver _ Hok) as E2. rewrite Hc in E1. rewrite Hl in E2.
    specialize (E1 ltac:(done)). specialize (E2 eq_refl). destruct (p_saving p). cbn in *. by subst. }
  set (fs := sv_fs (p_saving p)) in *. clearbody fs.
  destruct p as [srv ctx stop q lp cl rn cn sv ex]. cbn in *. subst. clear Hp Hok.
  pose proof (signal_prefix srv stop cn fs l r Hen Hdef Hroom) as P1. cbv zeta in P1.
  set (dl := marshal _) in P1. set (s1 := set_q _ (set_q _ srv)) in P1.
  assert (s_cfg s1 = s_cfg srv ∧ heap s1 = heap srv) as [Ec1 Eh1] by done. clearbody s1.
  destruct (notify_all some_env (room_locs s1) (mkProc s1 true stop QueueDone (LoopSaving true) CloseIdle RunReading cn
    (mkSaving fs (Marshalled dl) Resting) false) eq_refl) as (s2 & P2 & Ec2 & Eh2). cbn in P2, Ec2, Eh2.
  destruct (Eh2 l) as [r2 Hr2]; [rewrite Eh1, Hroom; by eexists|].
  pose proof (close_to_save s2 stop cn fs dl l r2 ltac:(congruence) ltac:(congruence) Hr2) as P3.
  destruct (save_race_exit s2 cn fs dl (marshal (@SnapshotState some_env _ r2)) Hfs) as (sv' & Est & P4).
  eexists. split; [etrans; [exact P1|]; etrans; [exact P2|]; etrans; [exact P3|exact P4]|]. by split.
Qed.
(** One read error of an open socket also ends the program: Run returns and main exits
    without Close, so no player is told and nothing is saved. *)
Theorem read_error_ends_program p :
  p_exited p = false → p_run p = RunReading → p_conn p = true →
  ∃ p', moves [MvReadError; MvExit] p = Some p' ∧ p_exited p' = true ∧ p_close p' = p_close p ∧
    p_sq p' = p_sq p ∧ p_saving p' = p_saving p.
Proof. intros Hx Hr Hc. unfold moves; open_step. cbn. rewrite Hx, Hr, Hc. cbn. rewrite Hx. cbn. by eexists. Qed.

(** ** No packet is lost on the way *)

(** The moves of the queue's own goroutine. *)
Definition of_queue (m : Move) : bool :=
  match m with MvQueueMain | MvQueueBroadcast | MvDrainMain | MvDrainBroadcast => true | _ => false end.

(** A run of the process with the packets its other goroutines hand to the queue and
    that are accepted; the queue's goroutine accepts none. *)
Inductive accepts : Proc → list sendEntry → Proc → Prop :=
| acc_none p : accepts p [] p
| acc_queue m p p1 acc p2 : of_queue m = true → proc_step m p = Some p1 → accepts p1 acc p2 → accepts p acc p2
| acc_sends m l p p1 acc1 acc2 p2 :
    of_queue m = false → proc_step m p = Some p1 → requests l (p_sq p) = (acc1, p_sq p1) →
    accepts p1 acc2 p2 → accepts p (acc1 ++ acc2) p2.

Lemma move_sends m p p' : of_queue m = false → proc_step m p = Some p' → rtc sq_sent (p_sq p) (p_sq p').
Proof.
  intros Hq. open_step. destruct (p_exited p); [done|].
  destruct m; try done; repeat case_match; intros Heq; simplify_eq; try apply rtc_refl; try apply (srv_sends_step _ (p_srv p)).
  - apply (srv_sends_in_room _ _ (p_srv p)). intros w. apply (@sends_shutdown e).
  - apply (srv_sends_foldl _ _ (p_srv p)). intros s l. apply srv_sends_stop.
Qed.

(** The queue's goroutine only moves packets from the channels to the socket. *)
Lemma move_serves m p p' : sq_wf (p_sq p) → of_queue m = true → proc_step m p = Some p' →
  sq_all (p_sq p') ≡ₚ sq_all (p_sq p) ∧ sq_highs (p_sq p') = sq_highs (p_sq p).
Proof.
  intros Hlow Hq. open_step. destruct (p_exited p); [done|].
  assert (∀ q v, p_sq (with_sq q p) = q ∧ p_sq (with_queue v (with_sq q p)) = q) as Hsq by done.
  destruct m; try done; repeat case_match; intros Heq; simplify_eq; rewrite ?(proj2 (Hsq _ _)), ?(proj1 (Hsq _ QueueOn)).
  - destruct (sq_iter_sound (p_sq p) (run_main (p_sq p)) Hlow) as (_ & HP & HH & _); [apply iter_main; congruence|done].
  - destruct (sq_iter_sound (p_sq p) (run_broadcast (p_sq p)) Hlow) as (_ & HP & HH & _); [apply iter_broadcast; congruence|done].
  - unfold drainMain. rewrite writeAll_eq. unfold sq_all, sq_highs. cbn. rewrite highs_app, !app_nil_r.
    split; [by rewrite <- app_assoc|done].
  - unfold drainBroadcast. rewrite writeAll_eq. unfold sq_all, sq_highs. cbn.
    rewrite highs_app, (highs_none (sq_broadcastCh _)), !app_nil_r by done. split; [solve_Permutation|done].
Qed.

Lemma accepts_rtc p acc p' : accepts p acc p' → rtc pstep p p'.
Proof. induction 1; [done|..]; (eapply rtc_l; [by eexists|done]). Qed.

Lemma rtc_accepts p p' : rtc pstep p p' → ∃ acc, accepts p acc p'.
Proof.
  induction 1 as [p|p p1 p2 [m Hm] _ [acc IH]]; [exists []; constructor|]. destruct (of_queue m) eqn:Hq.
  - exists acc. by eapply acc_queue.
  - destruct (sq_sent_requests _ _ (move_sends m p p1 Hq Hm)) as (l & acc1 & Hl). exists (acc1 ++ acc). by eapply acc_sends.
Qed.

Lemma accepts_sound p acc p' : preach p → accepts p acc p' →
  sq_all (p_sq p') ≡ₚ sq_all (p_sq p) ++ acc ∧ sq_highs (p_sq p') = sq_highs (p_sq p) ++ highs acc.
Proof.
  intros Hp Ha. induction Ha as [p|m p p1 acc p2 Hq Hm _ IH|m l p p1 acc1 acc2 p2 Hq Hm Hl _ IH]; [by rewrite !app_nil_r|..];
    (destruct IH as [P2 H2]; [eapply preach_step; [done|by eexists]|]); pose proof (qo_low _ (preach_queue p Hp)) as Hlow.
  - destruct (move_serves m p p1 Hlow Hq Hm) as [P1 H1]. by rewrite P2, H2, P1, H1.
  - destruct (sq_steps_sound _ _ _ Hlow (requests_steps _ _ _ _ Hl)) as (_ & P1 & H1).
    by rewrite P2, H2, P1, H1, highs_app, <- !app_assoc.
Qed.

(** C28: In the life of a process no packet is lost, duplicated or changed between the call
    that hands it to the queue and the socket, in any order of the goroutines: every
    run is one in which each move of a handler, a tick or Close is a sequence of
    requests to the queue and the moves of the queue's goroutine are none, and over
    such a run the packets written or waiting grow by exactly one packet for each
    request answered with true; control packets keep their order, and the channels
    never exceed their sizes. *)
Theorem process_keeps_packets p p' : preach p → rtc pstep p p' →
  (∃ acc, accepts p acc p') ∧
  (∀ acc, accepts p acc p' → sq_all (p_sq p') ≡ₚ sq_all (p_sq p) ++ acc ∧ sq_highs (p_sq p') = sq_highs (p_sq p) ++ highs acc) ∧
  Z.of_nat (length (sq_ch (p_sq p'))) ≤ sq_maxSize (p_sq p') ∧ Z.of_nat (length (sq_broadcastCh (p_sq p'))) ≤ broadcastChSize.
Proof.
  intros Hp Hs. destruct (preach_queue p' (preach_steps p p' Hp Hs)). split_and!; [by apply rtc_accepts| |done..].
  intros acc Ha. by apply accepts_sound.
Qed.

Lemma moves_rtc l p p' : moves l p = Some p' → rtc pstep p p'.
Proof.
  unfold moves. assert (foldl (fun p m => p ≫= proc_step m) None l = None) as Hnone by (induction l; done). clear Hnone.
  revert p. induction l as [|m l IH]; intros p; cbn; [by intros [= <-]|]. intros Hl.
  destruct (proc_step m p) as [p1|] eqn:E; cbn in *; [eapply rtc_l; [by exists m|by apply IH]|].
  exfalso. clear -Hl. by induction l.
Qed.
End signal.

(** ** A process: Alice registers on a server with a state directory *)

#[export] Instance ex_text : StateText := fun st => str "players: " ++ itoa (Z.of_nat (size (rs_Clients st))).

Definition ex_proc_config : Config := mkConfig (mkIPNet (IPv4 x0a x0a x00 x00) mask24) 4 [] 3 true false 0 2.
Lemma ex_proc_srv_ok : is_Some (@New (ex_env 0 x00) _ ex_proc_config [] None).
Proof. by eexists. Qed.
Definition ex_proc_new : Proc := new_proc (is_Some_proj ex_proc_srv_ok) ex_fs.

Definition ex_proc_moves : list Move :=
  [MvLaunch; MvRead; MvEvent (ex_env Second x01) (SvReceive (ex_register_packet "lan" "alice") (ex_addr x01));
   MvEvent (ex_env Second x01) SvWorker].
(** A computation that is seen to succeed without printing its result. *)
Lemma succeeds {A} (o : option A) : match o with Some _ => true | None => false end = true → is_Some o.
Proof. by destruct o. Qed.

Lemma is_Some_proj_eq {A} (o : option A) (H : is_Some o) : o = Some (is_Some_proj H).
Proof. destruct o; [done|]. by destruct H. Qed.

Lemma ex_proc_ok : is_Some (moves ex_proc_moves ex_proc_new).
Proof. apply succeeds. vm_compute. reflexivity. Qed.
Definition ex_proc : Proc := is_Some_proj ex_proc_ok.

Lemma ex_proc_reach : preach ex_proc.
Proof.
  apply (preach_steps ex_proc_new).
  - apply (preach_new (ex_env 0 x00) ex_proc_config [] None); [reflexivity|apply ex_fs_ok].
  - apply (moves_rtc ex_proc_moves), is_Some_proj_eq.
Qed.

(** Close called by other code than the signal handler, up to the room of Alice. *)
Definition ex_closing : Proc := with_close (CloseNotify [0%nat]) ex_proc.
Lemma ex_closing_reach : preach ex_closing.
Proof. eapply preach_step; [apply ex_proc_reach|]. exists MvCallClose. open_step.
  assert (p_exited ex_proc = false) as -> by (vm_compute; reflexivity).
  assert (p_close ex_proc = CloseIdle) as -> by (vm_compute; reflexivity).
  assert (room_locs (p_srv ex_proc) = [0%nat]) as -> by (vm_compute; reflexivity). reflexivity.
Qed.

Definition ex_close_moves : list Move :=
  [MvQueueMain; MvNotified; MvStop; MvDrainMain; MvDrainBroadcast; MvWaited (ex_env Second x01)].

Lemma notice_written_witness :
  ∃ p', moves (MvNotify (ex_env Second x01) :: ex_close_moves) ex_closing = Some p' ∧
    mkEntry shutdown_packet (ex_addr x01) priorityHigh ∈ sq_out (p_sq p').
Proof.
  assert (is_Some (moves (MvNotify (ex_env Second x01) :: ex_close_moves) ex_closing)) as [p' Hp'] by (apply succeeds; vm_compute; reflexivity).
  exists p'. split; [exact Hp'|].
  assert (is_Some (proc_step (MvNotify (ex_env Second x01)) ex_closing)) as [p1 H1] by (apply succeeds; vm_compute; reflexivity).
  assert (moves ex_close_moves p1 = Some p') as H2.
  { unfold moves in Hp' |- *. cbn [foldl] in Hp'. rewrite <- Hp'. f_equal. symmetry. exact H1. }
  assert ((4 ≤ close_rank (p_close p'))%nat) as Hr.
  { assert (close_rank ∘ p_close <$> moves (MvNotify (ex_env Second x01) :: ex_close_moves) ex_closing = Some 4%nat) as E
      by (vm_compute; reflexivity).
    rewrite Hp' in E. injection E as ->. lia. }
  refine (notice_written (ex_env Second x01) ex_closing 0%nat [] (ex_addr x01) p1 p' ex_closing_reach _ _ _ _ H1 (moves_rtc _ _ _ H2) Hr).
  - vm_compute. reflexivity.
  - reflexivity.
  - assert (room_targets (p_srv ex_closing) 0%nat = [ex_addr x01]) as -> by (vm_compute; reflexivity). left.
  - vm_compute. discriminate.
Defined.

Lemma shutdown_terminates_witness :
  sn closing_step ex_closing ∧ ∃ p', rtc closing_step ex_closing p' ∧ p_close p' = CloseDone.
Proof.
  split.
  - apply (shutdown_terminates ex_closing ex_closing_reach); [vm_compute; reflexivity|right; discriminate].
  - destruct (shutdown_end ex_closing ex_closing_reach) as (p' & Hs & Hd & _); [vm_compute; reflexivity|right; discriminate|].
    by exists p'.
Defined.

Lemma signal_silences_witness :
  room_targets (p_srv ex_proc) 0%nat = [ex_addr x01] ∧
  ∃ p', rtc pstep ex_proc p' ∧ stopped p' ∧
    highs (sq_out (p_sq p')) = highs (sq_out (p_sq ex_proc)) ++ highs (sq_ch (p_sq ex_proc)).
Proof.
  split; [vm_compute; reflexivity|].
  apply (signal_silences ex_proc ex_proc_reach); vm_compute; reflexivity.
Defined.

Lemma signal_can_empty_state_witness :
  state_file (sv_fs (p_saving ex_proc)) = Some (str "old") ∧
  ∃ p', rtc pstep ex_proc p' ∧ p_exited p' = true ∧ state_file (sv_fs (p_saving p')) = Some [].
Proof.
  split; [vm_compute; reflexivity|].
  assert (is_Some (heap (p_srv ex_proc) !! 0%nat)) as [r Hr] by (apply succeeds; vm_compute; reflexivity).
  destruct (signal_can_empty_state ex_proc 0%nat r ex_proc_reach) as (p' & H1 & H2 & _ & H3);
    [vm_compute; reflexivity..|exact Hr|]. exact (ex_intro _ p' (conj H1 (conj H2 H3))).
Defined.

Lemma read_error_ends_program_witness :
  ∃ p', moves [MvReadError; MvExit] ex_proc = Some p' ∧ p_exited p' = true.
Proof.
  destruct (read_error_ends_program ex_proc) as (p' & H1 & H2 & _); [vm_compute; reflexivity..|]. by exists p'.
Defined.

Lemma process_keeps_packets_witness :
  ∃ acc, accepts ex_proc_new acc ex_proc ∧ sq_all (p_sq ex_proc) ≡ₚ acc ∧ highs (sq_ch (p_sq ex_proc)) = highs acc.
Proof.
  assert (preach ex_proc_new) as Hn by (apply (preach_new (ex_env 0 x00) ex_proc_config [] None); [reflexivity|apply ex_fs_ok]).
  destruct (process_keeps_packets ex_proc_new ex_proc Hn) as ([acc Ha] & Hall & _);
    [apply (moves_rtc ex_proc_moves), is_Some_proj_eq|].
  destruct (Hall acc Ha) as [HP HH]. exists acc. split; [exact Ha|].
  assert (sq_all (p_sq ex_proc_new) = []) as E1 by (vm_compute; reflexivity).
  assert (sq_highs (p_sq ex_proc_new) = []) as E2 by (vm_compute; reflexivity).
  assert (sq_out (p_sq ex_proc) = []) as E3 by (vm_compute; reflexivity).
  rewrite E1 in HP. rewrite E2 in HH. split; [exact HP|]. unfold sq_highs in HH. rewrite E3 in HH. exact HH.
Defined.
