(* ===== verification/Metrics.v ===== *)
(** * Metrics: the samples of the last hour

    src/internal/server/metrics.go: a ring buffer of 60 samples, and what one tick of
    metricsLoop puts in it. *)

From Stdlib Require Import QArith Sorting.Sorted.
From S2P Require Import Prelude GoNet Crc32 Protocol Messages MessagesData MessagesPeer NetUtil RateLimit Float64 Bandwidth SendQueue Sha256 Auth I18n Client Room RoomHandlers RoomSafe RoomExample Persist Subnet Server ServerExample.
#[local] Open Scope Z_scope.

Definition metricsSlots : nat := 60.

(** ** The ring buffer *)

Section ring.
Context {A : Type}.

(** [MetricsTimeSeries]: slots, the next one to write, the number written (at most
    the number of slots), and whether an old sample was overwritten. *)
Record MetricsTimeSeries := mkSeries { samples : list A; writeIdx : nat; count : nat; full : bool }.

Definition NewMetricsTimeSeries (zero : A) : MetricsTimeSeries := mkSeries (replicate metricsSlots zero) 0 0 false.

(** MetricsTimeSeries.Append *)
Definition Append (ts : MetricsTimeSeries) (sample : A) : MetricsTimeSeries :=
  let slots := <[writeIdx ts := sample]> (samples ts) in
  let idx := ((writeIdx ts + 1) mod metricsSlots)%nat in
  if (count ts <? metricsSlots)%nat then mkSeries slots idx (count ts + 1) (full ts)
  else mkSeries slots idx (count ts) true.

(** MetricsTimeSeries.Snapshot *)
Definition Snapshot (ts : MetricsTimeSeries) : list A :=
  if (count ts =? 0)%nat then []
  else if full ts
  then omap (fun i => samples ts !! ((writeIdx ts + i) mod metricsSlots)%nat) (seq 0 metricsSlots)
  else omap (fun i => samples ts !! i) (seq 0 (count ts)).

(** The slots of a series that was given [l]: slot i holds the last sample whose
    number is i modulo 60. *)
Record series_of (l : list A) (ts : MetricsTimeSeries) : Prop := {
  se_len : length (samples ts) = metricsSlots;
  se_idx : writeIdx ts = (length l mod metricsSlots)%nat;
  se_count : count ts = Nat.min (length l) metricsSlots;
  se_full : full ts = (metricsSlots <? length l)%nat;
  se_slot : ∀ j x, l !! j = Some x → (length l ≤ j + metricsSlots)%nat →
    samples ts !! (j mod metricsSlots)%nat = Some x }.

Lemma mod_distinct (i j n : nat) : (i < j)%nat → (j < i + n)%nat → (i mod n)%nat ≠ (j mod n)%nat.
Proof.
  intros H1 H2 E. assert (n ≠ 0%nat) as Hn by lia.
  pose proof (Nat.div_mod i n Hn) as D1. pose proof (Nat.div_mod j n Hn). rewrite E in D1.
  assert (i / n = j / n ∨ i / n < j / n)%nat as [Ed|Ed] by (pose proof (Nat.Div0.div_le_mono i j n); lia); nia.
Qed.

Lemma series_Append l ts x : series_of l ts → series_of (l ++ [x]) (Append ts x).
Proof.
  intros [H1 H2 H3 H4 H5]. unfold Append.
  assert (metricsSlots ≠ 0%nat) as Hn by done.
  assert (writeIdx ts < metricsSlots)%nat as Hlt by (rewrite H2; by apply Nat.mod_upper_bound).
  assert (((writeIdx ts + 1) mod metricsSlots = (length l + 1) mod metricsSlots)%nat) as Hidx
    by by rewrite H2, Nat.Div0.add_mod_idemp_l.
  assert (∀ j y, (l ++ [x]) !! j = Some y → (length l + 1 ≤ j + metricsSlots)%nat →
    <[writeIdx ts := x]> (samples ts) !! (j mod metricsSlots)%nat = Some y) as Hslot.
  { intros j y Hj Hle. apply lookup_app_Some in Hj as [Hj|[Hle' Hj]].
    - pose proof (lookup_lt_Some _ _ _ Hj). rewrite list_lookup_insert_ne; [apply H5; [done|lia]|].
      rewrite H2. symmetry. apply mod_distinct; lia.
    - assert (j = length l ∧ y = x) as [-> ->].
      { destruct (j - length l)%nat as [|k] eqn:E; [|done]. split; [lia|]. by injection Hj. }
      rewrite <- H2. apply list_lookup_insert_eq. by rewrite H1. }
  destruct (Nat.ltb_spec (count ts) metricsSlots); split; cbn [samples writeIdx count full];
    rewrite ?length_app, ?length_insert; cbn [Datatypes.length]; try done.
  - lia.
  - rewrite H4. apply eq_true_iff_eq. rewrite !Nat.ltb_lt. lia.
  - lia.
  - symmetry. apply Nat.ltb_lt. lia.
Qed.

Lemma series_foldl l zero : series_of l (foldl Append (NewMetricsTimeSeries zero) l).
Proof.
  induction l as [|x l IH] using rev_ind; [|rewrite foldl_snoc; by apply series_Append].
  by split.
Qed.

Lemma omap_lookups (f : nat → option A) (l : list A) a :
  (∀ i x, l !! i = Some x → f (a + i)%nat = Some x) → omap f (seq a (length l)) = l.
Proof.
  revert a. induction l as [|x l IH]; intros a Hf; [done|]. cbn.
  pose proof (Hf 0%nat x eq_refl) as H0. rewrite Nat.add_0_r in H0. rewrite H0. f_equal. apply IH. intros i y Hi.
  rewrite Nat.add_succ_comm. by apply Hf.
Qed.

(** The ring buffer is a window on the sequence of samples: after any number of
    appends, the snapshot is the last 60 samples, oldest first - all of them when
    there are fewer. *)
Theorem Snapshot_is_last_samples l zero :
  Snapshot (foldl Append (NewMetricsTimeSeries zero) l) = drop (length l - metricsSlots) l.
Proof.
  destruct (series_foldl l zero) as [H1 H2 H3 H4 H5]. set (ts := foldl _ _ l) in *. unfold Snapshot.
  rewrite H3, H4, H2. destruct (Nat.eqb_spec (Nat.min (length l) metricsSlots) 0) as [E|Hne].
  { destruct l; [done|]. cbn in E. lia. }
  destruct (Nat.ltb_spec metricsSlots (length l)) as [Hl|Hl].
  - assert (length (drop (length l - metricsSlots) l) = metricsSlots) as Hlen by (rewrite length_drop; lia).
    replace (seq 0 metricsSlots) with (seq 0 (length (drop (length l - metricsSlots) l))) by by rewrite Hlen.
    apply omap_lookups. intros i x Hi. rewrite Nat.add_0_l.
    rewrite lookup_drop in Hi. rewrite Nat.Div0.add_mod_idemp_l.
    replace (length l + i)%nat with ((length l - metricsSlots + i) + 1 * metricsSlots)%nat by lia.
    rewrite Nat.Div0.mod_add. apply H5; [done|lia].
  - replace (length l - metricsSlots)%nat with 0%nat by lia. rewrite drop_0, Nat.min_l by done.
    apply omap_lookups. intros i x Hi. rewrite Nat.add_0_l. pose proof (lookup_lt_Some _ _ _ Hi).
    rewrite <- (Nat.mod_small i metricsSlots) by lia. apply H5; [done|lia].
Qed.
End ring.
Arguments MetricsTimeSeries A : clear implicits.

(** ** Samples *)

Record MetricsSample := mkSample {
  ms_Timestamp : Z; ms_Players : Z; ms_AvgRTT : Q; ms_AvgLoss : Q; ms_RelayPkts : Z;
  ms_DroppedPkts : Z; ms_Kicks : Z; ms_Registrations : Z; ms_SendErrors : Z }.
Definition zero_sample : MetricsSample := mkSample 0 0 0 0 0 0 0 0 0.

Definition subUint64 (a b : Z) : Z := if b <? a then a - b else 0.

(** The sums over the rooms and their players. *)
Record Totals := mkTotals {
  tt_relay : Z; tt_kicks : Z; tt_regs : Z; tt_players : Z;
  tt_rtt : Z; tt_rttCount : Z; tt_loss : Q; tt_lossCount : Z }.

Definition add_client (a : Totals) (c : Client) : Totals :=
  let a := if 0 <? cl_RTT c
           then mkTotals (tt_relay a) (tt_kicks a) (tt_regs a) (tt_players a) (tt_rtt a + cl_RTT c)
                  (tt_rttCount a + 1) (tt_loss a) (tt_lossCount a)
           else a in
  if 0 <? cl_pingIdx c
  then mkTotals (tt_relay a) (tt_kicks a) (tt_regs a) (tt_players a) (tt_rtt a) (tt_rttCount a)
         (fadd (tt_loss a) (fst (PingStats c))) (tt_lossCount a + 1)
  else a.

Definition add_room_totals `{MapRange} (a : Totals) (r : Room) : Totals :=
  let st := r_stats r in
  let a := mkTotals (u64 (tt_relay a + totalPacketsRelay st)) (u64 (tt_kicks a + totalKicks st))
             (u64 (tt_regs a + totalRegistrations st)) (tt_players a + ClientCount r)
             (tt_rtt a) (tt_rttCount a) (tt_loss a) (tt_lossCount a) in
  foldl add_client a (map snd (client_list (r_core r))).

Definition server_totals `{MapRange} (s : Server) : Totals :=
  foldl add_room_totals (mkTotals 0 0 0 0 0 0 0 0) (omap (fun l => heap s !! l) (room_locs s)).

(** The "previous" counters of metricsLoop. *)
Record MetricsPrev := mkPrev { prevDropped : Z; prevSendErr : Z; prevRelay : Z; prevKicks : Z; prevRegs : Z }.

Definition metrics_start (s : Server) : MetricsPrev :=
  mkPrev (totalPacketsDropped s) (s_sendErrors s) 0 0 0.

(** One tick of Server.metricsLoop: the sample and the new counters. *)
Definition metricsTick `{Env} `{MapRange} (s : Server) (p : MetricsPrev) : MetricsSample * MetricsPrev :=
  let dropped := totalPacketsDropped s in
  let sendErr := s_sendErrors s in
  let a := server_totals s in
  let avgRTT := if 0 <? tt_rttCount a
                then fdiv (fint (Z.quot (tt_rtt a) 1000000)) (fint (tt_rttCount a)) else 0%Q in
  let avgLoss := if 0 <? tt_lossCount a then fdiv (tt_loss a) (fint (tt_lossCount a)) else 0%Q in
  let sample := mkSample (now / Second) (tt_players a) avgRTT avgLoss
    (subUint64 (tt_relay a) (prevRelay p)) (subUint64 dropped (prevDropped p))
    (subUint64 (tt_kicks a) (prevKicks p)) (subUint64 (tt_regs a) (prevRegs p))
    (subUint64 (u64 sendErr) (u64 (prevSendErr p))) in
  (sample, mkPrev dropped sendErr (tt_relay a) (tt_kicks a) (tt_regs a)).

(** The samples of a run: the server at each tick. *)
Fixpoint metrics_run `{MapRange} (p : MetricsPrev) (run : list (Env * Server)) : list MetricsSample :=
  match run with
  | [] => []
  | (e, s) :: run => let '(sample, p) := @metricsTick e _ s p in sample :: metrics_run p run
  end.

Definition sum_of (f : MetricsSample → Z) (l : list MetricsSample) : Z := foldr (fun x n => f x + n) 0 l.

(** Telescoping, for a counter read by [cur] and kept in [prev]. *)
Lemma deltas_sum `{MapRange} (f : MetricsSample → Z) (cur : Server → Z) (prev : MetricsPrev → Z) run p :
  (∀ e s p, f (fst (@metricsTick e _ s p)) = subUint64 (cur s) (prev p)) →
  (∀ e s p, prev (snd (@metricsTick e _ s p)) = cur s) →
  Sorted Z.le (prev p :: map (fun es => cur (snd es)) run) →
  sum_of f (metrics_run p run) = List.last (map (fun es => cur (snd es)) run) (prev p) - prev p.
Proof.
  intros Hf Hp. revert p. induction run as [|[e s] run IH]; intros p Hs; [cbn; lia|].
  cbn [metrics_run]. destruct (@metricsTick e _ s p) as [sample p'] eqn:Et.
  pose proof (Hf e s p) as Hf1. pose proof (Hp e s p) as Hp1. rewrite Et in Hf1, Hp1. cbn [fst snd] in *.
  cbn [map snd] in Hs. apply Sorted_inv in Hs as [Hs Hle]. apply HdRel_inv in Hle.
  rewrite <- Hp1 in Hs. cbn [sum_of foldr]. fold (sum_of f (metrics_run p' run)). rewrite (IH p' Hs), Hf1, Hp1.
  unfold subUint64. cbn [map snd].
  assert (List.last (cur s :: map (fun es => cur (snd es)) run) (prev p)
          = List.last (map (fun es => cur (snd es)) run) (cur s)) as ->.
  { clear. generalize (map (fun es : Env * Server => cur (snd es)) run), (cur s), (prev p).
    intros l. induction l as [|x l IHl]; intros a b; [done|].
    change (List.last (x :: l) b = List.last (x :: l) a). by rewrite !IHl. }
  destruct (Z.ltb_spec (prev p) (cur s)); lia.
Qed.

(** The deltas of the samples add up: over any run in which the counters do not
    decrease, the dropped-packet counts of the samples sum to the packets dropped since
    the loop started, and the relay, kick and registration counts to the totals of
    the last tick. *)
Theorem metrics_deltas_add_up `{MapRange} s0 run :
  let last f := List.last (map (fun es => f (snd es)) run) in
  let mono f x := Sorted Z.le (x :: map (fun es => f (snd es)) run) in
  let samples := metrics_run (metrics_start s0) run in
  (mono totalPacketsDropped (totalPacketsDropped s0) →
     sum_of ms_DroppedPkts samples = last totalPacketsDropped (totalPacketsDropped s0) - totalPacketsDropped s0) ∧
  (mono (fun s => tt_relay (server_totals s)) 0 →
     sum_of ms_RelayPkts samples = last (fun s => tt_relay (server_totals s)) 0) ∧
  (mono (fun s => tt_kicks (server_totals s)) 0 →
     sum_of ms_Kicks samples = last (fun s => tt_kicks (server_totals s)) 0) ∧
  (mono (fun s => tt_regs (server_totals s)) 0 →
     sum_of ms_Registrations samples = last (fun s => tt_regs (server_totals s)) 0).
Proof.
  cbv zeta. split_and!; intros Hm.
  - by apply (deltas_sum ms_DroppedPkts totalPacketsDropped prevDropped).
  - by rewrite (deltas_sum ms_RelayPkts (fun s => tt_relay (server_totals s)) prevRelay), Z.sub_0_r.
  - by rewrite (deltas_sum ms_Kicks (fun s => tt_kicks (server_totals s)) prevKicks), Z.sub_0_r.
  - by rewrite (deltas_sum ms_Registrations (fun s => tt_regs (server_totals s)) prevRegs), Z.sub_0_r.
Qed.

(** Two ticks: before anyone came, and with Alice and Bob in the server. *)
Definition ex_run : list (Env * Server) := [(ex_env Second x00, ex_srv [] true); (ex_env (60 * Second) x00, ex_two_rooms)].
Lemma metrics_deltas_add_up_witness :
  sum_of ms_Registrations (metrics_run (metrics_start (ex_srv [] true)) ex_run) = 2.
Proof.
  destruct (metrics_deltas_add_up (ex_srv [] true) ex_run) as (_ & _ & _ & Hr).
  refine (eq_trans (Hr _) _); [|vm_compute; reflexivity].
  vm_compute. repeat constructor; discriminate.
Defined.
