(* ===== verification/Status.v ===== *)
(** * Status: the status page of the server

    src/internal/server/status.go and BuildRoomStatus of room_status.go: the values the
    page and its JSON show, and who may see them.  The HTTP library parses requests
    and writes answers; a request is what the handlers read of it. *)

From S2P Require Import Prelude GoNet Crc32 Protocol Messages MessagesData MessagesPeer NetUtil RateLimit Float64 Bandwidth GoTime SendQueue Sha256 Auth I18n Client Room RoomHandlers RoomIP RoomInv RoomSafe RoomExample RoomSpec Persist Subnet Server ServerExample ServerSpec Metrics.

(** ** What the page shows *)

Record ConnectionInfo := mkConn {
  ci_Username : list byte; ci_VirtualIP : list byte; ci_PublicAddr : list byte; ci_Idle : list byte;
  ci_Ping : list byte; ci_Loss : list byte; ci_Jitter : list byte; ci_ClientVersion : list byte;
  ci_NATType : list byte }.

Record RoomStatusInfo := mkRoomStatus {
  ri_RoomID : list byte; ri_Players : Z; ri_MaxPlayers : Z; ri_HasAuth : bool;
  ri_Connections : list ConnectionInfo;
  ri_TotalRegistrations : Z; ri_AuthFailures : Z; ri_PeakPlayers : Z; ri_TotalPacketsRelay : Z;
  ri_TotalPacketsDropped : Z; ri_TotalKicks : Z; ri_SendErrors : Z }.

Record StatusInfo := mkInfo {
  si_Version : list byte; si_Uptime : list byte; si_Players : Z; si_MaxPlayers : Z; si_Subnet : list byte;
  si_ServerIP : list byte; si_HasAuth : bool; si_SendErrors : Z; si_Connections : list ConnectionInfo;
  si_MultiRoom : bool; si_Rooms : list RoomStatusInfo;
  si_TotalRegistrations : Z; si_AuthFailures : Z; si_PeakPlayers : Z; si_TotalPacketsRelay : Z;
  si_TotalPacketsDropped : Z; si_TotalKicks : Z }.

Definition NATTypeNames : list (byte * list byte) :=
  [(NATTypeFullCone, str "FullCone"); (NATTypeRestrictedCone, str "Restricted");
   (NATTypePortRestricted, str "PortRestr"); (NATTypeSymmetric, str "Symmetric"); (NATTypeNoNAT, str "NoNAT")].

Definition formatNATType (nat : byte) : list byte :=
  match List.find (fun '(n, _) => bool_decide (n = nat)) NATTypeNames with
  | Some (_, s) => s
  | None => []
  end.

(** [fmt] verb %.0f: the nearest integer, ties to even. *)
Definition percent_0f (x : Q) : list byte := itoa (round_half_even (Qnum x) (Z.pos (Qden x))).

Definition MinClientTokenVersion : Z := 0x0107.

Definition format_client_version (v : Z) : list byte :=
  if 0 <? v then
    let base := str "v" ++ itoa (Z.shiftr v 8) ++ str "." ++ itoa (Z.land v 0xFF) in
    if MinClientTokenVersion <=? v then base ++ str " [Token]" else base
  else [].

(** [fmt] verb %ds of a duration in milliseconds. *)
Definition format_ms (d : Z) : list byte := if 0 <? d then itoa (Z.quot d 1000000) ++ str "ms" else str "--".

Section status.
Context `{Env} `{MapRange}.

Definition connection_info (c : Client) : ConnectionInfo :=
  let '(lossRate, jitter) := PingStats c in
  let idle := now - cl_lastSeen c in
  mkConn (cl_Username c) (IP_String (cl_VirtualIP c))
    (match cl_PublicAddr c with Some a => UDPAddr_String a | None => [] end)
    (if Second <? idle then Sprintf_d (StatusSecAgo T) [int_Seconds idle] else StatusJustNow T)
    (format_ms (cl_RTT c))
    (if 0 <? cl_pingIdx c then percent_0f (fmul lossRate 100) ++ str "%" else str "--")
    (format_ms jitter) (format_client_version (cl_clientVersion c)) (formatNATType (z2b (cl_NATType c))).

(** Room.BuildRoomStatus; a room's totalPacketsDropped is never written. *)
Definition BuildRoomStatus (r : Room) : RoomStatusInfo :=
  let conns := map (fun '(_, c) => connection_info c) (client_list (r_core r)) in
  let st := r_stats r in
  mkRoomStatus (r_roomID (r_cfg r)) (Z.of_nat (length conns)) (r_maxPlayers (r_cfg r))
    (negb (bool_decide (r_roomPass (r_cfg r) = []))) conns (totalRegistrations st) (authFailures st)
    (peakPlayers st) (totalPacketsRelay st) 0 (totalKicks st) (sendErrors st).

(** formatDuration *)
Definition formatDuration (d : Z) : list byte :=
  let d := Duration_Round d Second in
  if d <? Minute then itoa (int_Seconds d) ++ str "s"
  else if d <? Hour then itoa (int_Minutes d) ++ str "m" ++ itoa (Z.rem (int_Seconds d) 60) ++ str "s"
  else
    let h := int_Hours d in
    let m := Z.rem (int_Minutes d) 60 in
    if h <? 24 then itoa h ++ str "h" ++ itoa m ++ str "m"
    else itoa (Z.quot h 24) ++ str "d" ++ itoa (Z.rem h 24) ++ str "h".

(** The rooms the page lists. *)
Definition status_rooms (s : Server) : list Room :=
  if multiRoom (s_cfg s) then omap (fun l => heap s !! l) (room_locs s)
  else match (l ← defaultRoom (s_cfg s); heap s !! l) with Some r => [r] | None => [] end.

(** The sums of the loop over the rooms. *)
Record StatusSums := mkSums {
  sm_players : Z; sm_max : Z; sm_regs : Z; sm_auth : Z; sm_peak : Z; sm_relay : Z; sm_dropped : Z; sm_kicks : Z }.

Definition add_status (a : StatusSums) (i : RoomStatusInfo) : StatusSums :=
  mkSums (sm_players a + ri_Players i) (sm_max a + ri_MaxPlayers i) (u64 (sm_regs a + ri_TotalRegistrations i))
    (u64 (sm_auth a + ri_AuthFailures i)) (if sm_peak a <? ri_PeakPlayers i then ri_PeakPlayers i else sm_peak a)
    (u64 (sm_relay a + ri_TotalPacketsRelay i)) (u64 (sm_dropped a + ri_TotalPacketsDropped i))
    (u64 (sm_kicks a + ri_TotalKicks i)).

(** Server.buildStatusInfo; the version and the start time are fields of the server
    that New sets. *)
Definition buildStatusInfo (version : list byte) (startTime : Z) (s : Server) : StatusInfo :=
  let rooms := status_rooms s in
  let infos := map BuildRoomStatus rooms in
  let a := foldl add_status (mkSums 0 0 0 0 0 0 0 0) infos in
  let first := match (l ← defaultRoom (s_cfg s); heap s !! l) with Some r => Some r | None => head rooms end in
  mkInfo version (formatDuration (now - startTime)) (sm_players a) (sm_max a)
    (match first with Some r => IPNet_String (r_subnet (r_cfg r)) | None => [] end)
    (match first with Some r => IP_String (r_serverIP (r_cfg r)) | None => [] end)
    (match first with Some r => negb (bool_decide (r_roomPass (r_cfg r) = [])) | None => false end)
    (s_sendErrors s) (concat (map ri_Connections infos)) (multiRoom (s_cfg s)) infos
    (sm_regs a) (sm_auth a) (sm_peak a) (sm_relay a) (sm_dropped a) (sm_kicks a).

(** ** Who may see it *)

(** The query parameter token and the Authorization header, empty when absent. *)
Record Request := mkRequest { rq_token : list byte; rq_Authorization : list byte }.

(** Server.checkStatusToken *)
Definition checkStatusToken (statusToken : list byte) (r : Request) : bool :=
  if bool_decide (statusToken = []) then true
  else if bool_decide (rq_token r = statusToken) then true
  else bool_decide (take 7 (rq_Authorization r) = str "Bearer ")
       && bool_decide (drop 7 (rq_Authorization r) = statusToken).

Inductive Response :=
| Forbidden
| MultiRoomNotEnabled
| StatusJSON (i : StatusInfo)
| MetricsJSON (samples : list MetricsSample)
| RoomsJSON (rooms : list RoomStatusInfo)
| StatusHTML (i : StatusInfo) (t : Strings).

(** The four paths of the page. *)
Inductive Path := PathRoot | PathStatus | PathMetrics | PathRooms.

Definition handleRoomsJSON (s : Server) : Response :=
  if multiRoom (s_cfg s)
  then RoomsJSON (map BuildRoomStatus (omap (fun l => heap s !! l) (room_locs s)))
  else MultiRoomNotEnabled.

(** The mux with requireToken around the JSON handlers, and handleStatusHTML. *)
Definition serve (token version : list byte) (startTime : Z) (ts : MetricsTimeSeries MetricsSample)
    (p : Path) (r : Request) (s : Server) : Response :=
  if negb (checkStatusToken token r) then Forbidden
  else match p with
       | PathRoot => StatusHTML (buildStatusInfo version startTime s) T
       | PathStatus => StatusJSON (buildStatusInfo version startTime s)
       | PathMetrics => MetricsJSON (Snapshot ts)
       | PathRooms => handleRoomsJSON s
       end.

(** ** Facts *)

Lemma length_omap_Some {A B} (f : A → option B) l :
  (∀ x, x ∈ l → is_Some (f x)) → length (omap f l) = length l.
Proof.
  induction l as [|x l IH]; intros Hf; [done|]. cbn. destruct (Hf x) as [y ->]; [by left|]. cbn.
  f_equal. apply IH. intros z Hz. apply Hf. by right.
Qed.

(** Every player of a room is listed once. *)
Lemma BuildRoomStatus_players r : room_good r → ri_Players (BuildRoomStatus r) = ClientCount r.
Proof.
  intros [Hok _]. unfold BuildRoomStatus, ClientCount. cbn [ri_Players]. rewrite length_map. f_equal.
  unfold client_list. rewrite length_omap_Some.
  - rewrite go_range_perm. apply length_map_to_list.
  - intros [k l] Hin%elem_of_go_range. destruct (cp_client _ _ _ _ (ok_clients _ _ Hok) _ _ Hin) as (c & _ & _ & Hc & _).
    cbn beta iota. unfold client_at. change (store (r_core r) !! l = Some c) in Hc. rewrite Hc. by eexists.
Qed.

(** The sums of the page against those of the samples, room by room. *)
Definition sums_agree (a : StatusSums) (t : Totals) : Prop :=
  sm_players a = tt_players t ∧ sm_relay a = tt_relay t ∧ sm_kicks a = tt_kicks t ∧ sm_regs a = tt_regs t.

Lemma add_client_counters t c :
  tt_relay (add_client t c) = tt_relay t ∧ tt_kicks (add_client t c) = tt_kicks t ∧
  tt_regs (add_client t c) = tt_regs t ∧ tt_players (add_client t c) = tt_players t.
Proof. unfold add_client. destruct (0 <? cl_RTT c), (0 <? cl_pingIdx c); done. Qed.

Lemma foldl_add_client_counters L t :
  let t' := foldl add_client t L in
  tt_relay t' = tt_relay t ∧ tt_kicks t' = tt_kicks t ∧ tt_regs t' = tt_regs t ∧ tt_players t' = tt_players t.
Proof.
  revert t. induction L as [|c L IH]; intros t; [done|]. cbn [foldl].
  destruct (IH (add_client t c)) as (-> & -> & -> & ->). apply add_client_counters.
Qed.

Lemma sums_agree_rooms L a t :
  Forall room_good L → sums_agree a t →
  sums_agree (foldl add_status a (map BuildRoomStatus L)) (foldl add_room_totals t L).
Proof.
  intros HL. revert a t. induction HL as [|r L Hr HL IH]; intros a t Ha; [done|]. cbn [map foldl]. apply IH.
  unfold sums_agree, add_room_totals.
  match goal with |- context [foldl add_client ?t0 ?L0] =>
    destruct (foldl_add_client_counters L0 t0) as (-> & -> & -> & ->) end.
  destruct Ha as (H1 & H2 & H3 & H4). cbn [tt_relay tt_kicks tt_regs tt_players].
  unfold add_status. cbn [sm_players sm_relay sm_kicks sm_regs].
  rewrite BuildRoomStatus_players by done. rewrite H1, H2, H3, H4. done.
Qed.

Lemma foldl_status_players L a :
  sm_players (foldl add_status a L) = sm_players a + foldr (fun i n => ri_Players i + n) 0 L.
Proof.
  revert a. induction L as [|i L IH]; intros a; cbn [foldl foldr]; [lia|]. rewrite IH. cbn. lia.
Qed.

Lemma status_connections L :
  Z.of_nat (length (concat (map ri_Connections (map BuildRoomStatus L))))
  = foldr (fun i n => ri_Players i + n) 0 (map BuildRoomStatus L).
Proof.
  induction L as [|r L IH]; [done|]. cbn [map concat foldr]. rewrite length_app, Nat2Z.inj_add, IH. done.
Qed.

(** ** The one room of single-room mode *)

Definition single_room (s : Server) : Prop :=
  multiRoom (s_cfg s) = false ∧ ∃ l, defaultRoom (s_cfg s) = Some l ∧ rooms s = {[ str "default" := l ]}.

Lemma single_srel s s' : single_room s → srel s s' → single_room s'.
Proof. intros (Hm & l & Hl & Hr) [E1 E2 _ _ _]. unfold single_room. rewrite E1, E2. eauto. Qed.

Lemma srel_dispatch_single msg from s : multiRoom (s_cfg s) = false → srel s (dispatch msg from s).
Proof.
  intros Hm. unfold dispatch. case_bool_decide; [apply srel_NATProbe|]. case_bool_decide; [apply srel_rebind|].
  rewrite Hm. destruct (defaultRoom (s_cfg s)); [|done]. apply srel_in_room, pres_HandlePacket.
Qed.

Lemma srel_step_single ev s : multiRoom (s_cfg s) = false → srel s (server_step ev s).
Proof.
  intros Hm. destruct ev as [data from| | | | | |l ev]; cbn [server_step].
  - apply srel_receive.
  - unfold worker. destruct (pktCh s) as [|job l]; [done|]. set (s1 := set_pktCh l s).
    transitivity s1; [by apply srel_same|]. assert (multiRoom (s_cfg s1) = false) as Hm1 by done.
    unfold handlePacket. destruct (cachedEncrypted _).
    + destruct (Decode _); [|done..]. destruct (pre_auth _); [|by apply srel_dispatch_single].
      destruct (VerifyChecksum _); [by apply srel_dispatch_single|done..].
    + destruct (DecodeChecked _) as [msg|[]|]; try done; [by apply srel_dispatch_single|apply srel_kickCode].
  - by apply srel_same.
  - unfold keepaliveTick. pose proof (srel_cleanupClients s) as Hc.
    assert (multiRoom (s_cfg (cleanupStaleClients s)) = false) as -> by by rewrite (sr_cfg _ _ Hc). done.
  - unfold persistTick, saveState. repeat case_match; by apply srel_same.
  - by apply srel_same.
  - destruct (heap s !! l) as [r|]; [|done]. destruct (_ || _); [done|]. apply srel_in_room, pres_room_step.
Qed.
End status.

Lemma sreach_single `{MapRange} cfg s : cf_MultiRoom cfg = false → sreach cfg s → single_room s.
Proof.
  intros Hm. induction 1 as [e locals file s Hn|e ev s _ IH|s q _ IH _].
  - unfold New in Hn. destruct (negb _); [done|]. rewrite Hm in Hn.
    destruct (NewRoom _ _) as [r|]; [|done]. cbn [mbind option_bind] in Hn. injection Hn as <-.
    split; [done|]. exists 0%nat. done.
  - eapply single_srel; [exact IH|]. apply srel_step_single, IH.
  - eapply single_srel; [exact IH|]. by apply srel_same.
Qed.

Section page.
Context `{MapRange} (cfg : Config) (Hv4 : cfg_ipv4 cfg).

Lemma status_rooms_locs s : sreach cfg s → status_rooms s = omap (fun l => heap s !! l) (room_locs s).
Proof.
  intros Hs. unfold status_rooms. pose proof (so_multi _ _ (sreach_ok cfg Hv4 s Hs)) as [Hm _].
  destruct (multiRoom (s_cfg s)) eqn:E; [done|].
  destruct (sreach_single cfg s (eq_sym Hm) Hs) as (_ & l & -> & Hr). cbn [mbind option_bind].
  unfold room_locs. rewrite Hr.
  assert (go_range ({[str "default" := l]} : gmap (list byte) nat) = [(str "default", l)]) as ->.
  { apply Permutation_singleton_r. rewrite go_range_perm. by rewrite map_to_list_singleton. }
  cbn. by destruct (heap s !! l).
Qed.

Lemma dropped_sum L a :
  sm_dropped a = 0 → Forall (fun i => ri_TotalPacketsDropped i = 0) L → sm_dropped (foldl add_status a L) = 0.
Proof.
  intros Ha HL. revert a Ha. induction HL as [|i L Hi HL IH]; intros a Ha; [done|]. cbn [foldl]. apply IH.
  cbn. by rewrite Ha, Hi.
Qed.

(** The page tells the truth about the players: in every reachable state, in both
    modes, it lists as many connections as it counts players, and its counts of
    players, relayed packets, kicks and registrations are those of the metrics -
    but its count of dropped packets is 0, whatever the server dropped. *)
Theorem status_agrees_with_metrics `{Env} version startTime s :
  sreach cfg s →
  let i := buildStatusInfo version startTime s in
  let m := server_totals s in
  Z.of_nat (length (si_Connections i)) = si_Players i ∧ si_Players i = tt_players m ∧
  si_TotalPacketsRelay i = tt_relay m ∧ si_TotalKicks i = tt_kicks m ∧ si_TotalRegistrations i = tt_regs m ∧
  si_TotalPacketsDropped i = 0.
Proof.
  intros Hs i m. pose proof (sreach_ok cfg Hv4 s Hs) as Hok.
  assert (Forall room_good (status_rooms s)) as Hgood.
  { rewrite (status_rooms_locs s Hs). apply Forall_forall. intros r (l & _ & Hl)%list_elem_of_omap.
    by apply (so_good _ _ Hok l). }
  pose proof (sums_agree_rooms (status_rooms s) (mkSums 0 0 0 0 0 0 0 0) (mkTotals 0 0 0 0 0 0 0 0) Hgood
    ltac:(done)) as (E1 & E2 & E3 & E4).
  assert (foldl add_room_totals (mkTotals 0 0 0 0 0 0 0 0) (status_rooms s) = m) as Em
    by (unfold m, server_totals; by rewrite <- (status_rooms_locs s Hs)).
  rewrite Em in E1, E2, E3, E4. split_and!; try done.
  - unfold i. cbn [buildStatusInfo si_Connections si_Players].
    rewrite status_connections, foldl_status_players. done.
  - unfold i. cbn [buildStatusInfo si_TotalPacketsDropped]. apply dropped_sum; [done|].
    apply Forall_forall. intros x (r & -> & _)%list_elem_of_fmap. done.
Qed.
End page.

(** C19: With a token set, every path answers a request exactly when the request carries
    the token, as the query parameter or as a bearer token; otherwise it is
    refused and nothing of the server is shown. *)
Theorem status_guarded `{Env} `{MapRange} token version startTime ts p r s :
  token ≠ [] →
  serve token version startTime ts p r s ≠ Forbidden ↔
  rq_token r = token ∨ rq_Authorization r = str "Bearer " ++ token.
Proof.
  intros Ht. unfold serve, checkStatusToken. rewrite (bool_decide_eq_false_2 (token = [])) by done.
  assert (take 7 (rq_Authorization r) = str "Bearer " ∧ drop 7 (rq_Authorization r) = token ↔
          rq_Authorization r = str "Bearer " ++ token) as Hb.
  { split; [intros [E1 E2]; by rewrite <- (take_drop 7 (rq_Authorization r)), E1, E2|by intros ->]. }
  rewrite <- Hb. clear Hb. destruct (decide (rq_token r = token)) as [E|E].
  { rewrite (bool_decide_eq_true_2 _ E). cbn [negb]. split; [by left|]. intros _.
    destruct p; try done. unfold handleRoomsJSON. by destruct (multiRoom _). }
  rewrite (bool_decide_eq_false_2 _ E).
  destruct (decide (take 7 (rq_Authorization r) = str "Bearer ")) as [E1|E1];
    [rewrite (bool_decide_eq_true_2 _ E1)|rewrite (bool_decide_eq_false_2 _ E1); cbn; naive_solver].
  destruct (decide (drop 7 (rq_Authorization r) = token)) as [E2|E2];
    [rewrite (bool_decide_eq_true_2 _ E2)|rewrite (bool_decide_eq_false_2 _ E2); cbn; naive_solver].
  cbn [andb negb]. split; [naive_solver|]. intros _.
  destruct p; try done. unfold handleRoomsJSON. by destruct (multiRoom _).
Qed.

(** The uptime is integer arithmetic on the duration rounded to seconds, whatever
    the float64 quotients round to: two units, the smaller below the larger. *)
Theorem formatDuration_spec d :
  0 ≤ d < 2 ^ 60 →
  formatDuration d =
    let s := (d + Second / 2) / Second in
    if s <? 60 then itoa s ++ str "s"
    else if s <? 3600 then itoa (s / 60) ++ str "m" ++ itoa (s mod 60) ++ str "s"
    else if s <? 86400 then itoa (s / 3600) ++ str "h" ++ itoa (s / 60 mod 60) ++ str "m"
    else itoa (s / 86400) ++ str "d" ++ itoa (s / 3600 mod 24) ++ str "h".
Proof.
  intros Hd. unfold formatDuration. rewrite Duration_Round_seconds by lia. cbv zeta.
  set (s := (d + Second / 2) / Second).
  assert (0 ≤ s < 2 ^ 32) as Hs.
  { unfold s. assert (Second = 1000000000) as -> by reflexivity.
    change (1000000000 / 2) with 500000000.
    split; [apply Z.div_pos; lia|apply Z.div_lt_upper_bound; lia]. }
  destruct (int_units s Hs) as (-> & -> & ->). unfold Minute, Hour.
  assert (Second = 1000000000) as -> by reflexivity.
  pose proof (Z.div_pos s 3600 ltac:(lia) ltac:(lia)). pose proof (Z.div_pos s 60 ltac:(lia) ltac:(lia)).
  pose proof (Z.div_mod s 3600 ltac:(lia)). pose proof (Z.mod_pos_bound s 3600 ltac:(lia)).
  rewrite !Z.rem_mod_nonneg, Z.quot_div_nonneg by lia.
  destruct (Z.ltb_spec (s * 1000000000) (60 * 1000000000)), (Z.ltb_spec s 60); try lia; [done|].
  destruct (Z.ltb_spec (s * 1000000000) (3600 * 1000000000)), (Z.ltb_spec s 3600); try lia; [done|].
  rewrite Z.div_div by lia. change (3600 * 24) with 86400.
  destruct (Z.ltb_spec (s / 3600) 24), (Z.ltb_spec s 86400); try lia; done.
Qed.

(** ** Witnesses *)

Lemma status_agrees_with_metrics_witness :
  let i := @buildStatusInfo (ex_env 0 x00) _ (str "1") 0 (ex_srv [] false) in si_Players i = 0.
Proof.
  intros i. destruct (@status_agrees_with_metrics _ (ex_srv_config [] false) ltac:(do 4 eexists; reflexivity)
    (ex_env 0 x00) (str "1") 0 (ex_srv [] false)) as (_ & E & _).
  - eapply (sreach_new _ (ex_env 0 x00) [] None). reflexivity.
  - etransitivity; [exact E|]. reflexivity.
Defined.

Lemma status_guarded_witness :
  @serve (ex_env 0 x00) _ (str "key") (str "1") 0 (NewMetricsTimeSeries zero_sample) PathRooms
    (mkRequest [] (str "Bearer key")) (ex_srv [] true) ≠ Forbidden.
Proof. apply status_guarded; [discriminate|]. right. reflexivity. Defined.

Lemma formatDuration_spec_witness : formatDuration (90061 * Second) = str "1d1h".
Proof. rewrite formatDuration_spec by (vm_compute; split; congruence). reflexivity. Defined.
