(* ===== verification/Route.v ===== *)
(** * Route: the client's data packets

    src/internal/client/route.go (packet construction, relay targets), the packet filter
    of recv.go and the broadcast rewriting of recv_data.go.  A pooled buffer is
    given by its contents, which may be left over from an earlier packet. *)

From S2P Require Import Prelude GoNet Crc32 Protocol Messages MessagesData NetUtil Cipher.

(** ** Construction *)

(** [token != [16]byte{}]. *)
Definition token_set (token : list byte) : bool := negb (bool_decide (token = zeros DataTokenLen)).
Definition data_flags (flags : byte) (token : list byte) : byte :=
  if token_set token then byte_or flags DataFlagHasToken else flags.

(** buildDataHeader: [dst] holds the header; the new contents and the offset
    after it.  An address that is not IPv4 leaves its field as it was. *)
Definition buildDataHeader (dst : list byte) (srcIP dstIP : IP) (flags : byte) (token : list byte)
    : list byte * nat :=
  let flags := data_flags flags token in
  let off := 0%nat in
  let dst := <[off := ProtocolVersion]> dst in
  let dst := <[(off + 1)%nat := TypeData]> dst in
  let off := (off + HeaderLen)%nat in
  let dst := match To4 srcIP with Some ip => copy_at dst off ip | None => dst end in
  let dst := match To4 dstIP with Some ip => copy_at dst (off + 4) ip | None => dst end in
  let off := (off + 8)%nat in
  let dst := <[off := DataFormatVersion]> dst in
  let off := (off + 1)%nat in
  let dst := <[off := flags]> dst in
  let off := (off + 1)%nat in
  if has_token flags then (copy_at dst off token, (off + DataTokenLen)%nat) else (dst, off).

Definition token_len (token : list byte) : nat := if token_set token then 16 else 0.

(** buildDataPacket, in the pooled buffer [buf]. *)
Definition buildDataPacket (buf : list byte) (srcIP dstIP : IP) (data : list byte) (flags : byte)
    (token : list byte) : list byte :=
  let flags := data_flags flags token in
  let size := (HeaderLen + DataHeaderLen + token_len token + length data + ChecksumLen)%nat in
  let dst := take size buf in
  let '(dst, off) := buildDataHeader dst srcIP dstIP flags token in
  let dst := copy_at dst off data in
  let off := (off + length data)%nat in
  let crc := ChecksumIEEE (take off dst) in
  copy_at dst off (put_le 4 crc).

(** buildEncryptedDataPacket; [None] is the nil slice returned when the buffer
    is too small for EncryptTo. *)
Definition buildEncryptedDataPacket `{AEAD} (buf : list byte) (srcIP dstIP : IP) (pkt : list byte)
    (cipher : Cipher) (flags : byte) (token : list byte) : option (list byte) * Cipher :=
  let flags := data_flags flags token in
  let size := (HeaderLen + DataHeaderLen + token_len token + Overhead + length pkt)%nat in
  let dst := take size buf in
  let '(dst, off) := buildDataHeader dst srcIP dstIP flags token in
  let dst := take off dst in
  match EncryptTo cipher dst (length buf - off) (Some pkt) with
  | (Ok dst, cipher) => (Some dst, cipher)
  | (_, cipher) => (None, cipher)
  end.

(** buildPacket *)
Definition buildPacket `{AEAD} (buf : list byte) (srcIP dstIP : IP) (data : list byte)
    (cipher : option Cipher) (flags : byte) (token : list byte) : option (list byte) * option Cipher :=
  match cipher with
  | Some c => let '(p, c) := buildEncryptedDataPacket buf srcIP dstIP data c flags token in (p, Some c)
  | None => (Some (buildDataPacket buf srcIP dstIP data flags token), None)
  end.

(** ** Relay targets *)

(** The broadcast address of a subnet; a mask shorter than four bytes panics. *)
Definition subnet_bcast {E} (subIP mask : list byte) : go E (list byte) :=
  m0 ← index mask 0; m1 ← index mask 1; m2 ← index mask 2; m3 ← index mask 3;
  mret (zip_with (fun s m => byte_or s (byte_not m)) subIP [m0; m1; m2; m3]).

Definition IPv4bcast : IP := IPv4 xff xff xff xff.

(** isRelayTarget *)
Definition isRelayTarget {E} (dst : IP) (subnet : option IPNet) : go E bool :=
  match To4 dst with
  | Some ip4 =>
      if IP_Equal ip4 IPv4bcast then Ok true else
      let multicast := let d0 := b2z (nth 0 ip4 x00) in (224 <=? d0) && (d0 <=? 239) in
      match subnet with
      | None => Ok multicast
      | Some n =>
          match To4 (net_IP n) with
          | None => Ok multicast
          | Some subIP =>
              bcast ← subnet_bcast subIP (net_Mask n);
              if IP_Equal ip4 bcast then Ok true else Ok multicast
          end
      end
  | None =>
      match To16 dst with
      | Some ip => b ← index ip 0; Ok (bool_decide (b = xff))
      | None => Panic
      end
  end.

(** ** Packets read from the TUN device *)

(** The total length of a well-formed IPv4 packet, by its header. *)
Definition ip_total_len (pkt : list byte) : option nat :=
  if (length pkt <? 20)%nat then None else
  let b0 := b2z (nth 0 pkt x00) in
  if negb (Z.shiftr b0 4 =? 4) then None else
  let ihl := Z.to_nat (Z.land b0 0x0F * 4) in
  if (ihl <? 20)%nat || (length pkt <? ihl)%nat then None else
  let totalLen := Z.to_nat (get_be (take 2 (drop 2 pkt))) in
  if (totalLen <? ihl)%nat || (length pkt <? totalLen)%nat then None else Some totalLen.

Record tunJob := mkTunJob { tj_data : list byte; tj_srcIP : list byte; tj_dstIP : list byte }.

(** One packet of a batch: trimmed to its IP length. *)
Definition tun_job_batch (pkt : list byte) : option tunJob :=
  totalLen ← ip_total_len pkt;
  Some (mkTunJob (take totalLen pkt) (take 4 (drop 12 pkt)) (take 4 (drop 16 pkt))).

(** One packet of receiveFromTUNSingle: as it was read. *)
Definition tun_job_single (pkt : list byte) : option tunJob :=
  _ ← ip_total_len pkt;
  Some (mkTunJob pkt (take 4 (drop 12 pkt)) (take 4 (drop 16 pkt))).

(** ** Broadcast rewriting *)

(** The big-endian 16-bit words of the first [n] bytes ([n] even), summed. *)
Fixpoint sum16 (l : list byte) : Z :=
  match l with
  | a :: b :: l => b2z a * 256 + b2z b + sum16 l
  | _ => 0
  end.

(** [for sum>>16 != 0 { sum = (sum & 0xFFFF) + (sum >> 16) }]; four rounds are
    enough for a 32-bit sum. *)
Fixpoint fold_carry (fuel : nat) (sum : Z) : Z :=
  match fuel with
  | O => sum
  | S fuel =>
      if Z.shiftr sum 16 =? 0 then sum
      else fold_carry fuel (Z.land sum 0xFFFF + Z.shiftr sum 16)
  end.

(** rewriteBroadcast: the packet and whether it was rewritten.  [buf] is the
    pooled buffer, at least as long as the packet and as the longest header; the
    header is read from it up to its capacity. *)
Definition rewriteBroadcast {E} (buf pkt : list byte) (subnet : option IPNet) : go E (list byte * bool) :=
  match subnet with
  | None => Ok (pkt, false)
  | Some n =>
      if (length pkt <? 20)%nat || negb (Z.shiftr (b2z (nth 0 pkt x00)) 4 =? 4)
         || (length (net_Mask n) =? 0)%nat then Ok (pkt, false) else
      if negb (get_be (take 4 (drop 16 pkt)) =? 0xFFFFFFFF) then Ok (pkt, false) else
      match To4 (net_IP n) with
      | None => Ok (pkt, false)
      | Some subIP =>
          bcast ← subnet_bcast subIP (net_Mask n);
          let out := copy_at buf 0 pkt in
          let out := copy_at out 16 bcast in
          let out := <[10%nat := x00]> out in
          let out := <[11%nat := x00]> out in
          let ihl := Z.to_nat (Z.land (b2z (nth 0 out x00)) 0x0F * 4) in
          header ← slice out 0 ihl;
          let sum := fold_carry 4 (u32 (sum16 header)) in
          let out := copy_at out 10 (put_be 2 (65535 - u16 sum)) in
          Ok (take (length pkt) out, true)
      end
  end.

(** ** Construction: facts *)

Lemma has_token_flags flags token : token_set token = true → has_token (data_flags flags token) = true.
Proof. intros H. unfold data_flags. rewrite H. by destruct flags. Qed.

Lemma data_flags_idem flags token : data_flags (data_flags flags token) token = data_flags flags token.
Proof. unfold data_flags. destruct (token_set token); [|done]. by destruct flags. Qed.

(** The header of a buffer that holds it: the data header in wire form, then the
    rest of the buffer. *)
Lemma buildDataHeader_eq dst srcIP dstIP s d flags token :
  To4 srcIP = Some s → To4 dstIP = Some d → length token = 16%nat →
  let fl := data_flags flags token in
  let hdr := [ProtocolVersion; TypeData] ++ data_wire s d fl token [] in
  (length hdr ≤ length dst)%nat →
  buildDataHeader dst srcIP dstIP flags token = (hdr ++ drop (length hdr) dst, length hdr).
Proof.
  intros Hs Hd Ht. cbv zeta. unfold buildDataHeader, HeaderLen, DataTokenLen, data_wire. rewrite Hs, Hd.
  apply To4_length in Hs, Hd. intros Hlen. cbn [Nat.add].
  set (fl := data_flags flags token) in *.
  change (<[0%nat := ProtocolVersion]> dst) with (<[0%nat := ProtocolVersion]> ([] ++ dst)).
  destruct (has_token fl); revert Hlen; rewrite ?length_app; cbn [Datatypes.length]; intros Hlen;
    repeat (first [rewrite insert_at_app by (rewrite ?length_drop; lens)
                  |rewrite copy_at_app by (rewrite ?length_drop; lens)]);
    rewrite !drop_drop, <- !app_assoc; cbn [app];
    rewrite ?app_nil_r, Hs, Hd, ?Ht; reflexivity.
Qed.

(** A plain packet is the framed data payload. *)
Lemma buildDataPacket_eq buf srcIP dstIP s d data flags token :
  To4 srcIP = Some s → To4 dstIP = Some d → length token = 16%nat →
  has_token flags = false →
  (HeaderLen + DataHeaderLen + token_len token + length data + ChecksumLen ≤ length buf)%nat →
  buildDataPacket buf srcIP dstIP data flags token
  = EncodeChecked TypeData (data_wire s d (data_flags flags token) token data).
Proof.
  intros Hs Hd Ht Hf Hlen. unfold buildDataPacket.
  pose proof (To4_length _ _ Hs) as Hsl. pose proof (To4_length _ _ Hd) as Hdl.
  set (size := (_ + _ + _ + _ + _)%nat) in *. set (fl := data_flags flags token).
  assert (has_token fl = token_set token) as Hfl.
  { unfold fl. destruct (token_set token) eqn:E; [by apply has_token_flags|].
    unfold data_flags. by rewrite E. }
  assert (length ([ProtocolVersion; TypeData] ++ data_wire s d fl token []) = (12 + token_len token)%nat) as Hh.
  { rewrite length_app, length_data_wire by done. rewrite Hfl. unfold token_len.
    destruct (token_set token); cbn [Datatypes.length]; lia. }
  pose proof (buildDataHeader_eq (take size buf) srcIP dstIP s d fl token Hs Hd Ht) as Hb. cbv zeta in Hb.
  assert (data_flags fl token = fl) as Hi by apply data_flags_idem. rewrite Hi in Hb.
  unfold size, HeaderLen, DataHeaderLen, ChecksumLen in *. clear size.
  rewrite Hb; clear Hb. 2: { rewrite Hh, length_take. lia. }
  rewrite Hh. set (hdr := [_; _] ++ _) in *.
  rewrite copy_at_app by (rewrite ?length_drop, ?length_take; lia).
  assert (length (hdr ++ data) = (12 + token_len token + length data)%nat) as Hl2 by (rewrite length_app; lia).
  rewrite <- Hl2 at 1 2. rewrite take_app_length.
  rewrite copy_at_app by (rewrite ?length_drop, ?length_take, ?length_put_le; lia).
  rewrite !drop_drop, length_put_le.
  rewrite (drop_ge (take _ buf)) by (rewrite length_take; lia). rewrite app_nil_r.
  assert (hdr ++ data = ProtocolVersion :: TypeData :: data_wire s d fl token data) as ->; [|done].
  unfold hdr, data_wire. by rewrite <- !app_assoc.
Qed.

(** Unmarshalling the wire form. *)
Lemma UnmarshalData_wire s d fl token data :
  length s = 4%nat → length d = 4%nat → length token = 16%nat →
  UnmarshalData (data_wire s d fl token data)
  = Ok (mkData s d DataFormatVersion fl (if has_token fl then token else zeros 16) data).
Proof.
  intros Hs Hd Ht.
  destruct (Data_roundtrip (mkData s d DataFormatVersion fl token data) s d) as (w & Hw & _ & Hu);
    [by apply To4_4..|done|].
  rewrite (DataPayload_Marshal_eq _ s d) in Hw by (done || by apply To4_4).
  cbn in Hw. injection Hw as <-. exact Hu.
Qed.

(** The flags of a packet without other flags. *)
Lemma has_token_data_flags token : has_token (data_flags x00 token) = token_set token.
Proof. unfold data_flags. by destruct (token_set token). Qed.

Lemma token_unset token : token_set token = false → token = zeros 16.
Proof. unfold token_set. by case_bool_decide. Qed.

(** ** Relay targets: facts *)

(** A client relays through the server exactly the destinations the server fans
    out: on 4-byte destinations both decisions, written separately, agree on every
    subnet, whatever its mask. *)
Theorem relay_decisions_agree {E} dst subnet :
  length dst = 4%nat → isRelayTarget (E:=E) dst subnet = IsRelayTargetRaw dst subnet.
Proof.
  intros H. unfold isRelayTarget, IsRelayTargetRaw. rewrite To4_4 by done.
  assert (∀ x, length x = 4%nat → IP_Equal dst x = bool_decide (dst = x)) as He
    by (intros x Hx; unfold IP_Equal; by rewrite H, Hx).
  assert (IP_Equal dst IPv4bcast = bool_decide (dst = [xff; xff; xff; xff])) as ->
    by (unfold IP_Equal; by rewrite H).
  destruct (bool_decide _); [done|]. destruct subnet as [n|]; [|done].
  destruct (To4 (net_IP n)) as [subIP|] eqn:Hn; [|done]. apply To4_length in Hn. unfold subnet_bcast.
  destruct (index (E:=E) (net_Mask n) 0); cbn [mbind go_bind]; [|done..].
  destruct (index (E:=E) (net_Mask n) 1); cbn [mbind go_bind]; [|done..].
  destruct (index (E:=E) (net_Mask n) 2); cbn [mbind go_bind]; [|done..].
  destruct (index (E:=E) (net_Mask n) 3); cbn [mbind go_bind mret go_ret]; [|done..].
  by rewrite He by (rewrite length_zip_with, Hn; done).
Qed.

Lemma relay_decisions_agree_witness :
  isRelayTarget (E:=perr) [xe0; x00; x00; xfb] None = IsRelayTargetRaw [xe0; x00; x00; xfb] None.
Proof. apply relay_decisions_agree. reflexivity. Defined.

(** ** The Internet checksum *)

Lemma fold_step s : 0 ≤ s →
  Z.land s 0xFFFF + Z.shiftr s 16 = s mod 65536 + s / 65536 ∧ (Z.shiftr s 16 =? 0) = (s <? 65536).
Proof.
  intros Hs. change 0xFFFF with (Z.ones 16). rewrite Z.land_ones by lia.
  rewrite Z.shiftr_div_pow2 by lia. change (2 ^ 16) with 65536. split; [done|].
  apply eq_true_iff_eq. rewrite Z.eqb_eq, Z.ltb_lt. pose proof (Z.div_mod s 65536 ltac:(lia)).
  pose proof (Z.mod_pos_bound s 65536 ltac:(lia)). nia.
Qed.

Lemma fold_carry_mod fuel s : 0 ≤ s →
  0 ≤ fold_carry fuel s ∧ fold_carry fuel s mod 65535 = s mod 65535 ∧ (0 < s → 0 < fold_carry fuel s).
Proof.
  revert s. induction fuel as [|fuel IH]; intros s Hs; [done|]. cbn [fold_carry].
  destruct (fold_step s Hs) as [-> ->]. destruct (Z.ltb_spec s 65536); [done|].
  pose proof (Z.div_mod s 65536 ltac:(lia)) as E. pose proof (Z.mod_pos_bound s 65536 ltac:(lia)).
  pose proof (Z.div_pos s 65536 Hs ltac:(lia)).
  destruct (IH (s mod 65536 + s / 65536)) as (G1 & G2 & G3); [lia|]. split; [done|]. split; [|intros; apply G3; lia].
  rewrite G2. symmetry. rewrite E at 1.
  replace (65536 * (s / 65536) + s mod 65536) with (s mod 65536 + s / 65536 + s / 65536 * 65535) by lia.
  apply Z.mod_add. lia.
Qed.

(** Four rounds reduce every 32-bit sum to 16 bits. *)
Lemma fold_carry_small s : 0 ≤ s < 2 ^ 32 → fold_carry 4 s < 65536.
Proof.
  intros Hs. cbn [fold_carry]. destruct (fold_step s ltac:(lia)) as [-> ->].
  destruct (Z.ltb_spec s 65536); [done|].
  assert (s / 65536 < 65536) by (apply Z.div_lt_upper_bound; lia).
  pose proof (Z.mod_pos_bound s 65536 ltac:(lia)). pose proof (Z.div_pos s 65536 ltac:(lia) ltac:(lia)).
  set (s1 := s mod 65536 + s / 65536) in *.
  destruct (fold_step s1 ltac:(lia)) as [-> ->]. destruct (Z.ltb_spec s1 65536); [done|].
  assert (s1 / 65536 = 1) as -> by (symmetry; apply (Z.div_unique s1 65536 1 (s1 - 65536)); lia).
  assert (s1 mod 65536 = s1 - 65536) as -> by (symmetry; apply (Z.mod_unique s1 65536 1); lia).
  destruct (fold_step (s1 - 65536 + 1) ltac:(lia)) as [-> ->].
  destruct (Z.ltb_spec (s1 - 65536 + 1) 65536); [done|lia].
Qed.

Lemma sum16_range l : 0 ≤ sum16 l ≤ 65535 * Z.of_nat (length l).
Proof.
  revert l. fix IH 1. intros [|a [|b l]]; [cbn; lia..|].
  cbn [sum16 Datatypes.length]. pose proof (b2z_range a). pose proof (b2z_range b). specialize (IH l). lia.
Qed.

Lemma put_be_16 v : 0 ≤ v < 65536 → ∃ h l, put_be 2 v = [h; l] ∧ b2z h * 256 + b2z l = v.
Proof.
  intros Hv. exists (z2b (v / 256)), (z2b v). split.
  - unfold put_be. cbn [put_le]. rewrite !reverse_cons, Z.shiftr_div_pow2 by lia. reflexivity.
  - rewrite !b2z_z2b. pose proof (Z.div_mod v 256 ltac:(lia)). rewrite (Z.mod_small (v / 256)); [lia|].
    split; [apply Z.div_pos; lia|apply Z.div_lt_upper_bound; lia].
Qed.

(** Completing a sum with the complement of its folding gives all ones. *)
Lemma checksum_completes s : 0 ≤ s < 2 ^ 31 → fold_carry 4 (s + (65535 - fold_carry 4 s)) = 65535.
Proof.
  intros Hs. destruct (Z.eq_dec s 0) as [->|Hne]; [reflexivity|].
  pose proof (fold_carry_small s ltac:(lia)) as Hf. destruct (fold_carry_mod 4 s ltac:(lia)) as (H1 & H2 & H3).
  set (f := fold_carry 4 s) in *. set (t := s + (65535 - f)).
  pose proof (fold_carry_small t ltac:(unfold t; lia)) as Hg.
  destruct (fold_carry_mod 4 t ltac:(unfold t; lia)) as (G1 & G2 & G3).
  assert (t mod 65535 = 0) as Et.
  { unfold t. apply Z.mod_divide; [lia|]. exists (s / 65535 - f / 65535 + 1).
    pose proof (Z.div_mod s 65535 ltac:(lia)). pose proof (Z.div_mod f 65535 ltac:(lia)). lia. }
  rewrite Et in G2. specialize (G3 ltac:(unfold t; lia)).
  apply Z.mod_divide in G2 as [k Hk]; [|lia]. lia.
Qed.

(** ** Broadcast rewriting: facts *)

Definition header_len (pkt : list byte) : nat := Z.to_nat (Z.land (b2z (nth 0 pkt x00)) 0x0F * 4).
(** The header sums to all ones (RFC 1071). *)
Definition header_checksum_ok (pkt : list byte) : Prop := fold_carry 4 (sum16 (take (header_len pkt) pkt)) = 65535.
Definition bcast_of (n : IPNet) : list byte :=
  zip_with (fun s m => byte_or s (byte_not m)) (default [] (To4 (net_IP n))) (net_Mask n).

Lemma bcast4 {E} n s m : To4 (net_IP n) = Some s → length (net_Mask n) = 4%nat → m = net_Mask n →
  subnet_bcast (E:=E) s m = Ok (bcast_of n) ∧ length (bcast_of n) = 4%nat.
Proof.
  intros Hs Hm ->. unfold bcast_of. rewrite Hs. cbn [default]. apply To4_length in Hs.
  destruct (net_Mask n) as [|m0 [|m1 [|m2 [|m3 [|]]]]]; try discriminate.
  split; [done|]. rewrite length_zip_with. cbn. lia.
Qed.

Lemma sum16_app l1 l2 : Nat.Even (length l1) → sum16 (l1 ++ l2) = sum16 l1 + sum16 l2.
Proof.
  intros [k Hk]. revert l1 Hk. induction k as [|k IH]; intros l1 Hk.
  - destruct l1; [done|cbn in Hk; lia].
  - destruct l1 as [|a [|b l1]]; [cbn in Hk; lia..|]. cbn [app sum16].
    rewrite IH by (cbn in Hk; lia). lia.
Qed.

(** A header with the checksum field [z]. *)
Definition with_checksum (h10 z m4 d4 rest : list byte) : list byte := h10 ++ z ++ m4 ++ d4 ++ rest.

Lemma header_sum h10 z m4 d4 rest (k : nat) :
  length h10 = 10%nat → length z = 2%nat → length m4 = 4%nat → length d4 = 4%nat → (20 ≤ k)%nat →
  sum16 (take k (with_checksum h10 z m4 d4 rest)) =
  sum16 h10 + sum16 m4 + sum16 d4 + sum16 (take (k - 20) rest) + sum16 z.
Proof.
  intros H1 H2 H3 H4 Hk. unfold with_checksum.
  rewrite (take_app_ge h10), (take_app_ge z), (take_app_ge m4), (take_app_ge d4) by lia.
  replace (k - length h10 - length z - length m4 - length d4)%nat with (k - 20)%nat by lia.
  rewrite !sum16_app; [lia|..]; rewrite ?H1, ?H2, ?H3, ?H4;
    [exists 2%nat|exists 2%nat|exists 1%nat|exists 5%nat]; done.
Qed.

(** The packet in its parts. *)
Lemma split_packet (pkt : list byte) : (20 ≤ length pkt)%nat →
  ∃ h10 z m4 d4 rest, pkt = with_checksum h10 z m4 d4 rest ∧
    length h10 = 10%nat ∧ length z = 2%nat ∧ length m4 = 4%nat ∧ length d4 = 4%nat.
Proof.
  intros H. exists (take 10 pkt), (take 2 (drop 10 pkt)), (take 4 (drop 12 pkt)), (take 4 (drop 16 pkt)), (drop 20 pkt).
  unfold with_checksum. split.
  - rewrite <- (take_drop 10 pkt) at 1. f_equal. rewrite <- (take_drop 2 (drop 10 pkt)) at 1. f_equal.
    rewrite drop_drop. rewrite <- (take_drop 4 (drop (10 + 2) pkt)) at 1. f_equal.
    rewrite drop_drop. rewrite <- (take_drop 4 (drop (10 + 2 + 4) pkt)) at 1. f_equal. by rewrite drop_drop.
  - rewrite !length_take, !length_drop. lia.
Qed.

Lemma with_checksum_field h10 z m4 d4 rest : length h10 = 10%nat → length z = 2%nat → length m4 = 4%nat → length d4 = 4%nat →
  take 4 (drop 16 (with_checksum h10 z m4 d4 rest)) = d4 ∧
  nth 0 (with_checksum h10 z m4 d4 rest) x00 = nth 0 h10 x00 ∧
  length (with_checksum h10 z m4 d4 rest) = (20 + length rest)%nat.
Proof.
  intros H1 H2 H3 H4. unfold with_checksum.
  do 11 (destruct h10 as [|? h10]; try discriminate). destruct z as [|z0 [|z1 [|]]]; try discriminate.
  destruct m4 as [|m0 [|m1 [|m2 [|m3 [|]]]]]; try discriminate. destruct d4 as [|d0 [|d1 [|d2 [|d3 [|]]]]]; try discriminate.
  done.
Qed.

Lemma with_checksum_writes h10 z m4 d4 rest bc z' :
  length h10 = 10%nat → length z = 2%nat → length m4 = 4%nat → length d4 = 4%nat →
  length bc = 4%nat → length z' = 2%nat →
  copy_at (with_checksum h10 z m4 d4 rest) 16 bc = with_checksum h10 z m4 bc rest ∧
  <[11%nat := x00]> (<[10%nat := x00]> (with_checksum h10 z m4 d4 rest)) = with_checksum h10 [x00; x00] m4 d4 rest ∧
  copy_at (with_checksum h10 z m4 d4 rest) 10 z' = with_checksum h10 z' m4 d4 rest.
Proof.
  intros H1 H2 H3 H4 H5 H6. unfold with_checksum.
  destruct z as [|z0 [|z1 [|]]]; try discriminate. split_and!.
  - rewrite !app_assoc, <- (app_assoc _ d4), copy_at_app by lens.
    rewrite drop_app_length' by lia. by rewrite <- !app_assoc.
  - by do 11 (destruct h10 as [|? h10]; try discriminate).
  - rewrite copy_at_app by lens. rewrite drop_app_length' by (cbn; lia). by rewrite <- !app_assoc.
Qed.

(** A packet to 255.255.255.255 is rewritten to the broadcast address of the
    subnet with a correct header checksum; only the destination and the checksum
    change, whatever the recycled buffer holds. *)
Theorem rewriteBroadcast_correct buf pkt n s :
  To4 (net_IP n) = Some s → length (net_Mask n) = 4%nat →
  Z.shiftr (b2z (nth 0 pkt x00)) 4 = 4 → (20 ≤ header_len pkt ≤ length pkt)%nat → (length pkt ≤ length buf)%nat →
  take 4 (drop 16 pkt) = [xff; xff; xff; xff] →
  ∃ out, rewriteBroadcast (E:=perr) buf pkt (Some n) = Ok (out, true) ∧ length out = length pkt ∧
    take 4 (drop 16 out) = bcast_of n ∧ header_checksum_ok out ∧
    take 10 out = take 10 pkt ∧ take 4 (drop 12 out) = take 4 (drop 12 pkt) ∧ drop 20 out = drop 20 pkt.
Proof.
  intros Hs Hm Hv Hh Hb Hd. pose proof (bcast4 (E:=perr) n s _ Hs Hm eq_refl) as [Hbc Hbl].
  assert (20 ≤ length pkt)%nat as Hl by lia.
  destruct (split_packet pkt Hl) as (h & z & m & d & rest & -> & L1 & L2 & L3 & L4).
  destruct (with_checksum_field h z m d rest L1 L2 L3 L4) as (Ed & En & El). rewrite Ed in Hd. subst d.
  unfold header_len in Hh. rewrite En in Hv, Hh. rewrite El in Hh, Hb.
  set (ihl := Z.to_nat (Z.land (b2z (nth 0 h x00)) 0x0F * 4)) in *.
  unfold rewriteBroadcast. rewrite El, En, Hv, Hm, Ed, Hs, Hbc.
  destruct (Nat.ltb_spec (20 + length rest) 20); [lia|].
  assert (copy_at buf 0 (with_checksum h z m [xff; xff; xff; xff] rest)
          = with_checksum h z m [xff; xff; xff; xff] (rest ++ drop (20 + length rest) buf)) as ->.
  { change buf with ([] ++ buf) at 1. rewrite copy_at_app by (cbn [Datatypes.length]; lia). rewrite El.
    unfold with_checksum. by rewrite <- !app_assoc. }
  set (rest' := rest ++ _). cbn [Nat.eqb orb negb Z.eqb Pos.eqb].
  change (negb (get_be [xff; xff; xff; xff] =? 0xFFFFFFFF)) with false. cbn iota. rewrite go_bind_ok. cbv zeta.
  destruct (with_checksum_writes h z m [xff; xff; xff; xff] rest' (bcast_of n) [x00; x00] L1 L2 L3 L4 Hbl eq_refl) as (-> & _ & _).
  destruct (with_checksum_writes h z m (bcast_of n) rest' (bcast_of n) [x00; x00] L1 L2 L3 Hbl Hbl eq_refl) as (_ & -> & _).
  destruct (with_checksum_field h [x00; x00] m (bcast_of n) rest' L1 eq_refl L3 Hbl) as (_ & -> & El').
  fold ihl.
  assert (length rest' = (length rest + (length buf - (20 + length rest)))%nat) as Er
    by (unfold rest'; by rewrite length_app, length_drop).
  rewrite slice_ok by (rewrite ?El'; lia). rewrite go_bind_ok, Nat.sub_0_r, drop_0.
  rewrite header_sum by (done || lia).
  assert (take (ihl - 20) rest' = take (ihl - 20) rest) as -> by (unfold rest'; rewrite take_app_le; [done|lia]).
  change (sum16 [x00; x00]) with 0. rewrite Z.add_0_r. set (sum := sum16 h + _ + _ + _).
  assert (0 ≤ sum < 2 ^ 31) as Hsum.
  { pose proof (sum16_range h). pose proof (sum16_range m). pose proof (sum16_range (bcast_of n)).
    pose proof (sum16_range (take (ihl - 20) rest)) as Hr. rewrite length_take in Hr.
    assert (ihl ≤ 60)%nat.
    { unfold ihl. change 0x0F with (Z.ones 4). rewrite Z.land_ones by lia.
      pose proof (Z.mod_pos_bound (b2z (nth 0 h x00)) (2 ^ 4) ltac:(lia)). lia. }
    unfold sum. lia. }
  unfold u32. rewrite (Z.mod_small sum) by lia.
  pose proof (fold_carry_small sum ltac:(lia)) as Hf. destruct (fold_carry_mod 4 sum ltac:(lia)) as (Hf0 & _).
  unfold u16. rewrite (Z.mod_small (fold_carry 4 sum)) by lia.
  destruct (put_be_16 (65535 - fold_carry 4 sum) ltac:(lia)) as (c1 & c2 & Ec & Ev). rewrite Ec.
  destruct (with_checksum_writes h [x00; x00] m (bcast_of n) rest' (bcast_of n) [c1; c2] L1 eq_refl L3 Hbl Hbl eq_refl) as (_ & _ & ->).
  assert (take (20 + length rest) (with_checksum h [c1; c2] m (bcast_of n) rest')
          = with_checksum h [c1; c2] m (bcast_of n) rest) as ->.
  { unfold with_checksum, rest'. rewrite !app_assoc.
    rewrite take_app_length'; [done|]. rewrite !length_app. cbn [Datatypes.length]. lia. }
  exists (with_checksum h [c1; c2] m (bcast_of n) rest).
  destruct (with_checksum_field h [c1; c2] m (bcast_of n) rest L1 eq_refl L3 Hbl) as (Hfd & Hfn & Hfl).
  split_and!; [done|done|done| | | |].
  - unfold header_checksum_ok, header_len. rewrite Hfn. fold ihl.
    rewrite header_sum by (done || lia). fold sum. cbn [sum16].
    replace (b2z c1 * 256 + b2z c2 + 0) with (65535 - fold_carry 4 sum) by lia.
    by apply checksum_completes.
  - unfold with_checksum. by rewrite !take_app_length' by lia.
  - unfold with_checksum. do 11 (destruct h as [|? h]; try discriminate).
    destruct z as [|z0 [|z1 [|]]]; try discriminate. cbn [app drop]. rewrite !drop_0. by rewrite !take_app_length' by lia.
  - unfold with_checksum. rewrite !app_assoc. by rewrite !drop_app_length' by (rewrite !length_app; cbn [Datatypes.length]; lia).
Qed.

(** A 24-byte packet with stale bytes in the buffer. *)
Definition ex_bcast_packet : list byte :=
  [x45; x00; x00; x18; x00; x01; x00; x00; x40; x11; xaa; xbb; x0a; x0a; x00; x02; xff; xff; xff; xff] ++ str "ping".
Definition ex_net : IPNet := mkIPNet [x0a; x0a; x00; x00] [xff; xff; xff; x00].
Lemma rewriteBroadcast_correct_witness :
  ∃ out, rewriteBroadcast (E:=perr) (replicate 512 x77) ex_bcast_packet (Some ex_net) = Ok (out, true) ∧
    take 4 (drop 16 out) = [x0a; x0a; x00; xff] ∧ header_checksum_ok out.
Proof.
  destruct (rewriteBroadcast_correct (replicate 512 x77) ex_bcast_packet ex_net [x0a; x0a; x00; x00])
    as (out & H1 & _ & H2 & H3 & _); [vm_compute; (reflexivity || lia)..|].
  exists out. split; [exact H1|]. split; [exact H2|exact H3].
Defined.

(** ** The checksum of UDP

    The UDP checksum (RFC 768) covers the addresses of the IP header. *)
Definition udp_segment (pkt : list byte) : list byte := drop (header_len pkt) pkt.
Definition udp_sum (pkt : list byte) : Z :=
  sum16 (take 4 (drop 12 pkt)) + sum16 (take 4 (drop 16 pkt)) + 17 + Z.of_nat (length (udp_segment pkt))
  + sum16 (udp_segment pkt ++ if Nat.odd (length (udp_segment pkt)) then [x00] else []).
Definition udp_checksum_ok (pkt : list byte) : Prop := fold_carry 4 (udp_sum pkt) = 65535.

Lemma udp_sum_range pkt : Z.of_nat (length pkt) ≤ 65535 → 0 ≤ udp_sum pkt < 2 ^ 32.
Proof.
  intros H. unfold udp_sum. pose proof (sum16_range (take 4 (drop 12 pkt))) as H1.
  pose proof (sum16_range (take 4 (drop 16 pkt))) as H2. rewrite length_take in H1, H2.
  assert (Z.of_nat (length (udp_segment pkt)) ≤ 65535) by (unfold udp_segment; rewrite length_drop; lia).
  assert (∀ l, 2 * sum16 l ≤ 65535 * (Z.of_nat (length l) + 1)) as Hhalf.
  { fix IH 1. intros [|a [|b l]]; [cbn; lia..|]. cbn [sum16 Datatypes.length].
    pose proof (b2z_range a). pose proof (b2z_range b). specialize (IH l). lia. }
  match goal with |- context [sum16 (udp_segment pkt ++ ?p)] =>
    pose proof (Hhalf (udp_segment pkt ++ p)) as H3; pose proof (sum16_range (udp_segment pkt ++ p));
    assert (Z.of_nat (length (udp_segment pkt ++ p)) ≤ 65536) by (rewrite length_app; destruct (Nat.odd _); cbn [Datatypes.length]; lia) end.
  lia.
Qed.

(** Rewriting the destination does not update the UDP checksum: a datagram that was
    correct when it was sent to 255.255.255.255 has a wrong checksum after the
    rewriting, unless the two words of the broadcast address cancel. *)
Theorem rewrite_breaks_udp_checksum buf pkt n s :
  To4 (net_IP n) = Some s → length (net_Mask n) = 4%nat →
  Z.shiftr (b2z (nth 0 pkt x00)) 4 = 4 → (20 ≤ header_len pkt ≤ length pkt)%nat → (length pkt ≤ length buf)%nat →
  take 4 (drop 16 pkt) = [xff; xff; xff; xff] → Z.of_nat (length pkt) ≤ 65535 →
  udp_checksum_ok pkt → sum16 (bcast_of n) mod 65535 ≠ 0 →
  ∃ out, rewriteBroadcast (E:=perr) buf pkt (Some n) = Ok (out, true) ∧ ¬ udp_checksum_ok out.
Proof.
  intros Hs Hm Hv Hh Hb Hd Hlen Hok Hne.
  destruct (rewriteBroadcast_correct buf pkt n s Hs Hm Hv Hh Hb Hd) as (out & Hr & Hl & Ho & _ & H10 & H12 & H20).
  exists out. split; [done|]. unfold udp_checksum_ok in *. intros Hbad.
  assert (header_len out = header_len pkt) as Ehl.
  { unfold header_len. do 3 f_equal. f_equal. destruct out as [|x out], pkt as [|y pkt]; cbn in *; try lia.
    by injection H10. }
  assert (udp_segment out = udp_segment pkt) as Eseg.
  { unfold udp_segment. rewrite Ehl. replace (header_len pkt) with (20 + (header_len pkt - 20))%nat by lia.
    by rewrite <- !drop_drop, H20. }
  destruct (fold_carry_mod 4 (udp_sum pkt) (proj1 (udp_sum_range pkt Hlen))) as (_ & E1 & _).
  destruct (fold_carry_mod 4 (udp_sum out) (proj1 (udp_sum_range out ltac:(lia)))) as (_ & E2 & _).
  rewrite Hok in E1. rewrite Hbad, E1 in E2. unfold udp_sum in E2. rewrite Eseg, H12, Ho, Hd in E2.
  change (sum16 [xff; xff; xff; xff]) with 131070 in E2. apply Hne.
  set (a := sum16 (take 4 (drop 12 pkt))) in *. set (l := Z.of_nat (length (udp_segment pkt))) in *. set (p := sum16 (_ ++ _)) in *.
  set (b := sum16 (bcast_of n)) in *.
  pose proof (Z.div_mod (a + 131070 + 17 + l + p) 65535 ltac:(lia)).
  pose proof (Z.div_mod (a + b + 17 + l + p) 65535 ltac:(lia)).
  apply Z.mod_divide; [lia|]. exists ((a + b + 17 + l + p) / 65535 - (a + 131070 + 17 + l + p) / 65535 + 2). lia.
Qed.

Definition ex_udp_packet : list byte :=
  [x45; x00; x00; x20; x00; x01; x00; x00; x40; x11; x00; x00; x0a; x0a; x00; x02; xff; xff; xff; xff;
   x12; x34; x12; x35; x00; x0c; xfc; x9a] ++ str "game".
Lemma rewrite_breaks_udp_checksum_witness :
  udp_checksum_ok ex_udp_packet ∧
  ∃ out, rewriteBroadcast (E:=perr) (replicate 512 x00) ex_udp_packet (Some ex_net) = Ok (out, true) ∧
    ¬ udp_checksum_ok out.
Proof.
  split; [vm_compute; reflexivity|].
  refine (rewrite_breaks_udp_checksum _ _ ex_net [x0a; x0a; x00; x00] _ _ _ _ _ _ _ _ _);
    vm_compute; (reflexivity || discriminate || lia).
Defined.
