(* ===== verification/NatProbe.v ===== *)
(** * NatProbe: NAT type detection and hole-punching strategy

    src/internal/nat/natprobe.go.  A probe reads the datagrams that arrive until its
    deadline, each with its arrival time; the end of the list is the read error at
    the deadline. *)

From S2P Require Import Prelude GoNet Crc32 Protocol Messages MessagesPeer SendQueue Bandwidth I18n Client Room Server.

Record NATProbeResult := mkProbeResult {
  pr_Type : byte; pr_ExternalIP : IP; pr_ExternalPort : Z; pr_AltIP : IP; pr_AltPort : Z; pr_RTT : Z }.

Inductive probe_err := ErrRead | ErrResponse (e : perr).

(** The result of a matching response; nil addresses leave the zero values. *)
Definition probe_result (resp : NATResponsePayload) (rtt : Z) : NATProbeResult :=
  mkProbeResult (nr_NATType resp)
    (match nr_ObservedAddr resp with Some a => ua_IP a | None => [] end)
    (match nr_ObservedAddr resp with Some a => ua_Port a | None => 0 end)
    (match nr_AltAddr resp with Some a => ua_IP a | None => [] end)
    (match nr_AltAddr resp with Some a => ua_Port a | None => 0 end) rtt.

Section probe.
Context `{NetResolver}.

(** NATProber.Probe, after the request is written at time [start]. *)
Fixpoint Probe (probeID : byte) (start : Z) (inbox : list (Z * list byte)) : go probe_err NATProbeResult :=
  match inbox with
  | [] => Err ErrRead
  | (at_, data) :: inbox =>
      match DecodeChecked data with
      | Ok msg =>
          if negb (bool_decide (Type_ msg = TypeNATResponse)) then Probe probeID start inbox else
          match UnmarshalNATResponse (Payload msg) with
          | Ok resp =>
              if negb (bool_decide (nr_ProbeID resp = probeID)) then Probe probeID start inbox
              else Ok (probe_result resp (at_ - start))
          | Err e => Err (ErrResponse e)
          | Panic => Panic
          end
      | Err _ => Probe probeID start inbox
      | Panic => Panic
      end
  end.

(** NATProbeResult.classifyNATType *)
Definition classifyNATType (r : NATProbeResult) (allResults : list NATProbeResult) : NATProbeResult :=
  let set_type t := mkProbeResult t (pr_ExternalIP r) (pr_ExternalPort r) (pr_AltIP r) (pr_AltPort r) (pr_RTT r) in
  if (length allResults <? 2)%nat then r else
  let others := drop 1 allResults in
  let sameIP := forallb (fun other => IP_Equal (pr_ExternalIP r) (pr_ExternalIP other)) others in
  let samePort := forallb (fun other => pr_ExternalPort r =? pr_ExternalPort other) others in
  let altDiffers :=
    negb (bool_decide (pr_AltIP r = [])) && negb (bool_decide (pr_ExternalIP r = []))
    && (negb (IP_Equal (pr_AltIP r) (pr_ExternalIP r)) || negb (pr_AltPort r =? pr_ExternalPort r)) in
  if negb sameIP then set_type NATTypeSymmetric
  else if sameIP && negb samePort then set_type NATTypeSymmetric
  else if sameIP && samePort && altDiffers then set_type NATTypePortRestricted
  else if sameIP && samePort && negb altDiffers then
    if bool_decide (pr_Type r = NATTypeUnknown) then set_type NATTypeFullCone else r
  else r.

(** ProbeNATType: [windows] are the start time and the arrivals of probes 0, 1
    and 2; failed probes are skipped. *)
Definition ProbeNATType (windows : list (Z * list (Z * list byte))) : option NATProbeResult :=
  let results := omap (fun '(i, (start, inbox)) =>
    match Probe (z2b (Z.of_nat i)) start inbox with Ok r => Some r | _ => None end)
    (zip (seq 0 (length windows)) windows) in
  match results with
  | [] => None
  | base :: _ => Some (classifyNATType base results)
  end.
End probe.

(** ** Strategy *)

Inductive HolePunchStrategy := StrategyDirect | StrategyExtended | StrategyRelay.
#[export] Instance HolePunchStrategy_eq_dec : EqDecision HolePunchStrategy.
Proof. solve_decision. Defined.

(** GetHolePunchStrategy *)
Definition GetHolePunchStrategy (local remote : byte) : HolePunchStrategy :=
  if bool_decide (local = NATTypeNoNAT) || bool_decide (local = NATTypeFullCone)
     || bool_decide (remote = NATTypeNoNAT) || bool_decide (remote = NATTypeFullCone) then StrategyDirect
  else if bool_decide (local = NATTypeSymmetric) && bool_decide (remote = NATTypeSymmetric) then StrategyRelay
  else if bool_decide (local = NATTypeSymmetric) || bool_decide (remote = NATTypeSymmetric) then StrategyExtended
  else StrategyDirect.

Lemma GetHolePunchStrategy_comm local remote :
  GetHolePunchStrategy local remote = GetHolePunchStrategy remote local.
Proof.
  unfold GetHolePunchStrategy. repeat case_bool_decide; done.
Qed.

Lemma relay_iff_symmetric local remote :
  GetHolePunchStrategy local remote = StrategyRelay ↔ local = NATTypeSymmetric ∧ remote = NATTypeSymmetric.
Proof.
  unfold GetHolePunchStrategy. split.
  - repeat case_bool_decide; done.
  - intros [-> ->]. reflexivity.
Qed.

(** ** The client against the server *)

(** The datagram the server answers a probe with. *)
Definition nat_reply (probeID : byte) (observed : UDPAddr) : list byte :=
  EncodeChecked TypeNATResponse
    (NATResponsePayload_Marshal (mkNATResponse probeID NATTypeUnknown (Some observed) None)).

Lemma Probe_reply `{NetResolver} id start at_ a inbox :
  v4_addr a → Probe id start ((at_, nat_reply id a) :: inbox)
  = Ok (mkProbeResult NATTypeUnknown (ua_IP (norm_addr a)) (ua_Port a) [] 0 (at_ - start)).
Proof.
  intros Ha. cbn [Probe]. unfold nat_reply. rewrite DecodeChecked_EncodeChecked. cbn [Type_ Payload].
  rewrite bool_decide_eq_true_2 by done. cbn [negb].
  rewrite NATResponse_roundtrip; [|intros ? [= <-]; done|done]. cbn [nr_ProbeID].
  by rewrite bool_decide_eq_true_2.
Qed.

Lemma norm_IP_Equal a b : v4_addr a → v4_addr b →
  IP_Equal (ua_IP (norm_addr a)) (ua_IP (norm_addr b)) = bool_decide (To4 (ua_IP a) = To4 (ua_IP b)).
Proof.
  intros [[x Hx] _] [[y Hy] _]. unfold norm_addr, IP_Equal. cbn [ua_IP]. rewrite Hx, Hy. unfold default, id.
  pose proof (To4_length _ _ Hx) as Lx. pose proof (To4_length _ _ Hy) as Ly.
  rewrite !length_app, Lx, Ly, Nat.eqb_refl. apply bool_decide_ext. split.
  - by intros ->%app_inv_head.
  - by intros [= ->].
Qed.

(** The same observed endpoint. *)
Definition same_endpoint (a b : UDPAddr) : bool :=
  bool_decide (To4 (ua_IP a) = To4 (ua_IP b)) && (ua_Port a =? ua_Port b).

(** The detection the client and the server carry out together: when the three
    probes are answered, the client reports a symmetric NAT if the observed
    endpoints differ and a full cone otherwise.  The server always answers with an
    unknown type and without an alternate address, so the other types - no NAT,
    restricted and port restricted - are never reported. *)
Theorem detected_nat_type `{NetResolver, Env} a0 a1 a2 s0 s1 s2 t0 t1 t2 :
  v4_addr a0 → v4_addr a1 → v4_addr a2 →
  (∀ id a s, handleNATProbe (NATProbePayload_Marshal id) a s
     = srv_sendChecked TypeNATResponse
         (NATResponsePayload_Marshal (mkNATResponse id NATTypeUnknown (Some a) None)) a s) ∧
  ∃ r, ProbeNATType [(s0, [(t0, nat_reply x00 a0)]); (s1, [(t1, nat_reply x01 a1)]); (s2, [(t2, nat_reply x02 a2)])] = Some r ∧
    pr_Type r = (if same_endpoint a0 a1 && same_endpoint a0 a2 then NATTypeFullCone else NATTypeSymmetric) ∧
    pr_ExternalIP r = ua_IP (norm_addr a0) ∧ pr_ExternalPort r = ua_Port a0.
Proof.
  intros H0' H1' H2'. split; [done|]. unfold ProbeNATType.
  change (zip (seq 0 (length ?w)) ?w) with [(0%nat, (s0, [(t0, nat_reply x00 a0)])); (1%nat, (s1, [(t1, nat_reply x01 a1)])); (2%nat, (s2, [(t2, nat_reply x02 a2)]))].
  cbn [omap list_omap].
  change (z2b (Z.of_nat 0)) with x00. change (z2b (Z.of_nat 1)) with x01. change (z2b (Z.of_nat 2)) with x02.
  rewrite !Probe_reply by done. eexists. split; [reflexivity|].
  unfold classifyNATType. cbn [length Nat.ltb Nat.leb drop forallb pr_ExternalIP pr_ExternalPort pr_AltIP pr_AltPort pr_Type pr_RTT].
  rewrite !norm_IP_Equal by done. rewrite (bool_decide_eq_true_2 ([] = [])) by done. cbn [negb andb].
  unfold same_endpoint.
  destruct (bool_decide (To4 (ua_IP a0) = To4 (ua_IP a1))), (bool_decide (To4 (ua_IP a0) = To4 (ua_IP a2))),
    (ua_Port a0 =? ua_Port a1), (ua_Port a0 =? ua_Port a2); done.
Qed.

Lemma detected_nat_type_witness :
  let a := mkUDPAddr [xcb; x00; x71; x05] 40001 [] in
  let b := mkUDPAddr [xcb; x00; x71; x05] 40002 [] in
  ∃ r, @ProbeNATType no_resolver [(0, [(10, nat_reply x00 a)]); (20, [(30, nat_reply x01 b)]); (40, [(50, nat_reply x02 a)])] = Some r ∧
    pr_Type r = NATTypeSymmetric.
Proof.
  cbv zeta.
  destruct (@detected_nat_type no_resolver {| now := 0; T := en; rand_bytes := None |}
    (mkUDPAddr [xcb; x00; x71; x05] 40001 []) (mkUDPAddr [xcb; x00; x71; x05] 40002 [])
    (mkUDPAddr [xcb; x00; x71; x05] 40001 []) 0 20 40 10 30 50) as (_ & r & Hr & Ht & _);
    [split; [by eexists|done]..|].
  exists r. split; [exact Hr|exact Ht].
Defined.
