(* ===== verification/ClientLimit.v ===== *)
(** * ClientLimit: the client's send limiter and reconnect delays

    src/internal/client/ratelimit.go and reconnect.go.  Callers of the limiter are
    atomic, so the compare-and-swap of the fast path succeeds. *)

From S2P Require Import Prelude Float64 Bandwidth.
From Stdlib Require Import Lqa.
#[local] Open Scope Z_scope.

(** ** Send limiter *)

Record clientSendLimiter := mkSendLimiter { sl_rate : Z; sl_burst : Z; sl_tokens : Z; sl_lastTime : Z }.

Definition newClientSendLimiter (now rate burst : Z) : clientSendLimiter := mkSendLimiter rate burst burst now.

(** [int64(x)] for a float in range: truncation. *)
Definition trunc (x : Q) : Z := Z.quot (Qnum x) (Z.pos (Qden x)).

(** What a slow call adds to the tokens. *)
Definition refilled (now : Z) (l : clientSendLimiter) : Z :=
  let elapsed := Seconds (now - sl_lastTime l) in
  let elapsed := if Qlt_bool elapsed 0 then 0%Q else elapsed in
  let elapsed := if Qlt_bool 1 elapsed then 1%Q else elapsed in
  trunc (fmul elapsed (fint (sl_rate l))).

(** clientSendLimiter.allowSlow *)
Definition allowSlow (now : Z) (l : clientSendLimiter) (size : Z) : bool * clientSendLimiter :=
  let tokens := sl_tokens l + refilled now l in
  let tokens := if sl_burst l <? tokens then sl_burst l else tokens in
  if tokens <? size then (false, mkSendLimiter (sl_rate l) (sl_burst l) tokens now)
  else (true, mkSendLimiter (sl_rate l) (sl_burst l) (tokens - size) now).

(** clientSendLimiter.allow *)
Definition limiter_allow (now : Z) (l : option clientSendLimiter) (size : Z) : bool * option clientSendLimiter :=
  match l with
  | None => (true, None)
  | Some l =>
      if size <=? sl_tokens l
      then (true, Some (mkSendLimiter (sl_rate l) (sl_burst l) (sl_tokens l - size) (sl_lastTime l)))
      else let '(ok, l) := allowSlow now l size in (ok, Some l)
  end.

(** The bytes granted to a sequence of calls [(time, size)]. *)
Fixpoint allowed (l : option clientSendLimiter) (calls : list (Z * Z)) : Z :=
  match calls with
  | [] => 0
  | (now, n) :: calls => let '(ok, l) := limiter_allow now l n in (if ok then n else 0) + allowed l calls
  end.

Lemma trunc_upper x : (0 <= x)%Q → (inject_Z (trunc x) <= x)%Q ∧ 0 ≤ trunc x.
Proof.
  destruct x as [n d]. unfold Qle, trunc, inject_Z. cbn. intros H.
  split; [|apply Z.quot_pos; lia]. rewrite Z.mul_1_r, Z.mul_comm. apply Z.mul_quot_le; lia.
Qed.

Lemma seconds_plus a b : (seconds (a + b) == seconds a + seconds b)%Q.
Proof. unfold seconds. rewrite inject_Z_plus. field. done. Qed.

Lemma seconds_le a b : a ≤ b → (seconds a <= seconds b)%Q.
Proof. intros H. unfold seconds. apply Qmult_le_compat_r; [|done]. unfold Qle, inject_Z. cbn. lia. Qed.

Lemma refilled_bound now l :
  0 ≤ sl_rate l < 2 ^ 53 → now - sl_lastTime l < 2 ^ 63 →
  0 ≤ refilled now l ∧
  (inject_Z (refilled now l) <= inject_Z (sl_rate l) * seconds (elapsed now (sl_lastTime l)) * (1 + 4 * eps))%Q.
Proof.
  intros Hr Hrange. unfold refilled. set (d := now - sl_lastTime l) in *. set (x := Seconds d).
  set (e0 := if Qlt_bool x 0 then 0%Q else x). set (e := if Qlt_bool 1 e0 then 1%Q else e0).
  destruct eps_bounds as [He He3].
  assert (0 <= e0 ∧ e0 <= seconds (elapsed now (sl_lastTime l)) * (1 + eps) * (1 + eps))%Q as [H1 H2].
  { unfold e0, elapsed. fold d. destruct (Z.le_gt_cases 0 d) as [Hd|Hd].
    - rewrite Z.max_r by done. pose proof (Seconds_nonneg d Hd) as Hn. fold x in Hn.
      pose proof (Seconds_upper d ltac:(lia)) as Hu. fold x in Hu.
      destruct (Qlt_bool x 0) eqn:E; [apply Qlt_bool_iff in E; lra|done].
    - rewrite Z.max_l by lia. assert (seconds 0 == 0)%Q as -> by done.
      pose proof (Seconds_nonpos d ltac:(lia)) as Hx. fold x in Hx.
      destruct (Qlt_bool x 0) eqn:E; [split; lra|].
      assert (0 <= x)%Q by (apply Qnot_lt_le; intros Hlt%Qlt_bool_iff; congruence). split; lra. }
  assert (0 <= e ∧ e <= e0)%Q as [H3 H4].
  { unfold e. destruct (Qlt_bool 1 e0) eqn:E; [apply Qlt_bool_iff in E; split; lra|split; lra]. }
  assert (fint (sl_rate l) == inject_Z (sl_rate l))%Q as Ef by (by apply fint_exact).
  assert (0 <= inject_Z (sl_rate l))%Q as Hr0 by (unfold Qle, inject_Z; cbn; lia).
  assert (0 <= e * fint (sl_rate l))%Q as Hm by (rewrite Ef; by apply Qmult_le_0_compat).
  pose proof (rnd_upper _ Hm) as Hu. pose proof (rnd_nonneg _ Hm) as Hn. fold (fmul e (fint (sl_rate l))) in Hu, Hn.
  destruct (trunc_upper _ Hn) as [Ht Ht0]. split; [done|].
  apply (Qle_trans _ _ _ Ht), (Qle_trans _ _ _ Hu). rewrite Ef.
  set (s := seconds _) in *. set (r := inject_Z (sl_rate l)) in *.
  assert (0 <= s)%Q as Hs0 by (apply (Qle_trans _ (seconds 0)); [done|apply seconds_le; unfold elapsed; lia]).
  pose proof (Qle_trans _ _ _ H4 H2) as H5. pose proof (Qmult_le_compat_r _ _ _ H5 Hr0) as H6.
  assert ((1 + eps) * (1 + eps) * (1 + eps) <= 1 + 4 * eps)%Q as H7 by (vm_compute; discriminate).
  pose proof (Qmult_le_compat_r _ _ _ H7 (Qmult_le_0_compat _ _ Hr0 Hs0)) as H8.
  assert (0 <= 1 + eps)%Q as H9 by lra. pose proof (Qmult_le_compat_r _ _ _ H6 H9). lra.
Qed.

Lemma seconds_nonneg d : 0 ≤ d → (0 <= seconds d)%Q.
Proof. intros H. apply (Qle_trans _ (seconds 0)); [done|by apply seconds_le]. Qed.

Lemma forward_nonneg cur calls : 0 ≤ forward cur calls.
Proof. revert cur. induction calls as [|[t n] calls IH]; intros cur; cbn [forward]; [done|]. specialize (IH t). unfold elapsed. lia. Qed.

(** One call: the bytes granted come from the tokens or from the time since the
    last slow call. *)
Lemma limiter_allow_spec now l n :
  0 ≤ sl_rate l < 2 ^ 53 → 0 ≤ sl_burst l → 0 ≤ sl_tokens l → now - sl_lastTime l < 2 ^ 63 →
  ∃ ok l', limiter_allow now (Some l) n = (ok, Some l') ∧
    sl_rate l' = sl_rate l ∧ sl_burst l' = sl_burst l ∧ 0 ≤ sl_tokens l' ∧
    let got := if ok then n else 0 in
    (sl_lastTime l' = sl_lastTime l ∧ got + sl_tokens l' = sl_tokens l ∨
     sl_lastTime l' = now ∧ got + sl_tokens l' ≤ sl_tokens l + refilled now l).
Proof.
  intros Hr Hb Ht Hrange. unfold limiter_allow. destruct (Z.leb_spec n (sl_tokens l)).
  - eexists _, _. split; [done|]. cbn. split_and!; [done|done|lia|]. left. split; [done|lia].
  - destruct (refilled_bound now l Hr Hrange) as [Hf _]. unfold allowSlow. set (r := refilled now l) in *.
    destruct (Z.ltb_spec (sl_burst l) (sl_tokens l + r));
      match goal with |- context [if ?a <? n then _ else _] => destruct (Z.ltb_spec a n) end;
      eexists _, _; (split; [done|]); cbn; (split_and!; [done|done|lia|]); right; (split; [done|lia]).
Qed.

(** Between slow calls the time that has passed is not yet counted: [gap]. *)
Lemma allowed_bound calls l cur gap :
  0 ≤ sl_rate l < 2 ^ 53 → 0 ≤ sl_burst l → 0 ≤ sl_tokens l →
  0 ≤ gap → cur - sl_lastTime l ≤ gap → gap + forward cur calls < 2 ^ 63 →
  (inject_Z (allowed (Some l) calls)
   <= inject_Z (sl_tokens l) + inject_Z (sl_rate l) * seconds (gap + forward cur calls) * (1 + 4 * eps))%Q.
Proof.
  revert l cur gap. induction calls as [|[now n] calls IH]; intros l cur gap Hr Hb Ht Hg Hgap Hf; cbn [allowed forward] in *.
  - change (inject_Z 0) with 0%Q. assert (0 <= inject_Z (sl_tokens l))%Q by (unfold Qle, inject_Z; cbn; lia).
    assert (0 <= inject_Z (sl_rate l))%Q as Hr0 by (unfold Qle, inject_Z; cbn; lia).
    pose proof (Qmult_le_0_compat _ _ Hr0 (seconds_nonneg (gap + 0) ltac:(lia))) as H1.
    destruct eps_bounds as [He _]. assert (0 <= 1 + 4 * eps)%Q as H2 by lra.
    pose proof (Qmult_le_0_compat _ _ H1 H2). lra.
  - pose proof (forward_nonneg now calls) as Hfn. unfold elapsed in Hf.
    destruct (limiter_allow_spec now l n Hr Hb Ht ltac:(lia)) as (ok & l' & -> & Er & Eb & Ht' & Hcase).
    cbv zeta in Hcase. set (got := if ok then n else 0) in *. rewrite inject_Z_plus.
    assert (0 <= inject_Z (sl_rate l))%Q as Hr0 by (unfold Qle, inject_Z; cbn; lia).
    destruct eps_bounds as [He _]. assert (0 <= 1 + 4 * eps)%Q as H2 by lra.
    destruct Hcase as [[El Hgot]|[El Hgot]].
    + specialize (IH l' now (gap + elapsed now cur)). rewrite Er, Eb, El in IH.
      specialize (IH Hr Hb Ht' ltac:(unfold elapsed; lia) ltac:(unfold elapsed; lia) ltac:(unfold elapsed; lia)).
      replace (gap + (elapsed now cur + forward now calls)) with (gap + elapsed now cur + forward now calls) by lia.
      assert (inject_Z got + inject_Z (sl_tokens l') == inject_Z (sl_tokens l))%Q by (by rewrite <- inject_Z_plus, Hgot).
      lra.
    + specialize (IH l' now 0). rewrite Er, Eb, El in IH.
      specialize (IH Hr Hb Ht' ltac:(lia) ltac:(lia) ltac:(lia)). rewrite Z.add_0_l in IH.
      destruct (refilled_bound now l Hr ltac:(lia)) as [_ Hu].
      assert (inject_Z got + inject_Z (sl_tokens l') <= inject_Z (sl_tokens l) + inject_Z (refilled now l))%Q as Hi
        by (rewrite <- !inject_Z_plus; unfold Qle, inject_Z; cbn; lia).
      assert (seconds (elapsed now (sl_lastTime l)) + seconds (forward now calls)
              <= seconds (gap + (elapsed now cur + forward now calls)))%Q as Hs
        by (rewrite <- seconds_plus; apply seconds_le; unfold elapsed; lia).
      pose proof (Qmult_le_compat_r _ _ _ (Qmult_le_compat_r _ _ _ Hs Hr0) H2) as Hm.
      lra.
Qed.

(** Send limit of a client: over any sequence of packets, at any times, the limiter
    grants at most its burst plus the rate times the time the clock moved forward
    (up to the rounding of the seconds). *)
Theorem client_send_rate calls start rate burst :
  0 ≤ rate < 2 ^ 53 → 0 ≤ burst → forward start calls < 2 ^ 63 →
  (inject_Z (allowed (Some (newClientSendLimiter start rate burst)) calls)
   <= inject_Z burst + inject_Z rate * seconds (forward start calls) * (1 + 4 * eps))%Q.
Proof.
  intros Hr Hb Hf.
  pose proof (allowed_bound calls (newClientSendLimiter start rate burst) start 0) as H. cbn [sl_rate sl_burst sl_tokens sl_lastTime newClientSendLimiter] in H.
  rewrite Z.add_0_l in H. apply H; try done. lia.
Qed.

Lemma client_send_rate_witness :
  let calls := [(0, 524288); (1, 1500); (500000000, 1500); (500000001, 4000000)] in
  allowed (Some (newClientSendLimiter 0 6553600 524288)) calls = 525788 ∧
  (inject_Z 525788 <= inject_Z 524288 + inject_Z 6553600 * seconds (forward 0%Z calls) * (1 + 4 * eps))%Q.
Proof.
  cbv zeta. split; [vm_compute; reflexivity|].
  exact (client_send_rate [(0, 524288); (1, 1500); (500000000, 1500); (500000001, 4000000)] 0 6553600 524288
    ltac:(lia) ltac:(lia) ltac:(vm_compute; reflexivity)).
Defined.

(** ** Reconnect delays *)

Record backoffState := mkBackoff { bo_attempt : Z; bo_maxRetries : Z }.

(** [rand.Int64N]: some number below its argument. *)
Class Rand := { Int64N : Z → Z; Int64N_range : ∀ n, 0 < n → 0 ≤ Int64N n < n }.

Section delays.
Context `{Rand}.

Definition jitter (maxJitter : Z) : Z := if maxJitter <=? 0 then 0 else Int64N (maxJitter * 2) - maxJitter.

Definition Millisecond : Z := 1000000.

(** backoffState.nextDelay *)
Definition nextDelay (b : backoffState) (wasConnected : bool) : Z * backoffState :=
  let attempt := bo_attempt b + 1 in
  let b' := mkBackoff attempt (bo_maxRetries b) in
  if (0 <? bo_maxRetries b) && (bo_maxRetries b <? attempt) then (-1, b')
  else if wasConnected && (attempt <=? 3) then (500 * Millisecond + jitter (100 * Millisecond), b')
  else
    let delay := Z.shiftl 1 (Z.min attempt 5) * Second in
    let delay := if 60 * Second <? delay then 60 * Second else delay in
    (delay + jitter (Z.quot delay 5), b').

Lemma jitter_range m : 0 < m → - m ≤ jitter m < m.
Proof.
  intros Hm. unfold jitter. destruct (Z.leb_spec m 0); [lia|].
  pose proof (Int64N_range (m * 2) ltac:(lia)). lia.
Qed.

(** Reconnecting stops exactly when the retries are used up; otherwise the delay is
    half a second, within 20 percent, for the first three attempts after a lost
    connection, and 2, 4, 8, 16, 32, 32, ... seconds, within 20 percent, else: the
    cap of 60 seconds is never reached. *)
Theorem nextDelay_bounds b wasConnected :
  0 ≤ bo_attempt b →
  let '(d, b') := nextDelay b wasConnected in
  bo_attempt b' = bo_attempt b + 1 ∧
  (d = -1 ↔ 0 < bo_maxRetries b < bo_attempt b + 1) ∧
  (d ≠ -1 →
     if wasConnected && (bo_attempt b <? 3) then 400 * Millisecond ≤ d < 600 * Millisecond
     else let base := 2 ^ Z.min (bo_attempt b + 1) 5 * Second in
          base - base / 5 ≤ d < base + base / 5 ∧ d < 39 * Second).
Proof.
  intros Ha. unfold nextDelay.
  assert (0 < bo_maxRetries b < bo_attempt b + 1 ↔ (0 <? bo_maxRetries b) && (bo_maxRetries b <? bo_attempt b + 1) = true) as Hiff
    by (rewrite andb_true_iff, !Z.ltb_lt; done).
  destruct ((0 <? bo_maxRetries b) && _); [cbn; split_and!; [done|by rewrite Hiff|done]|].
  assert (¬ (0 < bo_maxRetries b < bo_attempt b + 1)) as Hno by (rewrite Hiff; done). clear Hiff.
  replace (bo_attempt b + 1 <=? 3) with (bo_attempt b <? 3)
    by (apply eq_true_iff_eq; rewrite Z.ltb_lt, Z.leb_le; lia).
  destruct (wasConnected && (bo_attempt b <? 3)).
  - pose proof (jitter_range (100 * Millisecond) ltac:(done)). unfold Millisecond in *. cbn [bo_attempt].
    split_and!; [done|split; [lia|intros; done]|lia].
  - set (k := Z.min (bo_attempt b + 1) 5). assert (1 ≤ k ≤ 5) as Hk by (unfold k; lia).
    rewrite Z.shiftl_mul_pow2, Z.mul_1_l by lia. unfold Second in *.
    assert (2 ^ k = 2 ∨ 2 ^ k = 4 ∨ 2 ^ k = 8 ∨ 2 ^ k = 16 ∨ 2 ^ k = 32) as Hp.
    { assert (k = 1 ∨ k = 2 ∨ k = 3 ∨ k = 4 ∨ k = 5) as [->|[->|[->|[->| ->]]]] by lia; cbn; lia. }
    destruct (Z.ltb_spec (60 * 1000000000) (2 ^ k * 1000000000)); [lia|].
    rewrite Z.quot_div_nonneg by lia.
    pose proof (jitter_range (2 ^ k * 1000000000 / 5)) as Hj. cbn [bo_attempt]. cbv zeta.
    destruct Hp as [Ep|[Ep|[Ep|[Ep|Ep]]]]; rewrite Ep in *;
      match type of Hj with context [?a / 5] => let v := eval vm_compute in (a / 5) in change (a / 5) with v in * end;
      specialize (Hj ltac:(lia)); split_and!; try done; try split; intros; try lia; try done.
Qed.
End delays.

Definition ex_rand : Rand.
Proof. refine {| Int64N := fun _ => 0 |}. intros. lia. Defined.
Lemma nextDelay_bounds_witness :
  fst (@nextDelay ex_rand (mkBackoff 9 0) false) = 25600 * Millisecond ∧
  fst (@nextDelay ex_rand (mkBackoff 9 0) false) < 39 * Second.
Proof.
  split; [reflexivity|].
  exact (proj2 (proj2 (proj2 (@nextDelay_bounds ex_rand (mkBackoff 9 0) false ltac:(done))) ltac:(done))).
Defined.
