(* ===== verification/Tunnel.v ===== *)
(** * Tunnel: the client's state, data path and peers

    src/internal/client: tunnel.go, tunnel_types.go, route.go (routePacket), recv.go,
    recv_data.go, recv_peer.go, holepunch.go, keepalive.go, p2p_keepalive.go and
    peer.go.  Every handler runs under [mu] or reads one snapshot, and is one
    step; [peers] is both the authoritative map and the snapshot, which are the
    same map after every operation.  Goroutines that are started are recorded in
    [tasks].  The plain decoder stands for the pooled one
    (MessagesData.UnmarshalDataPooled_correct). *)

From S2P Require Import Prelude GoNet Crc32 Protocol Messages MessagesData MessagesPeer NetUtil Float64 Bandwidth SendQueue Auth Cipher I18n Client Room Server Route NatProbe ClientLimit.

(** ** State *)

(** A remote player. *)
Record Peer := mkRemote {
  rp_VirtualIP : IP; rp_PublicAddr : option UDPAddr; rp_Username : list byte; rp_NATType : byte;
  rp_DirectReach : bool; rp_lastSeen : Z; rp_lastPunchBack : Z; rp_stale : bool }.

(** The session; a nil address is the empty one. *)
Record session := mkSession {
  ss_virtualIP : IP; ss_serverIP : IP; ss_serverIPKey : option ipkey; ss_subnetMask : list byte;
  ss_cachedSubnet : option IPNet; ss_sessionToken : list byte; ss_serverVersion : Z;
  ss_username : list byte; ss_roomID : list byte; ss_roomPass : list byte }.

Record cryptoState := mkCrypto { encCipher : option Cipher; decCipher : option Cipher; p2pCipher : option Cipher }.
(** [decAvailable] is set together with [decCipher]. *)
Definition decAvailable (c : cryptoState) : bool := bool_decide (is_Some (decCipher c)).

Record sendJob := mkSendJob { sj_data : list byte; sj_addr : option UDPAddr }.

(** A goroutine that sends hole-punch packets. *)
Inductive punchTask :=
| Burst (addr : UDPAddr) (count : nat) (interval : Z)
| StartHolePunch (peerIP : IP).

Record Tunnel := mkTunnel {
  t_session : session; t_crypto : cryptoState;
  probeResult : option NATProbeResult; cachedPunchPacket : option (list byte);
  peers : gmap ipkey Peer; t_serverAddr : option UDPAddr;
  sendCh : list sendJob; ctrlCh : list sendJob; tunCh : list tunJob; rebindAckCh : option bool;
  sendLimiter : option clientSendLimiter; lastServerResponse : Z; t_sendErrors : Z; tunDropped : Z;
  cancelKicks : bool; conn_closed : bool;
  tunDev : bool; tun_out : list (list byte); tasks : list punchTask }.

Definition tunChanSize : Z := 2048.
Definition sendChanSize : Z := 8192.
Definition ctrlChanSize : Z := 256.

(** ** Setters *)

Definition set_session x t := mkTunnel x (t_crypto t) (probeResult t) (cachedPunchPacket t) (peers t) (t_serverAddr t) (sendCh t) (ctrlCh t) (tunCh t) (rebindAckCh t) (sendLimiter t) (lastServerResponse t) (t_sendErrors t) (tunDropped t) (cancelKicks t) (conn_closed t) (tunDev t) (tun_out t) (tasks t).
Definition set_crypto x t := mkTunnel (t_session t) x (probeResult t) (cachedPunchPacket t) (peers t) (t_serverAddr t) (sendCh t) (ctrlCh t) (tunCh t) (rebindAckCh t) (sendLimiter t) (lastServerResponse t) (t_sendErrors t) (tunDropped t) (cancelKicks t) (conn_closed t) (tunDev t) (tun_out t) (tasks t).
Definition set_punch x t := mkTunnel (t_session t) (t_crypto t) (probeResult t) x (peers t) (t_serverAddr t) (sendCh t) (ctrlCh t) (tunCh t) (rebindAckCh t) (sendLimiter t) (lastServerResponse t) (t_sendErrors t) (tunDropped t) (cancelKicks t) (conn_closed t) (tunDev t) (tun_out t) (tasks t).
Definition set_peers x t := mkTunnel (t_session t) (t_crypto t) (probeResult t) (cachedPunchPacket t) x (t_serverAddr t) (sendCh t) (ctrlCh t) (tunCh t) (rebindAckCh t) (sendLimiter t) (lastServerResponse t) (t_sendErrors t) (tunDropped t) (cancelKicks t) (conn_closed t) (tunDev t) (tun_out t) (tasks t).
Definition set_sendCh x t := mkTunnel (t_session t) (t_crypto t) (probeResult t) (cachedPunchPacket t) (peers t) (t_serverAddr t) x (ctrlCh t) (tunCh t) (rebindAckCh t) (sendLimiter t) (lastServerResponse t) (t_sendErrors t) (tunDropped t) (cancelKicks t) (conn_closed t) (tunDev t) (tun_out t) (tasks t).
Definition set_ctrlCh x t := mkTunnel (t_session t) (t_crypto t) (probeResult t) (cachedPunchPacket t) (peers t) (t_serverAddr t) (sendCh t) x (tunCh t) (rebindAckCh t) (sendLimiter t) (lastServerResponse t) (t_sendErrors t) (tunDropped t) (cancelKicks t) (conn_closed t) (tunDev t) (tun_out t) (tasks t).
Definition set_tunCh x t := mkTunnel (t_session t) (t_crypto t) (probeResult t) (cachedPunchPacket t) (peers t) (t_serverAddr t) (sendCh t) (ctrlCh t) x (rebindAckCh t) (sendLimiter t) (lastServerResponse t) (t_sendErrors t) (tunDropped t) (cancelKicks t) (conn_closed t) (tunDev t) (tun_out t) (tasks t).
Definition set_ack x t := mkTunnel (t_session t) (t_crypto t) (probeResult t) (cachedPunchPacket t) (peers t) (t_serverAddr t) (sendCh t) (ctrlCh t) (tunCh t) x (sendLimiter t) (lastServerResponse t) (t_sendErrors t) (tunDropped t) (cancelKicks t) (conn_closed t) (tunDev t) (tun_out t) (tasks t).
Definition set_limiter x t := mkTunnel (t_session t) (t_crypto t) (probeResult t) (cachedPunchPacket t) (peers t) (t_serverAddr t) (sendCh t) (ctrlCh t) (tunCh t) (rebindAckCh t) x (lastServerResponse t) (t_sendErrors t) (tunDropped t) (cancelKicks t) (conn_closed t) (tunDev t) (tun_out t) (tasks t).
Definition set_response x t := mkTunnel (t_session t) (t_crypto t) (probeResult t) (cachedPunchPacket t) (peers t) (t_serverAddr t) (sendCh t) (ctrlCh t) (tunCh t) (rebindAckCh t) (sendLimiter t) x (t_sendErrors t) (tunDropped t) (cancelKicks t) (conn_closed t) (tunDev t) (tun_out t) (tasks t).
Definition add_error t := mkTunnel (t_session t) (t_crypto t) (probeResult t) (cachedPunchPacket t) (peers t) (t_serverAddr t) (sendCh t) (ctrlCh t) (tunCh t) (rebindAckCh t) (sendLimiter t) (lastServerResponse t) (t_sendErrors t + 1) (tunDropped t) (cancelKicks t) (conn_closed t) (tunDev t) (tun_out t) (tasks t).
Definition add_tunDropped t := mkTunnel (t_session t) (t_crypto t) (probeResult t) (cachedPunchPacket t) (peers t) (t_serverAddr t) (sendCh t) (ctrlCh t) (tunCh t) (rebindAckCh t) (sendLimiter t) (lastServerResponse t) (t_sendErrors t) (tunDropped t + 1) (cancelKicks t) (conn_closed t) (tunDev t) (tun_out t) (tasks t).
Definition set_kicked fatal t := mkTunnel (t_session t) (t_crypto t) (probeResult t) (cachedPunchPacket t) (peers t) (t_serverAddr t) (sendCh t) (ctrlCh t) (tunCh t) (rebindAckCh t) (sendLimiter t) (lastServerResponse t) (t_sendErrors t) (tunDropped t) (cancelKicks t || fatal) true (tunDev t) (tun_out t) (tasks t).
Definition write_tun p t := mkTunnel (t_session t) (t_crypto t) (probeResult t) (cachedPunchPacket t) (peers t) (t_serverAddr t) (sendCh t) (ctrlCh t) (tunCh t) (rebindAckCh t) (sendLimiter t) (lastServerResponse t) (t_sendErrors t) (tunDropped t) (cancelKicks t) (conn_closed t) (tunDev t) (tun_out t ++ [p]) (tasks t).
Definition add_task x t := mkTunnel (t_session t) (t_crypto t) (probeResult t) (cachedPunchPacket t) (peers t) (t_serverAddr t) (sendCh t) (ctrlCh t) (tunCh t) (rebindAckCh t) (sendLimiter t) (lastServerResponse t) (t_sendErrors t) (tunDropped t) (cancelKicks t) (conn_closed t) (tunDev t) (tun_out t) (tasks t ++ [x]).

Definition set_p2p c t := set_crypto (mkCrypto (encCipher (t_crypto t)) (decCipher (t_crypto t)) c) t.

(** ** Peers *)

Definition set_DirectReach b p := mkRemote (rp_VirtualIP p) (rp_PublicAddr p) (rp_Username p) (rp_NATType p) b (rp_lastSeen p) (rp_lastPunchBack p) (rp_stale p).
Definition set_lastPunchBack z p := mkRemote (rp_VirtualIP p) (rp_PublicAddr p) (rp_Username p) (rp_NATType p) (rp_DirectReach p) (rp_lastSeen p) z (rp_stale p).
Definition set_stale b p := mkRemote (rp_VirtualIP p) (rp_PublicAddr p) (rp_Username p) (rp_NATType p) (rp_DirectReach p) (rp_lastSeen p) (rp_lastPunchBack p) b.

(** The peer objects are shared with the map, so an update is one of the map. *)
Definition upd_peer (k : ipkey) (f : Peer → Peer) (t : Tunnel) : Tunnel := set_peers (alter f k (peers t)) t.

(** [from.IP.Equal(a.IP) && from.Port == a.Port]. *)
Definition same_addr (from a : UDPAddr) : bool := IP_Equal (ua_IP from) (ua_IP a) && (ua_Port from =? ua_Port a).

(** ** Sending *)

(** The packet buffers PktBufGet hands out: at least as long as asked for and as
    the smallest size class, with any contents (NetUtil.PktBuf_sound). *)
Class PktBufs := {
  pktbuf : nat → list byte;
  pktbuf_length : ∀ n, (Nat.max n 512 ≤ length (pktbuf n))%nat
}.

Section tunnel.
Context `{Env} `{MapRange} `{NetResolver} `{AEAD} `{PktBufs}.

(** Tunnel.sendUDP *)
Definition sendUDP (data : list byte) (addr : option UDPAddr) (t : Tunnel) : Tunnel :=
  let '(ok, l) := limiter_allow now (sendLimiter t) (Z.of_nat (length data)) in
  let t := set_limiter l t in
  if negb ok then add_error t
  else if Z.of_nat (length (sendCh t)) <? sendChanSize then set_sendCh (sendCh t ++ [mkSendJob data addr]) t
  else add_error t.

(** Tunnel.sendCtrl *)
Definition sendCtrl (data : list byte) (addr : option UDPAddr) (t : Tunnel) : Tunnel :=
  if Z.of_nat (length (ctrlCh t)) <? ctrlChanSize then set_ctrlCh (ctrlCh t ++ [mkSendJob data addr]) t
  else add_error t.

(** buildPacket with a buffer of the pool; a failed encryption sends the nil
    slice. *)
Definition packet_size (data : list byte) (cipher : option Cipher) (token : list byte) : nat :=
  match cipher with
  | Some _ => HeaderLen + DataHeaderLen + token_len token + Overhead + length data
  | None => HeaderLen + DataHeaderLen + token_len token + length data + ChecksumLen
  end.
Definition send_packet (data srcIP dstIP : list byte) (token : list byte) (addr : option UDPAddr) (t : Tunnel) : Tunnel :=
  let cipher := p2pCipher (t_crypto t) in
  let '(p, c) := buildPacket (pktbuf (packet_size data cipher token)) srcIP dstIP data cipher x00 token in
  sendUDP (default [] p) addr (set_p2p c t).

(** The token a client puts in its packets. *)
Definition packet_token (t : Tunnel) : list byte :=
  if MinTokenVersion <=? ss_serverVersion (t_session t) then ss_sessionToken (t_session t) else zeros DataTokenLen.

(** Tunnel.sendToServer *)
Definition sendToServer (data srcIP dstIP token : list byte) (t : Tunnel) : Tunnel :=
  send_packet data srcIP dstIP token (t_serverAddr t) t.

(** The address a peer is reached at directly. *)
Definition direct_addr (t : Tunnel) (k : ipkey) : option UDPAddr :=
  peer ← peers t !! k;
  a ← rp_PublicAddr peer;
  if rp_DirectReach peer then Some a else None.

(** Tunnel.routePacket *)
Definition routePacket (pkt srcIP dstIP : list byte) (t : Tunnel) : go perr Tunnel :=
  let dstKey := IPKey dstIP in
  let serverIPKey := default (zeros 16) (ss_serverIPKey (t_session t)) in
  let token := packet_token t in
  relay ← (if bool_decide (dstKey = serverIPKey) then mret true
           else match ss_cachedSubnet (t_session t) with
                | Some n => isRelayTarget dstIP (Some n)
                | None => mret false
                end);
  if (relay : bool) then mret (sendToServer pkt srcIP dstIP token t)
  else match direct_addr t dstKey with
       | Some a => mret (send_packet pkt srcIP dstIP token (Some a) t)
       | None => mret (sendToServer pkt srcIP dstIP token t)
       end.

(** One packet of receiveFromTUN, in a batch or alone. *)
Definition offer_tun (job : option tunJob) (t : Tunnel) : Tunnel :=
  match job with
  | None => t
  | Some job =>
      if Z.of_nat (length (tunCh t)) <? tunChanSize then set_tunCh (tunCh t ++ [job]) t
      else add_tunDropped t
  end.

(** One job of tunWorker. *)
Definition tunWorker (t : Tunnel) : go perr Tunnel :=
  match tunCh t with
  | [] => Ok t
  | job :: l => routePacket (tj_data job) (tj_srcIP job) (tj_dstIP job) (set_tunCh l t)
  end.

(** *** The send loop *)

Definition batchSize : nat := 64.

(** Tunnel.drainBatch: the batch, control packets first, and what is left in the
    channels. *)
Definition drainBatch (batch : list sendJob) (t : Tunnel) : list sendJob * Tunnel :=
  let room := (batchSize - length batch)%nat in
  let batch := batch ++ take room (ctrlCh t) in
  let t := set_ctrlCh (drop room (ctrlCh t)) t in
  let room := (batchSize - length batch)%nat in
  (batch ++ take room (sendCh t), set_sendCh (drop room (sendCh t)) t).
End tunnel.

(** One iteration of sendLoop: the packets written, in order.  The select takes
    either channel when both have packets. *)
Inductive sendLoop_iter : Tunnel → list sendJob → Tunnel → Prop :=
| iter_ctrl t job l out t' :
    ctrlCh t = job :: l → drainBatch [job] (set_ctrlCh l t) = (out, t') → sendLoop_iter t out t'
| iter_send t job l out t' :
    sendCh t = job :: l → drainBatch [job] (set_sendCh l t) = (out, t') → sendLoop_iter t out t'.

(** ** Receiving *)

Section receive.
Context `{Env} `{MapRange} `{NetResolver} `{AEAD} `{PktBufs}.

(** Tunnel.decryptWriteAndRelease with the peer-to-peer cipher: an encrypted
    payload that does not decrypt is dropped; anything else is written. *)
Definition decrypt_payload (data : list byte) (t : Tunnel) : option (list byte) * Tunnel :=
  match p2pCipher (t_crypto t) with
  | Some c =>
      if IsEncrypted data then
        let '(r, c) := DecryptInto c [] data in
        (match r with Ok pt => Some pt | _ => None end, set_p2p (Some c) t)
      else (Some data, t)
  | None => (Some data, t)
  end.
Definition decryptWriteAndRelease (dp : DataPayload) (t : Tunnel) : go perr Tunnel :=
  if negb (tunDev t) then Ok t else
  match decrypt_payload (dp_Data dp) t with
  | (None, t) => Ok t
  | (Some outData, t) =>
      '(rewritten, _) ← rewriteBroadcast (pktbuf (length outData)) outData (ss_cachedSubnet (t_session t));
      mret (write_tun rewritten t)
  end.

(** The token check of direct packets in rooms without encryption. *)
Definition direct_token_ok (payload : list byte) (t : Tunnel) : go perr bool :=
  if negb (bool_decide (is_Some (p2pCipher (t_crypto t)))) && token_set (ss_sessionToken (t_session t)) then
    if (length payload <=? 8)%nat then mret false else
    '(flags, tokenOff, _) ← ParseDataHeader payload;
    if negb (has_token flags) || (length payload <? tokenOff + DataTokenLen)%nat then mret false else
    pktToken ← slice payload tokenOff (tokenOff + DataTokenLen);
    mret (bool_decide (pktToken = ss_sessionToken (t_session t)))
  else mret true.

(** Tunnel.handleDirectData for a data packet. *)
Definition handleDirectPacket (from : UDPAddr) (payload : list byte) (t : Tunnel) : go perr Tunnel :=
  match UnmarshalData payload with
  | Ok dp =>
      if (length (dp_Data dp) =? 0)%nat then Ok t else
      match peers t !! IPKey (dp_SrcIP dp) with
      | None => Ok t
      | Some peer =>
          match rp_PublicAddr peer with
          | None => Ok t
          | Some peerAddr =>
              if negb (same_addr from peerAddr) then Ok t else
              ok ← direct_token_ok payload t;
              if negb ok then mret t else
              decryptWriteAndRelease dp (upd_peer (IPKey (dp_SrcIP dp)) (set_DirectReach true) t)
          end
      end
  | Err _ => Ok t
  | Panic => Panic
  end.

(** *** Hole punching *)

Definition holePunchBurstPerPhase : nat := 5.
Definition holePunchBackoff : Z := 5 * Second.
Definition holePunchIntervals : list Z := [100 * Millisecond; 250 * Millisecond; 500 * Millisecond].

(** Peer.tryRateLimitHolePunch *)
Definition tryRateLimitHolePunch (p : Peer) : bool :=
  negb (negb (rp_lastPunchBack p =? 0) && (now - rp_lastPunchBack p <? holePunchBackoff)).

(** Tunnel.handleDirectHolePunch *)
Definition handleDirectHolePunch (from : UDPAddr) (payload : list byte) (t : Tunnel) : Tunnel :=
  if (length payload <? 4)%nat then t else
  let k := IPKey (take 4 payload) in
  match peers t !! k with
  | None => t
  | Some peer =>
      match rp_PublicAddr peer with
      | None => t
      | Some peerAddr =>
          if negb (same_addr from peerAddr) then t
          else if negb (tryRateLimitHolePunch peer) then t
          else
            let t := upd_peer k (fun p => set_DirectReach true (set_lastPunchBack now p)) t in
            add_task (Burst peerAddr holePunchBurstPerPhase (50 * Millisecond)) t
      end
  end.

(** Tunnel.handleHolePunchReceived *)
Definition handleHolePunchReceived (payload : list byte) (t : Tunnel) : Tunnel :=
  if (length payload <? 4)%nat then t else
  let k := IPKey (take 4 payload) in
  match peers t !! k with
  | None => t
  | Some peer =>
      match rp_PublicAddr peer with
      | None => t
      | Some peerAddr =>
          if negb (tryRateLimitHolePunch peer) then t
          else
            let t := upd_peer k (set_lastPunchBack now) t in
            add_task (Burst peerAddr holePunchBurstPerPhase (50 * Millisecond)) t
      end
  end.

(** Tunnel.sendHolePunchRelay *)
Definition sendHolePunchRelay (peerIP : IP) (t : Tunnel) : Tunnel :=
  match To4 peerIP with
  | None => t
  | Some ip4 => sendCtrl (EncodeChecked TypeHolePunch ip4) (t_serverAddr t) t
  end.

(** Starting to punch a peer: a goroutine and a relayed signal. *)
Definition launch_punch (peerIP : IP) (t : Tunnel) : Tunnel :=
  sendHolePunchRelay peerIP (add_task (StartHolePunch peerIP) t).

Definition hasDirectPeerTraffic (peerIP : IP) (t : Tunnel) : bool :=
  match peers t !! IPKey peerIP with Some p => rp_DirectReach p | None => false end.

(** The strategy startHolePunch chooses. *)
Definition punch_strategy (local : option NATProbeResult) (peerNATType : byte) : HolePunchStrategy :=
  match local with
  | None => StrategyDirect
  | Some r =>
      if negb (bool_decide (peerNATType = x00)) then GetHolePunchStrategy (pr_Type r) peerNATType
      else if bool_decide (pr_Type r = NATTypeSymmetric) then StrategyExtended
      else StrategyDirect
  end.

(** Tunnel.startHolePunch after the NAT probe: the bursts it sends.  [reached i]
    tells whether the peer was reached by the end of phase [i]. *)
Fixpoint punch_phases (reached : nat → bool) (addr : UDPAddr) (phase : nat) (intervals : list Z) : list punchTask :=
  match intervals with
  | [] => []
  | i :: intervals =>
      Burst addr holePunchBurstPerPhase i ::
      (if reached phase then [] else punch_phases reached addr (S phase) intervals)
  end.
Definition startHolePunch (reached : nat → bool) (peerIP : IP) (t : Tunnel) : list punchTask :=
  match peers t !! IPKey peerIP with
  | None => []
  | Some peer =>
      match rp_PublicAddr peer with
      | None => []
      | Some addr =>
          if bool_decide (punch_strategy (probeResult t) (rp_NATType peer) = StrategyRelay) then []
          else punch_phases reached addr 0 holePunchIntervals
      end
  end.

(** Tunnel.retryFailedHolePunches *)
Definition retryFailedHolePunches (t : Tunnel) : Tunnel :=
  let retry := List.filter (fun p => bool_decide (is_Some (rp_PublicAddr p)) && negb (rp_DirectReach p))
                 (map snd (go_range (peers t))) in
  foldl (fun t p => launch_punch (rp_VirtualIP p) t) t retry.

(** Tunnel.sendP2PKeepalives *)
Definition sendP2PKeepalives (t : Tunnel) : Tunnel :=
  let addrs := omap (fun '(_, p) => if rp_DirectReach p then rp_PublicAddr p else None) (go_range (peers t)) in
  match cachedPunchPacket t with
  | None => t
  | Some packet => foldl (fun t a => sendCtrl packet (Some a) t) t addrs
  end.

(** *** Peers *)

(** The 16-byte form of a peer's address. *)
Definition to16_addr (a : UDPAddr) : UDPAddr :=
  match To16 (ua_IP a) with Some ip => mkUDPAddr ip (ua_Port a) [] | None => a end.

Record PeerUpdate := mkUpdate { pu_peers : gmap ipkey Peer; pu_new : list IP; pu_changed : list IP }.

(** One entry of the list. *)
Definition peer_info_entry (own : IP) (u : PeerUpdate) (entry : PeerInfoEntry) : PeerUpdate :=
  let vip := pe_VirtualIP entry in
  if IP_Equal vip own then u else
  let key := IPKey vip in
  let pubAddr := to16_addr <$> pe_PublicAddr entry in
  match pu_peers u !! key with
  | Some ex =>
      let addrChanged := match rp_PublicAddr ex, pubAddr with
                         | Some a, Some b => negb (same_addr a b)
                         | _, _ => false end in
      let ex := mkRemote (rp_VirtualIP ex) pubAddr (pe_Username entry) (pe_NATType entry)
                  (rp_DirectReach ex && negb addrChanged) now (rp_lastPunchBack ex) false in
      mkUpdate (<[key := ex]> (pu_peers u)) (pu_new u) (if addrChanged then pu_changed u ++ [vip] else pu_changed u)
  | None =>
      let p := mkRemote vip pubAddr (pe_Username entry) (pe_NATType entry) false now 0 false in
      mkUpdate (<[key := p]> (pu_peers u)) (pu_new u ++ [vip]) (pu_changed u)
  end.

(** Tunnel.handlePeerInfo *)
Definition handlePeerInfo (payload : list byte) (t : Tunnel) : Tunnel :=
  match UnmarshalPeerInfo payload with
  | Ok entries =>
      let u := foldl (peer_info_entry (ss_virtualIP (t_session t)))
                 (mkUpdate (set_stale true <$> peers t) [] []) entries in
      let t := set_peers (filter (fun kp => rp_stale kp.2 = false) (pu_peers u)) t in
      foldl (fun t ip => launch_punch ip t) t (pu_new u ++ pu_changed u)
  | _ => t
  end.

Definition stalePeerGracePeriod : Z := 90 * Second.

(** Tunnel.cleanStalePeers *)
Definition peer_expired (p : Peer) : bool :=
  negb (rp_lastSeen p =? 0) && (stalePeerGracePeriod <? now - rp_lastSeen p).
Definition cleanStalePeers (t : Tunnel) : Tunnel :=
  set_peers (filter (fun kp => peer_expired kp.2 = false) (peers t)) t.

(** *** Dispatch *)

(** Tunnel.handleDataFromServer *)
Definition handleDataFromServer (payload : list byte) (t : Tunnel) : go perr Tunnel :=
  match UnmarshalData payload with
  | Ok dp =>
      if (length (dp_Data dp) =? 0)%nat then Ok t
      else if negb (tunDev t) then Ok t
      else decryptWriteAndRelease dp t
  | Err _ => Ok t
  | Panic => Panic
  end.

Definition markServerResponse (t : Tunnel) : Tunnel := set_response now t.

(** Tunnel.handleServerData *)
Definition handleServerData (msg : Message) (t : Tunnel) : go perr Tunnel :=
  let t := markServerResponse t in
  let payload := Payload msg in
  let has typ := bool_decide (Type_ msg = typ) in
  if has TypePeerInfo then Ok (handlePeerInfo payload t)
  else if has TypeData then handleDataFromServer payload t
  else if has TypePing then Ok (sendCtrl (EncodeChecked TypePong payload) (t_serverAddr t) t)
  else if has TypeHolePunch then Ok (handleHolePunchReceived payload t)
  else if has TypeRebindAck then
    match UnmarshalRebindAck payload with
    | Ok ack => Ok (match rebindAckCh t with None => set_ack (Some ack) t | Some _ => t end)
    | Err _ => Ok t
    | Panic => Panic
    end
  else if has TypeKick then
    match UnmarshalKick payload with
    | Ok kick => Ok (set_kicked (IsFatal (NewDisconnectError kick)) t)
    | Err _ => Ok (set_kicked false t)
    | Panic => Panic
    end
  else Ok t.

(** Tunnel.handleDirectData *)
Definition handleDirectData (from : UDPAddr) (msg : Message) (t : Tunnel) : go perr Tunnel :=
  if bool_decide (Type_ msg = TypeHolePunch) then Ok (handleDirectHolePunch from (Payload msg) t)
  else if negb (bool_decide (Type_ msg = TypeData)) then Ok t
  else handleDirectPacket from (Payload msg) t.

(** [ip.IsLoopback()]. *)
Definition IsLoopback (ip : IP) : bool :=
  match To4 ip with
  | Some ip4 => bool_decide (nth 0 ip4 x00 = x7f)
  | None => bool_decide (ip = zeros 15 ++ [x01])
  end.

(** Whether receiveFromServer takes a packet as the server's. *)
Definition from_server (from serverAddr : UDPAddr) (typ : byte) : bool :=
  same_addr from serverAddr
  || (bool_decide (typ = TypePeerInfo) || bool_decide (typ = TypePing)
      || bool_decide (typ = TypeRebindAck) || bool_decide (typ = TypeKick))
  || ((ua_Port from =? ua_Port serverAddr) && IsLoopback (ua_IP from)).

(** One datagram of receiveFromServer. *)
Definition receive_datagram (data : list byte) (from serverAddr : UDPAddr) (t : Tunnel) : go perr Tunnel :=
  match (if decAvailable (t_crypto t) then Decode data else DecodeChecked data) with
  | Ok msg =>
      if from_server from serverAddr (Type_ msg) then handleServerData msg t
      else handleDirectData from msg t
  | Err _ => Ok (add_error t)
  | Panic => Panic
  end.
End receive.
