(* ===== verification/TunnelReg.v ===== *)
(** * TunnelReg: registration, keepalive and rebind of the client

    src/internal/client: register.go, rebind.go, keepalive.go, and the TUN and status parts
    of tunnel.go.  The registration reads one event after another: a datagram, a
    read timeout, another read error, or the cancellation of the context. *)

From S2P Require Import Prelude GoNet Crc32 Protocol Messages MessagesData MessagesPeer NetUtil Float64 Bandwidth SendQueue Auth Cipher I18n Client Room Server Route NatProbe ClientLimit Tunnel.

Inductive reg_err :=
| RegCancelled | RegNoAnswer | RegRead | RegDecode | RegTooManyAuth | RegRejected (reason : list byte)
| RegParseIP | RegIncompatible | RegBadIP | RegBadServerIP | RegDeriveKey | RegCipher
| RegNeedPassword | RegParseAuth.

Inductive RegEvent := RgData (data : list byte) | RgTimeout | RgError | RgCancel.

(** The tunnel and the packets written on the connection. *)
Record RegState := mkReg { rg_tunnel : Tunnel; rg_out : list (list byte) }.

Section register.
Context `{NetResolver}.

(** The random bytes of the three ciphers. *)
Context (rand : nat → option (list byte)).

Definition register_packet (t : Tunnel) : list byte :=
  let s := t_session t in
  EncodeChecked TypeRegister (RegisterPayload_Marshal (mkRegister (ss_roomID s) (ss_username s) AppVersion)).

(** The three ciphers of a room with a password; none without. *)
Definition init_ciphers (s : session) : reg_err + cryptoState :=
  match ss_roomPass s with
  | [] => inr (mkCrypto None None None)
  | pass =>
      match DeriveKey pass (ss_roomID s) with
      | None => inl RegDeriveKey
      | Some key =>
          match NewCipher key DirClientToServer (rand 0%nat), NewCipher key DirServerToClient (rand 1%nat),
                NewCipher key DirClientToClient (rand 2%nat) with
          | Ok e, Ok d, Ok p => inr (mkCrypto (Some e) (Some d) (Some p))
          | _, _, _ => inl RegCipher
          end
      end
  end.

(** Tunnel.handleAssignIP *)
Definition handleAssignIP (payload : list byte) (t : Tunnel) : reg_err + Tunnel :=
  match UnmarshalAssignIP payload with
  | Ok assign =>
      if negb (IsCompatible AppVersion (ap_Version assign)) then inl RegIncompatible else
      let vip := ap_VirtualIP assign in
      let mask := ap_SubnetMask assign in
      let subnet := mkIPNet (and_mask vip mask) mask in
      if negb (bool_decide (is_Some (To4 vip))) || negb (Contains subnet vip) then inl RegBadIP
      else if negb (bool_decide (is_Some (To4 (ap_ServerIP assign)))) || negb (Contains subnet (ap_ServerIP assign))
      then inl RegBadServerIP
      else
        let s := t_session t in
        match init_ciphers s with
        | inl e => inl e
        | inr crypto =>
            let punch := EncodeChecked TypeHolePunch (default [] (To4 vip)) in
            let s := mkSession vip (ap_ServerIP assign) (Some (IPKey (ap_ServerIP assign))) mask (Some subnet)
                       (ap_SessionToken assign) (ap_Version assign) (ss_username s) (ss_roomID s) (ss_roomPass s) in
            inr (set_peers ∅ (set_crypto crypto (set_punch (Some punch) (set_session s t))))
        end
  | _ => inl RegParseIP
  end.

(** Tunnel.handleAuthChallenge: the packet that answers a challenge. *)
Definition handleAuthChallenge (payload : list byte) (s : session) : reg_err + list byte :=
  match ss_roomPass s with
  | [] => inl RegNeedPassword
  | pass =>
      match UnmarshalAuthChallenge payload with
      | Ok acp =>
          match DeriveKey pass (ss_roomID s) with
          | None => inl RegDeriveKey
          | Some key =>
              let clientAddr := match ClientAddr acp with [] => None | a => ResolveUDPAddr a end in
              let hmacVal := ComputeHMAC (Some key) (Challenge acp) (ss_roomID s) (ss_username s) clientAddr in
              inr (EncodeChecked TypeAuthResponse
                     (AuthResponsePayload_Marshal (mkAuthResponse (ss_roomID s) (ss_username s) (default [] hmacVal))))
          end
      | _ => inl RegParseAuth
      end
  end.

Definition maxAuthRounds : Z := 3.
Definition maxRetries : Z := 3.

Inductive reg_step := RegGo (r : RegState) (authRounds : Z) | RegStop (result : reg_err + RegState).

(** Tunnel.handleRegResponse *)
Definition handleRegResponse (msg : Message) (authRounds : Z) (r : RegState) : reg_step :=
  if bool_decide (Type_ msg = TypeAssignIP) then
    RegStop (match handleAssignIP (Payload msg) (rg_tunnel r) with
             | inl e => inl e | inr t => inr (mkReg t (rg_out r)) end)
  else if bool_decide (Type_ msg = TypeAuthChallenge) then
    let authRounds := authRounds + 1 in
    if maxAuthRounds <? authRounds then RegStop (inl RegTooManyAuth) else
    match handleAuthChallenge (Payload msg) (t_session (rg_tunnel r)) with
    | inl e => RegStop (inl e)
    | inr packet => RegGo (mkReg (rg_tunnel r) (rg_out r ++ [packet])) authRounds
    end
  else if bool_decide (Type_ msg = TypeKick) then
    RegStop (inl (RegRejected (match UnmarshalKick (Payload msg) with Ok k => kick_Reason k | _ => [] end)))
  else RegGo r authRounds.

(** The loop of Tunnel.register; [None] while it waits for more events. *)
Fixpoint register_loop (packet : list byte) (retries authRounds : Z) (r : RegState) (evs : list RegEvent)
    : option (reg_err + RegState) :=
  match evs with
  | [] => None
  | RgCancel :: _ => Some (inl RegCancelled)
  | RgError :: _ => Some (inl RegRead)
  | RgTimeout :: evs =>
      let retries := retries + 1 in
      if maxRetries <? retries then Some (inl RegNoAnswer)
      else register_loop packet retries authRounds (mkReg (rg_tunnel r) (rg_out r ++ [packet])) evs
  | RgData data :: evs =>
      match DecodeChecked data with
      | Ok msg =>
          match handleRegResponse msg authRounds r with
          | RegStop result => Some result
          | RegGo r authRounds => register_loop packet 0 authRounds r evs
          end
      | _ => Some (inl RegDecode)
      end
  end.

(** Tunnel.register *)
Definition register (t : Tunnel) (evs : list RegEvent) : option (reg_err + RegState) :=
  let packet := register_packet t in
  register_loop packet 0 0 (mkReg t [packet]) evs.

(** Tunnel.registerTCP: undecodable packets are skipped, and a timeout sends
    nothing again. *)
Fixpoint registerTCP_loop (retries authRounds : Z) (r : RegState) (evs : list RegEvent) : option (reg_err + RegState) :=
  match evs with
  | [] => None
  | RgCancel :: _ => Some (inl RegCancelled)
  | RgError :: _ => Some (inl RegRead)
  | RgTimeout :: evs =>
      let retries := retries + 1 in
      if maxRetries <? retries then Some (inl RegNoAnswer) else registerTCP_loop retries authRounds r evs
  | RgData data :: evs =>
      match DecodeChecked data with
      | Ok msg =>
          match handleRegResponse msg authRounds r with
          | RegStop result => Some result
          | RegGo r authRounds => registerTCP_loop 0 authRounds r evs
          end
      | _ => registerTCP_loop 0 authRounds r evs
      end
  end.
Definition registerTCP (t : Tunnel) (evs : list RegEvent) : option (reg_err + RegState) :=
  registerTCP_loop 0 0 (mkReg t [register_packet t]) evs.

(** Tunnel.registerWithFallback; [tcp] are the events of the TCP connection, if
    it could be dialled. *)
Definition registerWithFallback (t : Tunnel) (udp : list RegEvent) (tcp : option (list RegEvent))
    : option (reg_err + RegState) :=
  match register t udp with
  | Some (inl e) =>
      match tcp with
      | None => Some (inl e)
      | Some evs => registerTCP t evs
      end
  | r => r
  end.
End register.

(** ** Keepalive and rebind *)

Section keepalive.
Context `{Env} `{MapRange}.

Definition serverTimeout : Z := 30 * Second.

Definition keepalive_packet (t : Tunnel) : list byte :=
  EncodeChecked TypeKeepAlive [match probeResult t with Some r => pr_Type r | None => x00 end].

(** The test that makes keepaliveLoop give up on the server. *)
Definition server_silent (t : Tunnel) : bool :=
  negb (lastServerResponse t =? 0) && (serverTimeout <? now - lastServerResponse t).

(** The request of tryRebind; [None] without an address or a key. *)
Definition rebind_packet (s : session) : option (list byte) :=
  match ss_virtualIP s with
  | [] => None
  | vip =>
      hmac ← match ss_roomPass s with
             | [] => Some []
             | pass =>
                 key ← DeriveKey pass (ss_roomID s);
                 Some (default [] (ComputeHMAC (Some key) [] (ss_roomID s) (ss_username s) (Some (mkUDPAddr vip 0 []))))
             end;
      Some (EncodeChecked TypeRebind (default [] (RebindPayload_Marshal (mkRebind vip hmac))))
  end.

(** Tunnel.tryRebind; [ack] is what arrives before the timeout. *)
Definition tryRebind (ack : option bool) (t : Tunnel) : bool * Tunnel :=
  match rebind_packet (t_session t) with
  | None => (false, t)
  | Some packet =>
      let t := sendCtrl packet (t_serverAddr t) t in
      let t := set_ack None t in
      match ack with
      | Some true => (true, markServerResponse t)
      | _ => (false, t)
      end
  end.

(** One tick of keepaliveLoop: whether the connection is given up. *)
Definition client_keepaliveTick (ack : option bool) (t : Tunnel) : bool * Tunnel :=
  let t := sendCtrl (keepalive_packet t) (t_serverAddr t) t in
  if server_silent t then let '(ok, t) := tryRebind ack t in (negb ok, t)
  else (false, t).

(** ** The TUN device and the status *)

Inductive TunAction := TunReuse | TunCreate.

(** Tunnel.ensureTUN: what is done about the device, given the address it was
    created with. *)
Definition ensureTUN (lastIP : IP) (t : Tunnel) : TunAction :=
  let ipChanged := negb (bool_decide (lastIP = [])) && negb (IP_Equal (ss_virtualIP (t_session t)) lastIP) in
  if tunDev t && negb ipChanged then TunReuse else TunCreate.

(** AvgRTT and LossRate are never set. *)
Record TunnelStatus := mkStatus {
  st_Connected : bool; st_VirtualIP : IP; st_SubnetMask : list byte; st_ServerIP : IP; st_PeerCount : nat;
  st_ServerVersion : Z; st_P2PPeers : nat; st_RelayPeers : nat;
  st_NATType : byte; st_ExternalIP : IP; st_ExternalPort : Z }.

(** Tunnel.Status *)
Definition Status (t : Tunnel) : TunnelStatus :=
  let s := t_session t in
  let connected := tunDev t && negb (bool_decide (ss_virtualIP s = [])) in
  let '(natType, externalIP, externalPort) :=
    match probeResult t with
    | Some r => (pr_Type r, pr_ExternalIP r, pr_ExternalPort r)
    | None => (x00, [], 0)
    end in
  let st p2p relay := mkStatus connected (ss_virtualIP s) (ss_subnetMask s) (ss_serverIP s) (size (peers t))
                        (u16 (ss_serverVersion s)) p2p relay natType externalIP externalPort in
  if negb connected || (size (peers t) =? 0)%nat then st 0%nat 0%nat
  else
    let '(p2p, relay) := foldl (fun '(p2p, relay) p =>
      if rp_DirectReach p then (S p2p, relay) else (p2p, S relay)) (0%nat, 0%nat) (map snd (go_range (peers t))) in
    st p2p relay.
End keepalive.

(** ** Termination *)

Section terminates.
Context `{NetResolver} (rand : nat → option (list byte)).

(** A prefix of the events ends the loop, or leaves it in another state. *)
Lemma register_loop_app packet a b retries rounds r :
  0 ≤ retries →
  (∃ x, register_loop rand packet retries rounds r (a ++ b) = Some x) ∨
  ∃ retries' rounds' r', 0 ≤ retries' ∧
    register_loop rand packet retries rounds r (a ++ b) = register_loop rand packet retries' rounds' r' b.
Proof.
  revert retries rounds r. induction a as [|ev a IH]; intros retries rounds r Hr; [by right; exists retries, rounds, r|].
  cbn [app register_loop]. destruct ev as [data| | |]; [|destruct (_ <? _)|by (left; eexists)|by (left; eexists)].
  - destruct (DecodeChecked data) as [msg|e|]; [|by (left; eexists)|by (left; eexists)].
    destruct (handleRegResponse rand msg rounds r); [|by (left; eexists)]. by apply IH.
  - by left; eexists.
  - apply IH. lia.
Qed.

(** Reading a decodable challenge. *)
Definition is_challenge (ev : RegEvent) : bool :=
  match ev with
  | RgData data => match DecodeChecked data with Ok msg => bool_decide (Type_ msg = TypeAuthChallenge) | _ => false end
  | _ => false
  end.

Lemma challenges_bounded packet evs retries rounds r :
  maxAuthRounds < rounds + Z.of_nat (length (List.filter is_challenge evs)) → rounds ≤ maxAuthRounds →
  is_Some (register_loop rand packet retries rounds r evs).
Proof.
  revert retries rounds r. induction evs as [|ev evs IH]; intros retries rounds r Hn Hle; [cbn in Hn; lia|].
  cbn [register_loop List.filter] in *. destruct ev as [data| | |]; cbn [is_challenge] in Hn; [|destruct (_ <? _)|by eexists|by eexists].
  - destruct (DecodeChecked data) as [msg|e|]; [|by eexists|by eexists].
    unfold handleRegResponse. destruct (bool_decide (Type_ msg = TypeAssignIP)); [by eexists|].
    destruct (bool_decide (Type_ msg = TypeAuthChallenge)) eqn:Ec.
    + cbn [length] in Hn. destruct (Z.ltb_spec maxAuthRounds (rounds + 1)); [by eexists|].
      destruct (handleAuthChallenge _ _); [by eexists|]. apply IH; lia.
    + destruct (bool_decide (Type_ msg = TypeKick)); [by eexists|]. by apply IH.
  - by eexists.
  - by apply IH.
Qed.

(** C39: Registration over UDP ends, whatever the server sends: with an answer or an
    error at the latest when four reads in a row time out (40 seconds of silence),
    and at the fourth authentication challenge. *)
Theorem register_terminates t evs :
  ((∃ a b, evs = a ++ replicate 4 RgTimeout ++ b) ∨ (4 ≤ length (List.filter is_challenge evs))%nat) →
  is_Some (register rand t evs).
Proof.
  unfold register. intros [(a & b & ->)|Hc].
  - destruct (register_loop_app (register_packet t) a (replicate 4 RgTimeout ++ b) 0 0 (mkReg t [register_packet t]))
      as [[x ->]|(k & rounds & r & Hk & ->)]; [done|by eexists|].
    cbn [replicate app register_loop]. unfold maxRetries.
    repeat match goal with |- context [3 <? ?x] => destruct (Z.ltb_spec 3 x); [by eexists|] end. lia.
  - apply challenges_bounded; unfold maxAuthRounds; lia.
Qed.
End terminates.

(** ** The session after registration *)

(** What the data path relies on. *)
Record session_ok (t : Tunnel) : Prop := {
  ok_vip : ∃ v n, To4 (ss_virtualIP (t_session t)) = Some v ∧ ss_cachedSubnet (t_session t) = Some n ∧
    net_Mask n = ss_subnetMask (t_session t) ∧ length (net_Mask n) = 4%nat ∧ is_Some (To4 (net_IP n)) ∧
    Contains n v = true ∧ Contains n (ss_serverIP (t_session t)) = true ∧
    cachedPunchPacket t = Some (EncodeChecked TypeHolePunch v);
  ok_server : is_Some (To4 (ss_serverIP (t_session t))) ∧ ss_serverIPKey (t_session t) = Some (IPKey (ss_serverIP (t_session t)));
  ok_token : length (ss_sessionToken (t_session t)) = 16%nat;
  ok_version : IsCompatible AppVersion (ss_serverVersion (t_session t)) = true;
  ok_crypto : match DeriveKey (ss_roomPass (t_session t)) (ss_roomID (t_session t)) with
              | None => t_crypto t = mkCrypto None None None
              | Some key => ∃ e d p, t_crypto t = mkCrypto (Some e) (Some d) (Some p) ∧
                  c_key e = key ∧ c_key d = key ∧ c_key p = key ∧ c_dirTag p = DirClientToClient
              end }.

Lemma UnmarshalAssignIP_lengths payload a :
  UnmarshalAssignIP payload = Ok a →
  length (ap_VirtualIP a) = 4%nat ∧ length (ap_SubnetMask a) = 4%nat ∧ length (ap_ServerIP a) = 4%nat ∧
  length (ap_SessionToken a) = 16%nat.
Proof.
  unfold UnmarshalAssignIP. destruct (Nat.ltb_spec (length payload) 12); [done|].
  rewrite (slice_ok _ 0 4), (slice_ok _ 4 8), (slice_ok _ 8 12) by lia. cbn [mbind go_bind].
  destruct (if (14 <=? length payload)%nat then _ else _) as [v| |]; cbn [mbind go_bind]; try done.
  destruct (Nat.leb_spec 30 (length payload)); [rewrite slice_ok by lia|];
    cbn [mbind go_bind mret go_ret fmap go_fmap]; intros [= <-]; cbn [ap_VirtualIP ap_SubnetMask ap_ServerIP ap_SessionToken];
    rewrite ?length_copy_into, !length_take, !length_drop; split_and!; first [done|lia].
Qed.

Section session.
Context `{NetResolver} (rand : nat → option (list byte)).

Lemma NewCipher_fields key dir rnd c : NewCipher key dir rnd = Ok c → c_key c = key ∧ c_dirTag c = dir.
Proof.
  unfold NewCipher. destruct (negb _); [done|]. destruct (initCounter rnd); [|done]. by intros [= <-].
Qed.

Lemma init_ciphers_ok s crypto :
  init_ciphers rand s = inr crypto →
  match DeriveKey (ss_roomPass s) (ss_roomID s) with
  | None => crypto = mkCrypto None None None
  | Some key => ∃ e d p, crypto = mkCrypto (Some e) (Some d) (Some p) ∧
      c_key e = key ∧ c_key d = key ∧ c_key p = key ∧ c_dirTag p = DirClientToClient
  end.
Proof.
  unfold init_ciphers. destruct (ss_roomPass s) as [|p0 pass]; [by intros [= <-]|].
  destruct (DeriveKey _ _) as [key|]; [|done].
  destruct (NewCipher key DirClientToServer _) as [e| |] eqn:He; try done.
  destruct (NewCipher key DirServerToClient _) as [d| |] eqn:Hd; try done.
  destruct (NewCipher key DirClientToClient _) as [p| |] eqn:Hp; try done.
  intros [= <-]. exists e, d, p.
  apply NewCipher_fields in He as [? _], Hd as [? _], Hp as [? ?]. done.
Qed.

Definition identity (t : Tunnel) := (ss_username (t_session t), ss_roomID (t_session t), ss_roomPass (t_session t)).

Lemma handleAssignIP_ok payload t t' :
  handleAssignIP rand payload t = inr t' → session_ok t' ∧ peers t' = ∅ ∧ identity t' = identity t.
Proof.
  unfold handleAssignIP. destruct (UnmarshalAssignIP payload) as [a| |] eqn:Ea; try done.
  apply UnmarshalAssignIP_lengths in Ea as (Lv & Lm & Ls & Lt).
  assert (To4 (ap_VirtualIP a) = Some (ap_VirtualIP a)) as Ev by (unfold To4; by rewrite Lv).
  assert (To4 (ap_ServerIP a) = Some (ap_ServerIP a)) as Es by (unfold To4; by rewrite Ls).
  set (n := mkIPNet _ _).
  destruct (IsCompatible _ _) eqn:Ec; [|done]. cbn [negb].
  rewrite Ev, Es. cbn [bool_decide negb orb].
  destruct (Contains n (ap_VirtualIP a)) eqn:C1; [|done].
  destruct (Contains n (ap_ServerIP a)) eqn:C2; [|done]. cbn [negb orb].
  destruct (init_ciphers rand (t_session t)) as [|crypto] eqn:Ei; [done|]. apply init_ciphers_ok in Ei.
  cbn [default]. intros [= <-]. split; [|done]. split; cbn; try done.
  - exists (ap_VirtualIP a), n. split_and!; try done. unfold n, To4, and_mask. cbn.
    rewrite length_zip_with, Lv, Lm. by eexists.
Qed.

Lemma handleRegResponse_go msg rounds r r' rounds' :
  handleRegResponse rand msg rounds r = RegGo r' rounds' → rg_tunnel r' = rg_tunnel r.
Proof.
  unfold handleRegResponse. repeat case_bool_decide; try done; [|by intros [= <- _]].
  destruct (_ <? _); [done|]. destruct (handleAuthChallenge _ _); [done|]. by intros [= <- _].
Qed.

Lemma handleRegResponse_stop msg rounds r r' :
  handleRegResponse rand msg rounds r = RegStop (inr r') →
  ∃ payload, handleAssignIP rand payload (rg_tunnel r) = inr (rg_tunnel r').
Proof.
  unfold handleRegResponse. repeat case_bool_decide; try done.
  - destruct (handleAssignIP rand (Payload msg) (rg_tunnel r)) as [|t'] eqn:Et; [done|].
    intros [= <-]. by exists (Payload msg).
  - destruct (_ <? _); [done|]. by destruct (handleAuthChallenge _ _).
Qed.

Lemma register_loop_assigned packet evs retries rounds r r' :
  register_loop rand packet retries rounds r evs = Some (inr r') →
  ∃ payload, handleAssignIP rand payload (rg_tunnel r) = inr (rg_tunnel r').
Proof.
  revert retries rounds r. induction evs as [|ev evs IH]; intros retries rounds r; [done|].
  cbn [register_loop]. destruct ev as [data| | |]; try done.
  - destruct (DecodeChecked data) as [msg| |]; try done.
    destruct (handleRegResponse rand msg rounds r) as [r1 k|res] eqn:Em.
    + intros E. apply IH in E. by rewrite (handleRegResponse_go _ _ _ _ _ Em) in E.
    + intros [= ->]. by eapply handleRegResponse_stop.
  - destruct (_ <? _); [done|]. intros E. by apply IH in E.
Qed.

Lemma registerTCP_loop_assigned evs retries rounds r r' :
  registerTCP_loop rand retries rounds r evs = Some (inr r') →
  ∃ payload, handleAssignIP rand payload (rg_tunnel r) = inr (rg_tunnel r').
Proof.
  revert retries rounds r. induction evs as [|ev evs IH]; intros retries rounds r; [done|].
  cbn [registerTCP_loop]. destruct ev as [data| | |]; try done.
  - destruct (DecodeChecked data) as [msg| |]; try apply IH.
    destruct (handleRegResponse rand msg rounds r) as [r1 k|res] eqn:Em.
    + intros E. apply IH in E. by rewrite (handleRegResponse_go _ _ _ _ _ Em) in E.
    + intros [= ->]. by eapply handleRegResponse_stop.
  - destruct (_ <? _); [done|]. intros E. by apply IH in E.
Qed.

(** C10: However the registration succeeds, over UDP or over TCP after UDP failed, and
    whatever the server sent, the session the data path runs on is well formed:
    4-byte addresses inside the assigned subnet, a token, a compatible server,
    ciphers exactly when the room has a password; the player's name, room and
    password are the ones the registration began with, and no peer is left. *)
Theorem registered_session t udp tcp r :
  registerWithFallback rand t udp tcp = Some (inr r) →
  session_ok (rg_tunnel r) ∧ peers (rg_tunnel r) = ∅ ∧ identity (rg_tunnel r) = identity t.
Proof.
  unfold registerWithFallback, register, registerTCP.
  destruct (register_loop rand _ 0 0 _ udp) as [[e|r1]|] eqn:Eu; [|intros [= <-]|done].
  - destruct tcp as [evs|]; [|done]. intros E.
    apply registerTCP_loop_assigned in E as [payload E]. by apply handleAssignIP_ok in E.
  - apply register_loop_assigned in Eu as [payload E]. by apply handleAssignIP_ok in E.
Qed.
End session.

(** *** Witnesses *)

(** A client before its registration. *)
Definition ex_server_addr : UDPAddr := mkUDPAddr (IPv4 xcb x00 x71 x63) 5000 [].
Definition ex_joining (name : string) (pass : list byte) : Tunnel :=
  mkTunnel (mkSession [] [] None [] None (zeros 16) 0 (str name) (str "lan") pass) (mkCrypto None None None)
    None None ∅ (Some ex_server_addr) [] [] [] None None 0 0 0 false false true [] [].
Definition ex_rand (_ : nat) : option (list byte) := Some (zeros 8).

(** 10.10.0.2 of 10.10.0.0/24, the gateway at .1. *)
Definition ex_assign : list byte :=
  EncodeChecked TypeAssignIP (default [] (AssignIPPayload_Marshal
    (mkAssignIP [x0a; x0a; x00; x02] mask24 [x0a; x0a; x00; x01] AppVersion (replicate 16 x07)))).

Lemma register_terminates_witness :
  is_Some (@register no_resolver ex_rand (ex_joining "alice" []) (replicate 4 RgTimeout)).
Proof.
  apply (@register_terminates no_resolver). left. exists [], []. reflexivity.
Defined.

Definition ex_registered : Tunnel :=
  match @register no_resolver ex_rand (ex_joining "alice" []) [RgTimeout; RgData ex_assign] with
  | Some (inr r) => rg_tunnel r
  | _ => ex_joining "alice" []
  end.

Lemma registered_session_witness : session_ok ex_registered ∧ identity ex_registered = (str "alice", str "lan", []).
Proof.
  destruct (@register no_resolver ex_rand (ex_joining "alice" []) [RgTimeout; RgData ex_assign]) as [[e|r]|] eqn:E;
    [vm_compute in E; discriminate E| |vm_compute in E; discriminate E].
  unfold ex_registered. rewrite E.
  destruct (@registered_session no_resolver ex_rand (ex_joining "alice" []) [RgTimeout; RgData ex_assign] None r)
    as (Hok & _ & Hid).
  - unfold registerWithFallback. by rewrite E.
  - split; [exact Hok|exact Hid].
Defined.
