(* ===== verification/TunnelLife.v ===== *)
(** * TunnelLife: connections and the TUN device of a client

    The life cycle in src/internal/client/tunnel.go (Connect, Disconnect, CloseTUN,
    ensureTUN, createTUN) and the read loops of recv.go.  Sockets, TCP connections
    and TUN devices are locations; the sets of open ones are what the operating
    system holds for the client.  Connect has two steps, because Disconnect and
    CloseTUN run concurrently with it: up to the end of the registration, and from
    ensureTUN on. *)

From S2P Require Import Prelude GoNet Crc32 Protocol Messages MessagesData MessagesPeer NetUtil Float64 Bandwidth SendQueue Auth Cipher I18n Client Room Server Route NatProbe ClientLimit Tunnel TunnelReg.

Record TunConfig := mkTunConfig {
  tc_VirtualIP : IP; tc_SubnetMask : list byte; tc_ServerIP : IP; tc_MTU : Z }.

(** Where a Connect is: not running, registered, relaying. *)
Inductive Phase := Idle | Registered | Running.
#[export] Instance Phase_eq_dec : EqDecision Phase.
Proof. solve_decision. Defined.

Record Life := mkLife {
  lf_t : Tunnel; lf_phase : Phase;
  lf_conn : option nat; lf_tcp : option nat; lf_dev : option nat; lf_lastIP : IP; lf_lastMTU : Z;
  lf_factory : bool; lf_probing : bool; lf_left : bool; lf_closedTUN : bool;
  lf_socks : gset nat; lf_tcps : gset nat; lf_devs : gset nat;
  lf_configs : gmap nat TunConfig; lf_next : nat; lf_written : list (nat * sendJob) }.

(** A new tunnel: New. *)
Definition new_life (t : Tunnel) : Life :=
  mkLife t Idle None None None [] 0 false false false false ∅ ∅ ∅ ∅ 0 [].

Definition with_t t' L := mkLife t' (lf_phase L) (lf_conn L) (lf_tcp L) (lf_dev L) (lf_lastIP L) (lf_lastMTU L) (lf_factory L) (lf_probing L) (lf_left L) (lf_closedTUN L) (lf_socks L) (lf_tcps L) (lf_devs L) (lf_configs L) (lf_next L) (lf_written L).
Definition with_phase p L := mkLife (lf_t L) p (lf_conn L) (lf_tcp L) (lf_dev L) (lf_lastIP L) (lf_lastMTU L) (lf_factory L) (lf_probing L) (lf_left L) (lf_closedTUN L) (lf_socks L) (lf_tcps L) (lf_devs L) (lf_configs L) (lf_next L) (lf_written L).
Definition with_conn c ss L := mkLife (lf_t L) (lf_phase L) c (lf_tcp L) (lf_dev L) (lf_lastIP L) (lf_lastMTU L) (lf_factory L) (lf_probing L) (lf_left L) (lf_closedTUN L) ss (lf_tcps L) (lf_devs L) (lf_configs L) (lf_next L) (lf_written L).
Definition with_tcp c ss L := mkLife (lf_t L) (lf_phase L) (lf_conn L) c (lf_dev L) (lf_lastIP L) (lf_lastMTU L) (lf_factory L) (lf_probing L) (lf_left L) (lf_closedTUN L) (lf_socks L) ss (lf_devs L) (lf_configs L) (lf_next L) (lf_written L).
Definition with_devs ds L := mkLife (lf_t L) (lf_phase L) (lf_conn L) (lf_tcp L) (lf_dev L) (lf_lastIP L) (lf_lastMTU L) (lf_factory L) (lf_probing L) (lf_left L) (lf_closedTUN L) (lf_socks L) (lf_tcps L) ds (lf_configs L) (lf_next L) (lf_written L).
Definition with_next L := mkLife (lf_t L) (lf_phase L) (lf_conn L) (lf_tcp L) (lf_dev L) (lf_lastIP L) (lf_lastMTU L) (lf_factory L) (lf_probing L) (lf_left L) (lf_closedTUN L) (lf_socks L) (lf_tcps L) (lf_devs L) (lf_configs L) (S (lf_next L)) (lf_written L).
Definition with_factory b L := mkLife (lf_t L) (lf_phase L) (lf_conn L) (lf_tcp L) (lf_dev L) (lf_lastIP L) (lf_lastMTU L) b (lf_probing L) (lf_left L) (lf_closedTUN L) (lf_socks L) (lf_tcps L) (lf_devs L) (lf_configs L) (lf_next L) (lf_written L).
Definition with_probing b L := mkLife (lf_t L) (lf_phase L) (lf_conn L) (lf_tcp L) (lf_dev L) (lf_lastIP L) (lf_lastMTU L) (lf_factory L) b (lf_left L) (lf_closedTUN L) (lf_socks L) (lf_tcps L) (lf_devs L) (lf_configs L) (lf_next L) (lf_written L).
Definition with_left b L := mkLife (lf_t L) (lf_phase L) (lf_conn L) (lf_tcp L) (lf_dev L) (lf_lastIP L) (lf_lastMTU L) (lf_factory L) (lf_probing L) b (lf_closedTUN L) (lf_socks L) (lf_tcps L) (lf_devs L) (lf_configs L) (lf_next L) (lf_written L).
Definition with_written w L := mkLife (lf_t L) (lf_phase L) (lf_conn L) (lf_tcp L) (lf_dev L) (lf_lastIP L) (lf_lastMTU L) (lf_factory L) (lf_probing L) (lf_left L) (lf_closedTUN L) (lf_socks L) (lf_tcps L) (lf_devs L) (lf_configs L) (lf_next L) w.
(** A device was created. *)
Definition with_device n cfg mtu L := mkLife (lf_t L) (lf_phase L) (lf_conn L) (lf_tcp L) (Some n) (tc_VirtualIP cfg) mtu (lf_factory L) (lf_probing L) (lf_left L) (lf_closedTUN L) (lf_socks L) (lf_tcps L) ({[n]} ∪ lf_devs L) (<[n := cfg]> (lf_configs L)) (lf_next L) (lf_written L).
(** CloseTUN ran. *)
Definition with_closedTUN ds L := mkLife (lf_t L) (lf_phase L) (lf_conn L) (lf_tcp L) (lf_dev L) [] (lf_lastMTU L) (lf_factory L) (lf_probing L) (lf_left L) true (lf_socks L) (lf_tcps L) ds (lf_configs L) (lf_next L) (lf_written L).

Definition set_serverAddr a t := mkTunnel (t_session t) (t_crypto t) (probeResult t) (cachedPunchPacket t) (peers t) a (sendCh t) (ctrlCh t) (tunCh t) (rebindAckCh t) (sendLimiter t) (lastServerResponse t) (t_sendErrors t) (tunDropped t) (cancelKicks t) false (tunDev t) (tun_out t) (tasks t).
Definition set_tunDev b t := mkTunnel (t_session t) (t_crypto t) (probeResult t) (cachedPunchPacket t) (peers t) (t_serverAddr t) (sendCh t) (ctrlCh t) (tunCh t) (rebindAckCh t) (sendLimiter t) (lastServerResponse t) (t_sendErrors t) (tunDropped t) (cancelKicks t) (conn_closed t) b (tun_out t) (tasks t).
Definition set_probe r t := mkTunnel (t_session t) (t_crypto t) r (cachedPunchPacket t) (peers t) (t_serverAddr t) (sendCh t) (ctrlCh t) (tunCh t) (rebindAckCh t) (sendLimiter t) (lastServerResponse t) (t_sendErrors t) (tunDropped t) (cancelKicks t) (conn_closed t) (tunDev t) (tun_out t) (tasks t).

(** ** Opening and closing *)

Definition close_one (c : option nat) (s : gset nat) : gset nat :=
  match c with Some n => s ∖ {[n]} | None => s end.

Definition close_conn (L : Life) : Life := with_conn (lf_conn L) (close_one (lf_conn L) (lf_socks L)) L.
Definition close_tcp (L : Life) : Life := with_tcp (lf_tcp L) (close_one (lf_tcp L) (lf_tcps L)) L.
Definition close_dev (L : Life) : Life := with_devs (close_one (lf_dev L) (lf_devs L)) L.

Inductive connect_err := ErrInvalidServer | ErrBindUDP | ErrRegister (e : reg_err) | ErrCreateTUN.

(** Tunnel.dialServer; [ok] is the result of ListenUDP. *)
Definition dialServer (sAddr : UDPAddr) (ok : bool) (L : Life) : bool * Life :=
  let L := close_conn L in
  if negb ok then (false, L)
  else
    let n := lf_next L in
    (true, with_next (with_conn (Some n) ({[n]} ∪ lf_socks L) (with_t (set_serverAddr (Some (to16_addr sAddr)) (lf_t L)) L))).

Section life.
Context `{NetResolver} (rand : nat → option (list byte)).

(** Tunnel.registerWithFallback on the sockets: [None] while it waits for events;
    [tcp] are the events of the TCP connection, if it can be dialled. *)
Definition register_sockets (udp : list RegEvent) (tcp : option (list RegEvent)) (L : Life)
    : option (option reg_err * Life) :=
  match register rand (lf_t L) udp with
  | None => None
  | Some (inr r) => Some (None, with_t (rg_tunnel r) L)
  | Some (inl e) =>
      match tcp with
      | None => Some (Some e, close_conn L)
      | Some evs =>
          let n := lf_next L in
          let L := with_next (with_tcp (Some n) ({[n]} ∪ lf_tcps L) L) in
          match registerTCP rand (lf_t L) evs with
          | None => None
          | Some (inr r) => Some (None, with_t (rg_tunnel r) L)
          | Some (inl e) => Some (Some e, close_conn (close_tcp L))
          end
      end
  end.

(** Tunnel.probeNATAsync: whether a probe is started. *)
Definition probeNATAsync (L : Life) : Life :=
  if bool_decide (is_Some (lf_tcp L)) || bool_decide (is_Some (probeResult (lf_t L))) then L
  else if lf_probing L then L
  else with_probing true L.

(** The end of the probe's goroutine. *)
Definition probe_done (r : option NATProbeResult) (L : Life) : Life :=
  with_probing false (match r with Some _ => with_t (set_probe r (lf_t L)) L | None => L end).

(** Connect up to the registration; [addr] is the resolved server address and
    [listen] whether a socket could be bound.  An error ends Connect. *)
Definition Connect_begin (factory : bool) (addr : option UDPAddr) (listen : bool) (udp : list RegEvent)
    (tcp : option (list RegEvent)) (L : Life) : option (option connect_err * Life) :=
  let L := if factory then with_factory true L else L in
  match addr with
  | None => Some (Some ErrInvalidServer, L)
  | Some sAddr =>
      let L := with_phase Idle (with_left false L) in
      match dialServer sAddr listen L with
      | (false, L) => Some (Some ErrBindUDP, L)
      | (true, L) =>
          match register_sockets udp tcp L with
          | None => None
          | Some (Some e, L) => Some (Some (ErrRegister e), L)
          | Some (None, L) => Some (None, with_phase Registered (probeNATAsync L))
          end
      end
  end.
End life.

(** Tunnel.createTUN; [ok] is the result of the factory. *)
Definition createTUN (mtu : Z) (ok : bool) (L : Life) : bool * Life :=
  if negb (lf_factory L) || negb ok then (false, L)
  else
    let s := t_session (lf_t L) in
    let n := lf_next L in
    (true, with_next (with_device n (mkTunConfig (ss_virtualIP s) (ss_subnetMask s) (ss_serverIP s) mtu) mtu
             (with_t (set_tunDev true (lf_t L)) L))).

(** Tunnel.ensureTUN: its decision is TunnelReg.ensureTUN. *)
Definition ensureTUN_run (mtu : Z) (ok : bool) (L : Life) : bool * Life :=
  match ensureTUN (lf_lastIP L) (lf_t L) with
  | TunReuse => (true, L)
  | TunCreate => createTUN mtu ok (close_dev L)
  end.

(** Connect from ensureTUN on: the error, or the relay loops run.  When the context
    was cancelled meanwhile they stop at once ([relay_end]). *)
Definition Connect_finish (mtu : Z) (ok : bool) (L : Life) : option connect_err * Life :=
  match ensureTUN_run mtu ok L with
  | (true, L) => (None, with_phase Running L)
  | (false, L) =>
      let L := close_conn L in
      (Some ErrCreateTUN, with_phase Idle (with_tcp None (close_one (lf_tcp L) (lf_tcps L)) L))
  end.

(** The relay loops stop: Connect returns, closing nothing. *)
Definition relay_end (L : Life) : Life := with_phase Idle L.

(** Tunnel.Disconnect *)
Definition Disconnect (L : Life) : Life :=
  if lf_left L then L
  else
    let w := match t_serverAddr (lf_t L), lf_conn L with
             | Some a, Some c => lf_written L ++ [(c, mkSendJob (EncodeChecked TypeDisconnect []) (Some a))]
             | _, _ => lf_written L
             end in
    let L := with_left true (with_written w L) in
    with_tcp None (close_one (lf_tcp L) (lf_tcps L)) (with_conn None (close_one (lf_conn L) (lf_socks L)) L).

(** Tunnel.CloseTUN *)
Definition CloseTUN (L : Life) : Life :=
  if lf_closedTUN L then L else with_closedTUN (close_one (lf_dev L) (lf_devs L)) L.

(** ** The read loops *)

Definition maxConsecutiveErrors : Z := 10.

(** A loop that reads until too many errors in a row: [None] is a read error.  The
    result says whether the loop returned. *)
Fixpoint read_loop {A S} (handle : A → S → go perr S) (errs : Z) (evs : list (option A)) (s : S) : go perr (bool * S) :=
  match evs with
  | [] => Ok (false, s)
  | None :: evs =>
      let errs := errs + 1 in
      if maxConsecutiveErrors <? errs then Ok (true, s) else read_loop handle errs evs s
  | Some a :: evs => s ← handle a s; read_loop handle 0 evs s
  end.

(** Tunnel.receiveFromTUN over batches of packets. *)
Definition receiveFromTUN (evs : list (option (list (list byte)))) (t : Tunnel) : go perr (bool * Tunnel) :=
  if tunDev t
  then read_loop (fun l t => Ok (foldl (fun t pkt => offer_tun (tun_job_batch pkt) t) t l)) 0 evs t
  else Ok (true, t).

(** Tunnel.receiveFromTUNSingle *)
Definition receiveFromTUNSingle (evs : list (option (list byte))) (t : Tunnel) : go perr (bool * Tunnel) :=
  read_loop (fun pkt t => Ok (offer_tun (tun_job_single pkt) t)) 0 evs t.

(** Tunnel.receiveFromServer; the clock, the language and the buffers are those of
    each datagram. *)
Definition receiveFromServer `{MapRange} `{NetResolver} `{AEAD} `{PktBufs} (serverAddr : UDPAddr)
    (evs : list (option (Env * (list byte * UDPAddr)))) (t : Tunnel) : go perr (bool * Tunnel) :=
  read_loop (fun '(e, (data, from)) => @receive_datagram e _ _ data from serverAddr) 0 evs t.

(** sendLoop after the context is done, when the drain timer fires after [n]
    writes. *)
Definition sendLoop_done (n : nat) (t : Tunnel) : list sendJob * Tunnel :=
  let ctrl := take n (ctrlCh t) in
  let k := (n - length (ctrlCh t))%nat in
  (ctrl ++ take k (sendCh t), set_sendCh (drop k (sendCh t)) (set_ctrlCh (drop n (ctrlCh t)) t)).

(** ** Steps *)

Inductive life_step `{NetResolver} (rand : nat → option (list byte)) : Life → Life → Prop :=
| LsBegin factory addr listen udp tcp L r L' :
    lf_phase L = Idle → Connect_begin rand factory addr listen udp tcp L = Some (r, L') → life_step rand L L'
| LsFinish mtu ok L : lf_phase L = Registered → life_step rand L (snd (Connect_finish mtu ok L))
| LsEnd L : lf_phase L = Running → life_step rand L (relay_end L)
| LsProbe r L : life_step rand L (probe_done r L)
| LsDisconnect L : life_step rand L (Disconnect L)
| LsCloseTUN L : life_step rand L (CloseTUN L)
| LsKick L :
    (* a Kick packet, or goroutines of the previous run that do not stop in time *)
    life_step rand L (close_conn L)
| LsData t L :
    (* a packet, a tick or a send: none of them assigns an address or a device *)
    t_session t = t_session (lf_t L) → tunDev t = tunDev (lf_t L) → life_step rand L (with_t t L).

Inductive life_reach `{NetResolver} (rand : nat → option (list byte)) : Life → Prop :=
| LrNew t : tunDev t = false → life_reach rand (new_life t)
| LrStep L L' : life_reach rand L → life_step rand L L' → life_reach rand L'.

(** ** Facts *)

(** Only the current socket and device can be open; the device has the address it
    was created for. *)
Record life_ok (L : Life) : Prop := {
  lo_socks : ∀ n, n ∈ lf_socks L → lf_conn L = Some n;
  lo_devs : ∀ n, n ∈ lf_devs L → lf_dev L = Some n;
  lo_tunDev : tunDev (lf_t L) = bool_decide (is_Some (lf_dev L));
  lo_config : ∀ n, lf_dev L = Some n → ∃ cfg, lf_configs L !! n = Some cfg ∧
    (lf_closedTUN L = false → tc_VirtualIP cfg = lf_lastIP L ∧ lf_lastIP L ≠ []);
  lo_registered : lf_phase L ≠ Idle → ss_virtualIP (t_session (lf_t L)) ≠ [];
  lo_running : lf_phase L = Running → ∃ n cfg, lf_dev L = Some n ∧ lf_configs L !! n = Some cfg ∧
    (lf_closedTUN L = false → IP_Equal (ss_virtualIP (t_session (lf_t L))) (tc_VirtualIP cfg) = true) }.

Lemma elem_close_one n c (s : gset nat) : n ∈ close_one c s → n ∈ s ∧ c ≠ Some n.
Proof. destruct c; cbn; [|done]. intros [? ?%not_elem_of_singleton]%elem_of_difference. naive_solver. Qed.

Section steps.
Context `{NetResolver} (rand : nat → option (list byte)).

Lemma handleAssignIP_keeps payload t t' :
  handleAssignIP rand payload t = inr t' →
  tunDev t' = tunDev t ∧ probeResult t' = probeResult t ∧ t_serverAddr t' = t_serverAddr t ∧
  ss_virtualIP (t_session t') ≠ [].
Proof.
  intros Ht. pose proof (handleAssignIP_ok rand _ _ _ Ht) as (Hs & _).
  destruct (ok_vip _ Hs) as (v & n & Hv & _). revert Ht. unfold handleAssignIP.
  repeat case_match; try done; intros [= <-]; (split_and!; [done..|]); intros E; rewrite E in Hv; done.
Qed.

Lemma register_keeps t udp r :
  register rand t udp = Some (inr r) →
  tunDev (rg_tunnel r) = tunDev t ∧ probeResult (rg_tunnel r) = probeResult t ∧
  t_serverAddr (rg_tunnel r) = t_serverAddr t ∧ ss_virtualIP (t_session (rg_tunnel r)) ≠ [].
Proof. intros (p & Hp)%register_loop_assigned. by eapply handleAssignIP_keeps. Qed.

Lemma registerTCP_keeps t evs r :
  registerTCP rand t evs = Some (inr r) →
  tunDev (rg_tunnel r) = tunDev t ∧ probeResult (rg_tunnel r) = probeResult t ∧
  t_serverAddr (rg_tunnel r) = t_serverAddr t ∧ ss_virtualIP (t_session (rg_tunnel r)) ≠ [].
Proof. intros (p & Hp)%registerTCP_loop_assigned. by eapply handleAssignIP_keeps. Qed.

(** What Connect changes up to the registration: the socket, the TCP connection, the
    session and the probe flag; nothing of the device. *)
Lemma Connect_begin_effect factory addr listen udp tcp L r L' :
  lf_phase L = Idle → (∀ n, n ∈ lf_socks L → lf_conn L = Some n) →
  Connect_begin rand factory addr listen udp tcp L = Some (r, L') →
  lf_dev L' = lf_dev L ∧ lf_devs L' = lf_devs L ∧ lf_lastIP L' = lf_lastIP L ∧ lf_configs L' = lf_configs L ∧
  lf_closedTUN L' = lf_closedTUN L ∧ tunDev (lf_t L') = tunDev (lf_t L) ∧
  (∀ n, n ∈ lf_socks L' → lf_conn L' = Some n) ∧
  lf_phase L' = match r with Some _ => Idle | None => Registered end ∧
  (r = None → ss_virtualIP (t_session (lf_t L')) ≠ [] ∧ lf_left L' = false ∧ is_Some (lf_conn L') ∧
              is_Some (t_serverAddr (lf_t L'))).
Proof.
  intros Hidle Hsocks. unfold Connect_begin.
  set (L0 := if factory then with_factory true L else L).
  assert (lf_dev L0 = lf_dev L ∧ lf_devs L0 = lf_devs L ∧ lf_lastIP L0 = lf_lastIP L ∧ lf_configs L0 = lf_configs L ∧
    lf_closedTUN L0 = lf_closedTUN L ∧ lf_t L0 = lf_t L ∧ lf_socks L0 = lf_socks L ∧ lf_conn L0 = lf_conn L ∧
    lf_phase L0 = lf_phase L) as (<- & <- & <- & <- & <- & <- & E1 & E2 & E3) by (by destruct factory).
  rewrite <- E1, <- E2 in Hsocks. rewrite <- E3 in Hidle. clearbody L0. clear E1 E2 E3 L. rename L0 into L.
  assert (∀ n, n ∈ close_one (lf_conn L) (lf_socks L) → False) as Hnone.
  { intros n [Hn Hne]%elem_close_one. by apply Hsocks in Hn. }
  destruct addr as [sAddr|]; [|intros [= <- <-]; by split_and!].
  unfold dialServer. destruct listen; cbn [negb]; [|intros [= <- <-]; split_and!; try done; intros n Hn; by apply Hnone in Hn].
  unfold register_sockets. cbn [lf_t with_next with_conn with_t close_conn].
  set (t0 := set_serverAddr _ _).
  assert (∀ n, n ∈ {[lf_next L]} ∪ close_one (lf_conn L) (lf_socks L) → n = lf_next L) as Hone.
  { intros n [->%elem_of_singleton|Hn]%elem_of_union; [done|]. by apply Hnone in Hn. }
  assert (∀ n, n ∈ ({[lf_next L]} ∪ close_one (lf_conn L) (lf_socks L)) ∖ {[lf_next L]} → False) as Hzero.
  { intros n [Hn Hne]%elem_of_difference. apply Hone in Hn as ->. set_solver. }
  destruct (register rand t0 udp) as [[e|rs]|] eqn:Er; [|intros [= <- <-]|done].
  - destruct tcp as [evs|]; [|intros [= <- <-]; split_and!; try done; cbn; intros n Hn; by apply Hzero in Hn].
    destruct (registerTCP rand _ evs) as [[e'|rs]|] eqn:Et; [| |done]; intros [= <- <-].
    + split_and!; try done. cbn. intros n Hn. by apply Hzero in Hn.
    + apply registerTCP_keeps in Et as (E1 & E2 & E3 & E4). unfold probeNATAsync. cbn.
      split_and!; try done; [intros n Hn; f_equal; symmetry; by apply Hone|].
      intros _. split_and!; try done. rewrite E3. by eexists.
  - apply register_keeps in Er as (E1 & E2 & E3 & E4). unfold probeNATAsync. cbn.
    destruct (_ || _); [|destruct (lf_probing L)]; cbn;
      (split_and!; try done; [intros n Hn; f_equal; symmetry; by apply Hone|]);
      intros _; (split_and!; try done); rewrite E3; by eexists.
Qed.

Lemma life_ok_new t : tunDev t = false → life_ok (new_life t).
Proof. intros Ht. split; cbn; [set_solver|set_solver| |done|done|done]. by rewrite Ht. Qed.

Lemma ensureTUN_spec L :
  life_ok L →
  ensureTUN (lf_lastIP L) (lf_t L) = TunReuse ↔
  is_Some (lf_dev L) ∧ (lf_lastIP L = [] ∨ IP_Equal (ss_virtualIP (t_session (lf_t L))) (lf_lastIP L) = true).
Proof.
  intros Hok. unfold ensureTUN. rewrite (lo_tunDev _ Hok).
  destruct (lf_dev L) as [n|]; [rewrite bool_decide_eq_true_2 by (by eexists)|]; cbn.
  - destruct (decide (lf_lastIP L = [])) as [E|E];
      [rewrite bool_decide_eq_true_2 by done; cbn; naive_solver|rewrite bool_decide_eq_false_2 by done; cbn].
    destruct (IP_Equal _ _); cbn; naive_solver.
  - split; [done|]. by intros [[? ?] _].
Qed.

Lemma life_ok_begin factory addr listen udp tcp L r L' :
  life_ok L → lf_phase L = Idle → Connect_begin rand factory addr listen udp tcp L = Some (r, L') → life_ok L'.
Proof.
  intros Hok Hidle Hb.
  destruct (Connect_begin_effect _ _ _ _ _ _ _ _ Hidle (lo_socks _ Hok) Hb)
    as (E1 & E2 & E3 & E4 & E5 & E6 & Hsocks & Hp & Hr).
  destruct Hok as [H1 H2 H3 H4 H5 H6]. split; rewrite ?E1, ?E2, ?E3, ?E4, ?E5, ?E6; try done.
  - rewrite Hp. destruct r; [done|]. intros _. by apply Hr.
  - rewrite Hp. by destruct r.
Qed.

Lemma life_ok_finish mtu ok L :
  life_ok L → lf_phase L = Registered → life_ok (snd (Connect_finish mtu ok L)).
Proof.
  intros Hok Hph. pose proof (ensureTUN_spec L Hok) as Hens. destruct Hok as [H1 H2 H3 H4 H5 H6].
  assert (ss_virtualIP (t_session (lf_t L)) ≠ []) as Hvip by (apply H5; by rewrite Hph).
  assert (∀ n, n ∈ close_one (lf_dev L) (lf_devs L) → False) as Hnodev.
  { intros n [Hn Hne]%elem_close_one. by apply H2 in Hn. }
  assert (∀ n, n ∈ close_one (lf_conn L) (lf_socks L) → False) as Hnosock.
  { intros n [Hn Hne]%elem_close_one. by apply H1 in Hn. }
  unfold Connect_finish, ensureTUN_run. destruct (ensureTUN _ _) eqn:Ea.
  - destruct (proj1 Hens eq_refl) as ([n Hn] & Hip). split; cbn; try done.
    intros _. destruct (H4 n Hn) as (cfg & Hcfg & Hc). exists n, cfg. split_and!; try done. intros Hcl.
    destruct (Hc Hcl) as [-> Hne]. by destruct Hip.
  - unfold createTUN. cbn [lf_factory close_dev with_devs]. destruct (negb (lf_factory L) || negb ok); cbn [snd].
    + split; cbn; try done; [intros n Hn; by apply Hnosock in Hn|intros n Hn; by apply Hnodev in Hn].
    + split; cbn; try done.
      * intros n [->%elem_of_singleton|Hn]%elem_of_union; [done|]. by apply Hnodev in Hn.
      * intros n [= <-]. eexists. rewrite lookup_insert_eq. split; [done|]. done.
      * intros _. eexists _, _. rewrite lookup_insert_eq. split_and!; [done..|]. intros _. apply IP_Equal_refl.
Qed.

Lemma life_ok_step L L' : life_ok L → life_step rand L L' → life_ok L'.
Proof.
  intros Hok Hst. destruct Hst as [factory addr listen udp tcp L r L' Hp Hb|mtu ok L Hp|L Hp|r L|L|L|L|t L Es Et].
  - by eapply life_ok_begin.
  - by apply life_ok_finish.
  - destruct Hok as [H1 H2 H3 H4 H5 H6]. split; try done.
  - destruct Hok as [H1 H2 H3 H4 H5 H6]. unfold probe_done. destruct r; by split.
  - unfold Disconnect. destruct (lf_left L); [done|]. destruct Hok as [H1 H2 H3 H4 H5 H6].
    split; try done. cbn. intros n [Hn Hne]%elem_close_one. by apply H1 in Hn.
  - unfold CloseTUN. destruct (lf_closedTUN L); [done|]. destruct Hok as [H1 H2 H3 H4 H5 H6].
    split; try done; cbn.
    + intros n [Hn Hne]%elem_close_one. by apply H2 in Hn.
    + intros n Hn. destruct (H4 n Hn) as (cfg & Hcfg & _). by exists cfg.
    + intros Hp. destruct (H6 Hp) as (n & cfg & ? & ? & _). by exists n, cfg.
  - destruct Hok as [H1 H2 H3 H4 H5 H6]. split; try done. cbn. intros n [Hn _]%elem_close_one. by apply H1.
  - destruct Hok as [H1 H2 H3 H4 H5 H6]. split; cbn; rewrite ?Es, ?Et; done.
Qed.

Lemma life_reach_ok L : life_reach rand L → life_ok L.
Proof. induction 1; [by apply life_ok_new|by eapply life_ok_step]. Qed.

(** ** What a client holds *)

(** C17: In every reachable state of a client, whatever fails and whenever it is told to
    stop, at most one UDP socket and one TUN device are open, those in use; and
    while it relays, the device has the address the server assigned, until
    CloseTUN. *)
Theorem client_resources L :
  life_reach rand L →
  (size (lf_socks L) ≤ 1)%nat ∧ (size (lf_devs L) ≤ 1)%nat ∧
  (∀ n, n ∈ lf_socks L → lf_conn L = Some n) ∧ (∀ n, n ∈ lf_devs L → lf_dev L = Some n) ∧
  (lf_phase L = Running → lf_closedTUN L = false → ∃ n cfg, lf_dev L = Some n ∧ lf_configs L !! n = Some cfg ∧
     IP_Equal (ss_virtualIP (t_session (lf_t L))) (tc_VirtualIP cfg) = true).
Proof.
  intros Hok%life_reach_ok. destruct Hok as [H1 H2 H3 H4 H5 H6].
  assert (∀ (o : option nat) (s : gset nat), (∀ n, n ∈ s → o = Some n) → (size s ≤ 1)%nat) as Hsize.
  { intros o s Hs. destruct o as [n|].
    - assert (s ⊆ {[n]}) as Hsub%subseteq_size by (intros m Hm; apply Hs in Hm as [= ->]; set_solver).
      by rewrite size_singleton in Hsub.
    - assert (s = ∅) as -> by (apply set_eq; intros m; split; [by intros ?%Hs|set_solver]). rewrite size_empty; lia. }
  split_and!; [by eapply Hsize|by eapply Hsize|done|done|].
  intros Hr Hc. destruct (H6 Hr) as (n & cfg & Hn & Hcfg & Hip). exists n, cfg. split_and!; auto.
Qed.

(** Disconnecting tells the server once and closes the socket and the TCP
    connection; doing it again does nothing, until the next Connect. *)
Theorem Disconnect_once L n a :
  life_reach rand L → lf_left L = false → lf_conn L = Some n → t_serverAddr (lf_t L) = Some a →
  let L' := Disconnect L in
  lf_written L' = lf_written L ++ [(n, mkSendJob (EncodeChecked TypeDisconnect []) (Some a))] ∧
  lf_socks L' = ∅ ∧ lf_conn L' = None ∧ lf_tcp L' = None ∧ (∀ c, lf_tcp L = Some c → c ∉ lf_tcps L') ∧
  Disconnect L' = L'.
Proof.
  intros Hok%life_reach_ok Hl Hn Ha. unfold Disconnect at 1. rewrite Hl, Hn, Ha. cbn.
  split_and!; try done.
  - apply set_eq. intros m. split; [|set_solver]. intros [Hm Hne]%elem_close_one.
    by apply (lo_socks _ Hok) in Hm.
  - intros c Hc [_ Hne]%elem_close_one. done.
Qed.

(** A reconnect to which the server assigns the address of the last device keeps
    this device: no device is created or closed, and no failure of the factory
    matters. *)
Theorem reconnect_keeps_device L n mtu ok :
  life_reach rand L → lf_phase L = Registered → lf_dev L = Some n → n ∈ lf_devs L →
  IP_Equal (ss_virtualIP (t_session (lf_t L))) (lf_lastIP L) = true →
  Connect_finish mtu ok L = (None, with_phase Running L).
Proof.
  intros Hok%life_reach_ok Hp Hn _ Hip. unfold Connect_finish, ensureTUN_run.
  assert (ensureTUN (lf_lastIP L) (lf_t L) = TunReuse) as -> ; [|done].
  apply ensureTUN_spec; [done|]. split; [by eexists|by right].
Qed.

(** After a failed replacement of the device - the address changed, the old device
    was closed and the factory failed - a later connection that is assigned the
    old address again runs on the closed device: Connect does not notice, and
    nothing replaces it. *)
Theorem closed_device_reused L mtu :
  life_reach rand L → lf_phase L = Registered → is_Some (lf_dev L) → lf_closedTUN L = false →
  IP_Equal (ss_virtualIP (t_session (lf_t L))) (lf_lastIP L) = false →
  let L1 := snd (Connect_finish mtu false L) in
  fst (Connect_finish mtu false L) = Some ErrCreateTUN ∧ lf_devs L1 = ∅ ∧
  ∀ factory addr listen udp tcp L2 mtu' ok,
    Connect_begin rand factory addr listen udp tcp L1 = Some (None, L2) →
    IP_Equal (ss_virtualIP (t_session (lf_t L2))) (lf_lastIP L) = true →
    fst (Connect_finish mtu' ok L2) = None ∧
    lf_phase (snd (Connect_finish mtu' ok L2)) = Running ∧ lf_devs (snd (Connect_finish mtu' ok L2)) = ∅.
Proof.
  intros Hr Hp [n Hn] Hcl Hip. pose proof (life_reach_ok _ Hr) as Hok.
  assert (ensureTUN (lf_lastIP L) (lf_t L) = TunCreate) as Ea.
  { destruct (ensureTUN (lf_lastIP L) (lf_t L)) eqn:E; [|done].
    apply ensureTUN_spec in E as [_ [E|E]]; [|congruence|done].
    destruct (lo_config _ Hok n Hn) as (cfg & _ & Hc). by destruct (Hc Hcl) as [_ ?]. }
  assert (close_one (lf_dev L) (lf_devs L) = ∅) as Hempty.
  { apply set_eq. intros m. split; [|set_solver]. intros [Hm Hne]%elem_close_one. by apply (lo_devs _ Hok) in Hm. }
  set (L1 := snd (Connect_finish mtu false L)).
  assert (life_ok L1) as Hok1 by by apply life_ok_finish.
  assert (lf_phase L1 = Idle ∧ lf_dev L1 = Some n ∧ lf_devs L1 = ∅ ∧ lf_lastIP L1 = lf_lastIP L ∧
          fst (Connect_finish mtu false L) = Some ErrCreateTUN) as (P1 & D1 & S1 & I1 & F1).
  { unfold L1, Connect_finish, ensureTUN_run. rewrite Ea. unfold createTUN. rewrite orb_true_r. cbn. by rewrite Hempty. }
  clearbody L1. split_and!; [done..|]. intros factory addr listen udp tcp L2 mtu' ok Hb Hip2.
  pose proof (life_ok_begin _ _ _ _ _ _ _ _ Hok1 P1 Hb) as Hok2.
  destruct (Connect_begin_effect _ _ _ _ _ _ _ _ P1 (lo_socks _ Hok1) Hb) as (E1 & E2 & E3 & _).
  assert (ensureTUN (lf_lastIP L2) (lf_t L2) = TunReuse) as Ea2.
  { apply ensureTUN_spec; [done|]. rewrite E1, E3, D1, I1. split; [by eexists|by right]. }
  unfold Connect_finish, ensureTUN_run. rewrite Ea2. cbn. by rewrite E2, S1.
Qed.

(** A stop that comes while a first connection is between registration and device
    leaks the device: Disconnect and CloseTUN find none, the connection goes on and
    creates one, and no later Disconnect or CloseTUN closes it. *)
Theorem late_device_leaks L mtu :
  life_reach rand L → lf_phase L = Registered → lf_factory L = true → lf_dev L = None → lf_closedTUN L = false →
  let L1 := snd (Connect_finish mtu true (CloseTUN (Disconnect L))) in
  ∃ n, lf_devs L1 = {[n]} ∧ lf_devs (CloseTUN (Disconnect (relay_end L1))) = {[n]}.
Proof.
  intros Hr Hp Hf Hn Hcl. pose proof (life_reach_ok _ Hr) as Hok.
  set (L0 := CloseTUN (Disconnect L)).
  assert (lf_dev L0 = None ∧ lf_factory L0 = true ∧ lf_closedTUN L0 = true ∧ tunDev (lf_t L0) = false ∧ lf_devs L0 = ∅)
    as (D0 & F0 & C0 & T0 & S0).
  { assert (lf_devs L = ∅) as Hd.
    { apply set_eq. intros m. split; [|set_solver]. intros Hm%(lo_devs _ Hok). congruence. }
    pose proof (lo_tunDev _ Hok) as Ht. rewrite Hn in Ht.
    unfold L0, CloseTUN, Disconnect. destruct (lf_left L); cbn; rewrite Hcl; cbn; rewrite ?Hn; by split_and!. }
  clearbody L0. cbn zeta. unfold Connect_finish, ensureTUN_run, ensureTUN. rewrite T0. cbn [andb].
  unfold createTUN. cbn [lf_factory close_dev with_devs]. rewrite F0. cbn.
  exists (lf_next L0). rewrite D0, S0. cbn. rewrite union_empty_r_L. split; [done|].
  unfold CloseTUN, Disconnect, relay_end. cbn. destruct (lf_left L0); cbn; rewrite C0; cbn; rewrite D0, S0; cbn; by rewrite union_empty_r_L.
Qed.

(** A failed TCP fallback stops the NAT detection: the closed connection stays in the
    tunnel, and every later connection, over UDP too, takes it for an active TCP
    transport and starts no probe, until Disconnect. *)
Theorem failed_fallback_stops_probing factory addr listen udp evs L e L1 :
  Connect_begin rand factory addr listen udp (Some evs) L = Some (Some (ErrRegister e), L1) →
  is_Some (lf_tcp L1) ∧
  ∀ factory' addr' listen' udp' tcp' r' L2,
    Connect_begin rand factory' addr' listen' udp' tcp' L1 = Some (r', L2) →
    lf_probing L2 = lf_probing L1 ∧ is_Some (lf_tcp L2).
Proof.
  intros Hb. assert (is_Some (lf_tcp L1)) as Ht.
  { revert Hb. unfold Connect_begin, dialServer, register_sockets. destruct addr; [|done].
    destruct listen; cbn [negb]; [|done]. destruct (register rand _ udp) as [[e'|rs]|]; [| |done].
    - destruct (registerTCP rand _ evs) as [[e''|rs]|]; intros [= <- <-]. by eexists.
    - done. }
  split; [done|]. intros factory' addr' listen' udp' tcp' r' L2. destruct Ht as [c Hc].
  unfold Connect_begin, dialServer, register_sockets, probeNATAsync.
  set (L0 := if factory' then with_factory true L1 else L1).
  assert (lf_tcp L0 = Some c ∧ lf_probing L0 = lf_probing L1) as (Hc0 & <-) by by destruct factory'.
  clearbody L0. clear Hc Hb L1.
  destruct addr'; [|intros [= _ <-]; split; [done|by eexists]].
  destruct listen'; cbn [negb]; [|intros [= _ <-]; cbn; split; [done|by eexists]].
  destruct (register rand _ udp') as [[e'|rs]|]; [| |done].
  - destruct tcp' as [evs'|]; [|intros [= _ <-]; cbn; split; [done|by eexists]].
    destruct (registerTCP rand _ evs') as [[e''|rs]|]; [| |done]; intros [= _ <-]; cbn; (split; [done|by eexists]).
  - intros [= _ <-]. cbn. rewrite Hc0. cbn. split; [done|]. rewrite Hc0. by eexists.
Qed.
End steps.

(** ** The read loops end *)

(** The loop of a handler that does not panic, with [errs] errors behind it. *)
Lemma read_loop_exits {A St} (f : A → St → St) errs evs s :
  (errs ≤ 10)%nat →
  (∃ s', read_loop (fun a s => Ok (f a s)) (Z.of_nat errs) evs s = Ok (true, s')) ↔
  (∃ post, evs = replicate (11 - errs) None ++ post) ∨ (∃ pre post, evs = pre ++ replicate 11 None ++ post).
Proof.
  revert errs s. induction evs as [|[a|] evs IH]; intros errs s He; cbn [read_loop].
  - split; [by intros [s' ?]|]. intros [[post E]|(pre & post & E)].
    + replace (11 - errs)%nat with (S (10 - errs)) in E by lia. done.
    + by destruct pre.
  - cbn [mbind go_bind]. rewrite (IH 0%nat (f a s)) by lia. split.
    + intros [[post ->]|(pre & post & ->)]; right; [by exists [Some a], post|by exists (Some a :: pre), post].
    + intros [[post E]|(pre & post & E)].
      * replace (11 - errs)%nat with (S (10 - errs)) in E by lia. done.
      * destruct pre as [|x pre]; [done|]. injection E as _ ->. right. by exists pre, post.
  - unfold maxConsecutiveErrors. destruct (Z.ltb_spec 10 (Z.of_nat errs + 1)) as [Hlt|Hle].
    + assert (errs = 10%nat) as -> by lia. split; [intros _; left; by exists evs|by eexists].
    + replace (Z.of_nat errs + 1) with (Z.of_nat (S errs)) by lia. rewrite (IH (S errs) s) by lia.
      replace (11 - S errs)%nat with (10 - errs)%nat by lia. split.
      * intros [[post ->]|(pre & post & ->)]; [left|right; by exists (None :: pre), post].
        exists post. by replace (11 - errs)%nat with (S (10 - errs)) by lia.
      * intros [[post E]|(pre & post & E)].
        -- left. exists post. replace (11 - errs)%nat with (S (10 - errs)) in E by lia. by injection E.
        -- destruct pre as [|x pre]; [|injection E as _ ->; right; by exists pre, post].
           left. exists (replicate errs None ++ post). change (replicate 11 None) with (None :: replicate 10 (@None A)) in E.
           injection E as ->. rewrite app_assoc, <- replicate_add. by replace (10 - errs + errs)%nat with 10%nat by lia.
Qed.

(** The loop that reads the TUN device gives up exactly on eleven read errors in a
    row - a closed device, say - and never before, whatever was read in between;
    giving up ends the connection (startRelayLoops). *)
Theorem tun_loop_gives_up evs t :
  tunDev t = true →
  (∃ t', receiveFromTUN evs t = Ok (true, t')) ↔ ∃ pre post, evs = pre ++ replicate 11 None ++ post.
Proof.
  intros Ht. unfold receiveFromTUN. rewrite Ht. change 0 with (Z.of_nat 0).
  rewrite (read_loop_exits (fun l t => foldl (fun t pkt => offer_tun (tun_job_batch pkt) t) t l) 0 evs t) by lia.
  split; [|by right]. intros [[post ->]|?]; [|done]. by exists [], post.
Qed.

(** ** Concrete lives *)

Definition ex_assign_to (o : byte) : list byte :=
  EncodeChecked TypeAssignIP (default [] (AssignIPPayload_Marshal
    (mkAssignIP [x0a; x0a; x00; o] mask24 [x0a; x0a; x00; x01] AppVersion (replicate 16 x07)))).

(** Connect up to a registration that assigns 10.10.0.[o]. *)
Abbreviation ex_begin o L :=
  (@Connect_begin no_resolver ex_rand true (Some ex_server_addr) true [RgData (ex_assign_to o)] None L).
Definition ex_begun (o : byte) (L : Life) : Life := match ex_begin o L with Some (_, L) => L | None => L end.

Definition ex_life0 : Life := new_life (set_tunDev false (ex_joining "alice" [])).
Definition ex_life1 : Life := ex_begun x02 ex_life0.
Definition ex_life2 : Life := snd (Connect_finish 1400 true ex_life1).
Definition ex_life3 : Life := ex_begun x02 (relay_end ex_life2).
Definition ex_moved : Life := ex_begun x03 (relay_end ex_life2).
Definition ex_no_device : Life := snd (Connect_finish 1400 false ex_moved).

Lemma ex_begin_step o L :
  lf_phase L = Idle → life_reach (H := no_resolver) ex_rand L → life_reach (H := no_resolver) ex_rand (ex_begun o L).
Proof.
  intros Hp Hr. unfold ex_begun. destruct (ex_begin o L) as [[r L']|] eqn:E; [|done].
  eapply (LrStep (H := no_resolver)); [exact Hr|]. exact (@LsBegin no_resolver ex_rand true (Some ex_server_addr) true [RgData (ex_assign_to o)] None L r L' Hp E).
Qed.

Lemma ex_life1_reach : life_reach (H := no_resolver) ex_rand ex_life1.
Proof. apply ex_begin_step; [reflexivity|]. exact (@LrNew no_resolver ex_rand (set_tunDev false (ex_joining "alice" [])) eq_refl). Qed.
Lemma ex_life2_reach : life_reach (H := no_resolver) ex_rand ex_life2.
Proof. eapply (LrStep (H := no_resolver)); [exact ex_life1_reach|]. exact (@LsFinish no_resolver ex_rand 1400 true ex_life1 ltac:(vm_compute; reflexivity)). Qed.
Lemma ex_ended_reach : life_reach (H := no_resolver) ex_rand (relay_end ex_life2).
Proof. eapply (LrStep (H := no_resolver)); [exact ex_life2_reach|]. exact (@LsEnd no_resolver ex_rand ex_life2 ltac:(vm_compute; reflexivity)). Qed.
Lemma ex_life3_reach : life_reach (H := no_resolver) ex_rand ex_life3.
Proof. apply ex_begin_step; [vm_compute; reflexivity|exact ex_ended_reach]. Qed.
Lemma ex_moved_reach : life_reach (H := no_resolver) ex_rand ex_moved.
Proof. apply ex_begin_step; [vm_compute; reflexivity|exact ex_ended_reach]. Qed.

Lemma client_resources_witness : (size (lf_devs ex_life2) ≤ 1)%nat.
Proof. exact (proj1 (proj2 (@client_resources no_resolver ex_rand ex_life2 ex_life2_reach))). Defined.

Lemma Disconnect_once_witness : lf_socks (Disconnect ex_life2) = ∅.
Proof.
  refine (proj1 (proj2 (@Disconnect_once no_resolver ex_rand ex_life2 0%nat (to16_addr ex_server_addr) ex_life2_reach _ _ _)));
    vm_compute; reflexivity.
Defined.

Lemma reconnect_keeps_device_witness : Connect_finish 1400 false ex_life3 = (None, with_phase Running ex_life3).
Proof.
  refine (@reconnect_keeps_device no_resolver ex_rand ex_life3 1%nat 1400 false ex_life3_reach _ _ _ _);
    [vm_compute; reflexivity|vm_compute; reflexivity| |vm_compute; reflexivity].
  apply (bool_decide_unpack _). vm_compute. exact I.
Defined.

Lemma closed_device_reused_witness :
  fst (Connect_finish 1400 true (ex_begun x02 ex_no_device)) = None ∧
  lf_devs (snd (Connect_finish 1400 true (ex_begun x02 ex_no_device))) = ∅.
Proof.
  destruct (@closed_device_reused no_resolver ex_rand ex_moved 1400 ex_moved_reach) as (_ & _ & Hre);
    [vm_compute; reflexivity|vm_compute; eexists; reflexivity|vm_compute; reflexivity|vm_compute; reflexivity|].
  destruct (Hre true (Some ex_server_addr) true [RgData (ex_assign_to x02)] None (ex_begun x02 ex_no_device) 1400 true)
    as (H1 & _ & H2); [vm_compute; reflexivity|vm_compute; reflexivity|].
  split; [exact H1|exact H2].
Defined.

Lemma late_device_leaks_witness :
  ∃ n, lf_devs (snd (Connect_finish 1400 true (CloseTUN (Disconnect ex_life1)))) = {[n]}.
Proof.
  destruct (@late_device_leaks no_resolver ex_rand ex_life1 1400 ex_life1_reach) as (n & H1 & _);
    [vm_compute; reflexivity..|].
  exists n. exact H1.
Defined.

Definition ex_fallback : option (option connect_err * Life) :=
  @Connect_begin no_resolver ex_rand true (Some ex_server_addr) true (replicate 4 RgTimeout) (Some [RgError]) ex_life0.
Definition ex_failed : Life := match ex_fallback with Some (_, L) => L | None => ex_life0 end.

Lemma failed_fallback_stops_probing_witness : lf_probing (ex_begun x02 ex_failed) = false.
Proof.
  destruct (@failed_fallback_stops_probing no_resolver ex_rand true (Some ex_server_addr) true (replicate 4 RgTimeout)
    [RgError] ex_life0 RegRead ex_failed) as (_ & Hno); [vm_compute; reflexivity|].
  destruct (Hno true (Some ex_server_addr) true [RgData (ex_assign_to x02)] None None (ex_begun x02 ex_failed))
    as (-> & _); [vm_compute; reflexivity|]. vm_compute. reflexivity.
Defined.

Lemma tun_loop_gives_up_witness :
  ∃ t', receiveFromTUN (replicate 3 None ++ [Some []] ++ replicate 11 None) (lf_t ex_life2) = Ok (true, t').
Proof.
  apply (tun_loop_gives_up _ (lf_t ex_life2)); [vm_compute; reflexivity|].
  exists (replicate 3 None ++ [Some []]), []. reflexivity.
Defined.
