(* ===== verification/Handshake.v ===== *)
(** * Handshake: the client's registration against the server's

    src/internal/client/register.go together with src/internal/server/room_auth.go: what
    one side sends is what the other side accepts. *)

From S2P Require Import Prelude GoNet Crc32 Protocol Messages MessagesData MessagesPeer NetUtil RateLimit Float64 Bandwidth SendQueue Sha256 Auth Cipher I18n Client Room RoomHandlers RoomIP RoomInv RoomSafe RoomExample RoomSpec RoomEntry RoomRelay RoomLife RoomAuthFlow Server Route NatProbe ClientLimit Tunnel TunnelReg.

(** ** The assigned address *)

Lemma and_mask24 b0 b1 b2 b3 : and_mask [b0; b1; b2; b3] mask24 = [b0; b1; b2; x00].
Proof. cbn. by rewrite !byte_and_xff, byte_and_x00. Qed.

Lemma Contains_24 b0 b1 b2 o o' :
  Contains (mkIPNet (and_mask [b0; b1; b2; o] mask24) mask24) [b0; b1; b2; o'] = true.
Proof.
  rewrite and_mask24. unfold Contains.
  change (match To4 [b0; b1; b2; o'] with Some x => x | None => [b0; b1; b2; o'] end) with [b0; b1; b2; o'].
  change (match To4 (net_IP (mkIPNet [b0; b1; b2; x00] mask24)) with Some x => x
          | None => net_IP (mkIPNet [b0; b1; b2; x00] mask24) end) with [b0; b1; b2; x00].
  change (if _ && _ then drop 12 (net_Mask (mkIPNet [b0; b1; b2; x00] mask24)) else net_Mask (mkIPNet [b0; b1; b2; x00] mask24))
    with mask24.
  rewrite !and_mask24. rewrite bool_decide_eq_true_2 by done. done.
Qed.

Lemma reachable_cfg `{MapRange} c w :
  reachable c w → ∃ t r, NewRoom t c = Some r ∧ w_cfg w = r_cfg r.
Proof.
  induction 1 as [t r q d Hn|e ev w _ (t & r & Hn & E)|w q d _ IH]; [by exists t, r| |done].
  exists t, r. split; [done|]. rewrite <- E. by destruct (pres_room_step ev w).
Qed.

Lemma server_address t c r b0 b1 b2 b3 :
  To4 (net_IP (rc_Subnet c)) = Some [b0; b1; b2; b3] → NewRoom t c = Some r →
  net_Mask (r_subnet (r_cfg r)) = mask24 ∧ r_serverIP (r_cfg r) = [b0; b1; b2; x01].
Proof.
  intros Hn. unfold NewRoom. case_bool_decide as Hm; [|done]. cbn [negb]. intros [= <-].
  cbn [r_cfg r_subnet r_serverIP]. by rewrite Hn.
Qed.

Lemma init_ciphers_total rand s :
  (∀ i, is_Some (rand i)) → ∃ crypto, init_ciphers rand s = inr crypto.
Proof.
  intros Hr. unfold init_ciphers. destruct (ss_roomPass s) as [|p0 pass] eqn:Ep; [by eexists|].
  pose proof (DeriveKey_spec (p0 :: pass) (ss_roomID s)) as Hk.
  destruct (DeriveKey _ _) as [key|]; [|done]. destruct Hk as [_ Hk].
  destruct (Hr 0%nat) as [r0 E0], (Hr 1%nat) as [r1 E1], (Hr 2%nat) as [r2 E2].
  unfold NewCipher, initCounter. rewrite E0, E1, E2, Hk. cbn. by eexists.
Qed.

(** C9: The AssignIP packet the server sends to any player of any reachable room is
    accepted by the client: sendAssignIP queues one packet for the endpoint, when the
    queue has room, and registration ends with this packet in a session that has the
    address the server entered the player under, the room's gateway and mask, and the
    token the server will ask for (16 bytes, as the array that holds it). *)
Theorem assigned_address_accepted `{Env, MapRange, NetResolver} rand c w k l p to packet retries rounds (r : RegState) evs :
  (∀ i, is_Some (rand i)) → ipv4_subnet c → reachable c w →
  clients (w_core w) !! k = Some l → store (w_core w) !! l = Some p → length (cl_SessionToken p) = 16%nat →
  Z.of_nat (length (sq_ch (rlq_sq (w_q w)))) < sq_maxSize (rlq_sq (w_q w)) →
  ∃ data t',
    sq_ch (rlq_sq (w_q (sendAssignIP (cl_VirtualIP p) to w))) = sq_ch (rlq_sq (w_q w)) ++ [mkEntry data to priorityHigh] ∧
    register_loop rand packet retries rounds r (RgData data :: evs) = Some (inr (mkReg t' (rg_out r))) ∧
    To4 (cl_VirtualIP p) = Some (ss_virtualIP (t_session t')) ∧ IPKey (ss_virtualIP (t_session t')) = k ∧
    ss_serverIP (t_session t') = r_serverIP (w_cfg w) ∧ ss_subnetMask (t_session t') = mask24 ∧
    ss_sessionToken (t_session t') = cl_SessionToken p ∧ packet_token t' = cl_SessionToken p.
Proof.
  intros Hrand Hnet Hw Hk Hl Ht Hq.
  destruct (reachable_ok c w Hnet Hw) as ([Hok _] & Hsub & _).
  destruct Hnet as (b0 & b1 & b2 & b3 & Hnet). destruct (reachable_cfg c w Hw) as (t0 & room & Hn & Hcfg).
  destruct (server_address _ _ _ _ _ _ _ Hnet Hn) as [Hmask Hsrv]. rewrite <- Hcfg in Hmask, Hsrv.
  destruct (cp_client _ _ _ _ (ok_clients _ _ Hok) _ _ Hk) as (p' & o & vip & Hp & _ & Hv & Hvip & -> & _).
  assert (p' = p) as -> by congruence. clear Hp. subst vip.
  unfold room_vip in Hv. rewrite Hsub, Hnet in Hv. injection Hv as Hv.
  pose proof (To4_IPv4 b0 b1 b2 o) as E4.
  unfold sendAssignIP. assert (vip_client (w_core w) (IPKey (cl_VirtualIP p)) = Some (l, p)) as ->
    by (by apply vip_client_Some).
  rewrite Hmask, Hsrv, <- Hv.
  edestruct (AssignIP_roundtrip (mkAssignIP (IPv4 b0 b1 b2 o) mask24 [b0; b1; b2; x01] AppVersion (cl_SessionToken p)))
    as (data & -> & Hu); [exact E4|reflexivity..|exact Ht|done|].
  exists (EncodeChecked TypeAssignIP data). cbn [register_loop]. rewrite DecodeChecked_EncodeChecked.
  unfold handleRegResponse. cbn [Type_ Payload]. change (bool_decide (TypeAssignIP = TypeAssignIP)) with true. cbn iota.
  unfold handleAssignIP. rewrite Hu. cbn [ap_VirtualIP ap_SubnetMask ap_ServerIP ap_SessionToken ap_Version].
  change (IsCompatible AppVersion AppVersion) with true. cbn [negb].
  rewrite !Contains_24. change (To4 [b0; b1; b2; o]) with (Some [b0; b1; b2; o]).
  change (To4 [b0; b1; b2; x01]) with (Some [b0; b1; b2; x01]). cbn [bool_decide is_Some_dec negb orb].
  destruct (init_ciphers_total rand (t_session (rg_tunnel r)) Hrand) as [crypto ->].
  eexists. split.
  { unfold sendChecked, queue_send, rlq_send, sq_send. destruct (Z.ltb_spec (Z.of_nat (length (sq_ch (rlq_sq (w_q w)))))
      (sq_maxSize (rlq_sq (w_q w)))); [done|lia]. }
  split; [reflexivity|]. cbn. split_and!; try done.
Qed.

(** ** The challenge *)

Lemma has_byte_v4 b1 b2 b3 b4 : has_byte (v4_string [b1; b2; b3; b4]) c_colon = false.
Proof.
  unfold has_byte. assert (index_byte (v4_string [b1; b2; b3; b4]) c_colon = None) as ->; [|done].
  by apply index_byte_None, v4_string_no.
Qed.

Lemma UDPAddr_String_v4 a : v4_addr a → ua_Zone a = [] → UDPAddr_String a = AppendAddrStr [] a.
Proof.
  intros [[v Hv] _] Hz. destruct (To4_quad _ _ Hv) as (b1 & b2 & b3 & b4 & ->).
  rewrite (AppendAddrStr_v4 _ _ _ _ _ Hv). unfold UDPAddr_String. rewrite Hz.
  assert (match ua_IP a with [] => [] | _ => IP_String (ua_IP a) end = v4_string [b1; b2; b3; b4]) as ->.
  { unfold IP_String. rewrite Hv. by destruct (ua_IP a). }
  unfold JoinHostPort. by rewrite has_byte_v4.
Qed.

Lemma UDPAddr_String_norm a : v4_addr a → ua_Zone a = [] → UDPAddr_String (norm_addr a) = UDPAddr_String a.
Proof.
  intros Ha Hz. assert (v4_addr (norm_addr a)) as Hn.
  { destruct Ha as [[v Hv] Hp]. split; [|done]. cbn. rewrite Hv. cbn.
    destruct (To4_quad _ _ Hv) as (b1 & b2 & b3 & b4 & ->). by eexists. }
  rewrite !UDPAddr_String_v4 by done. destruct Ha as [[v Hv] _].
  destruct (To4_quad _ _ Hv) as (b1 & b2 & b3 & b4 & ->).
  rewrite (AppendAddrStr_v4 a _ _ _ _ Hv). rewrite (AppendAddrStr_v4 _ b1 b2 b3 b4); [done|].
  cbn [ua_IP norm_addr]. by rewrite Hv.
Qed.

Lemma handshake_code s from challenge key :
  ss_roomPass s ≠ [] → DeriveKey (ss_roomPass s) (ss_roomID s) = Some key →
  v4_addr from → ua_Zone from = [] → Z.of_nat (length challenge) < 65536 →
  Z.of_nat (length (ss_roomID s)) < 65536 → Z.of_nat (length (ss_username s)) < 65536 →
  ∃ resp, (∀ R : NetResolver, handleAuthChallenge (AuthChallengePayload_Marshal (mkAuthChallenge challenge (UDPAddr_String from))) s
    = inr (EncodeChecked TypeAuthResponse (AuthResponsePayload_Marshal resp))) ∧
    UnmarshalAuthResponse (AuthResponsePayload_Marshal resp) = Ok resp ∧
    ar_RoomID resp = ss_roomID s ∧ ar_Username resp = ss_username s ∧ length (ar_HMAC resp) = HMACSize ∧
    VerifyHMAC (Some key) (ar_HMAC resp) challenge (ss_roomID s) (ss_username s) (Some from) = true.
Proof.
  intros Hp Hk Ha Hz Hc Hr Hu.
  assert (length key = KeySize) as Hlk by (pose proof (DeriveKey_spec (ss_roomPass s) (ss_roomID s)) as Hs;
    rewrite Hk in Hs; apply Hs).
  pose proof (length_AppendAddrStr from Ha) as Hla. rewrite <- UDPAddr_String_v4 in Hla by done.
  set (code := HMAC_SHA256 key (transcript challenge (ss_roomID s) (ss_username s) (Some (UDPAddr_String from)))).
  assert (length code = HMACSize) as Hlc by apply length_HMAC.
  exists (mkAuthResponse (ss_roomID s) (ss_username s) code). split_and!; [|..|done|done|done|].
  - intros R. unfold handleAuthChallenge.
    rewrite AuthChallenge_roundtrip by (cbn; lia). cbn [ClientAddr Challenge].
    assert (match UDPAddr_String from with [] => None | _ => ResolveUDPAddr (UDPAddr_String from) end = Some (norm_addr from)) as E.
    { rewrite UDPAddr_String_v4 by done. rewrite ResolveUDPAddr_string by done.
      pose proof (AppendAddrStr_ne from Ha). by destruct (AppendAddrStr [] from). }
    destruct (UDPAddr_String from) as [|u0 us] eqn:Es; [done|]. rewrite E. clear E.
    destruct (ss_roomPass s) as [|p0 pass]; [done|]. rewrite Hk.
    do 3 f_equal. unfold ComputeHMAC. rewrite UDPAddr_String_norm by done.
    unfold MaxUint16. destruct key as [|k0 key]; [done|].
    repeat match goal with |- context [?a <? ?b] => destruct (Z.ltb_spec a b); [rewrite ?Es in *; lia|] end.
    cbn [orb default id]. unfold code. by rewrite Es.
  - apply AuthResponse_roundtrip; cbn; rewrite ?Hlc; unfold HMACSize; lia.
  - unfold MaxUint16 in *. apply VerifyHMAC_spec; unfold MaxUint16; [done|lia..|done].
Qed.

(** What admitting an authenticated client leaves when a host is free and random bytes are
    available: a registered player. *)
Lemma admit_spec `{Env, MapRange} l0 c from w b :
  core_ok (w_cfg w) (w_core w) → (size (clients (w_core w)) < 253)%nat → rand_bytes = Some b →
  let w' := admitAuthenticated (AddrToRateKey from) None l0 c from w in
  ∃ vip l' c', clients (w_core w) !! IPKey vip = None ∧
    vip_client (w_core w') (IPKey vip) = Some (l', c') ∧ addr_client (w_core w') (AddrToRateKey from) = Some (l', c') ∧
    cl_auth c' = authNone ∧ cl_VirtualIP c' = vip ∧ cl_PublicAddr c' = Some from ∧
    cl_Username c' = cl_Username c ∧ cl_authRoomID c' = cl_authRoomID c ∧
    cl_SessionToken c' = copy_into (zeros 16) b ∧
    size (clients (w_core w')) = S (size (clients (w_core w))).
Proof.
  intros Hok Hfew Hrand. cbv zeta. unfold admitAuthenticated. cbn [default from_option id].
  set (w1 := on_core _ w). set (reg := mkRegister _ _ _).
  assert (nextAvailableIP (w_cfg w1) (w_core w1) = nextAvailableIP (w_cfg w) (w_core w)) as Hn.
  { unfold w1, w_cfg, w_core. cbn. by core_forms. }
  assert (clients (w_core w1) = clients (w_core w)) as Hcl by (unfold w1, w_core; cbn; by core_forms).
  destruct (nextAvailableIP (w_cfg w) (w_core w)) as [vip|] eqn:Hvip.
  2: { apply (no_vip_full _ _ Hok) in Hvip. lia. }
  destruct (next_vip_least _ _ _ Hok Hvip) as (o & _ & _ & Hfree & _).
  destruct (doRegister_spec reg from w1 vip b Hn Hrand) as (w2 & l' & c' & -> & Hspec); [by rewrite Hcl|].
  destruct Hspec as (? & ? & ? & ? & ? & ? & ? & ? & _ & _ & Hsz). rewrite Hcl in Hsz.
  exists vip, l', c'. rewrite announce_core. by split_and!.
Qed.

(** C5: A client that registers with the name, room and password of a player the server
    has challenged answers the challenge packet of that server, and the server admits
    it: the client becomes a player with a free virtual address, its name and room, at
    its endpoint, with a fresh session token.  The answer has to arrive within 15
    seconds, from the endpoint that was challenged, an IPv4 address; the room must have a
    place, the name must be free in it, fewer than 253 players may be in, random bytes
    must be available, and the names and the challenge are shorter than 65536 bytes. *)
Theorem client_answer_admitted `{NetResolver, Env, MapRange} rand packet retries rounds (r : RegState) evs from w l c b :
  room_ok w → addr_client (w_core w) (AddrToRateKey from) = Some (l, c) →
  cl_auth c = authChallengeSent → cl_PublicAddr c = Some from → now - cl_challengeAt c ≤ 15 * Second →
  checkCapacityAndDuplicate (w_cfg w) (w_core w) (cl_Username c) (cl_authRoomID c) = checkOK →
  (size (clients (w_core w)) < 253)%nat → rand_bytes = Some b →
  v4_addr from → ua_Zone from = [] →
  Z.of_nat (length (cl_challenge c)) < 65536 → Z.of_nat (length (cl_authRoomID c)) < 65536 →
  Z.of_nat (length (cl_Username c)) < 65536 →
  identity (rg_tunnel r) = (cl_Username c, cl_authRoomID c, r_roomPass (w_cfg w)) → r_roomPass (w_cfg w) ≠ [] →
  rounds < maxAuthRounds →
  let challenge := EncodeChecked TypeAuthChallenge
    (AuthChallengePayload_Marshal (mkAuthChallenge (cl_challenge c) (UDPAddr_String from))) in
  ∃ resp vip l' c',
    register_loop rand packet retries rounds r (RgData challenge :: evs)
      = register_loop rand packet 0 (rounds + 1)
          (mkReg (rg_tunnel r) (rg_out r ++ [EncodeChecked TypeAuthResponse resp])) evs ∧
    let w' := handleAuthResponse resp from w in
    clients (w_core w) !! IPKey vip = None ∧
    vip_client (w_core w') (IPKey vip) = Some (l', c') ∧ addr_client (w_core w') (AddrToRateKey from) = Some (l', c') ∧
    cl_auth c' = authNone ∧ cl_VirtualIP c' = vip ∧ cl_PublicAddr c' = Some from ∧
    cl_Username c' = cl_Username c ∧ cl_authRoomID c' = cl_authRoomID c ∧
    cl_SessionToken c' = copy_into (zeros 16) b ∧
    size (clients (w_core w')) = S (size (clients (w_core w))).
Proof.
  intros [Hok Hkeys] Ha Hauth Hpub Htime Hck Hfew Hrand Hv4 Hz Lc Lr Lu [= Iu Ir Ip] Hne Hrounds. cbv zeta.
  destruct (DeriveKey (ss_roomPass (t_session (rg_tunnel r))) (ss_roomID (t_session (rg_tunnel r)))) as [key|] eqn:Hk;
    [|by pose proof (DeriveKey_spec (ss_roomPass (t_session (rg_tunnel r))) (ss_roomID (t_session (rg_tunnel r)))) as Hs;
      rewrite Hk in Hs; congruence].
  destruct (handshake_code (t_session (rg_tunnel r)) from (cl_challenge c) key)
    as (resp & Hans & Hun & Hroom & Huser & Hlen & Hver); [first [done|by rewrite ?Ip, ?Ir, ?Iu]..|].
  set (w1 := on_room (fun _ => (getAuthKey (w_room w) (cl_authRoomID c)).2) w).
  destruct (pres_authKey w (cl_authRoomID c)) as [[Hcfg _] Hcore]. cbn zeta in Hcfg, Hcore. fold w1 in Hcfg, Hcore.
  destruct (admit_spec l c from w1 b) as (vip & l' & c' & Hadm); [by rewrite Hcfg, Hcore|by rewrite Hcore|done|].
  rewrite Hcore in Hadm. exists (AuthResponsePayload_Marshal resp), vip, l', c'. split; [clear Hadm|].
  - cbn [register_loop]. rewrite DecodeChecked_EncodeChecked. unfold handleRegResponse. cbn [Type_ Payload].
    change (bool_decide (TypeAuthChallenge = TypeAssignIP)) with false.
    change (bool_decide (TypeAuthChallenge = TypeAuthChallenge)) with true. cbn iota.
    destruct (Z.ltb_spec maxAuthRounds (rounds + 1)); [lia|]. by rewrite Hans.
  - enough (handleAuthResponse (AuthResponsePayload_Marshal resp) from w
            = admitAuthenticated (AddrToRateKey from) None l c from w1) as -> by exact Hadm. clear Hadm.
    unfold handleAuthResponse. rewrite Hun, Hlen, Nat.eqb_refl.
    rewrite (findPending_direct _ _ _ _ _ Ha (or_introl Hauth)). cbn [negb].
    rewrite bool_decide_eq_true_2 by done. cbn [negb].
    destruct (Z.ltb_spec (15 * Second) (now - cl_challengeAt c)); [lia|].
    pose proof (getAuthKey_spec w (cl_authRoomID c) Hkeys) as Hg.
    rewrite Ip, Ir in Hk. rewrite Hk in Hg.
    destruct (getAuthKey (w_room w) (cl_authRoomID c)) as [k' r']. cbn [fst snd] in *. subst k'.
    rewrite Hroom, Huser, Iu, Ir, Hpub in *. rewrite Hver. cbn [negb]. fold w1. rewrite Hcfg, Hcore, Hck. done.
Qed.

(** *** Witnesses *)

Lemma assigned_address_accepted_witness :
  ∃ data t', @register_loop no_resolver ex_rand [] 0 0 (mkReg (ex_joining "alice" []) []) [RgData data]
      = Some (inr (mkReg t' [])) ∧
    IPKey (ss_virtualIP (t_session t')) = IPKey (ex_vip x02).
Proof.
  destruct (@assigned_address_accepted ex_env2 _ no_resolver ex_rand (ex_config []) ex_both
    (IPKey (ex_vip x02)) 0 (client_of 0 ex_both) (ex_addr x01) [] 0 0 (mkReg (ex_joining "alice" []) []) [])
    as (data & t' & _ & Ha & _ & Hk & _).
  - intros i. by eexists.
  - apply ex_ipv4.
  - apply ex_reachable.
  - vm_compute. reflexivity.
  - vm_compute. reflexivity.
  - vm_compute. reflexivity.
  - vm_compute. reflexivity.
  - exists data, t'. split; [exact Ha|exact Hk].
Defined.

Definition ex_pending : Client := Eval vm_compute in client_of 0 ex_challenged.

Lemma ex_challenged_facts :
  addr_client (w_core ex_challenged) (AddrToRateKey (ex_addr x01)) = Some (0%nat, ex_pending) ∧
  checkCapacityAndDuplicate (w_cfg ex_challenged) (w_core ex_challenged) (str "alice") (str "lan") = checkOK.
Proof. vm_compute. done. Qed.

Lemma ex_challenged_ok : room_ok ex_challenged ∧ r_roomPass (w_cfg ex_challenged) = ex_pass.
Proof.
  assert (reachable (ex_config ex_pass) ex_challenged) as R by apply reach_step, ex_reachable0.
  destruct (reachable_ok _ _ (ex_ipv4 _) R) as (Hok & _ & _ & Hp). split; [exact Hok|exact Hp].
Qed.

Lemma client_answer_admitted_witness :
  ∃ resp vip l c, vip_client (w_core (@handleAuthResponse ex_env2 _ resp (ex_addr x01) ex_challenged)) (IPKey vip)
    = Some (l, c) ∧ cl_Username c = str "alice".
Proof.
  destruct ex_challenged_facts as [Ha Hck]. destruct ex_challenged_ok as [Hok Hp].
  destruct (@client_answer_admitted no_resolver ex_env2 _ ex_rand [] 0 0 (mkReg (ex_joining "alice" ex_pass) []) []
    (ex_addr x01) ex_challenged 0 ex_pending (replicate 16 x02)) as (resp & vip & l & c & _ & _ & Hv & _ & _ & _ & _ & Hu & _).
  - exact Hok.
  - exact Ha.
  - reflexivity.
  - reflexivity.
  - vm_compute. discriminate.
  - exact Hck.
  - vm_compute. lia.
  - reflexivity.
  - split; [exists [xcb; x00; x71; x01]; reflexivity|vm_compute; split; [discriminate|reflexivity]].
  - reflexivity.
  - reflexivity.
  - reflexivity.
  - reflexivity.
  - rewrite Hp. reflexivity.
  - rewrite Hp. discriminate.
  - reflexivity.
  - exists resp, vip, l, c. split; [exact Hv|exact Hu].
Defined.
