(* ===== verification/Delivery.v ===== *)
(** * Delivery: a packet from one TUN device to another

    The sending client (src/internal/client/route.go, recv.go), the relay of the server
    (src/internal/server/room_relay.go) and the receiving client (recv.go, recv_data.go)
    composed: what one part writes is what the next part reads. *)

From S2P Require Import Prelude GoNet Crc32 Protocol Messages MessagesData MessagesPeer NetUtil RateLimit Float64 Bandwidth SendQueue Sha256 Auth Cipher I18n Client Room RoomHandlers RoomIP RoomInv RoomSafe RoomExample RoomSpec RoomRelay Persist Subnet Server ServerExample Route NatProbe ClientLimit Tunnel TunnelReg Handshake.

(** ** The packet a client builds *)

Section packets.
Context `{AEAD}.

(** The data of a packet as it travels. *)
Definition sealed (cipher : option Cipher) (pkt : list byte) : list byte :=
  match cipher with
  | Some c => packet_of (c_key c) (c_dirTag c) (u64 (c_counter c + 1)) pkt
  | None => pkt
  end.
Definition next_cipher (c : Cipher) : Cipher :=
  mkCipher (c_key c) (u64 (c_counter c + 1)) (c_dirTag c) (c_replayCounter c) (c_replayBitmap c).

(** The frame of a data packet: with a checksum when it is not encrypted. *)
Definition data_frame (encrypted : bool) (payload : list byte) : list byte :=
  if encrypted then Encode TypeData payload else EncodeChecked TypeData payload.
Definition data_payload (cipher : option Cipher) (s d token pkt : list byte) : list byte :=
  data_wire s d (data_flags x00 token) token (sealed cipher pkt).
Definition is_enc (cipher : option Cipher) : bool := match cipher with Some _ => true | None => false end.

Lemma header_length s d fl token :
  length s = 4%nat → length d = 4%nat → length token = 16%nat → has_token fl = token_set token →
  length ([ProtocolVersion; TypeData] ++ data_wire s d fl token []) = (12 + token_len token)%nat.
Proof.
  intros Hs Hd Ht Hfl. rewrite length_app, length_data_wire by done. rewrite Hfl. unfold token_len.
  destruct (token_set token); cbn [length]; lia.
Qed.

Lemma buildPacket_eq buf srcIP dstIP s d data cipher token :
  To4 srcIP = Some s → To4 dstIP = Some d → length token = 16%nat →
  (packet_size data cipher token ≤ length buf)%nat →
  buildPacket buf srcIP dstIP data cipher x00 token
  = (Some (data_frame (is_enc cipher) (data_payload cipher s d token data)), next_cipher <$> cipher).
Proof.
  intros Hs Hd Ht Hlen. pose proof (To4_length _ _ Hs) as Ls. pose proof (To4_length _ _ Hd) as Ld.
  unfold buildPacket, packet_size, data_frame, data_payload, is_enc in *. destruct cipher as [c|]; cbn [sealed fmap option_fmap option_map].
  - unfold buildEncryptedDataPacket. set (size := (_ + _ + _ + _ + _)%nat) in *. set (fl := data_flags x00 token).
    pose proof (buildDataHeader_eq (take size buf) srcIP dstIP s d fl token Hs Hd Ht) as Hb. cbv zeta in Hb.
    assert (data_flags fl token = fl) as Hi by apply data_flags_idem. rewrite Hi in Hb.
    pose proof (header_length s d fl token Ls Ld Ht (has_token_data_flags token)) as Hh.
    unfold size, HeaderLen, DataHeaderLen, Overhead, NonceSize, TagSize in *. clear size.
    rewrite Hb by (rewrite Hh, length_take; lia). rewrite take_app_length. rewrite Hh.
    unfold EncryptTo, Overhead, NonceSize, TagSize.
    destruct (Nat.ltb_spec (length buf - (12 + token_len token)) (1 + 12 + 16 + length data)); [lia|].
    cbn [makeNonce c_key]. do 2 f_equal. rewrite Encode_eq. unfold data_wire, packet_of. by rewrite <- !app_assoc.
  - do 2 f_equal. apply buildDataPacket_eq; [done..|]. unfold packet_size in Hlen. lia.
Qed.

(** What a receiver with the same key makes of the data. *)
Lemma decrypt_packet t c key dirTag ctr pt :
  p2pCipher (t_crypto t) = Some c → c_key c = key → length dirTag = 4%nat → 0 ≤ ctr < 2 ^ 64 → c_replayCounter c < ctr →
  ∃ c', decrypt_payload (packet_of key dirTag ctr pt) t = (Some pt, set_p2p (Some c') t) ∧
    c_key c' = key ∧ c_replayCounter c' = ctr.
Proof.
  intros Hc Hk Hd Hr Hlt. unfold decrypt_payload. rewrite Hc.
  change (IsEncrypted (packet_of key dirTag ctr pt)) with true. cbn iota.
  pose proof (Decrypt_packet c key dirTag ctr pt Hk Hd Hr) as E. unfold Decrypt in E. rewrite E.
  unfold checkReplayWindow. destruct (Z.ltb_spec (c_replayCounter c) ctr); [|lia]. eexists. by split_and!.
Qed.
End packets.

(** ** Sending *)

Section sending.
Context `{Env} `{MapRange} `{NetResolver} `{AEAD} `{PktBufs}.

Lemma isRelayTarget_total n dst :
  length dst = 4%nat → length (net_Mask n) = 4%nat → is_Some (To4 (net_IP n)) →
  ∃ b, isRelayTarget (E:=perr) dst (Some n) = Ok b.
Proof.
  intros Hd Hm [s Hs]. unfold isRelayTarget. rewrite To4_4 by done. destruct (IP_Equal dst IPv4bcast); [by eexists|].
  rewrite Hs. destruct (bcast4 (E:=perr) n s _ Hs Hm eq_refl) as [-> _]. rewrite go_bind_ok.
  destruct (IP_Equal _ _); by eexists.
Qed.

(** The destinations the server fans out, and its own address. *)
Definition relayed_dst (t : Tunnel) (dst : list byte) : bool :=
  bool_decide (IPKey dst = IPKey (ss_serverIP (t_session t))) ||
  match isRelayTarget (E:=perr) dst (ss_cachedSubnet (t_session t)) with Ok b => b | _ => false end.

(** Where a packet goes. *)
Definition route_addr (t : Tunnel) (dst : list byte) : option UDPAddr :=
  if relayed_dst t dst then t_serverAddr t
  else match direct_addr t (IPKey dst) with Some a => Some a | None => t_serverAddr t end.

Lemma routePacket_eq pkt src dst t :
  session_ok t → length dst = 4%nat →
  routePacket pkt src dst t = Ok (send_packet pkt src dst (packet_token t) (route_addr t dst) t).
Proof.
  intros Hok Hd. destruct (ok_vip _ Hok) as (v & n & _ & Hn & _ & Hm & Hs & _). destruct (ok_server _ Hok) as [_ Hk].
  unfold routePacket, route_addr, relayed_dst, sendToServer. rewrite Hn, Hk. cbn [default id].
  destruct (isRelayTarget_total n dst Hd Hm Hs) as [b ->].
  case_bool_decide; cbn [orb mbind go_bind mret go_ret]; [done|]. destruct b; [done|]. by destruct (direct_addr t (IPKey dst)).
Qed.

Lemma packet_token_length t : session_ok t → length (packet_token t) = 16%nat.
Proof. intros Hok. unfold packet_token. destruct (_ <=? _); [by apply ok_token|done]. Qed.

(** The send limiter has the tokens for [n] bytes. *)
Definition can_send (n : nat) (t : Tunnel) : Prop :=
  match sendLimiter t with Some l => Z.of_nat n ≤ sl_tokens l | None => True end.

Lemma frame_length cipher s d token pkt :
  length s = 4%nat → length d = 4%nat → length token = 16%nat →
  (∀ c, cipher = Some c → length (c_dirTag c) = 4%nat) →
  length (data_frame (is_enc cipher) (data_payload cipher s d token pkt)) = packet_size pkt cipher token.
Proof.
  intros Hs Hd Ht Hdir. unfold data_frame, data_payload, is_enc, packet_size, token_len.
  unfold HeaderLen, DataHeaderLen, ChecksumLen, Overhead, NonceSize, TagSize.
  pose proof (has_token_data_flags token) as Hf. destruct cipher as [c|]; cbn [sealed].
  - specialize (Hdir c eq_refl). rewrite Encode_eq. cbn [length]. rewrite length_data_wire, Hf by done.
    unfold packet_of. rewrite !length_app, length_put_le, length_Seal, Hdir. unfold TagSize. cbn [length].
    destruct (token_set token); lia.
  - rewrite EncodeChecked_length, length_data_wire, Hf by done. destruct (token_set token); lia.
Qed.

Lemma limiter_can_send n t : can_send n t → ∃ l, limiter_allow now (sendLimiter t) (Z.of_nat n) = (true, l).
Proof.
  unfold can_send, limiter_allow. destruct (sendLimiter t) as [l|]; [|by eexists].
  intros Hle. destruct (Z.leb_spec (Z.of_nat n) (sl_tokens l)); [by eexists|lia].
Qed.

Lemma send_packet_eq pkt src dst s d token addr t :
  To4 src = Some s → To4 dst = Some d → length token = 16%nat →
  (∀ c, p2pCipher (t_crypto t) = Some c → length (c_dirTag c) = 4%nat) →
  can_send (packet_size pkt (p2pCipher (t_crypto t)) token) t →
  Z.of_nat (length (sendCh t)) < sendChanSize →
  ∃ l, send_packet pkt src dst token addr t
  = let c := p2pCipher (t_crypto t) in
    set_sendCh (sendCh t ++ [mkSendJob (data_frame (is_enc c) (data_payload c s d token pkt)) addr])
      (set_limiter l (set_p2p (next_cipher <$> c) t)).
Proof.
  intros Hs Hd Ht Hdir Hl Hr. unfold send_packet.
  rewrite (buildPacket_eq _ src dst s d) by (done || (pose proof (pktbuf_length (packet_size pkt (p2pCipher (t_crypto t)) token)); lia)).
  cbn [default id]. unfold sendUDP. cbn [sendLimiter set_p2p set_crypto set_limiter].
  rewrite frame_length by (done || by eapply To4_length). destruct (limiter_can_send _ _ Hl) as [l ->]. cbn [negb].
  cbn [sendCh set_limiter set_p2p set_crypto]. destruct (Z.ltb_spec (Z.of_nat (length (sendCh t))) sendChanSize); [|lia].
  by exists l.
Qed.
End sending.

(** ** Receiving *)

Section receiving.
Context `{Env} `{MapRange} `{NetResolver} `{AEAD} `{PktBufs}.

Lemma same_addr_refl a : same_addr a a = true.
Proof. unfold same_addr. by rewrite IP_Equal_refl, Z.eqb_refl. Qed.

(** A packet that is not for 255.255.255.255 is not rewritten. *)
Lemma rewriteBroadcast_id buf pkt subnet :
  take 4 (drop 16 pkt) ≠ [xff; xff; xff; xff] → rewriteBroadcast (E:=perr) buf pkt subnet = Ok (pkt, false).
Proof.
  intros Hne. unfold rewriteBroadcast. destruct subnet as [n|]; [|done].
  destruct (Nat.ltb_spec (length pkt) 20) as [|Hl]; [done|]. destruct (_ || _); [done|].
  destruct (Z.eqb_spec (get_be (take 4 (drop 16 pkt))) 0xFFFFFFFF) as [E|]; [|done]. exfalso. apply Hne.
  assert (length (take 4 (drop 16 pkt)) = 4%nat) as H4 by (rewrite length_take, length_drop; lia).
  destruct (take 4 (drop 16 pkt)) as [|a [|b [|c [|d [|]]]]]; try discriminate.
  change (get_be [a; b; c; d]) with (b2z d + 256 * (b2z c + 256 * (b2z b + 256 * (b2z a + 256 * 0)))) in E.
  pose proof (b2z_range a). pose proof (b2z_range b). pose proof (b2z_range c). pose proof (b2z_range d).
  assert (∀ x, b2z x = 255 → x = xff) as Hff by (intros x Hx; by apply (inj b2z)).
  by rewrite (Hff a), (Hff b), (Hff c), (Hff d) by lia.
Qed.

(** What a receiver needs to read the packets of a sender whose cipher is
    [cipher]: no cipher, or the same key and a replay window below the counter. *)
Definition can_read (cipher : option Cipher) (t : Tunnel) : Prop :=
  match cipher with
  | None => p2pCipher (t_crypto t) = None ∧ decCipher (t_crypto t) = None
  | Some c => is_Some (decCipher (t_crypto t)) ∧ length (c_dirTag c) = 4%nat ∧ 0 ≤ c_counter c < 2 ^ 64 - 1 ∧
      ∃ c2, p2pCipher (t_crypto t) = Some c2 ∧ c_key c2 = c_key c ∧ c_replayCounter c2 < c_counter c + 1
  end.

Lemma receive_data sa t cipher s d token pkt :
  can_read cipher t → tunDev t = true → length s = 4%nat → length d = 4%nat → length token = 16%nat →
  (20 ≤ length pkt)%nat → take 4 (drop 16 pkt) ≠ [xff; xff; xff; xff] →
  ∃ t', receive_datagram (data_frame (is_enc cipher) (data_payload cipher s d token pkt)) sa sa t = Ok t' ∧
    tun_out t' = tun_out t ++ [pkt] ∧ tunDev t' = true ∧ decCipher (t_crypto t') = decCipher (t_crypto t) ∧
    match cipher with
    | None => True
    | Some c => ∃ c2, p2pCipher (t_crypto t') = Some c2 ∧ c_key c2 = c_key c ∧ c_replayCounter c2 = c_counter c + 1
    end.
Proof.
  intros Hr Htun Hs Hd Ht Hl Hne. unfold receive_datagram.
  assert ((if decAvailable (t_crypto t) then Decode (data_frame (is_enc cipher) (data_payload cipher s d token pkt))
           else DecodeChecked (data_frame (is_enc cipher) (data_payload cipher s d token pkt)))
          = Ok (mkMessage TypeData (data_payload cipher s d token pkt))) as ->.
  { unfold decAvailable, data_frame, is_enc. destruct cipher as [c|]; cbn in Hr.
    - destruct Hr as [[x Hx] _]. rewrite Hx, Encode_eq. by rewrite Decode_header.
    - destruct Hr as [_ Hx]. rewrite Hx. by rewrite DecodeChecked_EncodeChecked. }
  cbn [Type_ Payload]. unfold from_server. rewrite same_addr_refl. cbn [orb]. unfold handleServerData. cbn [Type_ Payload].
  set (t1 := markServerResponse t).
  change (bool_decide (TypeData = TypePeerInfo)) with false. change (bool_decide (TypeData = TypeData)) with true. cbn iota.
  unfold handleDataFromServer. unfold data_payload. rewrite UnmarshalData_wire by done. cbn [dp_Data].
  assert (length (sealed cipher pkt) ≠ 0%nat) as Hnz.
  { unfold sealed, packet_of. destruct cipher; [cbn; lia|lia]. }
  destruct (Nat.eqb_spec (length (sealed cipher pkt)) 0); [done|].
  change (tunDev t1) with (tunDev t). rewrite Htun. cbn [negb]. unfold decryptWriteAndRelease. cbn [dp_Data].
  change (tunDev t1) with (tunDev t). rewrite Htun. cbn [negb].
  assert (∃ o, decrypt_payload (sealed cipher pkt) t1 = (Some pkt, set_p2p o t1) ∧
    match cipher with
    | None => True
    | Some c => ∃ c2, o = Some c2 ∧ c_key c2 = c_key c ∧ c_replayCounter c2 = c_counter c + 1
    end) as (o & -> & Ho).
  { destruct cipher as [c|]; cbn [sealed].
    - destruct Hr as (_ & Hdir & Hc & c2 & Hc2 & Hk & Hlt).
      assert (u64 (c_counter c + 1) = c_counter c + 1) as -> by (apply Z.mod_small; lia).
      destruct (decrypt_packet t1 c2 (c_key c) (c_dirTag c) (c_counter c + 1) pkt Hc2 Hk Hdir) as (c' & -> & ? & ?); [lia|lia|].
      exists (Some c'). split; [done|]. by exists c'.
    - destruct Hr as [Hp _]. exists None. split; [|done]. unfold decrypt_payload. change (t_crypto t1) with (t_crypto t). rewrite Hp.
      f_equal. unfold t1, set_p2p. destruct t as [? [? ? ?]]. cbn in *. by subst. }
  rewrite rewriteBroadcast_id by done. rewrite go_bind_ok. eexists. by split_and!.
Qed.

(** The same for a packet below the replay window: it is dropped. *)
Lemma receive_old sa t c c2 s d token pkt :
  is_Some (decCipher (t_crypto t)) → p2pCipher (t_crypto t) = Some c2 →
  length s = 4%nat → length d = 4%nat → length token = 16%nat → length (c_dirTag c) = 4%nat →
  0 ≤ c_counter c < 2 ^ 64 - 1 → c_key c2 = c_key c → replayWindowSize ≤ c_replayCounter c2 - (c_counter c + 1) →
  receive_datagram (data_frame true (data_payload (Some c) s d token pkt)) sa sa t = Ok (markServerResponse t).
Proof.
  intros [x Hx] Hc2 Hs Hd Ht Hdir Hc Hk Hold. unfold receive_datagram, decAvailable. rewrite Hx.
  unfold data_frame. rewrite Encode_eq. cbn [bool_decide is_Some_dec]. rewrite Decode_header. rewrite bool_decide_eq_true_2 by done.
  cbn [Type_ Payload]. unfold from_server. rewrite same_addr_refl. cbn [orb]. unfold handleServerData. cbn [Type_ Payload].
  change (bool_decide (TypeData = TypePeerInfo)) with false. change (bool_decide (TypeData = TypeData)) with true. cbn iota.
  unfold handleDataFromServer, data_payload. rewrite UnmarshalData_wire by done. cbn [dp_Data sealed].
  destruct (Nat.eqb_spec (length (packet_of (c_key c) (c_dirTag c) (u64 (c_counter c + 1)) pkt)) 0); [done|].
  set (t1 := markServerResponse t). destruct (tunDev t1) eqn:Htun; [|done]. cbn [negb].
  unfold decryptWriteAndRelease. rewrite Htun. cbn [negb dp_Data]. unfold decrypt_payload.
  change (t_crypto t1) with (t_crypto t). rewrite Hc2.
  change (IsEncrypted (packet_of (c_key c) (c_dirTag c) (u64 (c_counter c + 1)) pkt)) with true. cbn iota.
  assert (u64 (c_counter c + 1) = c_counter c + 1) as -> by (apply Z.mod_small; lia).
  pose proof (Decrypt_packet c2 (c_key c) (c_dirTag c) (c_counter c + 1) pkt Hk Hdir ltac:(lia)) as E.
  unfold Decrypt in E. rewrite E. unfold checkReplayWindow.
  unfold replayWindowSize in *. destruct (Z.ltb_spec (c_replayCounter c2) (c_counter c + 1)); [lia|].
  destruct (Z.leb_spec 64 (c_replayCounter c2 - (c_counter c + 1))); [|lia].
  f_equal. unfold t1. destruct t as [? [? ? ?]]. cbn in *. by subst.
Qed.
End receiving.

(** ** End to end *)

Section end_to_end.
Context `{Env} `{MapRange} `{NetResolver} `{AEAD} `{PktBufs}.

Lemma wire_src_dst s d fl token data :
  length s = 4%nat → length d = 4%nat →
  src_of (data_wire s d fl token data) = s ∧ dst_of (data_wire s d fl token data) = d.
Proof.
  intros Hs Hd. unfold src_of, dst_of, data_wire. rewrite take_app_length', drop_app_length' by done.
  by rewrite take_app_length'.
Qed.

Lemma token_ok_wire c s d token data :
  length s = 4%nat → length d = 4%nat → length token = 16%nat → token = cl_SessionToken c →
  token_ok c (data_wire s d (data_flags x00 token) token data) = true.
Proof.
  intros Hs Hd Ht ->. unfold token_ok. destruct (_ && _); [|done].
  pose proof (length_data_wire s d (data_flags x00 (cl_SessionToken c)) (cl_SessionToken c) data Hs Hd Ht) as Hl.
  destruct (Nat.leb_spec (length (data_wire s d (data_flags x00 (cl_SessionToken c)) (cl_SessionToken c) data)) 8) as [Hle|_].
  { destruct (has_token _); lia. }
  unfold ParseDataHeader.
  destruct (data_wire_8 (E:=perr) s d (data_flags x00 (cl_SessionToken c)) (cl_SessionToken c) data Hs Hd) as [E8 E9].
  destruct (Nat.leb_spec (length (data_wire s d (data_flags x00 (cl_SessionToken c)) (cl_SessionToken c) data)) 8) as [Hle|_].
  { destruct (has_token _); lia. }
  rewrite E8. cbn [mbind go_bind]. rewrite bool_decide_eq_true_2 by done.
  destruct (Nat.leb_spec 10 (length (data_wire s d (data_flags x00 (cl_SessionToken c)) (cl_SessionToken c) data))) as [_|Hgt].
  2: { destruct (has_token _); lia. }
  rewrite E9. cbn [mbind go_bind mret go_ret]. destruct (has_token (data_flags x00 (cl_SessionToken c))) eqn:Hf; [|done].
  unfold DataHeaderLen, DataTokenLen. destruct (Nat.ltb_spec (length (data_wire s d (data_flags x00 (cl_SessionToken c)) (cl_SessionToken c) data)) (10 + 16)); [lia|].
  unfold data_wire. rewrite Hf. do 4 rewrite app_assoc. rewrite <- !app_assoc.
  assert (take 16 (drop 10 (s ++ d ++ [DataFormatVersion] ++ [data_flags x00 (cl_SessionToken c)] ++ cl_SessionToken c ++ data)) = cl_SessionToken c) as ->.
  { rewrite !app_assoc, <- (app_assoc _ (cl_SessionToken c)). rewrite drop_app_length' by lens. by rewrite take_app_length'. }
  unfold ValidateSessionToken. rewrite Ht. by rewrite bool_decide_eq_true_2.
Qed.

Lemma tun_job_batch_spec raw job :
  tun_job_batch raw = Some job →
  length (tj_srcIP job) = 4%nat ∧ length (tj_dstIP job) = 4%nat ∧ (20 ≤ length (tj_data job))%nat ∧
  take 4 (drop 16 (tj_data job)) = tj_dstIP job.
Proof.
  unfold tun_job_batch. destruct (ip_total_len raw) as [len|] eqn:Hlen; [|done]. cbn [mbind option_bind]. intros [= <-].
  assert (20 ≤ len ≤ length raw)%nat as Hb.
  { revert Hlen. unfold ip_total_len. repeat match goal with |- context [if ?b then _ else _] => destruct b eqn:?; [done|] end.
    intros [= <-]. repeat match goal with Hx : (_ || _) = false |- _ => apply orb_false_iff in Hx as [??] end.
    repeat match goal with Hx : (_ <? _)%nat = false |- _ => apply Nat.ltb_ge in Hx end. lia. }
  cbn [tj_data tj_srcIP tj_dstIP]. rewrite !length_take, !length_drop. split_and!; [lia..|].
  rewrite skipn_firstn_comm, firstn_firstn. by replace (Nat.min 4 (len - 16)) with 4%nat by lia.
Qed.

(** The room [r], at [rl], that the data packets of an endpoint go to. *)
Definition packet_room (s : Server) (from : UDPAddr) (rl : nat) (r : Room) : Prop :=
  heap s !! rl = Some r ∧
  if multiRoom (s_cfg s) then addrToRoom s !! AddrToRateKey from = Some rl ∧ r_stopped r = false
  else defaultRoom (s_cfg s) = Some rl.

(** A data packet that decodes reaches the relay of its room. *)
Lemma handlePacket_data s from rl r encrypted payload :
  packet_room s from rl r → cachedEncrypted (s_cfg s) = encrypted →
  handlePacket (data_frame encrypted payload) from s = in_room rl (handleRelay payload from) s.
Proof.
  intros [Hr Hroute] Henc.
  assert (dispatch (mkMessage TypeData payload) from s = in_room rl (handleRelay payload from) s) as Hd.
  { unfold dispatch. cbn [Type_ Payload]. change (bool_decide (TypeData = TypeNATProbe)) with false.
    change (bool_decide (TypeData = TypeRebind)) with false. cbn iota. destruct (multiRoom (s_cfg s)).
    - destruct Hroute as [Hroute Hs]. unfold handlePacketMultiRoom. cbn [Type_ Payload].
      change (bool_decide (TypeData = TypeRegister)) with false. cbn iota. unfold room_of. rewrite Hroute. cbn [mbind option_bind].
      rewrite Hr. cbn [mbind option_bind]. by rewrite Hs.
    - by rewrite Hroute. }
  unfold handlePacket. rewrite Henc. unfold data_frame. destruct encrypted.
  - rewrite Encode_eq, Decode_header. cbn [Type_]. change (pre_auth TypeData) with false. cbn iota. exact Hd.
  - by rewrite DecodeChecked_EncodeChecked.
Qed.

(** C1: End to end through the relay: an IPv4 packet that a player's TUN device
    produced for another player it has no direct path to is sent to the server, handled
    by it - in single-room or multi-room mode - and put once in its send queue for the
    other player's endpoint, and written unchanged to the other player's TUN device: in
    a room without a password, and in one with, where the packet is encrypted for the
    whole way and the replay window of the receiver is below the counter of the sender.
    The sender's limiter and queue, the server's send queue and its bandwidth limiter,
    which charges the packet twice, have to have room for it. *)
Theorem game_packet_delivered raw job t1 from s rl room l c l' d a t2 sa :
  tun_job_batch raw = Some job →
  (* the sender *)
  session_ok t1 → Z.of_nat (length (sendCh t1)) < sendChanSize →
  can_send (packet_size (tj_data job) (p2pCipher (t_crypto t1)) (packet_token t1)) t1 →
  direct_addr t1 (IPKey (tj_dstIP job)) = None →
  (* the server *)
  packet_room s from rl room →
  cachedEncrypted (s_cfg s) = bool_decide (r_roomPass (r_cfg room) ≠ []) →
  addr_client (r_core room) (AddrToRateKey from) = Some (l, c) → To4 (cl_VirtualIP c) = Some (tj_srcIP job) →
  cl_SessionToken c = packet_token t1 →
  IsRelayTargetRaw (E:=perr) (tj_dstIP job) (Some (r_subnet (r_cfg room))) = Ok false →
  vip_client (r_core room) (IPKey4 (tj_dstIP job)) = Some (l', d) → cl_PublicAddr d = Some a →
  relay_charge_ok (rlq_limiter (s_q s)) a
    (Z.of_nat (packet_size (tj_data job) (p2pCipher (t_crypto t1)) (packet_token t1))) = true →
  Z.of_nat (length (sq_ch (rlq_sq (s_q s)))) < sq_maxSize (rlq_sq (s_q s)) →
  (* the keys *)
  is_enc (p2pCipher (t_crypto t1)) = bool_decide (r_roomPass (r_cfg room) ≠ []) →
  can_read (p2pCipher (t_crypto t1)) t2 → tunDev t2 = true →
  ∃ frame frame' t1' t2',
    routePacket (tj_data job) (tj_srcIP job) (tj_dstIP job) t1 = Ok t1' ∧
    sendCh t1' = sendCh t1 ++ [mkSendJob frame (t_serverAddr t1)] ∧
    sq_ch (rlq_sq (s_q (handlePacket frame from s))) = sq_ch (rlq_sq (s_q s)) ++ [low_entry frame' a] ∧
    receive_datagram frame' sa sa t2 = Ok t2' ∧ tun_out t2' = tun_out t2 ++ [tj_data job].
Proof.
  intros Hjob Hok Hroom Hlim Hdir Hpr Hce Ha Hv Htok Hb Hd Hp Hsl Hsr Henc Hread Htun.
  destruct (tun_job_batch_spec raw job Hjob) as (Ls & Ld & Lp & Hdst).
  set (src := tj_srcIP job) in *. set (dst := tj_dstIP job) in *. set (pkt := tj_data job) in *.
  pose proof (packet_token_length t1 Hok) as Lt.
  assert (dst ≠ [xff; xff; xff; xff]) as Hnb.
  { intros E. unfold IsRelayTargetRaw in Hb. rewrite E in Hb. by rewrite bool_decide_eq_true_2 in Hb. }
  set (c1 := p2pCipher (t_crypto t1)) in *. set (tok := packet_token t1) in *.
  set (payload := data_payload c1 src dst tok pkt). set (w := mkWorld room (s_q s) false).
  exists (data_frame (is_enc c1) payload), (relay_frame (w_cfg w) payload).
  assert (relay_frame (w_cfg w) payload = data_frame (is_enc c1) payload) as Hf.
  { unfold relay_frame, data_frame, w_cfg. cbn [w w_room]. rewrite Henc. by destruct (r_roomPass (r_cfg room)). }
  destruct (receive_data sa t2 c1 src dst tok pkt Hread Htun Ls Ld Lt) as (t2' & Hrcv & Hout & _); [lia|by rewrite Hdst|].
  assert (∀ c, c1 = Some c → length (c_dirTag c) = 4%nat) as Htag.
  { intros c0 Hc0. rewrite Hc0 in Hread. by destruct Hread as (_ & ? & _). }
  destruct (send_packet_eq pkt src dst src dst tok (t_serverAddr t1) t1) as [lim Hsend]; [by apply To4_4..|done|done|done|done|].
  eexists _, t2'. split_and!.
  - rewrite (routePacket_eq _ _ _ _ Hok Ld).
    assert (route_addr t1 dst = t_serverAddr t1) as -> by (unfold route_addr; rewrite Hdir; by destruct (relayed_dst t1 dst)).
    fold tok; rewrite Hsend. reflexivity.
  - done.
  - rewrite (handlePacket_data s from rl room _ payload Hpr) by by rewrite Hce, Henc.
    unfold in_room. rewrite (proj1 Hpr). cbn [s_q set_persistDirty set_q set_heap]. fold w.
    destruct (wire_src_dst src dst (data_flags x00 tok) tok (sealed c1 pkt) Ls Ld) as [Es Ed].
    change (rlq_sq (s_q s)) with (rlq_sq (w_q w)).
    apply (relay_unicast_delivers payload from w l c l' d a); unfold payload, data_payload; rewrite ?Es, ?Ed; try done.
    + rewrite length_data_wire by done. destruct (has_token _); lia.
    + apply token_ok_wire; done.
    + fold (data_payload c1 src dst tok pkt). fold payload. rewrite Hf. unfold payload. rewrite frame_length by done. exact Hsl.
  - by rewrite Hf.
  - done.
Qed.
End end_to_end.

(** *** Witness: Alice sends Bob a packet *)

#[export] Program Instance zero_bufs : PktBufs := {| pktbuf n := zeros (Nat.max n 512) |}.
Next Obligation. by rewrite length_zeros. Qed.

Definition ex_session (vip : list byte) (token : list byte) : session :=
  mkSession vip [x0a; x0a; x00; x01] (Some (IPKey [x0a; x0a; x00; x01])) mask24 (Some (mkIPNet [x0a; x0a; x00; x00] mask24))
    token AppVersion (str "alice") (str "lan") [].
Definition ex_tunnel (vip token : list byte) : Tunnel :=
  mkTunnel (ex_session vip token) (mkCrypto None None None) None (Some (EncodeChecked TypeHolePunch vip))
    ∅ (Some ex_server_addr) [] [] [] None None 0 0 0 false false true [] [].

Lemma ex_tunnel_ok o token : length token = 16%nat → session_ok (ex_tunnel [x0a; x0a; x00; o] token).
Proof.
  intros Ht. split.
  - exists [x0a; x0a; x00; o], (mkIPNet [x0a; x0a; x00; x00] mask24). split_and!; try reflexivity; [by eexists|].
    apply (Contains_24 x0a x0a x00 x00 o).
  - split; [by eexists|reflexivity].
  - exact Ht.
  - reflexivity.
  - reflexivity.
Qed.

Definition ex_ping : list byte :=
  [x45; x00; x00; x18; x00; x01; x00; x00; x40; x11; x00; x00; x0a; x0a; x00; x02; x0a; x0a; x00; x03] ++ str "ping".

(** A server with Alice and Bob, as New builds it, in an open room or in one with a
    password they gave. *)
Definition ex_enter (pass : list byte) (name : string) (last seed : byte) (t : Z) (s : Server) : Server :=
  let s := deliver t seed (ex_register_packet "lan" name) (ex_addr last) s in
  match pass with
  | [] => s
  | _ => deliver (t + 1) seed (EncodeChecked TypeAuthResponse (AuthResponsePayload_Marshal
           (mkAuthResponse (str "lan") (str name)
             (HMAC_SHA256 (default [] (DeriveKey pass (str "lan")))
               (transcript (replicate 16 seed) (str "lan") (str name) (Some (UDPAddr_String (ex_addr last)))))))) (ex_addr last) s
  end.
Definition ex_served (pass : list byte) : Server :=
  ex_enter pass "bob" x02 x22 3 (ex_enter pass "alice" x01 x11 1 (ex_srv pass false)).

(** Their tunnels: with ciphers of the same key where there is a password. *)
Definition ex_keyed (pass vip token : list byte) : Tunnel :=
  set_crypto
    (match DeriveKey pass (str "lan") with
     | None => mkCrypto None None None
     | Some key => mkCrypto (Some (mkCipher key 5 DirClientToServer 0 0)) (Some (mkCipher key 9 DirServerToClient 0 0))
                     (Some (mkCipher key 7 DirClientToClient 0 0))
     end)
    (set_session (mkSession vip [x0a; x0a; x00; x01] (Some (IPKey [x0a; x0a; x00; x01])) mask24
       (Some (mkIPNet [x0a; x0a; x00; x00] mask24)) token AppVersion (str "alice") (str "lan") pass) (ex_tunnel vip token)).
Lemma ex_keyed_ok pass o token : length token = 16%nat → session_ok (ex_keyed pass [x0a; x0a; x00; o] token).
Proof.
  intros Ht. destruct (ex_tunnel_ok o token Ht) as [H1 H2 H3 H4 _]. split; [done..|].
  cbn [ss_roomPass ss_roomID t_session t_crypto ex_keyed set_session set_crypto]. unfold ex_keyed. cbn [t_crypto set_crypto].
  destruct (DeriveKey pass (str "lan")) as [key|]; [|done]. eexists _, _, _. by split_and!.
Qed.

(** What the hypotheses of the delivery ask of the server. *)
Definition ex_view (s : Server) (n : Z) : option (nat * list byte * list byte * UDPAddr * list byte * bool * option bool * bool * bool) :=
  room ← heap s !! 0%nat;
  '(l, c) ← addr_client (r_core room) (AddrToRateKey (ex_addr x01));
  '(l', d) ← vip_client (r_core room) (IPKey4 [x0a; x0a; x00; x03]);
  a ← cl_PublicAddr d;
  Some (l, default [] (To4 (cl_VirtualIP c)), cl_SessionToken c, a, r_roomPass (r_cfg room), cachedEncrypted (s_cfg s),
    match IsRelayTargetRaw (E:=perr) [x0a; x0a; x00; x03] (Some (r_subnet (r_cfg room))) with Ok b => Some b | _ => None end,
    @relay_charge_ok ex_env3 (rlq_limiter (s_q s)) a n,
    Z.of_nat (length (sq_ch (rlq_sq (s_q s)))) <? sq_maxSize (rlq_sq (s_q s))).

Definition ex_size (pass : list byte) : nat :=
  packet_size ex_ping (p2pCipher (t_crypto (ex_keyed pass [x0a; x0a; x00; x02] (replicate 16 x11)))) (replicate 16 x11).

Lemma ex_served_view :
  ex_view (ex_served []) (Z.of_nat (ex_size []))
  = Some (0%nat, [x0a; x0a; x00; x02], replicate 16 x11, ex_addr x02, [], false, Some false, true, true) ∧
  ex_view (ex_served ex_pass) (Z.of_nat (ex_size ex_pass))
  = Some (1%nat, [x0a; x0a; x00; x02], replicate 16 x11, ex_addr x02, ex_pass, true, Some false, true, true).
Proof. split; vm_compute; reflexivity. Qed.
Lemma ex_served_single pass : pass = [] ∨ pass = ex_pass →
  multiRoom (s_cfg (ex_served pass)) = false ∧ defaultRoom (s_cfg (ex_served pass)) = Some 0%nat.
Proof. by intros [-> | ->]; vm_compute. Qed.

Definition ex_arrives (pass : list byte) : Prop :=
  ∃ frame' t2', @receive_datagram ex_env3 tag_only_aead _ frame' ex_server_addr ex_server_addr
      (ex_keyed pass [x0a; x0a; x00; x03] (zeros 16)) = Ok t2' ∧ tun_out t2' = [ex_ping].

Lemma game_packet_delivered_witness : ex_arrives [] ∧ ex_arrives ex_pass.
Proof.
  assert (∀ pass l, pass = [] ∨ pass = ex_pass →
    ex_view (ex_served pass) (Z.of_nat (ex_size pass))
    = Some (l, [x0a; x0a; x00; x02], replicate 16 x11, ex_addr x02, pass, bool_decide (pass ≠ []), Some false, true, true) →
    ex_arrives pass) as Hgen.
  { intros pass l Hpass Hview. destruct (ex_served_single pass Hpass) as [Hm Hdef]. unfold ex_view in Hview.
    destruct (heap (ex_served pass) !! 0%nat) as [room|] eqn:Hr; [|discriminate Hview]. cbn [mbind option_bind] in Hview.
    destruct (addr_client (r_core room) _) as [[l1 c]|] eqn:Ha; [|discriminate Hview]. cbn [mbind option_bind] in Hview.
    destruct (vip_client (r_core room) _) as [[l2 d]|] eqn:Hv; [|discriminate Hview]. cbn [mbind option_bind] in Hview.
    destruct (cl_PublicAddr d) as [a|] eqn:Hp; [|discriminate Hview]. cbn [mbind option_bind] in Hview.
    assert (∀ A (x y : A), Some x = Some y → x = y) as Hinj by (intros A x y E; by injection E).
    apply Hinj in Hview. apply pair_eq in Hview as [Hview Hq]. apply pair_eq in Hview as [Hview Hc].
    apply pair_eq in Hview as [Hview Hb]. apply pair_eq in Hview as [Hview Henc]. apply pair_eq in Hview as [Hview Hrp].
    apply pair_eq in Hview as [Hview Ea]. apply pair_eq in Hview as [Hview Htok]. apply pair_eq in Hview as [_ Hvip].
    assert (To4 (cl_VirtualIP c) = Some [x0a; x0a; x00; x02]) as Hvip'.
    { destruct (To4 (cl_VirtualIP c)); cbn in Hvip; [by rewrite Hvip|discriminate Hvip]. }
    assert (IsRelayTargetRaw (E:=perr) [x0a; x0a; x00; x03] (Some (r_subnet (r_cfg room))) = Ok false) as Hb'.
    { destruct (IsRelayTargetRaw _ _); [by injection Hb as ->|discriminate Hb..]. }
    destruct (@game_packet_delivered ex_env3 _ tag_only_aead _ ex_ping (mkTunJob ex_ping [x0a; x0a; x00; x02] [x0a; x0a; x00; x03])
      (ex_keyed pass [x0a; x0a; x00; x02] (replicate 16 x11)) (ex_addr x01) (ex_served pass) 0 room l1 c l2 d
      a (ex_keyed pass [x0a; x0a; x00; x03] (zeros 16)) ex_server_addr)
      as (f & frame' & t1' & t2' & _ & _ & _ & Hrcv & Ho).
    - reflexivity.
    - apply ex_keyed_ok. reflexivity.
    - destruct Hpass as [-> | ->]; reflexivity.
    - destruct Hpass as [-> | ->]; exact I.
    - destruct Hpass as [-> | ->]; reflexivity.
    - split; [exact Hr|]. rewrite Hm. exact Hdef.
    - rewrite Henc, Hrp. reflexivity.
    - exact Ha.
    - exact Hvip'.
    - rewrite Htok. destruct Hpass as [-> | ->]; reflexivity.
    - exact Hb'.
    - exact Hv.
    - exact Hp.
    - rewrite <- Hc. destruct Hpass as [-> | ->]; reflexivity.
    - apply Z.ltb_lt. exact Hq.
    - rewrite Hrp. destruct Hpass as [-> | ->]; reflexivity.
    - destruct Hpass as [-> | ->]; [split; reflexivity|]. split; [by eexists|]. split; [reflexivity|]. split; [cbn; lia|].
      eexists. split; [reflexivity|]. split; [reflexivity|reflexivity].
    - destruct Hpass as [-> | ->]; reflexivity.
    - exists frame', t2'. split; [exact Hrcv|]. rewrite Ho. destruct Hpass as [-> | ->]; reflexivity. }
  split; eapply Hgen; [by left|exact (proj1 ex_served_view)|by right|exact (proj2 ex_served_view)].
Defined.
