(* ===== verification/TunnelSpec.v ===== *)
(** * TunnelSpec: what the client accepts

    The theorems about the receiving side of a client: direct packets, the peer
    list, and what a datagram from any address can do. *)

From S2P Require Import Prelude GoNet Crc32 Protocol Messages MessagesData MessagesPeer NetUtil Float64 Bandwidth SendQueue Sha256 Auth Cipher I18n Client Room RoomHandlers RoomExample RoomRelay Server Route NatProbe ClientLimit Tunnel TunnelReg Handshake Delivery.

Section direct.
Context `{Env} `{MapRange} `{AEAD} `{PktBufs}.

Lemma decrypt_payload_frame data t r t' :
  decrypt_payload data t = (r, t') → tun_out t' = tun_out t ∧ peers t' = peers t ∧ t_session t' = t_session t.
Proof.
  unfold decrypt_payload. destruct (p2pCipher (t_crypto t)) as [c|]; [|by intros [= _ <-]].
  destruct (IsEncrypted data); [|by intros [= _ <-]].
  destruct (DecryptInto c [] data) as [res c']. by intros [= _ <-].
Qed.

Lemma decryptWriteAndRelease_inv dp t t' :
  decryptWriteAndRelease dp t = Ok t' →
  peers t' = peers t ∧
  (tun_out t' = tun_out t ∨
   ∃ out written, fst (decrypt_payload (dp_Data dp) t) = Some out ∧ tun_out t' = tun_out t ++ [written] ∧
     ∃ b, rewriteBroadcast (E:=perr) (pktbuf (length out)) out (ss_cachedSubnet (t_session t)) = Ok (written, b)).
Proof.
  unfold decryptWriteAndRelease. destruct (negb (tunDev t)); [by intros [= <-]; split; [|left]|].
  destruct (decrypt_payload (dp_Data dp) t) as [r t1] eqn:E.
  apply decrypt_payload_frame in E as (Eo & Ep & Es). destruct r as [out|]; [|by intros [= <-]; split; [|left]].
  rewrite Es. destruct (rewriteBroadcast _ _ _) as [[w b]| |] eqn:Ew; try done.
  intros [= <-]. split; [done|]. right. exists out, w. cbn. rewrite Eo. split_and!; [done..|]. by exists b.
Qed.

(** C11: A direct packet reaches the TUN device only when it comes from the public
    address of the player whose virtual address it carries, and moreover, in a
    room without encryption, carries the session token of the receiver, and, in a
    room with encryption, decrypts under the room's key unless it is not marked as
    encrypted. *)
Theorem direct_data_from_peer from payload t t' :
  handleDirectPacket from payload t = Ok t' → tun_out t' ≠ tun_out t →
  ∃ dp peer a, UnmarshalData payload = Ok dp ∧ peers t !! IPKey (dp_SrcIP dp) = Some peer ∧
    rp_PublicAddr peer = Some a ∧ same_addr from a = true ∧
    match p2pCipher (t_crypto t) with
    | None => token_set (ss_sessionToken (t_session t)) = true →
        ∃ off fl b, ParseDataHeader (E:=perr) payload = Ok (fl, off, b) ∧
          take DataTokenLen (drop off payload) = ss_sessionToken (t_session t)
    | Some c => IsEncrypted (dp_Data dp) = true →
        ∃ pt c', DecryptInto c [] (dp_Data dp) = (Ok pt, c')
    end.
Proof.
  unfold handleDirectPacket. destruct (UnmarshalData payload) as [dp| |] eqn:Eu; [|by intros [= <-]|done].
  destruct (length (dp_Data dp) =? 0)%nat; [by intros [= <-]|].
  destruct (peers t !! IPKey (dp_SrcIP dp)) as [peer|] eqn:Ep; [|by intros [= <-]].
  destruct (rp_PublicAddr peer) as [a|] eqn:Ea; [|by intros [= <-]].
  destruct (same_addr from a) eqn:Es; [|by intros [= <-]]. cbn [negb].
  destruct (direct_token_ok payload t) as [ok| |] eqn:Et; try done. cbn [mbind go_bind].
  destruct ok; [|by intros [= <-]]. cbn [negb]. set (t1 := upd_peer _ _ t). intros Ew Hne.
  exists dp, peer, a. split_and!; [done..|].
  apply decryptWriteAndRelease_inv in Ew as [_ [Eo|(out & w & Ed & _)]]; [by rewrite Eo in Hne|].
  destruct (p2pCipher (t_crypto t)) as [c|] eqn:Ec.
  - intros Henc. unfold decrypt_payload in Ed. change (t_crypto t1) with (t_crypto t) in Ed. rewrite Ec, Henc in Ed.
    destruct (DecryptInto c [] (dp_Data dp)) as [[pt| |] c'] eqn:Edec; try done. by exists pt, c'.
  - intros Hset. unfold direct_token_ok in Et. rewrite Ec, Hset in Et.
    rewrite (bool_decide_eq_false_2 (is_Some None)) in Et by (by intros [? ?]). cbn [negb andb] in Et.
    destruct (length payload <=? 8)%nat; [done|].
    destruct (ParseDataHeader payload) as [[[fl off] b]| |] eqn:Eh; try done. cbn [mbind go_bind] in Et.
    destruct (negb (has_token fl) || _) eqn:Eb; [done|]. apply orb_false_iff in Eb as [_ Eb].
    apply Nat.ltb_ge in Eb. rewrite slice_ok in Et by lia. cbn [mbind go_bind mret go_ret] in Et.
    injection Et as Et. apply bool_decide_eq_true in Et. exists off, fl, b. split; [done|].
    rewrite <- Et. f_equal. lia.
Qed.
End direct.

Section flaws.
Context `{Env} `{MapRange} `{AEAD} `{PktBufs}.

(** The packets of two players with an encrypted room's key share one replay
    window at the receiver, while each player counts from a random 48-bit number
    of its own: once the receiver has read a packet of the player with the higher
    counter, every packet of a player whose counter is at least 64 lower is
    dropped, although it is fresh and authentic. *)
Theorem second_sender_blocked sa t ca cb s1 s2 d token1 token2 pkt1 pkt2 :
  can_read (Some ca) t → tunDev t = true →
  length s1 = 4%nat → length s2 = 4%nat → length d = 4%nat → length token1 = 16%nat → length token2 = 16%nat →
  (20 ≤ length pkt1)%nat → take 4 (drop 16 pkt1) ≠ [xff; xff; xff; xff] →
  c_key cb = c_key ca → length (c_dirTag cb) = 4%nat → 0 ≤ c_counter cb → c_counter cb + replayWindowSize ≤ c_counter ca →
  ∃ t1 t2, receive_datagram (data_frame true (data_payload (Some ca) s1 d token1 pkt1)) sa sa t = Ok t1 ∧
    tun_out t1 = tun_out t ++ [pkt1] ∧
    receive_datagram (data_frame true (data_payload (Some cb) s2 d token2 pkt2)) sa sa t1 = Ok t2 ∧
    tun_out t2 = tun_out t1.
Proof.
  intros Hr Htun L1 L2 Ld T1 T2 Hp Hb Hk Hdir G0 Hlow.
  assert (0 ≤ c_counter ca < 2 ^ 64 - 1) as Hrange by (by destruct Hr as (_ & _ & ? & _)).
  destruct (receive_data sa t (Some ca) s1 d token1 pkt1 Hr Htun L1 Ld T1 Hp Hb)
    as (t1 & E1 & Ho & Ht1 & Hdec & c2 & Hc2 & Hk2 & Hctr).
  destruct Hr as [[x Hx] _]. exists t1, (markServerResponse t1). split_and!; [exact E1|done| |done].
  apply (receive_old sa t1 cb c2); try done; [by rewrite Hdec, Hx|unfold replayWindowSize in *; lia|congruence|].
  unfold replayWindowSize in *. lia.
Qed.

(** A Kick packet disconnects the client whoever sent it: it is taken as the
    server's from any address, needs no key in any room, and a reason code that
    is fatal makes the client give up for good. *)
Theorem anyone_can_kick from sa t k :
  Z.of_nat (length (kick_Reason k)) < 65536 →
  let frame := (if decAvailable (t_crypto t) then Encode else EncodeChecked) TypeKick (KickPayload_Marshal k) in
  ∃ t', receive_datagram frame from sa t = Ok t' ∧ conn_closed t' = true ∧
    (IsFatal (NewDisconnectError k) = true → cancelKicks t' = true).
Proof.
  intros Hk. cbv zeta. unfold receive_datagram.
  assert ((if decAvailable (t_crypto t)
           then Decode ((if decAvailable (t_crypto t) then Encode else EncodeChecked) TypeKick (KickPayload_Marshal k))
           else DecodeChecked ((if decAvailable (t_crypto t) then Encode else EncodeChecked) TypeKick (KickPayload_Marshal k)))
          = Ok (mkMessage TypeKick (KickPayload_Marshal k))) as ->.
  { destruct (decAvailable _); [by rewrite Encode_eq, Decode_header|apply DecodeChecked_EncodeChecked]. }
  cbn [Type_ Payload]. unfold from_server.
  change (bool_decide (TypeKick = TypeKick)) with true. rewrite !orb_true_r. cbn [orb].
  unfold handleServerData. cbn [Type_ Payload]. rewrite (Kick_roundtrip k Hk).
  change (bool_decide (TypeKick = TypePeerInfo)) with false. change (bool_decide (TypeKick = TypeData)) with false.
  change (bool_decide (TypeKick = TypePing)) with false. change (bool_decide (TypeKick = TypeHolePunch)) with false.
  change (bool_decide (TypeKick = TypeRebindAck)) with false. change (bool_decide (TypeKick = TypeKick)) with true. cbn iota.
  eexists. split_and!; [reflexivity|done|]. intros E. cbn. rewrite E. apply orb_true_r.
Qed.

Lemma session_ok_punch from payload t : session_ok t → session_ok (handleDirectHolePunch from payload t).
Proof.
  intros Hok. unfold handleDirectHolePunch. repeat (case_match; try done). by destruct Hok.
Qed.

(** A direct packet whose token is not the receiver's. *)
Lemma direct_token_differs s d token data t :
  length s = 4%nat → length d = 4%nat → length token = 16%nat →
  p2pCipher (t_crypto t) = None → token_set (ss_sessionToken (t_session t)) = true →
  token ≠ ss_sessionToken (t_session t) → length (ss_sessionToken (t_session t)) = 16%nat →
  direct_token_ok (data_wire s d (data_flags x00 token) token data) t = Ok false.
Proof.
  intros Hs Hd Ht Hp Hset Hne Hl. unfold direct_token_ok. rewrite Hp, Hset.
  rewrite (bool_decide_eq_false_2 (is_Some None)) by (by intros [? ?]). cbn [negb andb].
  pose proof (length_data_wire s d (data_flags x00 token) token data Hs Hd Ht) as Hlen.
  destruct (Nat.leb_spec (length (data_wire s d (data_flags x00 token) token data)) 8) as [|H8]; [done|].
  unfold ParseDataHeader. destruct (Nat.leb_spec (length (data_wire s d (data_flags x00 token) token data)) 8); [lia|].
  destruct (data_wire_8 (E:=perr) s d (data_flags x00 token) token data Hs Hd) as [-> E9].
  cbn [mbind go_bind]. rewrite bool_decide_eq_true_2 by done.
  destruct (Nat.leb_spec 10 (length (data_wire s d (data_flags x00 token) token data))) as [_|Hgt].
  2: { destruct (has_token _); lia. }
  rewrite E9. cbn [mbind go_bind mret go_ret]. destruct (has_token (data_flags x00 token)) eqn:Hf; [|done].
  unfold DataHeaderLen, DataTokenLen in *. cbn [negb orb].
  destruct (Nat.ltb_spec (length (data_wire s d (data_flags x00 token) token data)) (10 + 16)); [done|].
  rewrite slice_ok by lia. cbn [mbind go_bind mret go_ret]. rewrite bool_decide_eq_false_2; [done|].
  unfold data_wire. rewrite Hf. rewrite !app_assoc, <- (app_assoc _ token), drop_app_length' by lens.
  by rewrite take_app_length' by lens.
Qed.
(** In a room without a password, two players who succeed in punching a hole
    lose each other's traffic.  The punch makes the sender route to the peer
    directly and no longer through the server; the receiver then drops each
    packet, because it carries the sender's session token and is compared with the
    receiver's, while the server gives every player a token of its own. *)
Theorem punched_peers_lose_packets pkt src dst t1 peer a t2 :
  (* the sender, before the punch arrives *)
  session_ok t1 → can_send (packet_size pkt None (packet_token t1)) t1 → Z.of_nat (length (sendCh t1)) < sendChanSize →
  p2pCipher (t_crypto t1) = None → length src = 4%nat → length dst = 4%nat → relayed_dst t1 dst = false →
  peers t1 !! IPKey dst = Some peer → rp_PublicAddr peer = Some a → tryRateLimitHolePunch peer = true →
  (* the receiver *)
  session_ok t2 → p2pCipher (t_crypto t2) = None → decCipher (t_crypto t2) = None →
  token_set (ss_sessionToken (t_session t2)) = true → packet_token t1 ≠ ss_sessionToken (t_session t2) →
  ∃ frame t1', routePacket pkt src dst (handleDirectHolePunch a dst t1) = Ok t1' ∧
    sendCh t1' = sendCh t1 ++ [mkSendJob frame (Some a)] ∧
    ∀ from sa, from_server from sa TypeData = false → receive_datagram frame from sa t2 = Ok t2.
Proof.
  intros Hok1 Hlim Hroom Hp1 Ls Ld Hrel Hpeer Ha Hrate Hok2 Hp2 Hdec2 Hset Hne.
  pose proof (session_ok_punch a dst t1 Hok1) as Hok1'.
  assert (handleDirectHolePunch a dst t1 = add_task (Burst a holePunchBurstPerPhase (50 * Millisecond))
    (upd_peer (IPKey dst) (fun p => set_DirectReach true (set_lastPunchBack now p)) t1)) as E.
  { unfold handleDirectHolePunch. rewrite Ld, take_ge by lia. cbn [Nat.ltb Nat.leb].
    by rewrite Hpeer, Ha, same_addr_refl, Hrate. }
  rewrite E in *. set (t1a := add_task _ _) in *.
  assert (route_addr t1a dst = Some a) as Hroute.
  { unfold route_addr. change (relayed_dst t1a dst) with (relayed_dst t1 dst). rewrite Hrel.
    assert (direct_addr t1a (IPKey dst) = Some a) as ->; [|done]. unfold direct_addr, t1a. cbn.
    rewrite lookup_alter_eq, Hpeer. cbn. by rewrite Ha. }
  pose proof (packet_token_length t1 Hok1) as Lt.
  change (p2pCipher (t_crypto t1)) with (p2pCipher (t_crypto t1a)) in Hp1.
  destruct (send_packet_eq pkt src dst src dst (packet_token t1) (Some a) t1a) as [l Hsend];
    [by apply To4_4..|done|by rewrite Hp1|by rewrite Hp1|done|]. rewrite Hp1 in Hsend.
  eexists (data_frame false (data_payload None src dst (packet_token t1) pkt)), _. split_and!.
  - rewrite (routePacket_eq _ _ _ _ Hok1' Ld), Hroute. change (packet_token t1a) with (packet_token t1).
    rewrite Hsend. reflexivity.
  - reflexivity.
  - intros from sa Hfrom. unfold receive_datagram, decAvailable. rewrite Hdec2.
    rewrite (bool_decide_eq_false_2 (is_Some None)) by (by intros [? ?]). unfold data_frame.
    rewrite DecodeChecked_EncodeChecked. cbn [Type_ Payload]. rewrite Hfrom. unfold handleDirectData. cbn [Type_ Payload].
    change (bool_decide (TypeData = TypeHolePunch)) with false. change (bool_decide (TypeData = TypeData)) with true. cbn [negb].
    unfold handleDirectPacket, data_payload. rewrite UnmarshalData_wire by done. cbn [dp_Data dp_SrcIP sealed].
    destruct (length pkt =? 0)%nat; [done|]. destruct (peers t2 !! IPKey src) as [p2|]; [|done].
    destruct (rp_PublicAddr p2) as [a2|]; [|done]. destruct (negb (same_addr from a2)); [done|].
    rewrite direct_token_differs by (done || apply ok_token, Hok2). done.
Qed.
End flaws.

(** ** The peer list *)

Section peer_list.
Context `{Env}.

Lemma peers_launch ip t : peers (launch_punch ip t) = peers t.
Proof. unfold launch_punch, sendHolePunchRelay, sendCtrl. by repeat case_match. Qed.
Lemma tasks_launch ip t : tasks (launch_punch ip t) = tasks t ++ [StartHolePunch ip].
Proof. unfold launch_punch, sendHolePunchRelay, sendCtrl. by repeat case_match. Qed.

Lemma launch_all l t :
  peers (foldl (fun t ip => launch_punch ip t) t l) = peers t ∧
  tasks (foldl (fun t ip => launch_punch ip t) t l) = tasks t ++ map StartHolePunch l.
Proof.
  revert t. induction l as [|ip l IH]; intros t; cbn [foldl map]; [by rewrite app_nil_r|].
  destruct (IH (launch_punch ip t)) as [-> ->]. by rewrite peers_launch, tasks_launch, <- app_assoc.
Qed.

(** The entries of others that have been read. *)
Definition others (own : IP) (l : list PeerInfoEntry) : list PeerInfoEntry :=
  List.filter (fun e => negb (IP_Equal (pe_VirtualIP e) own)) l.

Definition describes (e : PeerInfoEntry) (p : Peer) : Prop :=
  rp_Username p = pe_Username e ∧ rp_NATType p = pe_NATType e ∧
  rp_PublicAddr p = to16_addr <$> pe_PublicAddr e ∧ rp_lastSeen p = now.

(** After the entries [l]: the peers that are not stale are those of [l]. *)
Record update_inv (own : IP) (old : gmap ipkey Peer) (l : list PeerInfoEntry) (u : PeerUpdate) : Prop := {
  ui_seen : ∀ e, e ∈ others own l → ∃ p, pu_peers u !! IPKey (pe_VirtualIP e) = Some p ∧ rp_stale p = false;
  ui_fresh : ∀ k p, pu_peers u !! k = Some p → rp_stale p = false →
    ∃ e, e ∈ others own l ∧ IPKey (pe_VirtualIP e) = k ∧ describes e p;
  ui_direct : ∀ k p, pu_peers u !! k = Some p → rp_DirectReach p = true →
    ∃ p0, old !! k = Some p0 ∧ rp_DirectReach p0 = true;
  ui_old : ∀ k p, pu_peers u !! k = Some p → rp_stale p = true → is_Some (old !! k);
  ui_dom : ∀ k, is_Some (old !! k) → is_Some (pu_peers u !! k);
  ui_new : ∀ e, e ∈ others own l → old !! IPKey (pe_VirtualIP e) = None →
    ∃ ip, ip ∈ pu_new u ∧ IPKey ip = IPKey (pe_VirtualIP e) }.

Lemma update_step own old l u e :
  update_inv own old l u → update_inv own old (l ++ [e]) (peer_info_entry own u e).
Proof.
  intros [Hseen Hfresh Hdirect Hold Hdom Hnew]. unfold peer_info_entry.
  assert (others own (l ++ [e]) = others own l ++ others own [e]) as Eo by apply List.filter_app.
  destruct (IP_Equal (pe_VirtualIP e) own) eqn:Ee.
  { assert (others own [e] = []) as E1 by (cbn; by rewrite Ee). rewrite E1, app_nil_r in Eo.
    split; rewrite ?Eo; assumption. }
  assert (others own [e] = [e]) as E1 by (cbn; by rewrite Ee). rewrite E1 in Eo.
  set (key := IPKey (pe_VirtualIP e)).
  set (u' := match pu_peers u !! key with Some _ => _ | None => _ end).
  assert (∃ p, pu_peers u' = <[key := p]> (pu_peers u) ∧ rp_stale p = false ∧ describes e p ∧
    (rp_DirectReach p = true → ∃ p0, pu_peers u !! key = Some p0 ∧ rp_DirectReach p0 = true) ∧
    (∀ ip, ip ∈ pu_new u → ip ∈ pu_new u') ∧ (pu_peers u !! key = None → pe_VirtualIP e ∈ pu_new u'))
    as (p & Ep & Hp1 & Hp2 & Hp3 & Hn1 & Hn2).
  { unfold u'. destruct (pu_peers u !! key) as [ex|] eqn:Ex; cbn; eexists; split_and!; try done.
    - intros [Hx _]%andb_true_iff. by exists ex.
    - intros ip Hip. apply elem_of_app. by left.
    - intros _. apply elem_of_app. right. by apply list_elem_of_singleton. }
  clearbody u'. split; rewrite ?Ep, ?Eo.
  - intros x [Hx| ->%list_elem_of_singleton]%elem_of_app; [|exists p; by rewrite lookup_insert_eq].
    destruct (decide (IPKey (pe_VirtualIP x) = key)) as [->|Hne]; [exists p; by rewrite lookup_insert_eq|].
    rewrite lookup_insert_ne by done. by apply Hseen.
  - intros k q [[<- <-]|[Hne Hq]]%lookup_insert_Some Hs.
    + exists e. split_and!; [apply elem_of_app; right; by apply list_elem_of_singleton|done..].
    + destruct (Hfresh k q Hq Hs) as (x & ? & ? & ?). exists x. split_and!; [apply elem_of_app; by left|done..].
  - intros k q [[<- <-]|[Hne Hq]]%lookup_insert_Some Hd; [|by eapply Hdirect].
    destruct (Hp3 Hd) as (p0 & ? & ?). by eapply Hdirect.
  - intros k q [[<- <-]|[Hne Hq]]%lookup_insert_Some Hs; [congruence|by eapply Hold].
  - intros k Hk. destruct (decide (k = key)) as [->|Hne]; [rewrite lookup_insert_eq; by eexists|].
    rewrite lookup_insert_ne by done. by apply Hdom.
  - intros x [Hx| ->%list_elem_of_singleton]%elem_of_app Hnone.
    + destruct (Hnew x Hx Hnone) as (ip & Hip & Hk). exists ip. split; [by apply Hn1|done].
    + destruct (pu_peers u !! key) as [ex|] eqn:Ex; [|exists (pe_VirtualIP e); split; [by apply Hn2|done]].
      destruct (rp_stale ex) eqn:Es; [destruct (Hold _ _ Ex Es) as [y Hy]; fold key in Hnone; by rewrite Hnone in Hy|].
      destruct (Hfresh _ _ Ex Es) as (x & Hx & Hkx & _).
      destruct (Hnew x Hx) as (ip & Hip & Hk); [by rewrite Hkx|]. exists ip. split; [by apply Hn1|by rewrite Hk].
Qed.

Lemma update_all own old l l0 u :
  update_inv own old l0 u → update_inv own old (l0 ++ l) (foldl (peer_info_entry own) u l).
Proof.
  revert l0 u. induction l as [|e l IH]; intros l0 u Hu; cbn [foldl]; [by rewrite app_nil_r|].
  replace (l0 ++ e :: l) with ((l0 ++ [e]) ++ l) by (by rewrite <- app_assoc). by apply IH, update_step.
Qed.

Lemma update_start own old : update_inv own old [] (mkUpdate (set_stale true <$> old) [] []).
Proof.
  split; cbn [pu_peers].
  - intros e He. by apply elem_of_nil in He.
  - intros k p Hp Hs. rewrite lookup_fmap in Hp. destruct (old !! k); [|done]. injection Hp as <-. done.
  - intros k p Hp Hd. rewrite lookup_fmap in Hp. destruct (old !! k) as [p0|] eqn:E; [|done]. injection Hp as <-. by exists p0.
  - intros k p Hp _. rewrite lookup_fmap in Hp. by destruct (old !! k).
  - intros k [p Hp]. rewrite lookup_fmap, Hp. by eexists.
  - intros e He. by apply elem_of_nil in He.
Qed.

(** C12: A peer list of the server replaces the client's: afterwards the peers are
    exactly the players of the list other than the client itself, each with a
    name, NAT type and public address of the list; a peer is reached directly only if it
    was before; and a hole punch is started to every player that is new. *)
Theorem peer_list_synchronised payload entries t :
  UnmarshalPeerInfo payload = Ok entries →
  let own := ss_virtualIP (t_session t) in
  let t' := handlePeerInfo payload t in
  (∀ k, is_Some (peers t' !! k) ↔ ∃ e, e ∈ others own entries ∧ IPKey (pe_VirtualIP e) = k) ∧
  (∀ k p, peers t' !! k = Some p → ∃ e, e ∈ others own entries ∧ IPKey (pe_VirtualIP e) = k ∧ describes e p) ∧
  (∀ k p, peers t' !! k = Some p → rp_DirectReach p = true →
     ∃ p0, peers t !! k = Some p0 ∧ rp_DirectReach p0 = true) ∧
  (∀ e, e ∈ others own entries → peers t !! IPKey (pe_VirtualIP e) = None →
     ∃ ip, IPKey ip = IPKey (pe_VirtualIP e) ∧ StartHolePunch ip ∈ tasks t').
Proof.
  intros Hu. cbv zeta. unfold handlePeerInfo. rewrite Hu.
  set (own := ss_virtualIP (t_session t)). set (u := foldl _ _ entries).
  assert (update_inv own (peers t) ([] ++ entries) u) as [Hseen Hfresh Hdirect _ _ Hnew]
    by apply update_all, update_start. cbn [app] in *.
  destruct (launch_all (pu_new u ++ pu_changed u) (set_peers (filter (fun kp => rp_stale kp.2 = false) (pu_peers u)) t))
    as [-> ->]. cbn [peers tasks set_peers].
  assert (∀ k p, filter (fun kp : ipkey * Peer => rp_stale kp.2 = false) (pu_peers u) !! k = Some p →
    pu_peers u !! k = Some p ∧ rp_stale p = false) as Hf by (intros k p [? ?]%map_lookup_filter_Some; done).
  split_and!.
  - intros k. split.
    + intros [p [Hp Hs]%Hf]. destruct (Hfresh k p Hp Hs) as (e & ? & ? & _). by exists e.
    + intros (e & He & <-). destruct (Hseen e He) as (p & Hp & Hs). exists p. by apply map_lookup_filter_Some.
  - intros k p [Hp Hs]%Hf. by apply Hfresh.
  - intros k p [Hp _]%Hf. by apply Hdirect.
  - intros e He Hnone. destruct (Hnew e He Hnone) as (ip & Hip & Hk). exists ip. split; [done|].
    apply elem_of_app. right. rewrite map_app, elem_of_app. left. apply list_elem_of_fmap. by exists ip.
Qed.
End peer_list.

(** *** Witnesses *)

(** A client at 10.10.0.2 that knows Bob, at 10.10.0.3. *)
Definition ex_peer (direct : bool) : Peer :=
  mkRemote [x0a; x0a; x00; x03] (Some (ex_addr x02)) (str "bob") x00 direct (2 * Second) 0 false.
Definition ex_knows (t : Tunnel) : Tunnel := set_peers {[IPKey [x0a; x0a; x00; x03] := ex_peer false]} t.
Definition ex_here (token : byte) : Tunnel := ex_knows (ex_tunnel [x0a; x0a; x00; x02] (replicate 16 token)).

(** Bob's packet, with the token [x07]. *)
Definition ex_from_bob : list byte :=
  data_wire [x0a; x0a; x00; x03] [x0a; x0a; x00; x02] (data_flags x00 (replicate 16 x07)) (replicate 16 x07) ex_ping.

Definition ex_written (r : go perr Tunnel) : list (list byte) := match r with Ok t => tun_out t | _ => [] end.
Lemma ex_from_bob_written : ex_written (@handleDirectPacket tag_only_aead zero_bufs (ex_addr x02) ex_from_bob (ex_here x07)) = [ex_ping].
Proof. vm_compute. reflexivity. Qed.

Lemma direct_data_from_peer_witness :
  ∃ dp peer, UnmarshalData ex_from_bob = Ok dp ∧ peers (ex_here x07) !! IPKey (dp_SrcIP dp) = Some peer.
Proof.
  pose proof ex_from_bob_written as Hw.
  destruct (@handleDirectPacket tag_only_aead zero_bufs (ex_addr x02) ex_from_bob (ex_here x07)) as [t'| |] eqn:E;
    [|discriminate Hw..].
  destruct (@direct_data_from_peer tag_only_aead zero_bufs (ex_addr x02) ex_from_bob (ex_here x07) t' E)
    as (dp & peer & a & Hu & Hp & _).
  - change (tun_out t' = [ex_ping]) in Hw. rewrite Hw. change (tun_out (ex_here x07)) with (@nil (list byte)). discriminate.
  - exists dp, peer. split; [exact Hu|exact Hp].
Defined.

(** Alice counts from 5000, Carol from 100. *)
Definition ex_sender_cipher (ctr : Z) : Cipher := mkCipher (replicate 32 x01) ctr DirClientToClient 0 0.
Definition ex_encrypted : Tunnel :=
  set_crypto (mkCrypto (Some (ex_sender_cipher 1)) (Some (ex_sender_cipher 1)) (Some (ex_sender_cipher 1)))
    (ex_tunnel [x0a; x0a; x00; x03] (replicate 16 x07)).

Lemma second_sender_blocked_witness :
  ∃ frame t1 t2, @receive_datagram ex_env3 tag_only_aead zero_bufs frame ex_server_addr ex_server_addr t1 = Ok t2 ∧
    tun_out t1 = [ex_ping] ∧ tun_out t2 = [ex_ping].
Proof.
  destruct (@second_sender_blocked ex_env3 tag_only_aead zero_bufs ex_server_addr ex_encrypted
    (ex_sender_cipher 5000) (ex_sender_cipher 100) [x0a; x0a; x00; x02] [x0a; x0a; x00; x04] [x0a; x0a; x00; x03]
    (replicate 16 x07) (replicate 16 x08) ex_ping ex_ping) as (t1 & t2 & _ & Ho1 & E2 & Ho2).
  - split; [by eexists|]. split; [reflexivity|]. split; [cbn; lia|].
    exists (ex_sender_cipher 1). split; [reflexivity|]. split; [reflexivity|]. cbn. lia.
  - reflexivity.
  - reflexivity.
  - reflexivity.
  - reflexivity.
  - reflexivity.
  - reflexivity.
  - vm_compute. lia.
  - vm_compute. discriminate.
  - reflexivity.
  - reflexivity.
  - vm_compute. discriminate.
  - vm_compute. discriminate.
  - eexists _, t1, t2. split; [exact E2|]. rewrite Ho2, Ho1. split; reflexivity.
Defined.

Lemma anyone_can_kick_witness :
  ∃ t', @receive_datagram ex_env3 tag_only_aead zero_bufs
      (EncodeChecked TypeKick (KickPayload_Marshal (mkKick (str "bye") KickCodeWrongPassword)))
      (ex_addr x42) ex_server_addr (ex_here x07) = Ok t' ∧ cancelKicks t' = true.
Proof.
  destruct (@anyone_can_kick ex_env3 tag_only_aead zero_bufs (ex_addr x42) ex_server_addr (ex_here x07)
    (mkKick (str "bye") KickCodeWrongPassword)) as (t' & E & _ & Hf); [cbn; lia|].
  exists t'. split; [exact E|]. by apply Hf.
Defined.

Lemma punched_peers_lose_packets_witness :
  ∃ frame t1', @routePacket ex_env3 tag_only_aead zero_bufs ex_ping [x0a; x0a; x00; x02] [x0a; x0a; x00; x03]
      (@handleDirectHolePunch ex_env3 (ex_addr x02) [x0a; x0a; x00; x03] (ex_here x07)) = Ok t1' ∧
    sendCh t1' = [mkSendJob frame (Some (ex_addr x02))] ∧
    @receive_datagram ex_env3 tag_only_aead zero_bufs frame (ex_addr x01) ex_server_addr
      (ex_tunnel [x0a; x0a; x00; x03] (replicate 16 x08))
    = Ok (ex_tunnel [x0a; x0a; x00; x03] (replicate 16 x08)).
Proof.
  destruct (@punched_peers_lose_packets ex_env3 tag_only_aead zero_bufs ex_ping [x0a; x0a; x00; x02] [x0a; x0a; x00; x03]
    (ex_here x07) (ex_peer false) (ex_addr x02) (ex_tunnel [x0a; x0a; x00; x03] (replicate 16 x08)))
    as (frame & t1' & E1 & Hs & Hr).
  - pose proof (ex_tunnel_ok x02 (replicate 16 x07) eq_refl) as Hok. by destruct Hok.
  - exact I.
  - reflexivity.
  - reflexivity.
  - reflexivity.
  - reflexivity.
  - vm_compute. reflexivity.
  - vm_compute. reflexivity.
  - reflexivity.
  - reflexivity.
  - by apply ex_tunnel_ok.
  - reflexivity.
  - reflexivity.
  - reflexivity.
  - vm_compute. discriminate.
  - exists frame, t1'. split; [exact E1|]. split; [exact Hs|]. by apply Hr.
Defined.

Definition ex_list : list byte :=
  fst (PeerInfoPayload_Marshal [mkPeer (ex_vip x02) (Some (ex_addr x01)) (str "alice") x00;
                           mkPeer (ex_vip x04) (Some (ex_addr x03)) (str "carol") x00]).
Lemma peer_list_synchronised_witness :
  peers (@handlePeerInfo ex_env3 ex_list (ex_here x07)) !! IPKey [x0a; x0a; x00; x03] = None.
Proof.
  destruct (UnmarshalPeerInfo ex_list) as [entries| |] eqn:E; [|vm_compute in E; discriminate E..].
  destruct (@peer_list_synchronised ex_env3 ex_list entries (ex_here x07) E) as (Hk & _).
  apply eq_None_not_Some. intros Hs. apply Hk in Hs as (e & He & Hkey).
  vm_compute in E. injection E as <-. vm_compute in He.
  apply elem_of_cons in He as [->|He]; [vm_compute in Hkey; discriminate Hkey|by apply elem_of_nil in He].
Defined.
