(* ===== verification/TunnelSend.v ===== *)
(** * TunnelSend: the send loop, the status and the rebind of the client

    The theorems about src/internal/client/tunnel.go (sendLoop, drainBatch, Status) and
    rebind.go against the server's handleRebind. *)

From S2P Require Import Prelude GoNet Crc32 Protocol Messages MessagesData MessagesPeer NetUtil RateLimit Float64 Bandwidth SendQueue Sha256 Auth Cipher I18n Client Room RoomHandlers RoomIP RoomInv RoomSafe RoomExample Server ServerExample ServerSpec ServerRebind Route NatProbe ClientLimit Tunnel TunnelReg Handshake Delivery.

(** ** The send loop *)

(** One round of the send loop writes between 1 and 64 packets: a prefix of the
    control channel and a prefix of the data channel, each in its own order and
    none twice; and it writes more than one data packet only when no control packet
    waits any more. *)
Theorem send_round_spec t out t' :
  sendLoop_iter t out t' →
  ∃ a b, ctrlCh t = a ++ ctrlCh t' ∧ sendCh t = b ++ sendCh t' ∧
    (out = a ++ b ∨ ∃ job b', b = job :: b' ∧ out = [job] ++ a ++ b') ∧
    (1 ≤ length out ≤ batchSize)%nat ∧ ((length b ≤ 1)%nat ∨ ctrlCh t' = []) ∧
    ((length out < batchSize)%nat → ctrlCh t' = [] ∧ sendCh t' = []).
Proof.
  intros [t0 job l o t1 Hc Hd|t0 job l o t1 Hc Hd]; unfold drainBatch in Hd; cbn [length ctrlCh sendCh set_ctrlCh set_sendCh] in Hd;
    injection Hd as <- <-; cbn [ctrlCh sendCh set_ctrlCh set_sendCh]; rewrite Hc.
  - set (m := (63 - length (take 63 l))%nat). exists (job :: take 63 l), (take m (sendCh t0)).
    assert (length (take 63 l) = Nat.min 63 (length l)) as El by apply length_take.
    split_and!; [by rewrite <- app_comm_cons, take_drop|by rewrite take_drop|by left|..];
      rewrite ?length_app; cbn [length]; rewrite ?length_app, ?length_take; unfold batchSize, m; rewrite El; [lia|lia| |].
    + destruct (decide (length l ≤ 63)%nat) as [Hl|Hl]; [right; by apply drop_ge|left; lia].
    + intros Hlt. split; apply drop_ge; lia.
  - set (m := (63 - length (take 63 (ctrlCh t0)))%nat). exists (take 63 (ctrlCh t0)), (job :: take m l).
    assert (length (take 63 (ctrlCh t0)) = Nat.min 63 (length (ctrlCh t0))) as El by apply length_take.
    split_and!; [by rewrite take_drop|by rewrite <- app_comm_cons, take_drop|right; by exists job, (take m l)|..];
      cbn [length]; rewrite ?length_app, ?length_take; unfold batchSize, m; rewrite El; [lia|lia| |].
    + destruct (decide (length (ctrlCh t0) ≤ 63)%nat) as [Hl|Hl]; [right; by apply drop_ge|left; lia].
    + intros Hlt. split; apply drop_ge; lia.
Qed.

(** ** The status *)

Section status.
Context `{MapRange}.

Lemma count_peers l p r :
  foldl (fun '(p2p, relay) q => if rp_DirectReach q then (S p2p, relay) else (p2p, S relay)) (p, r) l
  = (p + length (List.filter rp_DirectReach l), r + (length l - length (List.filter rp_DirectReach l)))%nat.
Proof.
  revert p r. induction l as [|q l IH]; intros p r; cbn [foldl List.filter length]; [f_equal; lia|].
  pose proof (List.filter_length_le rp_DirectReach l) as Hle.
  destruct (rp_DirectReach q); rewrite IH; cbn [length]; f_equal; lia.
Qed.

(** The status accounts for every peer of a connected client: those reached
    directly and those reached through the server add up to the number of peers. *)
Theorem Status_counts t :
  st_Connected (Status t) = true →
  (st_P2PPeers (Status t) + st_RelayPeers (Status t) = size (peers t))%nat ∧
  st_P2PPeers (Status t) = length (List.filter rp_DirectReach (map snd (go_range (peers t)))).
Proof.
  unfold Status. set (conn := tunDev t && _). set (l := map snd (go_range (peers t))).
  assert (length l = size (peers t)) as Hl.
  { unfold l. rewrite length_map. rewrite (Permutation_length (go_range_perm (peers t))). by rewrite length_map_to_list. }
  destruct (match probeResult t with Some _ => _ | None => _ end) as [[nt ei] ep].
  destruct conn; cbn [negb orb]; [|done].
  destruct (Nat.eqb_spec (size (peers t)) 0) as [E|E]; cbn [st_Connected st_P2PPeers st_RelayPeers].
  - intros _. rewrite E. split; [done|]. destruct l; [done|]. rewrite E in Hl. done.
  - rewrite count_peers. cbn [st_P2PPeers st_RelayPeers]. intros _. pose proof (List.filter_length_le rp_DirectReach l). split; lia.
Qed.
End status.

(** ** Rebind, against the server *)

Section rebind_both.
Context `{Env} `{MapRange}.

Lemma ComputeHMAC_vip key roomID username vip :
  length key = KeySize → length vip = 4%nat →
  Z.of_nat (length roomID) < 65536 → Z.of_nat (length username) < 65536 →
  ∃ code, ComputeHMAC (Some key) [] roomID username (Some (mkUDPAddr vip 0 [])) = Some code ∧ length code = HMACSize.
Proof.
  intros Hk Hv Hr Hu. assert (v4_addr (mkUDPAddr vip 0 [])) as H4.
  { split; [|cbn; lia]. cbn. rewrite To4_4 by done. by eexists. }
  pose proof (length_AppendAddrStr _ H4) as Hl. rewrite <- UDPAddr_String_v4 in Hl by done.
  unfold ComputeHMAC, MaxUint16. destruct key as [|k0 key]; [done|].
  repeat match goal with |- context [?a <? ?b] => destruct (Z.ltb_spec a b); [lia|] end. cbn [orb].
  eexists. split; [reflexivity|apply length_HMAC].
Qed.

(** The request of a client is the one the server allows. *)
Lemma rebind_packet_allowed s r c :
  length (ss_virtualIP s) = 4%nat → ss_roomPass s = r_roomPass (r_cfg r) →
  ss_roomID s = cl_authRoomID c → ss_username s = cl_Username c →
  Z.of_nat (length (ss_roomID s)) < 65536 → Z.of_nat (length (ss_username s)) < 65536 →
  (ss_roomPass s = [] → now - cl_lastSeen c ≤ 30 * Second) →
  ∃ req data, rebind_packet s = Some (EncodeChecked TypeRebind data) ∧
    UnmarshalRebind data = Ok req ∧ rb_VirtualIP req = ss_virtualIP s ∧ rebind_allowed r c req = true.
Proof.
  intros Hv Hp Hr Hu Lr Lu Ht. unfold rebind_packet, rebind_allowed. rewrite <- Hp, <- Hr, <- Hu.
  assert (∀ h, Z.of_nat (length h) < 65536 → ∃ data, RebindPayload_Marshal (mkRebind (ss_virtualIP s) h) = Some data ∧
    UnmarshalRebind data = Ok (mkRebind (ss_virtualIP s) h)) as Hrt
    by (intros h Hh; apply (Rebind_roundtrip (mkRebind (ss_virtualIP s) h)); [by apply To4_4|done]).
  destruct (ss_virtualIP s) as [|v0 vip] eqn:Ev; [done|]. rewrite <- Ev in *.
  destruct (ss_roomPass s) as [|p0 pass] eqn:Ep.
  - destruct (Hrt [] ltac:(cbn; lia)) as (data & Hm & Hun). exists (mkRebind (ss_virtualIP s) []), data.
    cbn [mbind option_bind]. rewrite Ev in Hm |- *. rewrite Hm. split_and!; [done|by rewrite Hun, Ev|done|].
    destruct (Z.ltb_spec (30 * Second) (now - cl_lastSeen c)); [|done]. specialize (Ht eq_refl). lia.
  - pose proof (DeriveKey_spec (p0 :: pass) (ss_roomID s)) as Hk.
    destruct (DeriveKey (p0 :: pass) (ss_roomID s)) as [key|]; [|done]. destruct Hk as [_ Hk].
    destruct (ComputeHMAC_vip key (ss_roomID s) (ss_username s) (ss_virtualIP s) Hk Hv Lr Lu) as (code & Hc & Hl).
    destruct (Hrt code) as (data & Hm & Hun); [rewrite Hl; unfold HMACSize; lia|].
    exists (mkRebind (ss_virtualIP s) code), data. cbn [mbind option_bind]. rewrite Ev in Hm, Hun, Hc |- *. rewrite Hc. cbn [default id].
    rewrite Hm. cbn [default id rb_HMAC rb_VirtualIP]. rewrite Hl, Hc. split_and!; [done..|].
    cbn. by apply bool_decide_eq_true_2.
Qed.

(** C14: A connection survives a change of network: the request a client sends when its
    server has fallen silent is accepted by the server at the new endpoint, when the
    session names a player of one of its rooms and, in a room without a password,
    the server has seen the player within 30 seconds; the player is then reached
    at the new endpoint.  Clients ask after more than 30 seconds without a packet, so
    in a room without a password this is the case only when the server heard the player
    later than the player heard it. *)
Theorem client_rebind_survives from s srv rl r l c :
  find_vip (IPKey (ss_virtualIP s)) srv = Some (rl, r, l, c) →
  length (ss_virtualIP s) = 4%nat → ss_roomPass s = r_roomPass (r_cfg r) →
  ss_roomID s = cl_authRoomID c → ss_username s = cl_Username c →
  Z.of_nat (length (ss_roomID s)) < 65536 → Z.of_nat (length (ss_username s)) < 65536 →
  (ss_roomPass s = [] → now - cl_lastSeen c ≤ 30 * Second) →
  ∃ packet payload r', rebind_packet s = Some packet ∧ DecodeChecked packet = Ok (mkMessage TypeRebind payload) ∧
    heap (handleRebind payload from srv) !! rl = Some r' ∧
    addr_client (r_core r') (AddrToRateKey from) = Some (l, set_lastSeen now (set_PublicAddr (Some from) c)).
Proof.
  intros Hf Hv Hp Hr Hu Lr Lu Ht.
  destruct (rebind_packet_allowed s r c Hv Hp Hr Hu Lr Lu Ht) as (req & data & Hpk & Hun & Hvip & Hal).
  exists (EncodeChecked TypeRebind data), data. rewrite <- Hvip in Hf.
  destruct (rebind_accepted data from srv req rl r l c Hun) as ((r' & Hr' & Hcore & _) & _);
    [rewrite Hvip, To4_4 by done; by eexists|done|done|].
  exists r'. split_and!; [done|apply DecodeChecked_EncodeChecked|done|]. rewrite Hcore.
  apply find_vip_Some in Hf as (_ & _ & [_ Hst]%vip_client_Some). by apply move_client_spec.
Qed.

(** In a room without a password the same request comes too late.  A client asks
    to be moved only after 30 seconds without a packet from the server; the server then
    refuses, unless one of the client's packets reached it after the last packet the client
    received; and a refusal ends the connection. *)
Theorem rebind_too_late t from srv rl r l c :
  server_silent t = true → find_vip (IPKey (ss_virtualIP (t_session t))) srv = Some (rl, r, l, c) →
  length (ss_virtualIP (t_session t)) = 4%nat → ss_roomPass (t_session t) = [] → r_roomPass (r_cfg r) = [] →
  cl_lastSeen c ≤ lastServerResponse t →
  ∃ payload, rebind_packet (t_session t) = Some (EncodeChecked TypeRebind payload) ∧
    handleRebind payload from srv = sendRebindAck from false srv ∧
    fst (client_keepaliveTick (Some false) t) = true.
Proof.
  intros Hsil. pose proof Hsil as Hs. unfold server_silent, serverTimeout in Hs. apply andb_true_iff in Hs as [_ Hs%Z.ltb_lt].
  intros Hf Hv Hp Hr Hle.
  destruct (Rebind_roundtrip (mkRebind (ss_virtualIP (t_session t)) []) (ss_virtualIP (t_session t)))
    as (data & Hm & Hun); [by apply To4_4|cbn; lia|]. cbn [rb_HMAC] in Hun.
  exists data. assert (rebind_packet (t_session t) = Some (EncodeChecked TypeRebind data)) as Hpk.
  { unfold rebind_packet. rewrite Hp. cbn [mbind option_bind].
    destruct (ss_virtualIP (t_session t)) as [|v0 vip] eqn:Ev; [done|]. by rewrite Hm. }
  split_and!; [done| |].
  - unfold handleRebind. rewrite Hun. cbn [rb_VirtualIP]. rewrite To4_4 by done. cbn [bool_decide negb].
    rewrite Hf. unfold rebind_allowed. rewrite Hr.
    destruct (Z.ltb_spec (30 * Second) (now - cl_lastSeen c)); [done|lia].
  - unfold client_keepaliveTick. set (t1 := sendCtrl _ _ t).
    assert (lastServerResponse t1 = lastServerResponse t ∧ t_session t1 = t_session t) as [El Es]
      by (unfold t1, sendCtrl; by destruct (_ <? ctrlChanSize)).
    assert (server_silent t1 = true) as -> by (unfold server_silent; by rewrite El).
    unfold tryRebind. by rewrite Es, Hpk.
Qed.
End rebind_both.

(** *** Witnesses *)

Definition ex_job (n : byte) : sendJob := mkSendJob [n] None.
Definition ex_queued : Tunnel := set_ctrlCh [ex_job x01; ex_job x02] (set_sendCh [ex_job x03] (ex_tunnel [x0a; x0a; x00; x02] (zeros 16))).

Lemma send_round_spec_witness :
  ∃ a b, ctrlCh ex_queued = a ++ [] ∧ sendCh ex_queued = b ++ [].
Proof.
  destruct (send_round_spec ex_queued [ex_job x01; ex_job x02; ex_job x03] (set_sendCh [] (set_ctrlCh [] ex_queued)))
    as (a & b & Ha & Hb & _).
  - by eapply iter_ctrl.
  - exists a, b. split; [exact Ha|exact Hb].
Defined.

Lemma Status_counts_witness :
  let t := ex_tunnel [x0a; x0a; x00; x02] (zeros 16) in (st_P2PPeers (Status t) + st_RelayPeers (Status t) = 0)%nat.
Proof. cbv zeta. apply (Status_counts (ex_tunnel [x0a; x0a; x00; x02] (zeros 16))). reflexivity. Defined.

(** Alice of the second example, at 10.10.2.2. *)
Definition ex_moving (last : Z) : Tunnel :=
  set_response last (set_session (mkSession [x0a; x0a; x02; x02] [x0a; x0a; x02; x01] None mask24 None (zeros 16) AppVersion
    (str "alice") (str "red") []) (ex_tunnel [x0a; x0a; x02; x02] (zeros 16))).
Definition ex_moving_facts : option (nat * nat * list byte * list byte * list byte * Z) :=
  (fun '(rl, r, l, c) => (rl, l, r_roomPass (r_cfg r), cl_authRoomID c, cl_Username c, cl_lastSeen c))
    <$> find_vip (IPKey [x0a; x0a; x02; x02]) ex_two_rooms.
Lemma ex_moving_found : ex_moving_facts = Some (0%nat, 0%nat, [], str "red", str "alice", Second).
Proof. vm_compute. reflexivity. Qed.

Lemma client_rebind_survives_witness :
  ∃ payload r', heap (@handleRebind (ex_env (5 * Second) x00) _ payload (ex_addr x09) ex_two_rooms) !! 0%nat = Some r' ∧
    (fst <$> addr_client (r_core r') (AddrToRateKey (ex_addr x09))) = Some 0%nat.
Proof.
  pose proof ex_moving_found as Hf. unfold ex_moving_facts in Hf.
  destruct (find_vip (IPKey [x0a; x0a; x02; x02]) ex_two_rooms) as [[[[rl r] l] c]|] eqn:E; [|discriminate Hf].
  cbn [fmap option_fmap option_map] in Hf. injection Hf as -> -> Hp Hr Hu Hs.
  destruct (@client_rebind_survives (ex_env (5 * Second) x00) _ (ex_addr x09) (t_session (ex_moving Second)) ex_two_rooms 0%nat r 0%nat c E)
    as (packet & payload & r' & _ & _ & Hh & Ha).
  - reflexivity.
  - by rewrite Hp.
  - by rewrite Hr.
  - by rewrite Hu.
  - reflexivity.
  - reflexivity.
  - intros _. rewrite Hs. unfold now, ex_env, Second. lia.
  - exists payload, r'. split; [exact Hh|]. rewrite Ha. reflexivity.
Defined.

Lemma rebind_too_late_witness :
  ∃ payload, @handleRebind (ex_env (40 * Second) x00) _ payload (ex_addr x09) ex_two_rooms
    = @sendRebindAck (ex_env (40 * Second) x00) (ex_addr x09) false ex_two_rooms.
Proof.
  pose proof ex_moving_found as Hf. unfold ex_moving_facts in Hf.
  destruct (find_vip (IPKey [x0a; x0a; x02; x02]) ex_two_rooms) as [[[[rl r] l] c]|] eqn:E; [|discriminate Hf].
  cbn [fmap option_fmap option_map] in Hf. injection Hf as -> -> Hp Hr Hu Hs.
  destruct (@rebind_too_late (ex_env (40 * Second) x00) _ (ex_moving (2 * Second)) (ex_addr x09) ex_two_rooms 0%nat r 0%nat c)
    as (payload & _ & Hh & _).
  - reflexivity.
  - exact E.
  - reflexivity.
  - reflexivity.
  - exact Hp.
  - rewrite Hs. unfold ex_moving, Second. cbn. lia.
  - exists payload. exact Hh.
Defined.
