(* ===== verification/ClientConfig.v ===== *)
(** * ClientConfig: the configuration file of the client

    src/internal/client/config.go.  A file is its bytes; the host name, the language and
    the location of the file are arguments. *)

From S2P Require Import Prelude GoNet I18n.

Definition DefaultMTU : Z := 1400.
Definition MinMTU : Z := 576.
Definition MaxMTU : Z := 9000.

Record Config := mkConfig {
  cc_ServerAddr : list byte; cc_PlayerName : list byte; cc_RoomID : list byte; cc_RoomPassword : list byte;
  cc_Lang : list byte; cc_MTU : Z; cc_LogFile : list byte; cc_Verbose : bool; cc_PprofAddr : list byte }.

Definition DefaultConfig (hostname : list byte) : Config :=
  mkConfig [] hostname (str "default") [] (str "zh") DefaultMTU [] false [].

(** ** Server address *)

Inductive addr_err :=
| AddrEmpty | AddrNeedsBrackets | AddrV6NoPort | AddrNoPort | AddrInvalid | AddrEmptyHost | AddrEmptyPort
| AddrBadPort | AddrPortRange.

Definition count_byte (l : list byte) (b : byte) : nat := length (List.filter (fun x => bool_decide (x = b)) l).

(** Whether a closing bracket followed by a colon occurs. *)
Fixpoint contains_brcolon (l : list byte) : bool :=
  match l with
  | a :: ((b :: _) as l') => (bool_decide (a = c_rbr) && bool_decide (b = c_colon)) || contains_brcolon l'
  | _ => false
  end.

(** The loop over the port; [inr] is the number. *)
Fixpoint port_number (port : list byte) (portNum : Z) : addr_err + Z :=
  match port with
  | [] => inr portNum
  | c :: port =>
      if negb (is_digit c) then inl AddrBadPort else
      let portNum := portNum * 10 + digit_val c in
      if 65535 <? portNum then inl AddrPortRange else port_number port portNum
  end.

(** ValidateServerAddr; [None] is a nil error. *)
Definition ValidateServerAddr (addr : list byte) : option addr_err :=
  match addr with
  | [] => Some AddrEmpty
  | _ =>
      match SplitHostPort addr with
      | None =>
          if (2 <=? count_byte addr c_colon)%nat && negb (has_byte addr c_lbr) then Some AddrNeedsBrackets
          else if bool_decide (head addr = Some c_lbr) && has_byte addr c_rbr && negb (contains_brcolon addr)
          then Some AddrV6NoPort
          else if negb (has_byte addr c_colon) then Some AddrNoPort
          else Some AddrInvalid
      | Some ([], _) => Some AddrEmptyHost
      | Some (_, []) => Some AddrEmptyPort
      | Some (_, port) =>
          match port_number port 0 with
          | inl e => Some e
          | inr n => if n <? 1 then Some AddrPortRange else None
          end
      end
  end.

Inductive config_err := CfgAddr (e : addr_err) | CfgRoom | CfgMTU.

(** Config.Validate *)
Definition Validate (c : Config) : option config_err :=
  match ValidateServerAddr (cc_ServerAddr c) with
  | Some e => Some (CfgAddr e)
  | None =>
      if (length (cc_RoomID c) =? 0)%nat || (32 <? length (cc_RoomID c))%nat then Some CfgRoom
      else if (cc_MTU c <? MinMTU) || (MaxMTU <? cc_MTU c) then Some CfgMTU
      else None
  end.

(** combinePort *)
Definition combinePort (addr port : list byte) : list byte :=
  match addr, port with
  | [], _ | _, [] => addr
  | _, _ =>
      match SplitHostPort addr with
      | Some _ => addr
      | None =>
          let addr := if bool_decide (head addr = Some c_lbr) && bool_decide (last addr = Some c_rbr)
                      then drop 1 (take (length addr - 1) addr) else addr in
          JoinHostPort addr port
      end
  end.

(** ** Reading *)

(** The white space of Unicode at the head of a text: its length in bytes.  The
    second function reads a reversed text. *)
Definition ascii_space (b : byte) : bool := let z := b2z b in ((9 <=? z) && (z <=? 13)) || (z =? 32).
Definition space_2 (a b : byte) : bool := bool_decide (a = xc2) && (bool_decide (b = x85) || bool_decide (b = xa0)).
Definition space_3 (a b c : byte) : bool :=
  let z := b2z c in
  (bool_decide (a = xe1) && bool_decide (b = x9a) && bool_decide (c = x80))
  || (bool_decide (a = xe2) && bool_decide (b = x80)
      && (((128 <=? z) && (z <=? 138)) || (z =? 168) || (z =? 169) || (z =? 175)))
  || (bool_decide (a = xe2) && bool_decide (b = x81) && bool_decide (c = x9f))
  || (bool_decide (a = xe3) && bool_decide (b = x80) && bool_decide (c = x80)).
Definition space_head (l : list byte) : option nat :=
  match l with
  | [] => None
  | a :: l =>
      if ascii_space a then Some 1%nat else
      match l with
      | [] => None
      | b :: l =>
          if space_2 a b then Some 2%nat else
          match l with [] => None | c :: _ => if space_3 a b c then Some 3%nat else None end
      end
  end.
Definition space_last (l : list byte) : option nat :=
  match l with
  | [] => None
  | c :: l =>
      if ascii_space c then Some 1%nat else
      match l with
      | [] => None
      | b :: l =>
          if space_2 b c then Some 2%nat else
          match l with [] => None | a :: _ => if space_3 a b c then Some 3%nat else None end
      end
  end.

Fixpoint strip (space : list byte → option nat) (fuel : nat) (l : list byte) : list byte :=
  match fuel, space l with
  | S fuel, Some n => strip space fuel (drop n l)
  | _, _ => l
  end.

(** [strings.TrimSpace] *)
Definition TrimSpace (l : list byte) : list byte :=
  let l := strip space_head (length l) l in
  reverse (strip space_last (length l) (reverse l)).

(** [strings.Split] at newlines. *)
Fixpoint split_lines (l : list byte) : list (list byte) :=
  match l with
  | [] => [[]]
  | b :: l =>
      if bool_decide (b = x0a) then [] :: split_lines l
      else match split_lines l with [] => [[b]] | s :: r => (b :: s) :: r end
  end.

Definition c_hash : byte := x23.
Definition c_eq : byte := x3d.

(** The entry of one line. *)
Definition line_entry (line : list byte) : option (list byte * list byte) :=
  match TrimSpace line with
  | [] => None
  | (b :: _) as line =>
      if bool_decide (b = c_hash) then None else
      i ← index_byte line c_eq;
      Some (TrimSpace (take i line), TrimSpace (drop (S i) line))
  end.

(** parseFile; later entries replace earlier ones. *)
Definition put_entry (m : gmap (list byte) (list byte)) (line : list byte) : gmap (list byte) (list byte) :=
  match line_entry line with Some (k, v) => <[k := v]> m | None => m end.
Definition parseFile (data : list byte) : gmap (list byte) (list byte) := foldl put_entry ∅ (split_lines data).

(** loadINI, of a file that exists. *)
Definition loadINI (data : list byte) (cfg : Config) : Config :=
  let m := parseFile data in
  let get k := default [] (m !! k) in
  let set k (old : list byte) := match get k with [] => old | v => v end in
  mkConfig
    (combinePort (set (str "server") (cc_ServerAddr cfg)) (get (str "port")))
    (set (str "name") (cc_PlayerName cfg)) (set (str "room") (cc_RoomID cfg)) (set (str "password") (cc_RoomPassword cfg))
    (set (str "lang") (cc_Lang cfg))
    (match Atoi (get (str "mtu")) with
     | Some mtu => if (MinMTU <=? mtu) && (mtu <=? MaxMTU) then mtu else cc_MTU cfg
     | None => cc_MTU cfg
     end)
    (set (str "log-file") (cc_LogFile cfg))
    (match get (str "verbose") with [] => cc_Verbose cfg | v => bool_decide (v = str "true") || bool_decide (v = str "1") end)
    (set (str "pprof-addr") (cc_PprofAddr cfg)).

(** LoadConfig; [None] when there is no file. *)
Definition LoadConfig (hostname : list byte) (file : option (list byte)) : Config :=
  match file with
  | Some data => loadINI data (DefaultConfig hostname)
  | None => DefaultConfig hostname
  end.

(** ** Writing *)

Definition kv (key value : list byte) : list byte := key ++ [c_eq] ++ value.

Definition save_lines (T : Strings) (cfg : Config) : list (list byte) :=
  [CfgHeader T; CfgServerHint T]
  ++ match SplitHostPort (cc_ServerAddr cfg) with
     | Some (host, port) => [kv (str "server") host; kv (str "port") port]
     | None => [kv (str "server") (cc_ServerAddr cfg)]
     end
  ++ [CfgNameHint T; kv (str "name") (cc_PlayerName cfg); CfgRoomHint T; kv (str "room") (cc_RoomID cfg);
      CfgPassHint T; kv (str "password") (cc_RoomPassword cfg);
      str "# Language (zh or en)"; kv (str "lang") (cc_Lang cfg);
      str "# Tunnel MTU (576-9000, default 1400)"; kv (str "mtu") (itoa (cc_MTU cfg));
      str "# Log file path (empty = stderr only)"; kv (str "log-file") (cc_LogFile cfg);
      str "# Verbose logging (true / false)"; kv (str "verbose") (if cc_Verbose cfg then str "true" else str "false");
      str "# pprof HTTP address for runtime profiling (empty = disabled)"; kv (str "pprof-addr") (cc_PprofAddr cfg)].

(** SaveConfig: what is written. *)
Definition SaveConfig (T : Strings) (cfg : Config) : list byte :=
  concat (map (fun line => line ++ [x0a]) (save_lines T cfg)).

(** CreateDefaultConfig *)
Definition CreateDefaultConfig (T : Strings) (hostname : list byte) : list byte :=
  SaveConfig T (mkConfig [] hostname (str "default") [] [] 0 [] false []).

(** ** Facts: lines *)

Lemma strip_None space fuel l : space l = None → strip space fuel l = l.
Proof. intros E. destruct fuel; cbn; [done|]. by rewrite E. Qed.

(** A value that a line of the file keeps as it is. *)
Definition clean (v : list byte) : Prop := x0a ∉ v ∧ space_head v = None ∧ space_last (reverse v) = None.

Lemma TrimSpace_None l : space_head l = None → space_last (reverse l) = None → TrimSpace l = l.
Proof. intros E1 E2. unfold TrimSpace. by rewrite (strip_None _ _ _ E1), (strip_None _ _ _ E2), reverse_involutive. Qed.

(** The sign [=] ends the white space before it. *)
Lemma space_last_eq r rest : space_last r = None → space_last (r ++ c_eq :: rest) = None.
Proof.
  assert (∀ b, space_2 b c_eq = false) as E2 by (intros b; unfold space_2; apply andb_false_r).
  assert (∀ b, space_2 c_eq b = false) as E2' by done.
  assert (∀ a b, space_3 a b c_eq = false) as E3
    by (intros a b; unfold space_3; rewrite !andb_false_r; done).
  assert (∀ a c, space_3 a c_eq c = false) as E3' by (intros a c; unfold space_3; by rewrite !andb_false_r).
  assert (∀ b c, space_3 c_eq b c = false) as E3'' by done.
  destruct r as [|c [|b [|a r]]]; cbn [app space_last].
  - intros _. destruct rest as [|b [|a rest]]; [done|by rewrite E2|by rewrite E2, E3].
  - destruct (ascii_space c); [done|]. intros _. rewrite E2'. destruct rest; [done|by rewrite E3'].
  - destruct (ascii_space c); [done|]. destruct (space_2 b c); [done|]. intros _. by rewrite E3''.
  - done.
Qed.

Lemma line_entry_kv key v :
  key ≠ [] → head key ≠ Some c_hash → c_eq ∉ key → space_head (kv key v) = None →
  space_head key = None → space_last (reverse key) = None → clean v →
  line_entry (kv key v) = Some (key, v).
Proof.
  intros Hne Hh Heq Hs Hs1 Hs2 (_ & Hv1 & Hv2). unfold line_entry.
  assert (TrimSpace (kv key v) = kv key v) as ->.
  { apply TrimSpace_None; [done|]. unfold kv. rewrite app_assoc, reverse_app, reverse_snoc. by apply space_last_eq. }
  destruct key as [|k0 key]; [done|]. unfold kv at 1. cbn [app].
  rewrite bool_decide_eq_false_2 by (intros ->; by apply Hh).
  change (k0 :: key ++ c_eq :: v) with ((k0 :: key) ++ c_eq :: v). rewrite index_byte_app by done.
  cbn [mbind option_bind]. rewrite take_app_length.
  change (c_eq :: v) with ([c_eq] ++ v). rewrite app_assoc.
  rewrite drop_app_length' by (rewrite length_app; cbn [length]; lia).
  by rewrite !TrimSpace_None.
Qed.

Lemma split_lines_app l r : x0a ∉ l → split_lines (l ++ x0a :: r) = l :: split_lines r.
Proof.
  induction l as [|b l IH]; cbn [app split_lines]; intros Hn; [by rewrite bool_decide_eq_true_2|].
  apply not_elem_of_cons in Hn as [Hb Hn]. rewrite bool_decide_eq_false_2 by congruence. by rewrite IH.
Qed.

Lemma split_lines_all ls :
  Forall (fun l => x0a ∉ l) ls → split_lines (concat (map (fun l => l ++ [x0a]) ls)) = ls ++ [[]].
Proof.
  induction 1 as [|l ls Hl _ IH]; [done|]. cbn [map concat]. rewrite <- app_assoc. cbn [app].
  by rewrite split_lines_app, IH.
Qed.

Lemma digits_clean l : Forall (fun b => is_digit b = true) l → clean l.
Proof.
  intros Hd. assert (∀ b, is_digit b = true → ascii_space b = false ∧ (∀ x, space_2 b x = false) ∧ (∀ x, space_2 x b = false) ∧
    (∀ x y, space_3 b x y = false) ∧ (∀ x y, space_3 x y b = false)) as Hb.
  { intros b Hb. assert (∀ c, is_digit c = false → bool_decide (b = c) = false) as Hn
      by (intros c Hc; apply bool_decide_eq_false_2, (is_digit_not _ _ Hb Hc)).
    assert (48 ≤ b2z b ≤ 57) as Hr by (destruct b; vm_compute in Hb; try discriminate Hb; vm_compute; split; discriminate).
    unfold ascii_space, space_2, space_3. split_and!; intros; rewrite ?Hn by done; rewrite ?andb_false_r; try done.
    - destruct (Z.leb_spec (b2z b) 13), (Z.eqb_spec (b2z b) 32); rewrite ?andb_false_r; try lia; done.
    - destruct (Z.leb_spec 128 (b2z b)), (Z.eqb_spec (b2z b) 168), (Z.eqb_spec (b2z b) 169), (Z.eqb_spec (b2z b) 175); try lia. }
  split_and!.
  - intros Hx. rewrite Forall_forall in Hd. by specialize (Hd _ Hx).
  - destruct Hd as [|a l Ha Hd]; [done|]. cbn. destruct (Hb a Ha) as (-> & E2 & _ & E3 & _).
    destruct l as [|b l]; [done|]. rewrite E2. destruct l; [done|]. by rewrite E3.
  - apply Forall_reverse in Hd. destruct Hd as [|a l' Ha Hd]; [done|]. cbn. destruct (Hb a Ha) as (-> & _ & E2 & _ & E3).
    destruct l' as [|b l']; [done|]. rewrite E2. destruct l'; [done|]. by rewrite E3.
Qed.

(** ** The round trip *)

Definition lang_strings (T : Strings) : Prop := T = zh ∨ T = en.

(** A hint of the file is a comment. *)
Lemma hints_are_comments T : lang_strings T →
  Forall (fun l => line_entry l = None ∧ has_byte l x0a = false)
    [CfgHeader T; CfgServerHint T; CfgNameHint T; CfgRoomHint T; CfgPassHint T].
Proof. intros [-> | ->]; repeat apply Forall_cons_2; try apply Forall_nil_2; vm_compute; done. Qed.

Record savable (cfg : Config) : Prop := {
  sv_addr : ∃ host port, SplitHostPort (cc_ServerAddr cfg) = Some (host, port) ∧ JoinHostPort host port = cc_ServerAddr cfg ∧
    SplitHostPort host = None ∧ head host ≠ Some c_lbr ∧ host ≠ [] ∧ port ≠ [] ∧ clean host ∧ clean port;
  sv_set : cc_PlayerName cfg ≠ [] ∧ cc_RoomID cfg ≠ [] ∧ cc_Lang cfg ≠ [];
  sv_clean : clean (cc_PlayerName cfg) ∧ clean (cc_RoomID cfg) ∧ clean (cc_Lang cfg) ∧ clean (cc_RoomPassword cfg) ∧
    clean (cc_LogFile cfg) ∧ clean (cc_PprofAddr cfg);
  sv_mtu : MinMTU ≤ cc_MTU cfg ≤ MaxMTU }.

Definition key_ok (key : list byte) : bool :=
  negb (bool_decide (key = [])) && negb (bool_decide (head key = Some c_hash)) && negb (has_byte key c_eq)
  && negb (has_byte key x0a) && bool_decide (space_head key = None) && bool_decide (space_last (reverse key) = None)
  && (3 <=? length key)%nat && bool_decide (space_head (take 3 key) = None).

Lemma kv_entry key v : key_ok key = true → clean v → line_entry (kv key v) = Some (key, v) ∧ x0a ∉ kv key v.
Proof.
  unfold key_ok. intros Hk Hv. repeat (apply andb_true_iff in Hk as [Hk ?]).
  repeat match goal with
  | Hx : negb _ = true |- _ => apply negb_true_iff in Hx
  | Hx : bool_decide _ = false |- _ => apply bool_decide_eq_false in Hx
  | Hx : bool_decide _ = true |- _ => apply bool_decide_eq_true in Hx
  | Hx : has_byte _ _ = false |- _ => apply has_byte_false in Hx
  end.
  split.
  - apply line_entry_kv; try done. unfold kv.
    destruct key as [|a [|b [|c key]]]; try done.
  - unfold kv. rewrite !not_elem_of_app. split; [done|]. split; [|apply Hv]. by intros Hx%list_elem_of_singleton.
Qed.

Lemma put_kv m key v : key_ok key = true → clean v → put_entry m (kv key v) = <[key := v]> m.
Proof. intros Hk Hv. unfold put_entry. by destruct (kv_entry key v Hk Hv) as [-> _]. Qed.
Lemma put_comment m l : line_entry l = None → put_entry m l = m.
Proof. unfold put_entry. by intros ->. Qed.

(** Reading the lines of [save_lines] one after another. *)
Ltac put_lines := repeat first [rewrite put_kv by (done || assumption)|rewrite put_comment by assumption|rewrite put_comment by reflexivity].

Lemma saved_entries T cfg : lang_strings T → savable cfg →
  ∃ host port, SplitHostPort (cc_ServerAddr cfg) = Some (host, port) ∧
  parseFile (SaveConfig T cfg) =
    <[str "pprof-addr" := cc_PprofAddr cfg]> (<[str "verbose" := if cc_Verbose cfg then str "true" else str "false"]>
    (<[str "log-file" := cc_LogFile cfg]> (<[str "mtu" := itoa (cc_MTU cfg)]> (<[str "lang" := cc_Lang cfg]>
    (<[str "password" := cc_RoomPassword cfg]> (<[str "room" := cc_RoomID cfg]> (<[str "name" := cc_PlayerName cfg]>
    (<[str "port" := port]> (<[str "server" := host]> ∅))))))))).
Proof.
  intros HT [(host & port & Hs & _ & _ & _ & _ & _ & Ch & Cp) _ (C1 & C2 & C3 & C4 & C5 & C6) Hm].
  exists host, port. split; [done|]. pose proof (hints_are_comments T HT) as Hh.
  repeat (apply Forall_cons in Hh as [[? ?%has_byte_false] Hh]). clear Hh HT.
  assert (clean (itoa (cc_MTU cfg))) as Cm.
  { apply digits_clean. unfold MinMTU, MaxMTU in Hm. by destruct (itoa_nonneg (cc_MTU cfg)) as (_ & ? & _); [lia|]. }
  assert (clean (if cc_Verbose cfg then str "true" else str "false")) as Cv.
  { unfold clean. destruct (cc_Verbose cfg); (split; [apply has_byte_false; reflexivity|done]). }
  assert (∀ k v, key_ok k = true → clean v → x0a ∉ kv k v) as Hnl by (intros k v Hk Hv; by destruct (kv_entry k v Hk Hv)).
  unfold parseFile, SaveConfig. rewrite split_lines_all.
  - rewrite foldl_app. unfold save_lines. rewrite Hs. cbn [app foldl]. put_lines. done.
  - unfold save_lines. rewrite Hs. cbn [app].
    repeat (apply Forall_cons_2; [first [assumption|by apply Hnl|apply has_byte_false; reflexivity]|]). apply Forall_nil_2.
Qed.

(** Saving the configuration and loading it again gives the same configuration,
    whatever the defaults it is loaded over, for every address form that is accepted -
    host name, IPv4, IPv6 - when the texts have no line break and no white space at
    their ends, and name, room and language are not empty. *)
Theorem config_roundtrip T hostname cfg :
  lang_strings T → savable cfg → LoadConfig hostname (Some (SaveConfig T cfg)) = cfg.
Proof.
  intros HT Hok. destruct (saved_entries T cfg HT Hok) as (host & port & Hs & Hm).
  destruct Hok as [(host' & port' & Hs' & Hj & Hh & Hb & Hne & Hpe & _) (N1 & N2 & N3) _ Hmtu].
  rewrite Hs in Hs'. injection Hs' as <- <-.
  unfold LoadConfig, loadINI. rewrite Hm. clear Hm.
  repeat match goal with |- context [?m !! ?k] =>
    match m with <[?k' := ?v]> _ =>
      first [rewrite (lookup_insert_eq _ k v)|rewrite (lookup_insert_ne _ k' k) by done] end end.
  cbn [default from_option id].
  rewrite Atoi_itoa by (unfold MinMTU, MaxMTU in Hmtu; lia).
  destruct (Z.leb_spec MinMTU (cc_MTU cfg)); [|lia]. destruct (Z.leb_spec (cc_MTU cfg) MaxMTU); [|lia]. cbn [andb].
  destruct host as [|h0 host]; [done|]. destruct port as [|p0 port]; [done|].
  assert (combinePort (h0 :: host) (p0 :: port) = cc_ServerAddr cfg) as ->.
  { unfold combinePort. rewrite Hh. rewrite (bool_decide_eq_false_2 (head _ = _)) by done. done. }
  destruct cfg as [addr name room pass lang mtu log verbose pprof]. cbn in *.
  destruct name; [done|]. destruct room; [done|]. destruct lang; [done|].
  destruct pass, log, pprof; destruct verbose; done.
Qed.

Definition ex_config_file : Config :=
  mkConfig (str "[2408::1]:4700") (str "alice") (str "lan") (str "p=w #1") (str "en") 1400 [] true [].
Lemma config_roundtrip_witness :
  LoadConfig (str "pc") (Some (SaveConfig en ex_config_file)) = ex_config_file.
Proof.
  apply config_roundtrip; [by right|]. split.
  - exists (str "2408::1"), (str "4700"). unfold clean. rewrite <- !has_byte_false. vm_compute. by split_and!.
  - done.
  - unfold clean. rewrite <- !has_byte_false. vm_compute. by split_and!.
  - vm_compute. by split_and!.
Defined.

(** ** The port of a server address *)

Lemma digit_val_range b : is_digit b = true → 0 ≤ digit_val b ≤ 9.
Proof. intros Hb. destruct b; vm_compute in Hb; try discriminate Hb; vm_compute; split; discriminate. Qed.

Lemma digits_val_grows l acc v : 0 ≤ acc → digits_val l acc = Some v → acc ≤ v.
Proof.
  revert acc. induction l as [|b l IH]; intros acc Ha; cbn [digits_val]; [intros [= <-]; lia|].
  destruct (is_digit b) eqn:Hb; [|done]. pose proof (digit_val_range b Hb). intros E. apply IH in E; lia.
Qed.

Lemma port_number_spec port acc n :
  0 ≤ acc → port_number port acc = inr n ↔ digits_val port acc = Some n ∧ (port = [] ∨ n ≤ 65535).
Proof.
  revert acc. induction port as [|c port IH]; intros acc Ha; cbn [port_number digits_val].
  - split; [intros [= <-]; split; [done|by left]|intros [[= <-] _]; done].
  - destruct (is_digit c) eqn:Hc; cbn [negb]; [|split; [done|by intros [? _]]].
    pose proof (digit_val_range c Hc). destruct (Z.ltb_spec 65535 (acc * 10 + digit_val c)).
    + split; [done|]. intros [E%digits_val_grows [|]]; [done|lia|lia].
    + rewrite IH by lia. split; intros [E Hn]; (split; [done|]).
      * right. destruct Hn as [->|]; [|done]. cbn in E. injection E as <-. lia.
      * right. by destruct Hn.
Qed.

(** An address is accepted exactly when it splits into a host and a port, neither
    empty, and the port is decimal with a value from 1 to 65535, however many
    digits it has. *)
Theorem ValidateServerAddr_spec addr :
  ValidateServerAddr addr = None ↔
  ∃ host port n, SplitHostPort addr = Some (host, port) ∧ host ≠ [] ∧ port ≠ [] ∧
    digits_val port 0 = Some n ∧ 1 ≤ n ≤ 65535.
Proof.
  unfold ValidateServerAddr. destruct addr as [|a addr]; [split; [done|]; intros (? & ? & ? & E & _); by vm_compute in E|].
  destruct (SplitHostPort (a :: addr)) as [[host port]|].
  2: { split; [|by intros (? & ? & ? & ? & _)]. intros E. exfalso. revert E. by repeat case_match. }
  destruct host as [|h host]; [split; [done|]; intros (? & ? & ? & [= <- <-] & ? & _); done|].
  destruct port as [|p port]; [split; [done|]; intros (? & ? & ? & [= <- <-] & _ & ? & _); done|].
  pose proof (port_number_spec (p :: port) 0) as Hp. destruct (port_number (p :: port) 0) as [e|m] eqn:E.
  - split; [done|]. intros (? & ? & n & [= <- <-] & _ & _ & Hd & Hn).
    assert (inl e = inr n) as X; [|discriminate X]. apply Hp; [done|]. split; [done|right; lia].
  - destruct (Hp m ltac:(done)) as [Hm _]. destruct (Hm eq_refl) as [Hd Hle].
    destruct (Z.ltb_spec m 1).
    + split; [done|]. intros (? & ? & n & [= <- <-] & _ & _ & Hd' & Hn). rewrite Hd in Hd'. injection Hd' as <-. lia.
    + split; [|done]. intros _. exists (h :: host), (p :: port), m. destruct Hle as [|Hle]; [done|]. by split_and!.
Qed.
