(* ===== verification/TunCommon.v ===== *)
(** * TunCommon: operating system calls, and what the TUN devices share

    Both devices of src/internal/tun ask the operating system for things that can
    fail.  A device operation is a function on the history of the calls made so
    far; the answer to a call may depend on that history, in any way. *)

From S2P Require Import Prelude GoNet Crc32 Protocol Route ClientConfig.

(** ** A monad of calls *)

(** Calls [C], each with its type of answers. *)
Class Answers (C : Type) (R : C → Type) := answer : list C → ∀ c, R c.

Definition Sys (C E A : Type) : Type := list C → go E A * list C.

Definition ret {C E A} (a : A) : Sys C E A := fun h => (Ok a, h).
Definition bind {C E A B} (m : Sys C E A) (f : A → Sys C E B) : Sys C E B := fun h =>
  match m h with
  | (Ok a, h) => f a h
  | (Err e, h) => (Err e, h)
  | (Panic, h) => (Panic, h)
  end.

Notation "'let*' x := m 'in' k" := (bind m (fun x => k))
  (at level 200, x name, k at level 200, format "'[v' 'let*'  x  :=  m  'in' '/' k ']'") : go_scope.

Definition fail {C E A} (e : E) : Sys C E A := fun h => (Err e, h).

(** A computation without calls. *)
Definition lift {C E A} (r : go E A) : Sys C E A := fun h => (r, h).

Section calls.
Context {C : Type} {R : C → Type} `{Answers C R}.

Definition call {E} (c : C) : Sys C E (R c) := fun h => (Ok (answer h c), h ++ [c]).

(** A call whose result is only logged. *)
Definition try_call {E} (c : C) : Sys C E unit := fun h => (Ok tt, h ++ [c]).
End calls.

(** Several of them. *)
Definition try_calls {C E} (l : list C) : Sys C E unit := fun h => (Ok tt, h ++ l).

(** [m] runs without an error, making the calls [l]. *)
Definition issues {C E A} (m : Sys C E A) (l : list C) (a : A) : Prop := ∀ h, m h = (Ok a, h ++ l).

Lemma issues_ret {C E A} (a : A) : issues (ret a : Sys C E A) [] a.
Proof. intros h. by rewrite app_nil_r. Qed.

Lemma issues_try {C E} (c : C) : issues (E:=E) (try_call c) [c] tt.
Proof. done. Qed.

Lemma issues_lift {C E A} (r : go E A) a : r = Ok a → issues (C:=C) (lift r) [] a.
Proof. intros -> h. by rewrite app_nil_r. Qed.

Lemma issues_bind {C E A B} (m : Sys C E A) (f : A → Sys C E B) l a l' b :
  issues m l a → issues (f a) l' b → issues (bind m f) (l ++ l') b.
Proof. intros Hm Hf h. unfold bind. by rewrite Hm, Hf, app_assoc. Qed.

Lemma bind_issues {C E A B} (m : Sys C E A) (f : A → Sys C E B) l a h :
  issues m l a → bind m f h = f a (h ++ l).
Proof. intros Hm. unfold bind. by rewrite Hm. Qed.

(** [m] makes only calls that satisfy [P], does not panic, and what it returns
    satisfies [Q]. *)
Definition triple {C E A} (P : C → Prop) (m : Sys C E A) (Q : A → Prop) : Prop := ∀ h, ∃ l,
  snd (m h) = h ++ l ∧ Forall P l ∧ match fst (m h) with Ok a => Q a | Err _ => True | Panic => False end.

Lemma triple_ret {C E A} (P : C → Prop) (a : A) (Q : A → Prop) : Q a → triple P (ret a : Sys C E A) Q.
Proof. intros HQ h. exists []. rewrite app_nil_r. by split_and!. Qed.

Lemma triple_fail {C E A} (P : C → Prop) (e : E) (Q : A → Prop) : triple P (fail e : Sys C E A) Q.
Proof. intros h. exists []. rewrite app_nil_r. by split_and!. Qed.

Lemma triple_lift {C E A} (P : C → Prop) (r : go E A) a (Q : A → Prop) : r = Ok a → Q a → triple P (lift r : Sys C E A) Q.
Proof. intros -> HQ. by apply triple_ret. Qed.

Lemma triple_try {C E} (P : C → Prop) (c : C) (Q : unit → Prop) : P c → Q tt → triple (E:=E) P (try_call c) Q.
Proof. intros HP HQ h. exists [c]. split_and!; [done|by constructor|done]. Qed.

Lemma triple_call {C R E} `{Answers C R} (P : C → Prop) (c : C) (Q : R c → Prop) :
  P c → (∀ r, Q r) → triple (E:=E) P (call c) Q.
Proof. intros HP HQ h. exists [c]. split_and!; [done|by constructor|apply HQ]. Qed.

Lemma triple_bind {C E A B} (P : C → Prop) (m : Sys C E A) (f : A → Sys C E B) Q R :
  triple P m Q → (∀ a, Q a → triple P (f a) R) → triple P (bind m f) R.
Proof.
  intros Hm Hf h. destruct (Hm h) as (l & Hl & HP & HQ). unfold bind. destruct (m h) as [[a|e|] h1]; cbn in Hl, HQ.
  - destruct (Hf a HQ h1) as (l' & Hl' & HP' & HR). exists (l ++ l'). split_and!; [by rewrite Hl', Hl, app_assoc|by apply Forall_app|done].
  - exists l. by split_and!.
  - done.
Qed.

Lemma triple_weaken {C E A} (P P' : C → Prop) (m : Sys C E A) (Q Q' : A → Prop) :
  triple P m Q → (∀ c, P c → P' c) → (∀ a, Q a → Q' a) → triple P' m Q'.
Proof.
  intros Hm HP HQ h. destruct (Hm h) as (l & Hl & Hf & Hq). exists l. split_and!; [done|by eapply Forall_impl|].
  destruct (fst (m h)); auto.
Qed.

Lemma bind_Ok {C E A B} (m : Sys C E A) (f : A → Sys C E B) h b h' : bind m f h = (Ok b, h') →
  ∃ a h1, m h = (Ok a, h1) ∧ f a h1 = (Ok b, h').
Proof. unfold bind. destruct (m h) as [[a|e|] h1]; [|done..]. by exists a, h1. Qed.

(** [m] returns without an error, whatever is answered. *)
Definition returns {C E A} (m : Sys C E A) : Prop := ∀ h, ∃ a l, m h = (Ok a, h ++ l).

Lemma returns_ret {C E A} (a : A) : returns (ret a : Sys C E A).
Proof. intros h. exists a, []. by rewrite app_nil_r. Qed.
Lemma returns_call {C R E} `{Answers C R} (c : C) : returns (E:=E) (call c).
Proof. intros h. by exists (answer h c), [c]. Qed.
Lemma returns_try {C E} (c : C) : returns (E:=E) (try_call c).
Proof. intros h. by exists tt, [c]. Qed.
Lemma returns_bind {C E A B} (m : Sys C E A) (f : A → Sys C E B) :
  returns m → (∀ a, returns (f a)) → returns (bind m f).
Proof.
  intros Hm Hf h. destruct (Hm h) as (a & l & E1). destruct (Hf a (h ++ l)) as (b & l' & E2).
  exists b, (l ++ l'). unfold bind. by rewrite E1, E2, app_assoc.
Qed.

(** A program whose calls [C] are among the calls [C'] of a larger one. *)
Definition embed {C C' E E' A} (inj : C → C') (proj : C' → option C) (err : E → E') (m : Sys C E A) : Sys C' E' A := fun h =>
  let own := omap proj h in
  let '(r, h') := m own in
  (match r with Ok a => Ok a | Err e => Err (err e) | Panic => Panic end, h ++ map inj (drop (length own) h')).

Lemma embed_ok {C C' E E' A} inj proj err (m : Sys C E A) h a l :
  m (omap proj h) = (Ok a, omap proj h ++ l) → embed (C':=C') (E':=E') inj proj err m h = (Ok a, h ++ map inj l).
Proof. intros Hm. unfold embed. by rewrite Hm, drop_app_length. Qed.

Lemma triple_embed {C C' E E' A} inj proj err (P0 : C → Prop) (P : C' → Prop) (m : Sys C E A) (Q : A → Prop) :
  triple P0 m Q → (∀ c, P0 c → P (inj c)) → triple P (embed (E':=E') inj proj err m) Q.
Proof.
  intros Hm HP h. destruct (Hm (omap proj h)) as (l & Hl & Hf & Hq). unfold embed.
  destruct (m (omap proj h)) as [r h']. cbn in *. subst h'. rewrite drop_app_length. exists (map inj l).
  split_and!; [done| |by destruct r]. apply List.Forall_map. by eapply Forall_impl.
Qed.

(** ** The configuration of a device *)

(** tun.Config; an absent address is nil. *)
Record DeviceConfig := mkDeviceConfig {
  dc_VirtualIP : IP; dc_SubnetMask : list byte; dc_ServerIP : IP; dc_ServerPublicIP : IP; dc_MTU : Z }.

Inductive dev_err :=
| ErrVirtualIP | ErrServerIP | ErrServerPublicIP | ErrNotIPv4 | ErrCreate | ErrTunName
| ErrAssignIP | ErrLinkUp | ErrFindAdapter | ErrRead | ErrWrite.

(** Whether an address that is present survives printing and reading. *)
Definition printable (ip : IP) : bool :=
  match ip with [] => true | _ => bool_decide (is_Some (ParseIP (IP_String ip))) end.

(** validateConfig *)
Definition validateConfig (cfg : DeviceConfig) : option dev_err :=
  if negb (printable (dc_VirtualIP cfg)) then Some ErrVirtualIP
  else if negb (printable (dc_ServerIP cfg)) then Some ErrServerIP
  else if negb (printable (dc_ServerPublicIP cfg)) then Some ErrServerPublicIP
  else None.

(** The default of New. *)
Definition with_default_MTU (cfg : DeviceConfig) : DeviceConfig :=
  if dc_MTU cfg <=? 0
  then mkDeviceConfig (dc_VirtualIP cfg) (dc_SubnetMask cfg) (dc_ServerIP cfg) (dc_ServerPublicIP cfg) DefaultMTU
  else cfg.

(** The checks of New. *)
Definition check_config (cfg : DeviceConfig) : option dev_err :=
  match validateConfig cfg with
  | Some e => Some e
  | None => match To4 (dc_VirtualIP cfg) with None => Some ErrNotIPv4 | Some _ => None end
  end.

(** The broadcast address of a device's network, as configure computes it: it panics
    when the network is nil or the mask is shorter than 4 bytes. *)
Definition device_broadcast {E} (subnet mask : list byte) : go E IP :=
  s0 ← index subnet 0; m0 ← index mask 0;
  s1 ← index subnet 1; m1 ← index mask 1;
  s2 ← index subnet 2; m2 ← index mask 2;
  s3 ← index subnet 3; m3 ← index mask 3;
  mret [byte_or s0 (byte_not m0); byte_or s1 (byte_not m1); byte_or s2 (byte_not m2); byte_or s3 (byte_not m3)].

(** The address of the host part of an address and port (cmd/client/run.go). *)
Definition parseHostIP (addr : list byte) : IP :=
  default [] (match SplitHostPort addr with None => ParseIP addr | Some (host, _) => ParseIP host end).

(** ** The driver

    The driver writes a packet into a buffer at the offset it is given, and sends
    what it finds there. *)

Definition fill (offset : nat) (buf pkt : list byte) : list byte :=
  take offset buf ++ pkt ++ drop (offset + length pkt) buf.

(** A read of the driver: the packets it delivers, at most one for each buffer. *)
Definition driver_Read (offset : nat) (bufs pkts : list (list byte)) : list (list byte) * list nat :=
  (zip_with (fill offset) bufs pkts ++ drop (length pkts) bufs, map length pkts).

(** ** Facts *)

Definition bcast_ip : IP := [xff; xff; xff; xff].
Definition mdns_ip : IP := [xe0; x00; x00; xfb].

(** The mask of a device: 4 bytes, ones before zeros. *)
Definition mask_ok (mask : list byte) : Prop := length mask = 4%nat ∧ is_Some (simpleMaskLength mask).

Lemma mask_CIDR mask : mask_ok mask → mask = CIDRMask (Mask_ones mask) 4.
Proof.
  intros [Hl [n Hn]]. unfold Mask_ones. rewrite Hn. apply simpleMaskLength_CIDR in Hn as [_ Hm].
  by rewrite Hl in Hm.
Qed.

Lemma IP_Mask_4 ip mask : length ip = 4%nat → length mask = 4%nat → IP_Mask ip mask = and_mask ip mask.
Proof. intros Hi Hm. unfold IP_Mask. repeat (rewrite ?Hm, ?Hi; cbn [Nat.eqb andb]). done. Qed.

Lemma length_and_mask ip mask : length ip = length mask → length (and_mask ip mask) = length mask.
Proof. intros Hl. unfold and_mask. rewrite length_zip_with. lia. Qed.

Lemma device_broadcast_ok {E} subnet mask : length subnet = 4%nat → length mask = 4%nat →
  device_broadcast (E:=E) subnet mask = Ok (zip_with (fun s m => byte_or s (byte_not m)) subnet mask).
Proof.
  intros Hs Hm. destruct subnet as [|? [|? [|? [|? [|]]]]]; try discriminate.
  by destruct mask as [|? [|? [|? [|? [|]]]]]; try discriminate.
Qed.

Lemma byte_and_idem a b : byte_and (byte_and a b) b = byte_and a b.
Proof.
  unfold byte_and. rewrite b2z_z2b. change 256 with (2 ^ 8). rewrite <- Z.land_ones by lia.
  rewrite (Z.land_comm _ (Z.ones 8)), <- !Z.land_assoc, Z.land_diag, Z.land_comm, Z.land_ones by lia.
  unfold z2b. by rewrite Zmod_mod.
Qed.

Lemma and_mask_idem ip mask : and_mask (and_mask ip mask) mask = and_mask ip mask.
Proof.
  revert mask. induction ip as [|a ip IH]; intros [|b mask]; try done. cbn. f_equal; [apply byte_and_idem|apply IH].
Qed.

(** Membership in a network given by masking, for 4-byte addresses. *)
Lemma Contains_masked ip mask dst : length ip = 4%nat → length mask = 4%nat → length dst = 4%nat →
  Contains (mkIPNet (and_mask ip mask) mask) dst = true ↔ and_mask ip mask = and_mask dst mask.
Proof.
  intros Hi Hm Hd. unfold Contains. cbn [net_IP net_Mask].
  assert (length (and_mask ip mask) = 4%nat) as Hl by (rewrite length_and_mask; lia).
  rewrite !To4_4 by done. rewrite Hm. cbn [Nat.eqb andb orb].
  rewrite Hl, Hm, Hd. cbn [Nat.eqb andb orb]. rewrite and_mask_idem. apply bool_decide_eq_true.
Qed.

Lemma and_mask_xff ip : length ip = 4%nat → and_mask ip [xff; xff; xff; xff] = ip.
Proof.
  intros Hl. destruct ip as [|a [|b [|c [|d [|]]]]]; try discriminate. unfold and_mask. cbn.
  by rewrite !byte_and_xff.
Qed.

(** A host route covers its host. *)
Lemma Contains_host ip dst : length ip = 4%nat → length dst = 4%nat →
  Contains (mkIPNet ip (CIDRMask 32 4)) dst = true ↔ dst = ip.
Proof.
  intros Hi Hd. change (CIDRMask 32 4) with [xff; xff; xff; xff].
  rewrite <- (and_mask_xff ip Hi) at 1. rewrite Contains_masked by done. rewrite !and_mask_xff by done. done.
Qed.

Lemma printable_4 ip : is_Some (To4 ip) → printable ip = true.
Proof.
  intros [v Hv]. unfold printable. destruct ip as [|x ip]; [done|]. apply bool_decide_eq_true_2.
  unfold IP_String. rewrite Hv. apply To4_quad in Hv as (a & b & c & d & ->). rewrite ParseIP_v4_string. by eexists.
Qed.

Lemma byte_not_ldiff m : 255 - b2z m = Z.ldiff 255 (b2z m).
Proof.
  apply Z.sub_nocarry_ldiff. change 255 with (Z.ones 8). rewrite Z.ldiff_ones_r by lia.
  pose proof (b2z_range m). rewrite Z.shiftr_div_pow2, Z.div_small by lia. done.
Qed.

Lemma byte_host_bits s m : byte_and (byte_or (byte_and s m) (byte_not m)) m = byte_and s m.
Proof.
  unfold byte_and, byte_or, byte_not. rewrite !b2z_z2b, byte_not_ldiff. f_equal.
  change 256 with (2 ^ 8). rewrite <- !Z.land_ones by lia. change (Z.ones 8) with 255.
  apply Z.bits_inj. intros i.
  assert (Z.testbit (b2z m) i = Z.testbit (b2z m) i && Z.testbit 255 i) as Hm.
  { rewrite <- Z.land_spec. change 255 with (Z.ones 8). rewrite Z.land_ones by lia.
    by rewrite Z.mod_small by apply b2z_range. }
  rewrite !Z.land_spec, !Z.lor_spec, !Z.land_spec, Z.ldiff_spec.
  destruct (Z.testbit (b2z s) i), (Z.testbit (b2z m) i), (Z.testbit 255 i); naive_solver.
Qed.

(** The broadcast address is in the network. *)
Lemma broadcast_masked ip mask :
  and_mask (zip_with (fun s m => byte_or s (byte_not m)) (and_mask ip mask) mask) mask = and_mask ip mask.
Proof.
  revert mask. induction ip as [|a ip IH]; intros [|b mask]; try done. cbn. f_equal; [apply byte_host_bits|apply IH].
Qed.

(** A byte without host bits has none to add. *)
Lemma full_mask a m : byte_and a m = byte_or (byte_and a m) (byte_not m) → m = xff.
Proof.
  intros Heq. apply b2z_inj. apply (f_equal b2z) in Heq. unfold byte_and, byte_or, byte_not in Heq.
  rewrite !b2z_z2b, byte_not_ldiff in Heq. change 256 with (2 ^ 8) in Heq. rewrite <- !Z.land_ones in Heq by lia.
  pose proof (b2z_range m) as Hr. change (b2z xff) with 255.
  assert (Z.ldiff 255 (b2z m) = 0) as Hd; [|rewrite <- byte_not_ldiff in Hd; lia].
  apply Z.bits_inj. intros i. apply (f_equal (fun z => Z.testbit z i)) in Heq.
  rewrite !Z.land_spec, !Z.lor_spec, !Z.land_spec, Z.ldiff_spec in Heq. rewrite Z.ldiff_spec, Z.bits_0.
  change (Z.ones 8) with 255 in Heq.
  destruct (Z.testbit (b2z a) i), (Z.testbit (b2z m) i), (Z.testbit 255 i); naive_solver.
Qed.
