(* ===== verification/TunLinux.v ===== *)
(** * TunLinux: the TUN device on Linux

    src/internal/tun/tun_linux.go and configure_linux.go, with the factory of
    src/cmd/client/main_other.go.  The WireGuard driver and the [ip] tool are the
    operating system. *)

From S2P Require Import Prelude GoNet Crc32 Protocol Messages NetUtil Auth Cipher Room Route ClientConfig Tunnel TunnelReg TunnelLife TunCommon.

(** ** Calls *)

(** The invocations of [ip]; a destination without a prefix length is a host. *)
Inductive IpCmd :=
| AddrReplace (ip : IP) (bits : Z) (dev : list byte)
| LinkUp (dev : list byte)
| RouteReplace (dst : IP) (bits : option Z) (dev : list byte) (metric : Z)
| RouteReplaceTable (dst : IP) (dev : list byte) (table : Z)
| RuleReplace (dst : IP) (table priority : Z)
| RouteDel (dst : IP) (bits : option Z) (dev : list byte)
| RouteDelTable (dst : IP) (table : Z)
| RuleDel (dst : IP) (table priority : Z).

Definition prefix (dst : IP) (bits : option Z) : list byte :=
  match bits with Some n => IP_String dst ++ str "/" ++ itoa n | None => IP_String dst end.

(** The words of the command line. *)
Definition argv (c : IpCmd) : list (list byte) :=
  str "ip" ::
  match c with
  | AddrReplace ip bits dev => [str "addr"; str "replace"; prefix ip (Some bits); str "dev"; dev]
  | LinkUp dev => [str "link"; str "set"; dev; str "up"]
  | RouteReplace dst bits dev metric =>
      [str "route"; str "replace"; prefix dst bits; str "dev"; dev; str "metric"; itoa metric]
  | RouteReplaceTable dst dev table =>
      [str "route"; str "replace"; IP_String dst; str "dev"; dev; str "table"; itoa table]
  | RuleReplace dst table priority =>
      [str "rule"; str "replace"; str "to"; IP_String dst; str "lookup"; itoa table; str "priority"; itoa priority]
  | RouteDel dst bits dev => [str "route"; str "del"; prefix dst bits; str "dev"; dev]
  | RouteDelTable dst table => [str "route"; str "del"; IP_String dst; str "table"; itoa table]
  | RuleDel dst table priority =>
      [str "rule"; str "del"; str "to"; IP_String dst; str "lookup"; itoa table; str "priority"; itoa priority]
  end.

Inductive LinuxCall :=
| CreateTUN (name : list byte) (mtu : Z)
| TunName
| TunBatchSize
| TunClose
| Run (c : IpCmd).

Definition LinuxAnswer (c : LinuxCall) : Type :=
  match c with TunName => option (list byte) | TunBatchSize => nat | _ => bool end.

(** ** The device *)

Record Device := mkDevice {
  d_name : list byte; d_virtualIP : IP; d_subnetMask : list byte; d_serverPublicIP : IP; d_mtu : Z; d_offset : nat }.

Definition broadcastRulePriority : Z := 100.
Definition broadcastTableID : Z := 255.

Section linux.
Context `{Answers LinuxCall LinuxAnswer}.

Definition run_ok (h : list LinuxCall) (c : IpCmd) : bool := answer (R:=LinuxAnswer) h (Run c).

Abbreviation Linux := (Sys LinuxCall dev_err).

Definition run_try (c : IpCmd) : Linux unit := try_call (Run c).

(** A command whose failure ends the configuration. *)
Definition run_must (e : dev_err) (c : IpCmd) : Linux unit :=
  let* ok := call (R:=LinuxAnswer) (Run c) in if ok then ret tt else fail e.

Definition CleanupRoutes (d : Device) : Linux unit :=
  let maskBits := Mask_ones (d_subnetMask d) in
  let subnet := IP_Mask (d_virtualIP d) (d_subnetMask d) in
  let* _ := run_try (RouteDel subnet (Some maskBits) (d_name d)) in
  let* broadcast := lift (device_broadcast subnet (d_subnetMask d)) in
  let* _ := run_try (RouteDel broadcast None (d_name d)) in
  let* _ := run_try (RouteDel bcast_ip None (d_name d)) in
  let* _ := run_try (RouteDelTable bcast_ip broadcastTableID) in
  let* _ := run_try (RuleDel bcast_ip broadcastTableID broadcastRulePriority) in
  run_try (RouteDel mdns_ip None (d_name d)).

Definition configure (d : Device) : Linux unit :=
  let* _ := CleanupRoutes d in
  let maskBits := Mask_ones (d_subnetMask d) in
  let subnet := IP_Mask (d_virtualIP d) (d_subnetMask d) in
  let* _ := run_must ErrAssignIP (AddrReplace (d_virtualIP d) maskBits (d_name d)) in
  let* _ := run_must ErrLinkUp (LinkUp (d_name d)) in
  let* _ := run_try (RouteReplace subnet (Some maskBits) (d_name d) 1) in
  let* broadcast := lift (device_broadcast subnet (d_subnetMask d)) in
  let* _ := run_try (RouteReplace broadcast None (d_name d) 1) in
  let* _ := run_try (RouteReplaceTable bcast_ip (d_name d) broadcastTableID) in
  let* _ := run_try (RuleReplace bcast_ip broadcastTableID broadcastRulePriority) in
  let* _ := run_try (RouteReplace bcast_ip None (d_name d) 1) in
  run_try (RouteReplace mdns_ip None (d_name d) 1).

(** ReconfigureRoutes: a failure is only logged. *)
Definition ReconfigureRoutes (d : Device) : Linux unit := fun h =>
  match configure d h with
  | (Err _, h) => (Ok tt, h)
  | r => r
  end.

(** Device.Close: the result is the driver's. *)
Definition Device_Close (d : Device) : Linux bool :=
  let* _ := CleanupRoutes d in call (R:=LinuxAnswer) TunClose.

(** The device is closed and the error returned. *)
Definition close_err {A} (e : dev_err) : Linux A := let* _ := try_call TunClose in fail e.

(** New *)
Definition Device_New (cfg : DeviceConfig) : Linux Device :=
  let cfg := with_default_MTU cfg in
  match check_config cfg with
  | Some e => fail e
  | None =>
      let* ok := call (R:=LinuxAnswer) (CreateTUN (str "gt0") (dc_MTU cfg)) in
      if negb ok then fail ErrCreate else
      let* name := call (R:=LinuxAnswer) TunName in
      match name with
      | None => close_err ErrTunName
      | Some name =>
          let* batch := call (R:=LinuxAnswer) TunBatchSize in
          let d := mkDevice name (default [] (To4 (dc_VirtualIP cfg))) (dc_SubnetMask cfg) (dc_ServerPublicIP cfg)
                     (dc_MTU cfg) (if (1 <? batch)%nat then 10 else 0)%nat in
          fun h => match configure d h with
                   | (Ok _, h) => (Ok d, h)
                   | (Err e, h) => close_err e h
                   | (Panic, h) => (Panic, h)
                   end
      end
  end.
End linux.

(** ** Packets *)

(** copy(buf, buf[offset:offset+size]) *)
Definition shift_down {E} (offset : nat) (buf : list byte) (size : nat) : go E (list byte) :=
  p ← slice buf offset (offset + size); mret (copy_into buf p).

Fixpoint shift_all {E} (offset : nat) (bufs : list (list byte)) (sizes : list nat) : go E (list (list byte)) :=
  match bufs, sizes with
  | buf :: bufs, size :: sizes => buf ← shift_down offset buf size; bufs ← shift_all offset bufs sizes; mret (buf :: bufs)
  | bufs, _ => Ok bufs
  end.

(** Device.ReadBatch, when the driver delivers [pkts] or fails: the buffers and the
    sizes. *)
Definition ReadBatch (d : Device) (bufs : list (list byte)) (read : option (list (list byte)))
    : go dev_err (list (list byte) * list nat) :=
  match read with
  | None => Err ErrRead
  | Some pkts =>
      let '(bufs, sizes) := driver_Read (d_offset d) bufs pkts in
      if (0 <? d_offset d)%nat then bufs ← shift_all (d_offset d) bufs sizes; mret (bufs, sizes)
      else Ok (bufs, sizes)
  end.

(** Device.Read: the buffer and the number of bytes. *)
Definition Read (d : Device) (buf : list byte) (read : option (list (list byte))) : go dev_err (list byte * nat) :=
  match read with
  | None => Err ErrRead
  | Some pkts =>
      match driver_Read (d_offset d) [buf] (take 1 pkts) with
      | (buf :: _, sz :: _) =>
          if (0 <? d_offset d)%nat then buf ← shift_down (d_offset d) buf sz; mret (buf, sz)
          else Ok (buf, sz)
      | _ => Ok (buf, 0%nat)
      end
  end.

(** Device.Write: the buffer handed to the driver, with its offset, and what Write
    returns, when the driver returns [n] or fails. *)
Definition Write (d : Device) (data : list byte) (n : option nat) : (list byte * nat) * go dev_err nat :=
  if (0 <? d_offset d)%nat then
    ((copy_at (zeros (d_offset d + length data)) (d_offset d) data, d_offset d),
     match n with None => Err ErrWrite | Some _ => Ok (length data) end)
  else
    ((data, 0%nat),
     match n with None => Err ErrWrite | Some O => Ok 0%nat | Some _ => Ok (length data) end).

(** The factory the client passes to its tunnel. *)
Definition device_config (serverPublicIP : IP) (c : TunConfig) : DeviceConfig :=
  mkDeviceConfig (tc_VirtualIP c) (tc_SubnetMask c) (tc_ServerIP c) serverPublicIP (tc_MTU c).
Definition tunFactory `{Answers LinuxCall LinuxAnswer} (serverAddr : list byte) (c : TunConfig) : Sys LinuxCall dev_err Device :=
  Device_New (device_config (parseHostIP serverAddr) c).

(** ** What is asked of the operating system *)

Definition device_ok (d : Device) : Prop := length (d_virtualIP d) = 4%nat ∧ length (d_subnetMask d) = 4%nat.

Definition device_net (d : Device) : IPNet := mkIPNet (and_mask (d_virtualIP d) (d_subnetMask d)) (d_subnetMask d).
Definition device_bcast (d : Device) : IP :=
  zip_with (fun s m => byte_or s (byte_not m)) (net_IP (device_net d)) (d_subnetMask d).

Definition cleanup_cmds (d : Device) : list IpCmd :=
          [RouteDel (net_IP (device_net d)) (Some (Mask_ones (d_subnetMask d))) (d_name d);
           RouteDel (device_bcast d) None (d_name d); RouteDel bcast_ip None (d_name d);
           RouteDelTable bcast_ip broadcastTableID; RuleDel bcast_ip broadcastTableID broadcastRulePriority;
           RouteDel mdns_ip None (d_name d)].

Definition route_cmds (d : Device) : list IpCmd :=
          [RouteReplace (net_IP (device_net d)) (Some (Mask_ones (d_subnetMask d))) (d_name d) 1;
           RouteReplace (device_bcast d) None (d_name d) 1; RouteReplaceTable bcast_ip (d_name d) broadcastTableID;
           RuleReplace bcast_ip broadcastTableID broadcastRulePriority; RouteReplace bcast_ip None (d_name d) 1;
           RouteReplace mdns_ip None (d_name d) 1].

Definition cleanup_calls (d : Device) : list LinuxCall := map Run (cleanup_cmds d).
Definition route_calls (d : Device) : list LinuxCall := map Run (route_cmds d).

Definition addr_cmd (d : Device) : IpCmd := AddrReplace (d_virtualIP d) (Mask_ones (d_subnetMask d)) (d_name d).
Definition link_cmd (d : Device) : IpCmd := LinkUp (d_name d).

(** The commands of a configuration that succeeds. *)
Definition config_cmds (d : Device) : list IpCmd := cleanup_cmds d ++ addr_cmd d :: link_cmd d :: route_cmds d.

Lemma run_not_close cs : TunClose ∉ map Run cs.
Proof. by intros (? & ? & _)%list_elem_of_fmap. Qed.

Lemma length_device_net d : device_ok d → length (net_IP (device_net d)) = 4%nat.
Proof. intros [Hi Hm]. cbn. rewrite length_and_mask; lia. Qed.

Lemma device_broadcast_net {E} d : device_ok d →
  device_broadcast (E:=E) (IP_Mask (d_virtualIP d) (d_subnetMask d)) (d_subnetMask d) = Ok (device_bcast d).
Proof.
  intros Hok. pose proof (length_device_net d Hok) as Hn. destruct Hok as [Hi Hm].
  rewrite IP_Mask_4 by done. by apply device_broadcast_ok.
Qed.

Section calls.
Context `{Answers LinuxCall LinuxAnswer}.

Lemma CleanupRoutes_issues d : device_ok d → issues (CleanupRoutes d) (cleanup_calls d) tt.
Proof.
  intros Hok h. pose proof Hok as [Hi Hm]. unfold CleanupRoutes, bind, run_try, try_call, lift.
  rewrite device_broadcast_net, IP_Mask_4 by done. by rewrite <- !app_assoc.
Qed.

(** The three ways configure ends. *)
Lemma configure_cases d h : device_ok d →
  let h0 := h ++ cleanup_calls d in
  configure d h =
    if run_ok h0 (addr_cmd d) then
      if run_ok (h0 ++ [Run (addr_cmd d)]) (link_cmd d)
      then (Ok tt, h0 ++ Run (addr_cmd d) :: Run (link_cmd d) :: route_calls d)
      else (Err ErrLinkUp, h0 ++ [Run (addr_cmd d); Run (link_cmd d)])
    else (Err ErrAssignIP, h0 ++ [Run (addr_cmd d)]).
Proof.
  intros Hok h0. unfold configure. rewrite (bind_issues _ _ _ _ _ (CleanupRoutes_issues d Hok)). fold h0.
  rewrite IP_Mask_4 by apply Hok. fold (addr_cmd d) (link_cmd d).
  unfold run_must at 1, call, bind at 1 2. fold (run_ok h0 (addr_cmd d)).
  destruct (run_ok h0 (addr_cmd d)); cbn [ret fail]; [|done].
  unfold run_must, call, bind at 1 2. fold (run_ok (h0 ++ [Run (addr_cmd d)]) (link_cmd d)).
  destruct (run_ok _ (link_cmd d)); cbn [ret fail]; [|by rewrite <- app_assoc].
  unfold bind, run_try, try_call, lift. rewrite <- (IP_Mask_4 (d_virtualIP d)) by apply Hok.
  rewrite device_broadcast_net by done. rewrite IP_Mask_4 by apply Hok. by rewrite <- !app_assoc.
Qed.

Lemma Device_New_cases cfg h :
  length (dc_SubnetMask cfg) = 4%nat →
  let create := CreateTUN (str "gt0") (dc_MTU (with_default_MTU cfg)) in
  match Device_New cfg h with
  | (Ok d, h') => h' = h ++ create :: TunName :: TunBatchSize :: map Run (config_cmds d) ∧ device_ok d ∧
      To4 (dc_VirtualIP cfg) = Some (d_virtualIP d) ∧ d_subnetMask d = dc_SubnetMask cfg ∧ 0 < d_mtu d
  | (Err e, h') => (check_config cfg = Some e ∧ h' = h) ∨ (e = ErrCreate ∧ h' = h ++ [create]) ∨
      (e ∈ [ErrTunName; ErrAssignIP; ErrLinkUp] ∧ ∃ l, h' = h ++ create :: l ++ [TunClose] ∧ TunClose ∉ l)
  | (Panic, _) => False
  end.
Proof.
  intros Hm create.
  assert (check_config (with_default_MTU cfg) = check_config cfg ∧ dc_SubnetMask (with_default_MTU cfg) = dc_SubnetMask cfg ∧
    dc_VirtualIP (with_default_MTU cfg) = dc_VirtualIP cfg ∧ 0 < dc_MTU (with_default_MTU cfg)) as (Hc & Hmask & Hip & Hmtu).
  { unfold with_default_MTU. destruct (Z.leb_spec (dc_MTU cfg) 0); by split_and!. }
  unfold Device_New. rewrite Hc. destruct (check_config cfg) as [e|] eqn:Echeck; [by left|].
  assert (is_Some (To4 (dc_VirtualIP cfg))) as [v Hv].
  { unfold check_config in Echeck. destruct (validateConfig cfg); [done|]. destruct (To4 (dc_VirtualIP cfg)); [by eexists|done]. }
  fold create. unfold call, bind at 1. destruct (answer h create); cbn [negb]; [|right; left; done].
  unfold bind at 1. destruct (answer (h ++ [create]) TunName) as [name|].
  2:{ right; right. split; [set_solver|]. exists [TunName]. cbn. rewrite <- !app_assoc. split; [done|]. set_solver. }
  unfold bind at 1. rewrite <- !app_assoc. cbn [app]. set (h1 := h ++ [create; TunName; TunBatchSize]).
  set (d := mkDevice _ _ _ _ _ _).
  assert (device_ok d) as Hd by (split; cbn; [rewrite Hip, Hv; by eapply To4_length|by rewrite Hmask]).
  rewrite configure_cases by done. cbn zeta. destruct (run_ok _ (addr_cmd d)); [destruct (run_ok _ (link_cmd d))|].
  - split_and!; [|done|cbn; by rewrite Hip, Hv|done|done].
    unfold h1. rewrite <- !app_assoc. cbn [app]. done.
  - right; right. split; [set_solver|]. exists (TunName :: TunBatchSize :: map Run (cleanup_cmds d ++ [addr_cmd d; link_cmd d])).
    split; [unfold close_err, h1, bind, try_call, fail; rewrite fmap_app; cbn [app]; by rewrite <- !app_assoc|].
    rewrite !not_elem_of_cons. split_and!; [done..|apply run_not_close].
  - right; right. split; [set_solver|]. exists (TunName :: TunBatchSize :: map Run (cleanup_cmds d ++ [addr_cmd d])).
    split; [unfold close_err, h1, bind, try_call, fail; rewrite fmap_app; cbn [app]; by rewrite <- !app_assoc|].
    rewrite !not_elem_of_cons. split_and!; [done..|apply run_not_close].
Qed.

(** What was answered when New returned a device. *)
Lemma Device_New_answers cfg h d h' :
  length (dc_SubnetMask cfg) = 4%nat → Device_New cfg h = (Ok d, h') →
  let create := CreateTUN (str "gt0") (dc_MTU (with_default_MTU cfg)) in
  let before := h ++ create :: TunName :: TunBatchSize :: cleanup_calls d in
  answer h create = true ∧ answer (h ++ [create]) TunName = Some (d_name d) ∧
  run_ok before (addr_cmd d) = true ∧ run_ok (before ++ [Run (addr_cmd d)]) (link_cmd d) = true.
Proof.
  intros Hm Hnew create before.
  pose proof (Device_New_cases cfg h Hm) as Hn. rewrite Hnew in Hn. destruct Hn as (_ & Hok & _).
  revert Hnew. unfold Device_New. destruct (check_config _); [done|]. fold create. unfold call, bind at 1.
  destruct (answer h create); cbn [negb]; [|done]. unfold bind at 1.
  destruct (answer (h ++ [create]) TunName) as [name|]; [|done].
  unfold bind at 1. rewrite <- !app_assoc. cbn [app]. set (h1 := h ++ [create; TunName; TunBatchSize]).
  set (d0 := mkDevice _ _ _ _ _ _). intros Hnew.
  assert (d0 = d) as E by (destruct (configure d0 h1) as [[?|?|] ?]; by injection Hnew).
  rewrite E, configure_cases in Hnew by done. cbn zeta in Hnew.
  assert (h1 ++ cleanup_calls d = before) as Eh by (unfold h1, before; by rewrite <- app_assoc).
  rewrite Eh in Hnew. destruct (run_ok _ (addr_cmd d)); [|done]. destruct (run_ok _ (link_cmd d)); [|done].
  split_and!; [done| |done|done]. by rewrite <- E.
Qed.

(** C22: Creating a device never leaks one and, with a 4-byte mask, never panics, whatever
    the operating system refuses: New either returns a device that is open and whose
    address and link-up commands the system answered with success, after which the route
    commands were issued, or returns an error and has closed what it created, as its last
    call; a configuration that does not pass the checks creates nothing. *)
Theorem New_opens_or_cleans_up cfg h :
  length (dc_SubnetMask cfg) = 4%nat →
  let create := CreateTUN (str "gt0") (dc_MTU (with_default_MTU cfg)) in
  match Device_New cfg h with
  | (Ok d, h') =>
      let before := h ++ create :: TunName :: TunBatchSize :: cleanup_calls d in
      h' = before ++ Run (addr_cmd d) :: Run (link_cmd d) :: route_calls d ∧
      TunClose ∉ drop (length h) h' ∧
      answer h create = true ∧ run_ok before (addr_cmd d) = true ∧
      run_ok (before ++ [Run (addr_cmd d)]) (link_cmd d) = true ∧
      To4 (dc_VirtualIP cfg) = Some (d_virtualIP d) ∧ d_subnetMask d = dc_SubnetMask cfg ∧ 0 < d_mtu d
  | (Err e, h') => (check_config cfg = Some e ∧ h' = h) ∨ (e = ErrCreate ∧ h' = h ++ [create]) ∨
      (e ∈ [ErrTunName; ErrAssignIP; ErrLinkUp] ∧ ∃ l, h' = h ++ create :: l ++ [TunClose] ∧ TunClose ∉ l)
  | (Panic, _) => False
  end.
Proof.
  intros Hm create. pose proof (Device_New_cases cfg h Hm) as Hn.
  pose proof (λ d h', Device_New_answers cfg h d h' Hm) as Ha.
  destruct (Device_New cfg h) as [[d|e|] h']; [|done|done].
  destruct Hn as (-> & _ & Hip & Hmask & Hmtu). destruct (Ha _ _ eq_refl) as (Hc & _ & Haddr & Hlink).
  split_and!; try done.
  - unfold config_cmds, cleanup_calls, route_calls. rewrite map_app. cbn [map]. rewrite <- app_assoc. done.
  - rewrite drop_app_length, !not_elem_of_cons. split_and!; [done..|apply run_not_close].
Qed.
End calls.

(** ** Routes *)

(** The destinations a command routes to the device; [ip] reads an address without a
    prefix length as a host. *)
Definition route_net (c : IpCmd) : option IPNet :=
  match c with
  | RouteReplace dst bits _ _ => Some (mkIPNet dst (CIDRMask (default 32 bits) 4))
  | RouteReplaceTable dst _ _ => Some (mkIPNet dst (CIDRMask 32 4))
  | _ => None
  end.

Definition captured (l : list LinuxCall) (dst : IP) : Prop :=
  ∃ c n, Run c ∈ l ∧ route_net c = Some n ∧ Contains n dst = true.

(** What a command adds to or removes from the tables of the kernel: a route of a
    table, by its destination, or a rule. *)
Inductive Entry := RouteEntry (dst : IP) (bits : Z) (table : option Z) | RuleEntry (dst : IP) (table priority : Z).

Definition adds (c : LinuxCall) : option Entry :=
  match c with
  | Run (RouteReplace dst bits _ _) => Some (RouteEntry dst (default 32 bits) None)
  | Run (RouteReplaceTable dst _ t) => Some (RouteEntry dst 32 (Some t))
  | Run (RuleReplace dst t p) => Some (RuleEntry dst t p)
  | _ => None
  end.
Definition removes (c : LinuxCall) : option Entry :=
  match c with
  | Run (RouteDel dst bits _) => Some (RouteEntry dst (default 32 bits) None)
  | Run (RouteDelTable dst t) => Some (RouteEntry dst 32 (Some t))
  | Run (RuleDel dst t p) => Some (RuleEntry dst t p)
  | _ => None
  end.

Lemma Contains_device_net d dst : device_ok d → length dst = 4%nat →
  Contains (device_net d) dst = true ↔ and_mask (d_virtualIP d) (d_subnetMask d) = and_mask dst (d_subnetMask d).
Proof. intros [Hi Hm] Hd. by apply Contains_masked. Qed.

Lemma length_device_bcast d : device_ok d → length (device_bcast d) = 4%nat.
Proof.
  intros Hok. pose proof (length_device_net d Hok). destruct Hok. unfold device_bcast. rewrite length_zip_with. lia.
Qed.

#[local] Opaque CIDRMask.

Lemma captured_app l1 l2 dst : captured l2 dst → captured (l1 ++ l2) dst.
Proof. intros (c & n & Hc & Hn & Hd). exists c, n. split_and!; [set_solver|done|done]. Qed.

(** The calls that capture a destination, of those of a configuration. *)
Lemma captured_config d dst : device_ok d → mask_ok (d_subnetMask d) → length dst = 4%nat →
  captured (map Run (config_cmds d)) dst ↔
  Contains (device_net d) dst = true ∨ dst = device_bcast d ∨ dst = bcast_ip ∨ dst = mdns_ip.
Proof.
  intros Hok Hmask Hd. pose proof (mask_CIDR _ Hmask) as Hcidr.
  pose proof (length_device_bcast d Hok) as Hb. unfold captured. split.
  - intros (c & n & Hin & Hn & Hc). cbn in Hin. rewrite !elem_of_cons in Hin.
    destruct_or?; simplify_eq/=; try by apply elem_of_nil in Hin.
    all: rewrite <- ?Hcidr in Hc; rewrite ?Contains_host in Hc by done; auto.
  - assert (∀ c, c ∈ route_cmds d → Run c ∈ map Run (config_cmds d)) as Hin.
    { intros c Hc. apply list_elem_of_fmap_2. unfold config_cmds. set_solver. }
    intros [Hc|[->|[->| ->]]].
    + eexists _, _. split; [apply Hin; by left|]. split; [done|].
      replace (CIDRMask _ 4) with (d_subnetMask d) by exact Hcidr. done.
    + eexists _, _. split; [apply Hin; right; by left|]. split; [done|]. by apply Contains_host.
    + eexists _, _. split; [apply Hin; do 4 right; by left|]. split; [done|]. by apply Contains_host.
    + eexists _, _. split; [apply Hin; do 5 right; by left|]. split; [done|]. by apply Contains_host.
Qed.

Section routes.
Context `{Answers LinuxCall LinuxAnswer}.

(** C21: What a configured device takes from the host is the game traffic and nothing else:
    whatever commands fail, the destinations its commands route to it are those of
    its network, the limited broadcast and mDNS, and no default route; of these, the
    two outside the network and the broadcast address of the network are those
    the client hands to the relay for everybody. *)
Theorem captured_destinations d h l dst :
  device_ok d → mask_ok (d_subnetMask d) → length dst = 4%nat →
  configure d h = (Ok tt, h ++ l) →
  (captured l dst ↔ Contains (device_net d) dst = true ∨ dst = bcast_ip ∨ dst = mdns_ip) ∧
  (dst = device_bcast d ∨ dst = bcast_ip ∨ dst = mdns_ip →
     captured l dst ∧ isRelayTarget (E:=perr) dst (Some (device_net d)) = Ok true).
Proof.
  intros Hok Hmask Hd Hc. rewrite configure_cases in Hc by done. cbn zeta in Hc.
  destruct (run_ok _ (addr_cmd d)); [|done]. destruct (run_ok _ (link_cmd d)); [|done].
  injection Hc as Hl. rewrite <- app_assoc in Hl. apply app_inv_head in Hl as <-.
  change (cleanup_calls d ++ Run (addr_cmd d) :: Run (link_cmd d) :: route_calls d) with (map Run (config_cmds d)).
  assert (Contains (device_net d) (device_bcast d) = true) as Hin.
  { apply Contains_device_net; [done|by apply length_device_bcast|].
    unfold device_bcast, device_net. cbn [net_IP]. by rewrite broadcast_masked. }
  rewrite captured_config by done. split; [naive_solver|]. intros Hdst. split; [naive_solver|].
  pose proof (length_device_net d Hok) as Hn. destruct Hok as [Hi Hm].
  unfold isRelayTarget. rewrite !To4_4 by done. destruct Hdst as [->|[->| ->]]; [|done|].
  - destruct (IP_Equal _ IPv4bcast); [done|].
    pose proof (bcast4 (E:=perr) (device_net d) _ _ (To4_4 _ Hn) Hm eq_refl) as [Hb _]. rewrite Hb. cbn [mbind go_bind].
    unfold bcast_of. rewrite To4_4 by done. by rewrite IP_Equal_refl.
  - destruct (bcast4 (E:=perr) (device_net d) _ _ (To4_4 _ Hn) Hm eq_refl) as [Hb _]. cbn [IP_Equal].
    destruct (IP_Equal mdns_ip IPv4bcast); [done|]. rewrite Hb. cbn [mbind go_bind]. by destruct (IP_Equal _ _).
Qed.

(** Closing a device removes every route and rule its configuration added, from the
    table it was added to, before the driver closes the device. *)
Theorem Close_undoes_configure d h l h0 :
  device_ok d → configure d h = (Ok tt, h ++ l) →
  ∃ ok l0, Device_Close d h0 = (Ok ok, h0 ++ l0 ++ [TunClose]) ∧ omap adds l ⊆ omap removes l0.
Proof.
  intros Hok Hc. rewrite configure_cases in Hc by done. cbn zeta in Hc.
  destruct (run_ok _ (addr_cmd d)); [|done]. destruct (run_ok _ (link_cmd d)); [|done].
  injection Hc as Hl. rewrite <- app_assoc in Hl. apply app_inv_head in Hl as <-.
  change (cleanup_calls d ++ Run (addr_cmd d) :: Run (link_cmd d) :: route_calls d) with (map Run (config_cmds d)).
  eexists _, (cleanup_calls d). split.
  - unfold Device_Close. rewrite (bind_issues _ _ _ _ _ (CleanupRoutes_issues d Hok)).
    unfold call. by rewrite <- app_assoc.
  - cbn. set_solver.
Qed.

(** The network of the device comes from the server, and its mask is not checked: a
    server that assigns the mask 0.0.0.0 has the client route all of the host's
    traffic to the device, the default route the sources promise not to add. *)
Theorem server_takes_all_traffic rand payload a t t' mtu public h d h' dst :
  UnmarshalAssignIP payload = Ok a → ap_SubnetMask a = zeros 4 → handleAssignIP rand payload t = inr t' →
  let s := t_session t' in
  Device_New (device_config public (mkTunConfig (ss_virtualIP s) (ss_subnetMask s) (ss_serverIP s) mtu)) h = (Ok d, h') →
  length dst = 4%nat → captured h' dst.
Proof.
  intros Ha Hmask Ht s Hnew Hd.
  assert (ss_subnetMask s = zeros 4) as Hs.
  { revert Ht. unfold handleAssignIP. rewrite Ha. repeat case_match; intros [= <-]; done. }
  assert (length (dc_SubnetMask (device_config public (mkTunConfig (ss_virtualIP s) (ss_subnetMask s) (ss_serverIP s) mtu))) = 4%nat)
    as Hl by (cbn; by rewrite Hs).
  pose proof (Device_New_cases _ h Hl) as Hcase. rewrite Hnew in Hcase. destruct Hcase as (-> & Hok & _ & Hm & _).
  cbn in Hm. rewrite Hs in Hm.
  apply captured_app, (captured_app [_; _; _]). apply captured_config; [done| |done|].
  - rewrite Hm. split; [done|by eexists].
  - left. apply Contains_device_net; [done..|]. rewrite Hm. destruct Hok as [Hi _].
    destruct (d_virtualIP d) as [|? [|? [|? [|? [|]]]]]; try discriminate.
    destruct dst as [|? [|? [|? [|? [|]]]]]; try discriminate. cbn. by rewrite !byte_and_x00.
Qed.
End routes.

(** ** Sessions and packets *)

Section session.
Context `{Answers LinuxCall LinuxAnswer}.

(** After a registration the only things that can keep the client from a device are
    the operating system and the address it was told to exclude; and the network
    of the device is the subnet the client routes by. *)
Theorem registered_device t mtu public h :
  session_ok t →
  let s := t_session t in
  match Device_New (device_config public (mkTunConfig (ss_virtualIP s) (ss_subnetMask s) (ss_serverIP s) mtu)) h with
  | (Ok d, _) => ∃ n, ss_cachedSubnet s = Some n ∧
      ∀ dst, length dst = 4%nat → Contains (device_net d) dst = Contains n dst
  | (Err e, _) => e ∈ [ErrServerPublicIP; ErrCreate; ErrTunName; ErrAssignIP; ErrLinkUp]
  | (Panic, _) => False
  end.
Proof.
  intros Hs s. destruct (ok_vip _ Hs) as (v & n & Hv & Hn & Hnm & Hl & [nn Hnn] & Hin & _).
  destruct (ok_server _ Hs) as [Hserver _]. fold s in Hv, Hn, Hnm, Hserver.
  set (cfg := device_config _ _). assert (length (dc_SubnetMask cfg) = 4%nat) as Hm by (cbn; by rewrite <- Hnm).
  pose proof (Device_New_cases cfg h Hm) as Hc. destruct (Device_New cfg h) as [[d|e|] h']; [|..|done].
  - destruct Hc as (_ & Hok & Hip & Hmask & _). exists n. split; [done|]. intros dst Hd.
    cbn in Hip, Hmask. rewrite Hv in Hip. injection Hip as ->.
    apply eq_iff_eq_true. rewrite Contains_device_net by done. rewrite Hmask, <- Hnm.
    pose proof (To4_length _ _ Hnn) as Hnnl. pose proof (To4_length _ _ Hv) as Hvl.
    assert (∀ x, length x = 4%nat → Contains n x = true ↔ and_mask nn (net_Mask n) = and_mask x (net_Mask n)) as HC.
    { intros x Hx. unfold Contains. rewrite Hnn, To4_4, Hl, Hnnl, Hx by done. cbn [Nat.eqb andb orb].
      rewrite Hl. apply bool_decide_eq_true. }
    rewrite HC in Hin |- * by done. by rewrite Hin.
  - destruct Hc as [[Hc _]|[[-> _]|[Hin' _]]]; [|set_solver|set_solver]. revert Hc.
    unfold check_config, validateConfig. cbn [dc_VirtualIP dc_ServerIP dc_ServerPublicIP cfg device_config tc_VirtualIP tc_ServerIP].
    rewrite !printable_4, Hv by (done || by rewrite Hv). cbn [negb]. destruct (printable public); [done|].
    intros [= <-]. set_solver.
Qed.
End session.

Lemma shift_fill {E} offset buf pkt : (offset + length pkt ≤ length buf)%nat →
  ∃ b, shift_down (E:=E) offset (fill offset buf pkt) (length pkt) = Ok b ∧ take (length pkt) b = pkt.
Proof.
  intros Hl. unfold shift_down. assert (length (fill offset buf pkt) = length buf) as Hf.
  { unfold fill. rewrite !length_app, length_take, length_drop. lia. }
  rewrite slice_ok by lia. cbn [mbind go_bind]. eexists. split; [reflexivity|].
  replace (offset + length pkt - offset)%nat with (length pkt) by lia.
  unfold fill at 2. rewrite drop_app_ge by (rewrite length_take; lia). rewrite length_take, Nat.min_l by lia.
  rewrite Nat.sub_diag, drop_0, take_app_length.
  unfold copy_into. rewrite (take_ge pkt) by (rewrite ?Hf; lia). by rewrite take_app_length.
Qed.

(** A packet fits a buffer behind the header. *)
Definition fits (offset : nat) (buf pkt : list byte) : Prop := (offset + length pkt ≤ length buf)%nat.

Lemma shift_all_packets {E} offset bufs pkts rest : Forall2 (fits offset) bufs pkts →
  ∃ bufs', shift_all (E:=E) offset (zip_with (fill offset) bufs pkts ++ rest) (map length pkts) = Ok (bufs' ++ rest) ∧
    length bufs' = length pkts ∧ zip_with take (map length pkts) (bufs' ++ rest) = pkts.
Proof.
  induction 1 as [|buf pkt bufs pkts Hf _ IH]; cbn [zip_with map app].
  { exists []. split_and!; [by destruct rest|done|by destruct rest]. }
  destruct (shift_fill (E:=E) _ _ _ Hf) as (b & Hb & Ht). destruct IH as (bs & Hbs & Hlen & Hz).
  exists (b :: bs). cbn [shift_all]. rewrite Hb. cbn [mbind go_bind]. rewrite Hbs. cbn. by rewrite Hlen, Ht, Hz.
Qed.

(** The device hands packets on unchanged, whether or not the driver keeps a header in
    front of them: what ReadBatch leaves at the start of each buffer is the
    packet the driver delivered, and what Write gives the driver, behind the
    offset it announces, is the packet written. *)
Theorem packets_unchanged d bufs rest pkts data n :
  Forall2 (fits (d_offset d)) bufs pkts →
  (∃ bufs', ReadBatch d (bufs ++ rest) (Some pkts) = Ok (bufs', map length pkts) ∧
     zip_with take (map length pkts) bufs' = pkts) ∧
  (let '(buf, off) := fst (Write d data n) in drop off buf = data) ∧
  (n ≠ None → data ≠ [] → n ≠ Some 0%nat → snd (Write d data n) = Ok (length data)).
Proof.
  intros Hf. split_and!.
  - unfold ReadBatch, driver_Read. pose proof (Forall2_length _ _ _ Hf) as Hl.
    rewrite zip_with_app_l, <- Hl, (drop_app_length' bufs rest) by done.
    rewrite (drop_ge pkts) by lia. replace (zip_with (fill (d_offset d)) rest []) with (@nil (list byte)) by (by destruct rest).
    rewrite app_nil_r, (take_ge pkts) by lia.
    destruct (Nat.ltb_spec 0 (d_offset d)) as [Ho|Ho].
    + destruct (shift_all_packets (E:=dev_err) _ _ _ rest Hf) as (bs & Hbs & _ & Hz). rewrite Hbs.
      cbn [mbind go_bind]. by eexists.
    + eexists. split; [done|]. replace (d_offset d) with 0%nat in * by lia. clear -Hf.
      induction Hf as [|buf pkt bufs pkts _ _ IH]; [by destruct rest|]. cbn. rewrite IH. f_equal.
      unfold fill. rewrite take_0. apply (take_app_length pkt).
  - unfold Write. destruct (Nat.ltb_spec 0 (d_offset d)); cbn; [|done].
    unfold copy_at, zeros. rewrite drop_app_length' by (rewrite length_take, length_replicate; lia).
    unfold copy_into. rewrite length_drop, length_replicate.
    rewrite take_ge, (drop_ge (drop _ _)) by (rewrite ?length_drop, ?length_replicate; lia). apply app_nil_r.
  - intros Hn Hd H0. unfold Write. destruct (0 <? d_offset d)%nat; cbn; destruct n as [[|]|]; done.
Qed.

(** *** Witnesses *)

(** A system that allows everything, and one that cannot bring links up. *)
Definition ex_linux : Answers LinuxCall LinuxAnswer := fun _ c =>
  match c with CreateTUN _ _ => true | TunName => Some (str "gt0") | TunBatchSize => 128%nat | TunClose => true | Run _ => true end.
Definition ex_no_link : Answers LinuxCall LinuxAnswer := fun h c =>
  match c as c return LinuxAnswer c with Run (LinkUp _) => false | c => ex_linux h c end.

Definition ex_config : DeviceConfig := mkDeviceConfig [x0a; x0a; x00; x02] mask24 [x0a; x0a; x00; x01] [] 0.
Definition ex_device : Device := mkDevice (str "gt0") [x0a; x0a; x00; x02] mask24 [] 1400 10.

(** The words of two of the commands. *)
Example argv_route : argv (RouteReplace [x0a; x0a; x00; x00] (Some 24) (str "gt0") 1) =
  map list_byte_of_string ["ip"; "route"; "replace"; "10.10.0.0/24"; "dev"; "gt0"; "metric"; "1"]%string.
Proof. reflexivity. Qed.
Example argv_rule : argv (RuleReplace bcast_ip broadcastTableID broadcastRulePriority) =
  map list_byte_of_string ["ip"; "rule"; "replace"; "to"; "255.255.255.255"; "lookup"; "255"; "priority"; "100"]%string.
Proof. reflexivity. Qed.

Lemma New_opens_or_cleans_up_witness :
  ∃ l, Device_New (H:=ex_no_link) ex_config [] = (Err ErrLinkUp, CreateTUN (str "gt0") 1400 :: l ++ [TunClose]) ∧ TunClose ∉ l.
Proof.
  pose proof (New_opens_or_cleans_up (H:=ex_no_link) ex_config [] eq_refl) as Hn.
  assert (∃ h, Device_New (H:=ex_no_link) ex_config [] = (Err ErrLinkUp, CreateTUN (str "gt0") 1400 :: TunName :: h)) as [h Hh]
    by (eexists; vm_compute; reflexivity).
  rewrite Hh in Hn |- *. destruct Hn as [[Hc _]|[[Hc _]|(_ & l & Hl & Hno)]]; [discriminate..|].
  exists l. split; [by rewrite Hl|done].
Defined.

Definition ex_configured : list LinuxCall := map Run (config_cmds ex_device).
Lemma ex_configured_run : configure (H:=ex_linux) ex_device [] = (Ok tt, [] ++ ex_configured).
Proof. vm_compute. reflexivity. Qed.

(** Another player's address is routed to the device, an address elsewhere is not. *)
Lemma captured_destinations_witness :
  captured ex_configured [x0a; x0a; x00; x03] ∧ ¬ captured ex_configured [x08; x08; x08; x08].
Proof.
  pose proof (fun dst Hd => captured_destinations (H:=ex_linux) ex_device [] ex_configured dst
    (conj eq_refl eq_refl) (conj eq_refl (ex_intro _ 24 eq_refl)) Hd ex_configured_run) as Hc.
  split.
  - apply (proj2 (proj1 (Hc [x0a; x0a; x00; x03] eq_refl))). left. reflexivity.
  - intros Hin. apply (proj1 (proj1 (Hc [x08; x08; x08; x08] eq_refl))) in Hin. destruct Hin as [Hin|[Hin|Hin]]; discriminate.
Defined.

Lemma Close_undoes_configure_witness :
  ∃ ok l0, Device_Close (H:=ex_linux) ex_device ex_configured = (Ok ok, ex_configured ++ l0 ++ [TunClose]) ∧
    omap adds ex_configured ⊆ omap removes l0.
Proof.
  exact (Close_undoes_configure (H:=ex_linux) ex_device [] ex_configured ex_configured (conj eq_refl eq_refl) ex_configured_run).
Defined.

(** The assignment of a server that wants everything. *)
Definition ex_greedy : AssignIPPayload :=
  mkAssignIP [x0a; x0a; x00; x02] (zeros 4) [x0a; x0a; x00; x01] AppVersion (replicate 16 x07).
Definition ex_greedy_payload : list byte := default [] (AssignIPPayload_Marshal ex_greedy).
Definition ex_greedy_joined : Tunnel :=
  match handleAssignIP ex_rand ex_greedy_payload (ex_joining "alice" []) with inr t => t | inl _ => ex_joining "alice" [] end.
Definition ex_greedy_calls : list LinuxCall :=
  let s := t_session ex_greedy_joined in
  snd (Device_New (H:=ex_linux) (device_config [] (mkTunConfig (ss_virtualIP s) (ss_subnetMask s) (ss_serverIP s) 1400)) []).

Lemma server_takes_all_traffic_witness : captured ex_greedy_calls [x08; x08; x08; x08].
Proof.
  refine (server_takes_all_traffic (H:=ex_linux) ex_rand ex_greedy_payload ex_greedy (ex_joining "alice" []) ex_greedy_joined 1400 []
    [] (mkDevice (str "gt0") [x0a; x0a; x00; x02] (zeros 4) [] 1400 10) ex_greedy_calls _ _ _ _ _ _);
  vm_compute; reflexivity.
Defined.

Definition ex_fair_payload : list byte := default [] (AssignIPPayload_Marshal
  (mkAssignIP [x0a; x0a; x00; x02] mask24 [x0a; x0a; x00; x01] AppVersion (replicate 16 x07))).
Definition ex_assigned : Tunnel :=
  match handleAssignIP ex_rand ex_fair_payload (ex_joining "alice" []) with inr t => t | inl _ => ex_joining "alice" [] end.

Lemma registered_device_witness :
  ∃ d h n, Device_New (H:=ex_linux) (device_config [] (mkTunConfig [x0a; x0a; x00; x02] mask24 [x0a; x0a; x00; x01] 1400)) [] = (Ok d, h) ∧
    ss_cachedSubnet (t_session ex_assigned) = Some n ∧
    ∀ dst, length dst = 4%nat → Contains (device_net d) dst = Contains n dst.
Proof.
  assert (handleAssignIP ex_rand ex_fair_payload (ex_joining "alice" []) = inr ex_assigned) as Ha by (vm_compute; reflexivity).
  pose proof (registered_device (H:=ex_linux) ex_assigned 1400 [] [] (proj1 (handleAssignIP_ok ex_rand _ _ _ Ha))) as Hr.
  assert (∃ h, Device_New (H:=ex_linux) (device_config [] (mkTunConfig [x0a; x0a; x00; x02] mask24 [x0a; x0a; x00; x01] 1400)) [] = (Ok ex_device, h))
    as [h Hh] by (eexists; vm_compute; reflexivity).
  cbn zeta in Hr. change (Device_New _ []) with
    (Device_New (H:=ex_linux) (device_config [] (mkTunConfig [x0a; x0a; x00; x02] mask24 [x0a; x0a; x00; x01] 1400)) []) in Hr.
  rewrite Hh in Hr. destruct Hr as (n & Hn & Hc). exists ex_device, h, n. exact (conj Hh (conj Hn Hc)).
Defined.

Lemma packets_unchanged_witness :
  ∃ bufs', ReadBatch ex_device [zeros 64; zeros 64] (Some [str "hello"]) = Ok (bufs', [5%nat]) ∧
    zip_with take [5%nat] bufs' = [str "hello"].
Proof.
  assert (Forall2 (fits (d_offset ex_device)) [zeros 64] [str "hello"]) as Hf
    by (repeat constructor; unfold fits; cbn; lia).
  exact (proj1 (packets_unchanged ex_device [zeros 64] [zeros 64] [str "hello"] [] None Hf)).
Defined.
