(* ===== verification/TunWindows.v ===== *)
(** * TunWindows: the TUN device on Windows

    src/internal/tun/tun.go, configure.go, metric_windows.go, iphelper_windows.go and
    firewall.go.  The functions of the IP Helper library, the tools netsh and route
    and the WireGuard driver are the operating system; what they are passed is a
    call, what they return an answer. *)

From S2P Require Import Prelude GoNet Crc32 Protocol Route ClientConfig TunCommon.

(** ** Socket addresses *)

Definition AF_INET : Z := 2.
Definition AF_INET6 : Z := 23.

(** windows.RawSockaddrInet: the family and six 32-bit words, the first of which is
    the address of IPv4 or the flow information of IPv6. *)
Record SockAddr := mkSock { sa_Family : Z; sa_Data : list Z }.
#[export] Instance SockAddr_eq_dec : EqDecision SockAddr.
Proof. solve_decision. Defined.

Definition zero_sock : SockAddr := mkSock 0 (replicate 6 0).

(** uint32(b0) | uint32(b1)<<8 | uint32(b2)<<16 | uint32(b3)<<24 *)
Definition le32 (b0 b1 b2 b3 : byte) : Z :=
  Z.lor (Z.lor (Z.lor (b2z b0) (Z.shiftl (b2z b1) 8)) (Z.shiftl (b2z b2) 16)) (Z.shiftl (b2z b3) 24).

Definition word_at (ip : IP) (i : nat) : Z :=
  le32 (nth i ip x00) (nth (i + 1) ip x00) (nth (i + 2) ip x00) (nth (i + 3) ip x00).

(** ipToSockaddrInet: a nil address panics. *)
Definition ipToSockaddrInet {E} (ip : IP) : go E SockAddr :=
  match To4 ip with
  | Some ip4 => Ok (mkSock AF_INET [word_at ip4 0; 0; 0; 0; 0; 0])
  | None =>
      match To16 ip with
      | Some ip16 => Ok (mkSock AF_INET6 [0; word_at ip16 0; word_at ip16 4; word_at ip16 8; word_at ip16 12; 0])
      | None => Panic
      end
  end.

(** The four bytes of a word in memory. *)
Definition word_bytes (w : Z) : list byte := put_le 4 w.

(** sockaddrInetToIP: nil for another family. *)
Definition sockaddrInetToIP (sa : SockAddr) : IP :=
  let w i := word_bytes (nth i (sa_Data sa) 0) in
  if sa_Family sa =? AF_INET then v4in6_prefix ++ w 0%nat
  else if sa_Family sa =? AF_INET6 then w 1%nat ++ w 2%nat ++ w 3%nat ++ w 4%nat
  else [].

(** ipToSockaddrInet4ForRow: the word at the place of the flow information. *)
Definition ipToSockaddrInet4ForRow (ip : IP) : SockAddr :=
  mkSock AF_INET [match To4 ip with Some ip4 => word_at ip4 0 | None => 0 end; 0; 0; 0; 0; 0].

(** ** Calls *)

Record ForwardRow := mkRow {
  fr_luid : Z; fr_index : Z; fr_prefix : SockAddr; fr_len : Z; fr_nexthop : SockAddr; fr_metric : Z }.

Record Adapter := mkAdapter { ad_index : Z; ad_name : list byte; ad_operStatus : Z; ad_ifType : Z }.

(** The invocations of netsh, route and PowerShell. *)
Inductive WinCmd :=
| NetshSetAddress (name : list byte) (ip : IP) (mask : list byte)
| NetshAddRoute (dest : IP) (bits : Z) (name : list byte) (nextHop : IP) (metric : Z)
| RouteAdd (dest : IP) (mask : list byte) (nextHop : IP) (metric ifIndex : Z)
| NetshAddRoute6 (server : IP) (ifIndex : Z) (gw : IP)
| NetshDelRoute6 (server : IP) (ifIndex : Z)
| SetPrivate (name : list byte)
| FirewallDelete (rule : list byte)
| FirewallAddApp (rule dir exe : list byte)
| FirewallAddPort (rule protocol port : list byte).

Definition argv (c : WinCmd) : list (list byte) :=
  match c with
  | NetshSetAddress name ip mask =>
      [str "netsh"; str "interface"; str "ip"; str "set"; str "address"; str "name=" ++ name; str "static"; IP_String ip; IP_String mask]
  | NetshAddRoute dest bits name nextHop metric =>
      [str "netsh"; str "interface"; str "ipv4"; str "add"; str "route"; IP_String dest ++ str "/" ++ itoa bits;
       str "interface=" ++ name; str "nexthop=" ++ IP_String nextHop; str "metric=" ++ itoa metric]
  | RouteAdd dest mask nextHop metric ifIndex =>
      [str "route"; str "add"; IP_String dest; str "mask"; IP_String mask; IP_String nextHop; str "metric"; itoa metric;
       str "if"; itoa ifIndex]
  | NetshAddRoute6 server ifIndex gw =>
      [str "netsh"; str "interface"; str "ipv6"; str "add"; str "route"; IP_String server ++ str "/128";
       str "interface=" ++ itoa ifIndex; str "nexthop=" ++ IP_String gw; str "metric=1"]
  | NetshDelRoute6 server ifIndex =>
      [str "netsh"; str "interface"; str "ipv6"; str "delete"; str "route"; IP_String server ++ str "/128";
       str "interface=" ++ itoa ifIndex]
  | SetPrivate name =>
      [str "powershell"; str "-NoProfile"; str "-Command";
       str "Set-NetConnectionProfile -InterfaceAlias '" ++ name ++ str "' -NetworkCategory Private"]
  | FirewallDelete rule =>
      [str "netsh"; str "advfirewall"; str "firewall"; str "delete"; str "rule"; str "name=" ++ rule]
  | FirewallAddApp rule dir exe =>
      [str "netsh"; str "advfirewall"; str "firewall"; str "add"; str "rule"; str "name=" ++ rule; str "dir=" ++ dir;
       str "action=allow"; str "program=" ++ exe; str "enable=yes"; str "profile=any"; str "protocol=any"]
  | FirewallAddPort rule protocol port =>
      [str "netsh"; str "advfirewall"; str "firewall"; str "add"; str "rule"; str "name=" ++ rule; str "dir=in";
       str "action=allow"; str "program=any"; str "enable=yes"; str "profile=any"; str "protocol=" ++ protocol;
       str "localport=" ++ port]
  end.

Inductive WinCall :=
| CreateTUN (name : list byte) (mtu : Z)
| TunName
| TunClose
| Executable
| GetAdaptersAddresses
| ConvertInterfaceIndexToLuid (ifIndex : Z)
| CreateUnicastIpAddressEntry (luid ifIndex : Z) (addr : SockAddr) (bits : Z)
| DeleteUnicastIpAddressEntry (luid ifIndex : Z) (addr : SockAddr)
| GetIpInterfaceEntry (luid family : Z)
| SetIpInterfaceEntry (luid family metric : Z)
| CreateIpForwardEntry2 (row : ForwardRow)
| DeleteIpForwardEntry2 (row : ForwardRow)
| GetIpForwardTable2
| RunCmd (c : WinCmd).

(** The return code and the adapters; the flag and the metric of an interface; the
    rows of the forwarding table; whether a call succeeded. *)
Definition WinAnswer (c : WinCall) : Type :=
  match c with
  | TunName | Executable => option (list byte)
  | GetAdaptersAddresses => Z * list Adapter
  | ConvertInterfaceIndexToLuid _ => option Z
  | GetIpInterfaceEntry _ _ => option (Z * Z)
  | GetIpForwardTable2 => option (list ForwardRow)
  | _ => bool
  end.

(** ** The device *)

Record Device := mkDevice {
  d_name : list byte; d_virtualIP : IP; d_subnetMask : list byte; d_serverPublicIP : IP; d_mtu : Z;
  d_ifIndex : Z; d_luid : Z; d_physicalGateway : IP; d_physicalIfIdx : Z;
  d_maintained : bool (* maintStopCh is not nil: the repair goroutine runs *) }.

Definition set_adapter idx luid (d : Device) := mkDevice (d_name d) (d_virtualIP d) (d_subnetMask d) (d_serverPublicIP d)
  (d_mtu d) idx luid (d_physicalGateway d) (d_physicalIfIdx d) (d_maintained d).
Definition set_gateway gw idx (d : Device) := mkDevice (d_name d) (d_virtualIP d) (d_subnetMask d) (d_serverPublicIP d)
  (d_mtu d) (d_ifIndex d) (d_luid d) gw idx (d_maintained d).
Definition set_maintained b (d : Device) := mkDevice (d_name d) (d_virtualIP d) (d_subnetMask d) (d_serverPublicIP d)
  (d_mtu d) (d_ifIndex d) (d_luid d) (d_physicalGateway d) (d_physicalIfIdx d) b.

Definition zeroMask : list byte := CIDRMask 32 4.
Definition bcast16 : IP := IPv4 xff xff xff xff.
Definition mdns16 : IP := IPv4 xe0 x00 x00 xfb.

(** ip.IsUnspecified() *)
Definition IsUnspecified (ip : IP) : bool := IP_Equal ip (IPv4 x00 x00 x00 x00) || IP_Equal ip (zeros 16).

(** ** Interfaces (metric_windows.go) *)

Section windows.
Context `{Answers WinCall WinAnswer}.

Abbreviation Win := (Sys WinCall dev_err).
Abbreviation ask c := (call (R:=WinAnswer) c).

Definition run_cmd (c : WinCmd) : Win bool := ask (RunCmd c).

Definition setInterfaceMetric (luid family metric : Z) : Win bool :=
  let* row := ask (GetIpInterfaceEntry luid family) in
  match row with None => ret false | Some _ => ask (SetIpInterfaceEntry luid family metric) end.

Definition setMetricAPI (luid : Z) : Win bool :=
  let* ok := setInterfaceMetric luid AF_INET 1 in
  if ok then let* _ := setInterfaceMetric luid AF_INET6 1 in ret true else ret false.

Definition checkAutoMetricDisabled (luid : Z) : Win bool :=
  let* row := ask (GetIpInterfaceEntry luid AF_INET) in
  match row with None => ret false | Some (auto, metric) => ret ((auto =? 0) && (metric =? 1)) end.

Definition adapter_with (p : Adapter → bool) (l : list Adapter) : option Adapter := List.find p l.

Definition findAdapterNameByIndex (idx : Z) : Win (option (list byte)) :=
  let* r := ask GetAdaptersAddresses in
  ret (if fst r =? 0 then ad_name <$> adapter_with (fun a => ad_index a =? idx) (snd r) else None).

Definition ERROR_BUFFER_OVERFLOW : Z := 111.

(** The adapters findAdapter searches: after three overflows the buffer is zeroed and
    holds one entry without a name. *)
Fixpoint list_adapters (tries : nat) : Win (list Adapter) :=
  match tries with
  | O => ret [mkAdapter 0 [] 0 0]
  | S tries =>
      let* r := ask GetAdaptersAddresses in
      if fst r =? 0 then ret (snd r)
      else if negb (fst r =? ERROR_BUFFER_OVERFLOW) then fail ErrFindAdapter
      else list_adapters tries
  end.

Definition findAdapter (name : list byte) : Win (Z * Z) :=
  let* l := list_adapters 3 in
  match adapter_with (fun a => bool_decide (ad_name a = name)) l with
  | None => fail ErrFindAdapter
  | Some a =>
      let* luid := ask (ConvertInterfaceIndexToLuid (ad_index a)) in
      match luid with Some luid => ret (ad_index a, luid) | None => fail ErrFindAdapter end
  end.

Fixpoint disable_each (tunName : list byte) (l : list Adapter) : Win unit :=
  match l with
  | [] => ret tt
  | a :: l =>
      let* _ := if negb (bool_decide (ad_name a = tunName)) && (ad_operStatus a =? 1) && negb (ad_ifType a =? 24) then
                  let* luid := ask (ConvertInterfaceIndexToLuid (ad_index a)) in
                  match luid with None => ret false | Some luid => setMetricAPI luid end
                else ret false in
      disable_each tunName l
  end.

Definition disableAllPhysicalAutoMetric (tunName : list byte) : Win unit :=
  let* r := ask GetAdaptersAddresses in
  if fst r =? 0 then disable_each tunName (snd r) else ret tt.

(** ** Routes (iphelper_windows.go, tun.go) *)

Definition addRoute (luid : Z) (dest : IP) (mask : list byte) (nextHop : IP) (metric : Z) : Win bool :=
  let* p := lift (ipToSockaddrInet dest) in
  let* n := lift (ipToSockaddrInet nextHop) in
  ask (CreateIpForwardEntry2 (mkRow luid 0 p (Mask_ones mask mod 256) n metric)).

Definition deleteRoute (luid : Z) (dest : IP) (mask : list byte) (nextHop : IP) : Win bool :=
  let* p := lift (ipToSockaddrInet dest) in
  let* n := match nextHop with [] => ret zero_sock | _ => lift (ipToSockaddrInet nextHop) end in
  ask (DeleteIpForwardEntry2 (mkRow luid 0 p (Mask_ones mask mod 256) n 0)).

Definition addIPAddress (luid ifIndex : Z) (ip : IP) (mask : list byte) : Win bool :=
  ask (CreateUnicastIpAddressEntry luid ifIndex (ipToSockaddrInet4ForRow ip) (Mask_ones mask mod 256)).

(** The loop of detectPhysicalGateway. *)
Fixpoint scan_rows (wantFamily : Z) (tunName : list byte) (rows : list ForwardRow) : Win (option (IP * Z)) :=
  match rows with
  | [] => ret None
  | row :: rows =>
      if negb (sa_Family (fr_prefix row) =? wantFamily) then scan_rows wantFamily tunName rows
      else if negb (fr_len row =? 0) then scan_rows wantFamily tunName rows
      else
        let* name := if negb (fr_index row =? 0) then findAdapterNameByIndex (fr_index row) else ret None in
        if bool_decide (name = Some tunName) then scan_rows wantFamily tunName rows
        else
          let gw := sockaddrInetToIP (fr_nexthop row) in
          if bool_decide (gw = []) || IsUnspecified gw then scan_rows wantFamily tunName rows
          else ret (Some (gw, fr_index row))
  end.

Definition detectPhysicalGateway (wantIPv4 : bool) (tunName : list byte) : Win (option (IP * Z)) :=
  let* table := ask GetIpForwardTable2 in
  match table with
  | None => ret None
  | Some rows => scan_rows (if wantIPv4 then AF_INET else AF_INET6) tunName rows
  end.

Definition addRouteNetsh (d : Device) (dest : IP) (mask : list byte) (nextHop : IP) (metric : Z) : Win bool :=
  run_cmd (NetshAddRoute dest (Mask_ones mask) (d_name d) nextHop metric).

Definition addRouteRouteCmd (d : Device) (dest : IP) (mask : list byte) (nextHop : IP) (metric : Z) : Win bool :=
  run_cmd (RouteAdd dest mask nextHop metric (d_ifIndex d)).

Definition addRouteWithFallback (d : Device) (dest : IP) (mask : list byte) (nextHop : IP) (metric : Z) : Win unit :=
  let* ok := addRoute (d_luid d) dest mask nextHop metric in
  if ok then ret tt else
  let* ok := addRouteNetsh d dest mask nextHop metric in
  if ok then ret tt else
  let* _ := addRouteRouteCmd d dest mask nextHop metric in ret tt.

Definition device_subnet (d : Device) : IP := IP_Mask (d_virtualIP d) (d_subnetMask d).

(** ** Configuration (configure.go) *)

Definition CleanupRoutes (d : Device) : Win Device :=
  let d := set_maintained false d in
  let public := d_serverPublicIP d in
  let* _ :=
    match public, d_physicalGateway d with
    | _ :: _, _ :: _ =>
        if bool_decide (To4 public = None) then
          run_cmd (NetshDelRoute6 public (if d_physicalIfIdx d =? 0 then d_ifIndex d else d_physicalIfIdx d))
        else deleteRoute (d_luid d) public zeroMask (d_physicalGateway d)
    | _, _ => ret true
    end in
  let* _ := deleteRoute (d_luid d) bcast16 zeroMask [] in
  let* _ := deleteRoute (d_luid d) mdns16 zeroMask [] in
  let* _ := deleteRoute (d_luid d) (device_subnet d) (d_subnetMask d) [] in
  let* broadcast := lift (device_broadcast (device_subnet d) (d_subnetMask d)) in
  let* _ := deleteRoute (d_luid d) broadcast (d_subnetMask d) [] in
  ret d.

(** Steps 5 to 8: the network, the limited broadcast, the broadcast address of the
    network, mDNS. *)
Definition add_routes (d : Device) : Win unit :=
  let subnet := device_subnet d in
  let* _ := deleteRoute (d_luid d) subnet (d_subnetMask d) [] in
  let* _ := addRouteWithFallback d subnet (d_subnetMask d) (d_virtualIP d) 1 in
  let* _ := deleteRoute (d_luid d) bcast16 zeroMask [] in
  let* _ := addRouteWithFallback d bcast16 zeroMask (d_virtualIP d) 1 in
  let* broadcast := lift (device_broadcast subnet (d_subnetMask d)) in
  let* _ := deleteRoute (d_luid d) broadcast (d_subnetMask d) [] in
  let* _ := addRouteRouteCmd d broadcast (d_subnetMask d) (d_virtualIP d) 1 in
  let* _ := addRouteRouteCmd d mdns16 zeroMask (d_virtualIP d) 1 in
  ret tt.

(** Step 9, the exclusion route of the server; the flag says whether a gateway was
    found. *)
Definition exclude_server (d : Device) : Win (bool * Device) :=
  let public := d_serverPublicIP d in
  let isv6 := bool_decide (To4 public = None) in
  let* found := detectPhysicalGateway (negb isv6) (d_name d) in
  let* found := match found with
                | None => if isv6 then detectPhysicalGateway true (d_name d) else ret None
                | Some _ => ret found
                end in
  match found with
  | None => ret (false, d)
  | Some (gw, phyIfIdx) =>
      if isv6 && bool_decide (is_Some (To4 gw)) then ret (true, d)
      else if negb isv6 && bool_decide (To4 gw = None) then ret (true, d)
      else
        let d := set_gateway gw phyIfIdx d in
        if isv6 then
          let* _ := run_cmd (NetshAddRoute6 public (if phyIfIdx =? 0 then d_ifIndex d else phyIfIdx) gw) in ret (true, d)
        else
          let* _ := addRouteWithFallback d public zeroMask gw 1 in ret (true, d)
  end.

(** Steps 2 to 4: the address, with netsh as the fallback, and the metrics. *)
Definition configure_interface (d : Device) : Win unit :=
  let* ok := addIPAddress (d_luid d) (d_ifIndex d) (d_virtualIP d) (d_subnetMask d) in
  let* ok := if ok then ret true else run_cmd (NetshSetAddress (d_name d) (d_virtualIP d) (d_subnetMask d)) in
  if negb ok then fail ErrAssignIP else
  let* _ := setMetricAPI (d_luid d) in
  let* ok := checkAutoMetricDisabled (d_luid d) in
  let* _ := if ok then ret true
            else let* _ := setMetricAPI (d_luid d) in checkAutoMetricDisabled (d_luid d) in
  disableAllPhysicalAutoMetric (d_name d).

(** Steps 2 to 10, once the adapter is known. *)
Definition configure_adapter (d : Device) : Win Device :=
  let* _ := configure_interface d in
  let* _ := add_routes d in
  let* r := match d_serverPublicIP d with [] => ret (true, d) | _ => exclude_server d end in
  let d := snd r in
  let* _ := run_cmd (SetPrivate (d_name d)) in
  ret (set_maintained true d).

Definition configure (d : Device) : Win Device :=
  let* d := CleanupRoutes d in
  let* found := findAdapter (d_name d) in
  configure_adapter (set_adapter (fst found) (snd found) d).

Definition ReconfigureRoutes (d : Device) : Win Device :=
  let* d := CleanupRoutes d in
  let* _ := add_routes d in
  let* r := match d_serverPublicIP d with [] => ret (true, d) | _ => exclude_server d end in
  let d := if fst r then snd r else set_gateway [] (d_physicalIfIdx (snd r)) (snd r) in
  ret (set_maintained true d).

(** repairRoutes, on a tick of the goroutine startRouteMaintenance starts. *)
Definition repairRoutes (d : Device) : Win unit :=
  let* _ := addRouteRouteCmd d bcast16 zeroMask (d_virtualIP d) 1 in
  let* broadcast := lift (device_broadcast (device_subnet d) (d_subnetMask d)) in
  let* _ := addRouteRouteCmd d broadcast (d_subnetMask d) (d_virtualIP d) 1 in
  let* _ := addRouteRouteCmd d mdns16 zeroMask (d_virtualIP d) 1 in
  ret tt.
Definition maintenanceTick (d : Device) : Win unit := if d_maintained d then repairRoutes d else ret tt.

Definition Device_Close (d : Device) : Win bool := let* _ := CleanupRoutes d in ask TunClose.

Definition close_err {A} (e : dev_err) : Win A := let* _ := ask TunClose in fail e.

(** New *)
Definition Device_New (cfg : DeviceConfig) : Win Device :=
  let cfg := with_default_MTU cfg in
  match check_config cfg with
  | Some e => fail e
  | None =>
      let* ok := ask (CreateTUN (str "GameTunnel") (dc_MTU cfg)) in
      if negb ok then fail ErrCreate else
      let* name := ask TunName in
      match name with
      | None => close_err ErrTunName
      | Some name =>
          let d := mkDevice name (default [] (To4 (dc_VirtualIP cfg))) (dc_SubnetMask cfg) (dc_ServerPublicIP cfg)
                     (dc_MTU cfg) 0 0 [] 0 false in
          fun h => match configure d h with
                   | (Ok d, h) => (Ok d, h)
                   | (Err e, h) => close_err e h
                   | (Panic, h) => (Panic, h)
                   end
      end
  end.

(** deleteIPAddress, which nothing calls. *)
Definition deleteIPAddress (luid ifIndex : Z) (ip : IP) : Win bool :=
  ask (DeleteUnicastIpAddressEntry luid ifIndex (ipToSockaddrInet4ForRow ip)).

(** ** Firewall (firewall.go) *)

Definition firewallRuleNameApp : list byte := str "GameTunnel Client".
Definition firewallRuleNameAppOut : list byte := str "GameTunnel Client Out".
Definition firewallRuleNameGameLAN : list byte := str "GameTunnel LAN Ports".

Definition commonLANPorts : list (list byte * list byte) :=
  [(str "6112", str "udp"); (str "6112", str "tcp"); (str "6113", str "udp"); (str "5353", str "udp"); (str "47624", str "udp")].

Definition firewall_deletes : list WinCall :=
  map (fun r => RunCmd (FirewallDelete r)) [firewallRuleNameApp; firewallRuleNameAppOut; firewallRuleNameGameLAN].

(** SetupFirewall: whether the clean-up it returns does anything. *)
Definition SetupFirewall : Win bool :=
  let* exe := ask Executable in
  match exe with
  | None => ret false
  | Some exe =>
      let* _ := try_calls firewall_deletes in
      let* _ := try_calls [RunCmd (FirewallAddApp firewallRuleNameApp (str "in") exe);
                           RunCmd (FirewallAddApp firewallRuleNameAppOut (str "out") exe)] in
      let* _ := try_calls (map (fun '(port, proto) => RunCmd (FirewallAddPort firewallRuleNameGameLAN proto port)) commonLANPorts) in
      ret true
  end.
Definition firewall_cleanup (active : bool) : Win unit := if active then try_calls firewall_deletes else ret tt.
End windows.

(** ** Packets (tun.go) *)

(** Device.ReadBatch, when the driver delivers [pkts] or fails. *)
Definition ReadBatch (bufs : list (list byte)) (read : option (list (list byte))) : go dev_err (list (list byte) * list nat) :=
  match read with None => Err ErrRead | Some pkts => Ok (driver_Read 0 bufs pkts) end.

(** Device.Read: the buffer and the number of bytes. *)
Definition Read (buf : list byte) (read : option (list (list byte))) : go dev_err (list byte * nat) :=
  match read with
  | None => Err ErrRead
  | Some pkts =>
      match driver_Read 0 [buf] (take 1 pkts) with
      | (buf :: _, sz :: _) => Ok (buf, sz)
      | _ => Ok (buf, 0%nat)
      end
  end.

(** Device.Write: the buffer handed to the driver, and what Write returns, when the
    driver returns [n] or fails. *)
Definition Write (data : list byte) (n : option nat) : list byte * go dev_err nat :=
  (data, match n with None => Err ErrWrite | Some O => Ok 0%nat | Some _ => Ok (length data) end).

(** ** Facts: addresses *)

Lemma lor_shiftl a b n : 0 ≤ n → 0 ≤ a < 2 ^ n → 0 ≤ b → Z.lor a (Z.shiftl b n) = a + b * 2 ^ n.
Proof.
  intros Hn Ha Hb. rewrite <- Z.shiftl_mul_pow2 by done. symmetry.
  assert (Z.land a (Z.shiftl b n) = 0) as Hl.
  { apply Z.bits_inj_0. intros i. rewrite Z.land_spec.
    destruct (Z.lt_ge_cases i n) as [Hi|Hi]; [rewrite Z.shiftl_spec_low by done; apply andb_false_r|].
    rewrite <- (Z.mod_small a (2 ^ n)) by done. by rewrite Z.mod_pow2_bits_high by lia. }
  rewrite Z.add_nocarry_lxor by done. by apply Z.lxor_lor.
Qed.

Lemma le32_get_le b0 b1 b2 b3 : le32 b0 b1 b2 b3 = get_le [b0; b1; b2; b3].
Proof.
  unfold le32. pose proof (b2z_range b0). pose proof (b2z_range b1). pose proof (b2z_range b2). pose proof (b2z_range b3).
  rewrite (lor_shiftl (b2z b0)) by (change (2 ^ 8) with 256; lia).
  change (2 ^ 8) with 256. rewrite (lor_shiftl _ (b2z b2)) by (change (2 ^ 16) with 65536; lia).
  change (2 ^ 16) with 65536. rewrite lor_shiftl by (change (2 ^ 24) with 16777216; lia).
  change (2 ^ 24) with 16777216. cbn [get_le]. lia.
Qed.

Lemma word_bytes_le32 b0 b1 b2 b3 : word_bytes (le32 b0 b1 b2 b3) = [b0; b1; b2; b3].
Proof. unfold word_bytes. rewrite le32_get_le. by apply put_get_le_n. Qed.

(** Every address the code can hold, 4 or 16 bytes long, survives the conversion to a
    socket address and back, as its 16-byte form; anything else panics. *)
Theorem sockaddr_roundtrip ip :
  (ipToSockaddrInet (E:=dev_err) ip = Panic ↔ To16 ip = None) ∧
  ∀ s, ipToSockaddrInet (E:=dev_err) ip = Ok s → To16 ip = Some (sockaddrInetToIP s).
Proof.
  unfold ipToSockaddrInet, To4, To16. destruct (Nat.eqb_spec (length ip) 4) as [H4|H4].
  - split; [done|]. intros s [= <-]. destruct ip as [|a [|b [|c [|d [|]]]]]; try discriminate.
    unfold sockaddrInetToIP, word_at. cbn [sa_Family sa_Data nth Nat.add]. by rewrite word_bytes_le32.
  - destruct (Nat.eqb_spec (length ip) 16) as [H16|H16]; cbn [andb]; [|by split].
    case_bool_decide as Hp.
    + split; [done|]. intros s [= <-]. do 16 (destruct ip as [|? ip]; [discriminate|]). destruct ip; [|discriminate].
      unfold sockaddrInetToIP, word_at. cbn [sa_Family sa_Data nth Nat.add drop]. rewrite word_bytes_le32. cbn [Z.eqb].
      cbn in Hp. by simplify_eq.
    + split; [done|]. intros s [= <-]. do 16 (destruct ip as [|? ip]; [discriminate|]). destruct ip; [|discriminate].
      unfold sockaddrInetToIP, word_at. cbn [sa_Family sa_Data nth Nat.add]. by rewrite !word_bytes_le32.
Qed.

(** ** Facts: the calls of the operations *)

Definition sock_of (ip : IP) : SockAddr := match ipToSockaddrInet (E:=dev_err) ip with Ok s => s | _ => zero_sock end.

Lemma sock_of_ok {E} ip : is_Some (To16 ip) → ipToSockaddrInet (E:=E) ip = Ok (sock_of ip).
Proof.
  intros [x Hx]. unfold sock_of, ipToSockaddrInet. rewrite Hx. by destruct (To4 ip).
Qed.

(** The calls that change the routing table. *)
Definition route_call (c : WinCall) : bool :=
  match c with
  | CreateIpForwardEntry2 _ | DeleteIpForwardEntry2 _ => true
  | RunCmd (NetshAddRoute _ _ _ _ _ | RouteAdd _ _ _ _ _ | NetshAddRoute6 _ _ _ | NetshDelRoute6 _ _) => true
  | _ => false
  end.

(** The three ways to add a route to the tunnel's interface, in the order they are
    tried. *)
Definition api_row (d : Device) (dest mask nextHop : IP) : ForwardRow :=
  mkRow (d_luid d) 0 (sock_of dest) (Mask_ones mask mod 256) (sock_of nextHop) 1.
Definition delete_row (d : Device) (dest mask nextHop : IP) : ForwardRow :=
  mkRow (d_luid d) 0 (sock_of dest) (Mask_ones mask mod 256) (match nextHop with [] => zero_sock | _ => sock_of nextHop end) 0.
Definition ways (d : Device) (dest mask nextHop : IP) : list WinCall :=
  [CreateIpForwardEntry2 (api_row d dest mask nextHop);
   RunCmd (NetshAddRoute dest (Mask_ones mask) (d_name d) nextHop 1);
   RunCmd (RouteAdd dest mask nextHop 1 (d_ifIndex d))].

Definition device_bcast (d : Device) : IP :=
  zip_with (fun s m => byte_or s (byte_not m)) (and_mask (d_virtualIP d) (d_subnetMask d)) (d_subnetMask d).

Definition route_specs (d : Device) : list (IP * list byte) :=
  [(and_mask (d_virtualIP d) (d_subnetMask d), d_subnetMask d); (bcast16, zeroMask);
   (device_bcast d, d_subnetMask d); (mdns16, zeroMask)].

Definition nil_or_ip (ip : IP) : Prop := ip = [] ∨ is_Some (To16 ip).

Record device_ok (d : Device) : Prop := {
  dv_ip : length (d_virtualIP d) = 4%nat;
  dv_mask : length (d_subnetMask d) = 4%nat;
  dv_public : nil_or_ip (d_serverPublicIP d);
  dv_gateway : nil_or_ip (d_physicalGateway d) }.

(** Two devices on one adapter, for one configuration. *)
Definition same_adapter (d d' : Device) : Prop :=
  d_name d' = d_name d ∧ d_virtualIP d' = d_virtualIP d ∧ d_subnetMask d' = d_subnetMask d ∧
  d_serverPublicIP d' = d_serverPublicIP d ∧ d_ifIndex d' = d_ifIndex d ∧ d_luid d' = d_luid d.

Lemma To16_4 ip : length ip = 4%nat → is_Some (To16 ip).
Proof. intros Hl. unfold To16. rewrite Hl. by eexists. Qed.

Lemma device_broadcast_bcast {E} d : device_ok d →
  device_broadcast (E:=E) (device_subnet d) (d_subnetMask d) = Ok (device_bcast d).
Proof.
  intros [Hi Hm _ _]. unfold device_subnet. rewrite IP_Mask_4 by done. apply device_broadcast_ok; [|done].
  rewrite length_and_mask; lia.
Qed.

Lemma length_win_bcast d : device_ok d → length (device_bcast d) = 4%nat.
Proof. intros [Hi Hm _ _]. unfold device_bcast. rewrite length_zip_with, length_and_mask; lia. Qed.

Lemma sockaddrInetToIP_valid sa : nil_or_ip (sockaddrInetToIP sa).
Proof. unfold sockaddrInetToIP. destruct (_ =? _); [right; by eexists|]. destruct (_ =? _); [right; by eexists|by left]. Qed.

Lemma deleteRoute_run `{Answers WinCall WinAnswer} d dest mask nh h : is_Some (To16 dest) → nil_or_ip nh →
  deleteRoute (d_luid d) dest mask nh h =
    (Ok (answer (R:=WinAnswer) h (DeleteIpForwardEntry2 (delete_row d dest mask nh))),
     h ++ [DeleteIpForwardEntry2 (delete_row d dest mask nh)]).
Proof.
  intros Hd Hn. unfold deleteRoute, bind, lift, call. rewrite sock_of_ok by done.
  destruct Hn as [->|Hn]; [done|]. destruct nh as [|b nh]; [by destruct Hn|]. by rewrite sock_of_ok.
Qed.

Section triples.
Context `{Answers WinCall WinAnswer} (P : WinCall → Prop) (HP : ∀ c, route_call c = false → c ≠ TunClose → P c).

Definition any {A} (_ : A) : Prop := True.
Notation "'{{' m '}}'" := (triple (E:=dev_err) P m any).

Lemma triple_ask c : P c → {{ call (R:=WinAnswer) c }}.
Proof. intros Hc. by apply triple_call. Qed.

Lemma triple_seq {A B} (m : Sys WinCall dev_err A) (f : A → Sys WinCall dev_err B) Q :
  {{ m }} → (∀ a, triple P (f a) Q) → triple P (bind m f) Q.
Proof. intros Hm Hf. by eapply triple_bind. Qed.

(** Computations whose calls add no routes, whatever is answered. *)
Ltac sys := repeat first
  [ apply triple_ask, HP; [reflexivity|discriminate] | apply triple_ret; exact I | apply triple_fail
  | apply triple_seq; [|intros ?] | progress unfold run_cmd | case_match ].

Lemma setMetricAPI_triple luid : {{ setMetricAPI luid }}.
Proof. unfold setMetricAPI, setInterfaceMetric. sys. Qed.

Lemma findAdapterNameByIndex_triple idx : {{ findAdapterNameByIndex idx }}.
Proof. unfold findAdapterNameByIndex. sys. Qed.

Lemma findAdapter_triple name : {{ findAdapter name }}.
Proof. unfold findAdapter. cbn [list_adapters]. sys. Qed.

Lemma disable_each_triple name l : {{ disable_each name l }}.
Proof. induction l as [|a l IH]; cbn [disable_each]; sys; first [exact IH|apply setMetricAPI_triple]. Qed.

Lemma configure_interface_triple d : {{ configure_interface d }}.
Proof.
  unfold configure_interface, addIPAddress, checkAutoMetricDisabled, disableAllPhysicalAutoMetric.
  sys; first [apply setMetricAPI_triple|apply disable_each_triple].
Qed.

Lemma detectPhysicalGateway_triple v4 name :
  triple (E:=dev_err) P (detectPhysicalGateway v4 name) (fun r => ∀ gw idx, r = Some (gw, idx) → is_Some (To16 gw)).
Proof.
  unfold detectPhysicalGateway. apply triple_seq; [apply triple_ask, HP; [reflexivity|discriminate]|]. intros [rows|]; [|by apply triple_ret].
  induction rows as [|row rows IH]; cbn [scan_rows]; [by apply triple_ret|].
  destruct (negb _); [done|]. destruct (negb _); [done|].
  apply triple_seq; [destruct (negb _); [apply findAdapterNameByIndex_triple|by apply triple_ret]|].
  intros name'. destruct (bool_decide _); [done|].
  destruct (sockaddrInetToIP_valid (fr_nexthop row)) as [->|Hgw]; [by rewrite bool_decide_eq_true_2|].
  destruct (_ || _); [done|]. apply triple_ret. naive_solver.
Qed.

Lemma addRoute_triple luid dest mask nh : is_Some (To16 dest) → is_Some (To16 nh) →
  P (CreateIpForwardEntry2 (mkRow luid 0 (sock_of dest) (Mask_ones mask mod 256) (sock_of nh) 1)) →
  {{ addRoute luid dest mask nh 1 }}.
Proof.
  intros Hd Hn HPc. unfold addRoute. rewrite !sock_of_ok by done.
  eapply triple_bind; [by eapply (triple_lift _ _ _ (eq (sock_of dest)))|]. intros ? <-.
  eapply triple_bind; [by eapply (triple_lift _ _ _ (eq (sock_of nh)))|]. intros ? <-. by apply triple_ask.
Qed.

Lemma deleteRoute_triple d dest mask nh : is_Some (To16 dest) → nil_or_ip nh →
  P (DeleteIpForwardEntry2 (delete_row d dest mask nh)) → {{ deleteRoute (d_luid d) dest mask nh }}.
Proof.
  intros Hd Hn HPd h. exists [DeleteIpForwardEntry2 (delete_row d dest mask nh)].
  rewrite deleteRoute_run by done. split_and!; [done|by constructor|done].
Qed.

Lemma addRouteWithFallback_triple d dest mask nh : is_Some (To16 dest) → is_Some (To16 nh) →
  (∀ c, c ∈ ways d dest mask nh → P c) → {{ addRouteWithFallback d dest mask nh 1 }}.
Proof.
  intros Hd Hn HPw. unfold addRouteWithFallback, addRouteNetsh, addRouteRouteCmd, run_cmd.
  apply triple_seq; [apply addRoute_triple; [done..|apply HPw; set_solver]|]. intros [|]; [by apply triple_ret|].
  apply triple_seq; [apply triple_ask, HPw; set_solver|]. intros [|]; [by apply triple_ret|].
  apply triple_seq; [apply triple_ask, HPw; set_solver|]. intros ?. by apply triple_ret.
Qed.

#[local] Opaque addRoute deleteRoute addRouteWithFallback.

Lemma triple_lift_seq {A B} (a : A) (f : A → Sys WinCall dev_err B) Q :
  triple P (f a) Q → triple P (bind (lift (Ok a)) f) Q.
Proof. intros Hf. eapply triple_bind; [by eapply (triple_lift _ _ _ (eq a))|]. by intros ? <-. Qed.

(** A sequence of route operations. *)
Ltac routes := repeat first [apply triple_lift_seq | apply triple_seq; [|intros ?]].

Lemma add_routes_triple d : device_ok d →
  (∀ dest mask c, (dest, mask) ∈ route_specs d → c ∈ ways d dest mask (d_virtualIP d) → P c) →
  (∀ dest mask, (dest, mask) ∈ take 3 (route_specs d) → P (DeleteIpForwardEntry2 (delete_row d dest mask []))) → {{ add_routes d }}.
Proof.
  intros Hok Hw Hdel. pose proof (length_win_bcast d Hok) as Hb. pose proof Hok as [Hi Hm _ _].
  assert (length (and_mask (d_virtualIP d) (d_subnetMask d)) = 4%nat) as Hn by (rewrite length_and_mask; lia).
  unfold add_routes. rewrite device_broadcast_bcast by done. unfold device_subnet. rewrite IP_Mask_4 by done.
  routes.
  all: first [ apply deleteRoute_triple; [|by left|apply Hdel] | apply addRouteWithFallback_triple; [| |intros c; apply Hw]
             | apply triple_ask; eapply Hw; [|do 2 right; by left] | by apply triple_ret ].
  all: try (apply To16_4; done); try (by eexists); unfold route_specs; cbn [take]; set_solver.
Qed.

Lemma CleanupRoutes_triple d : device_ok d →
  (∀ dest mask nh, P (DeleteIpForwardEntry2 (delete_row d dest mask nh))) → (∀ s i, P (RunCmd (NetshDelRoute6 s i))) →
  triple (E:=dev_err) P (CleanupRoutes d) (fun d' => d' = set_maintained false d).
Proof.
  intros Hok Hdel Hdel6. pose proof (length_win_bcast d Hok) as Hb. pose proof Hok as [Hi Hm Hp Hg].
  assert (length (and_mask (d_virtualIP d) (d_subnetMask d)) = 4%nat) as Hn by (rewrite length_and_mask; lia).
  unfold CleanupRoutes. change (device_subnet (set_maintained false d)) with (device_subnet d).
  cbn [d_serverPublicIP d_physicalGateway d_physicalIfIdx d_ifIndex d_luid d_subnetMask set_maintained].
  rewrite device_broadcast_bcast by done. unfold device_subnet. rewrite IP_Mask_4 by done.
  routes.
  1: destruct (d_serverPublicIP d) as [|b public]; [by apply triple_ret|]; destruct (d_physicalGateway d) as [|g gw]; [by apply triple_ret|];
    destruct (bool_decide _); [apply triple_ask, Hdel6|]; destruct Hp as [|Hp]; [done|].
  all: first [by apply triple_ret | apply deleteRoute_triple; [try by apply To16_4|first [done|by left]|apply Hdel]].
  all: try done.
  all: by eexists.
Qed.

Lemma exclude_server_triple d : device_ok d → d_serverPublicIP d ≠ [] →
  (∀ gw c, c ∈ ways d (d_serverPublicIP d) zeroMask gw → P c) →
  (∀ idx gw, To4 (d_serverPublicIP d) = None → P (RunCmd (NetshAddRoute6 (d_serverPublicIP d) idx gw))) →
  triple (E:=dev_err) P (exclude_server d) (fun r => device_ok (snd r) ∧ same_adapter d (snd r)).
Proof.
  intros Hok Hne Hw H6. pose proof Hok as [Hi Hm Hp Hg]. destruct Hp as [|Hp]; [done|]. unfold exclude_server.
  eapply triple_bind; [apply detectPhysicalGateway_triple|]. intros found Hf.
  eapply (triple_bind _ _ _ (fun r => ∀ gw idx, r = Some (gw, idx) → is_Some (To16 gw))).
  { destruct found; [by apply triple_ret|]. destruct (bool_decide _); [apply detectPhysicalGateway_triple|by apply triple_ret]. }
  clear found Hf. intros [[gw idx]|] Hf; [|by apply triple_ret]. pose proof (Hf gw idx eq_refl) as Hgw.
  assert (device_ok (set_gateway gw idx d) ∧ same_adapter d (set_gateway gw idx d)) as Hd.
  { split; [|by split_and!]. split; try done; by right. }
  destruct (decide (To4 (d_serverPublicIP d) = None)) as [E6|E6];
    [rewrite (bool_decide_eq_true_2 _ E6)|rewrite (bool_decide_eq_false_2 _ E6)]; cbn [andb negb].
  - destruct (bool_decide _); [by apply triple_ret|].
    apply triple_seq; [by apply triple_ask, H6|]. intros _. by apply triple_ret.
  - destruct (bool_decide _); [by apply triple_ret|].
    apply triple_seq; [apply addRouteWithFallback_triple; [done..|by apply Hw]|]. intros _. by apply triple_ret.
Qed.

Lemma configure_adapter_triple d : device_ok d →
  (∀ dest mask c, (dest, mask) ∈ route_specs d → c ∈ ways d dest mask (d_virtualIP d) → P c) →
  (∀ dest mask, (dest, mask) ∈ take 3 (route_specs d) → P (DeleteIpForwardEntry2 (delete_row d dest mask []))) →
  (d_serverPublicIP d ≠ [] → ∀ gw c, c ∈ ways d (d_serverPublicIP d) zeroMask gw → P c) →
  (∀ idx gw, To4 (d_serverPublicIP d) = None → P (RunCmd (NetshAddRoute6 (d_serverPublicIP d) idx gw))) →
  triple (E:=dev_err) P (configure_adapter d) (fun d' => device_ok d' ∧ same_adapter d d' ∧ d_maintained d' = true).
Proof.
  intros Hok Hw Hdel Hex H6. unfold configure_adapter.
  apply triple_seq; [apply configure_interface_triple|]. intros _.
  apply triple_seq; [by apply add_routes_triple|]. intros _.
  eapply (triple_bind _ _ _ (fun r => device_ok (snd r) ∧ same_adapter d (snd r))).
  - pose proof (exclude_server_triple d Hok) as Hx.
    destruct (d_serverPublicIP d); [apply triple_ret; cbn; by split_and!|]. apply Hx; [done|by apply Hex|done].
  - intros [b d1] [Hok1 Hs]. apply triple_seq; [by apply triple_ask, HP|]. intros _. apply triple_ret.
    cbn in *. split_and!; [by destruct Hok1; split|destruct Hs as (?&?&?&?&?&?); by split_and!|done].
Qed.
End triples.

Lemma triple_run {C E A} (P : C → Prop) (m : Sys C E A) Q h a h' : triple P m Q → m h = (Ok a, h') →
  ∃ l, h' = h ++ l ∧ Forall P l ∧ Q a.
Proof. intros Hm E1. destruct (Hm h) as (l & Hl & HP & HQ). rewrite E1 in Hl, HQ. by exists l. Qed.

Section configured.
Context `{Answers WinCall WinAnswer}.

Definition on_adapter (d : Device) (idx luid : Z) : Device := set_adapter idx luid (set_maintained false d).

(** A configuration that succeeds: the clean-up on the adapter known before, the
    search for the adapter, the steps on it. *)
Lemma configure_Ok d h d' h' : device_ok d → configure d h = (Ok d', h') →
  ∃ idx luid h0 l1, CleanupRoutes d h = (Ok (set_maintained false d), h0) ∧ Forall (fun c => route_call c = false) l1 ∧
    configure_adapter (on_adapter d idx luid) (h0 ++ l1) = (Ok d', h').
Proof.
  intros Hok Hc. unfold configure in Hc. apply bind_Ok in Hc as (d1 & h0 & Hcl & Hc).
  destruct (triple_run _ _ _ _ _ _ (CleanupRoutes_triple (fun _ => True) d Hok (fun _ _ _ => I) (fun _ _ => I)) Hcl) as (_ & _ & _ & ->).
  apply bind_Ok in Hc as ([idx luid] & h1 & Hf & Hc).
  destruct (triple_run _ _ _ _ _ _ (findAdapter_triple (fun c => route_call c = false) (fun _ Hn _ => Hn) _) Hf) as (l1 & -> & Hl1 & _).
  by exists idx, luid, h0, l1.
Qed.

Lemma on_adapter_ok d idx luid : device_ok d → device_ok (on_adapter d idx luid).
Proof. intros [? ? ? ?]. by split. Qed.

(** Two devices for one configuration, on whatever adapters. *)
Definition same_config (d d' : Device) : Prop :=
  d_name d' = d_name d ∧ d_virtualIP d' = d_virtualIP d ∧ d_subnetMask d' = d_subnetMask d ∧
  d_serverPublicIP d' = d_serverPublicIP d.

Lemma configure_triple d : device_ok d →
  triple (E:=dev_err) (fun c => c ≠ TunClose) (configure d) (fun d' => same_config d d' ∧ d_maintained d' = true).
Proof.
  intros Hok. unfold configure. eapply triple_bind; [by apply CleanupRoutes_triple|]. intros ? ->.
  apply triple_seq; [by apply findAdapter_triple|]. intros [idx luid].
  assert (∀ d dest mask nh c, c ∈ ways d dest mask nh → c ≠ TunClose) as Hw.
  { intros ? ? ? ? c Hc ->. unfold ways in Hc. set_solver. }
  eapply triple_weaken; [apply (configure_adapter_triple (fun c => c ≠ TunClose) ltac:(done) (on_adapter d idx luid))| |].
  1: by apply on_adapter_ok.
  all: try done; eauto.
  intros d' (_ & (Hn & Hi & Hm & Hp & _) & Hmt). by split_and!.
Qed.

(** Whether a call that adds a route names the adapter of the device. *)
Definition on_tunnel (d : Device) (c : WinCall) : Prop :=
  match c with
  | CreateIpForwardEntry2 row => fr_luid row = d_luid d
  | RunCmd (NetshAddRoute _ _ name _ _) => name = d_name d
  | RunCmd (RouteAdd _ _ _ _ idx) => idx = d_ifIndex d
  | RunCmd (NetshAddRoute6 _ _ _) => False
  | _ => True
  end.

Lemma ways_on_tunnel d d' dest mask nh c : same_adapter d d' → c ∈ ways d dest mask nh → on_tunnel d' c.
Proof.
  intros (Hn & _ & _ & _ & Hi & Hl). unfold ways. rewrite !elem_of_cons. intros [->|[->|[->|[]%elem_of_nil]]]; cbn; congruence.
Qed.

Lemma addRoute_run d dest mask nh h : is_Some (To16 dest) → is_Some (To16 nh) →
  addRoute (d_luid d) dest mask nh 1 h =
    (Ok (answer (R:=WinAnswer) h (CreateIpForwardEntry2 (api_row d dest mask nh))), h ++ [CreateIpForwardEntry2 (api_row d dest mask nh)]).
Proof. intros Hd Hn. unfold addRoute, bind, lift, call. by rewrite !sock_of_ok. Qed.

(** The server route of an IPv4 server: none, or through the gateway found. *)
Lemma exclude_run d h b d' h' : device_ok d → is_Some (To4 (d_serverPublicIP d)) → exclude_server d h = (Ok (b, d'), h') →
  d' = d ∨ ∃ gw idx l1 l2, d' = set_gateway gw idx d ∧
    h' = h ++ l1 ++ CreateIpForwardEntry2 (api_row d (d_serverPublicIP d) zeroMask gw) :: l2.
Proof.
  intros Hok [v Hv] Hx. unfold exclude_server in Hx. rewrite Hv in Hx. cbn [negb bool_decide] in Hx.
  rewrite (bool_decide_eq_false_2 (Some v = None)) in Hx by done. cbn [negb andb] in Hx.
  apply bind_Ok in Hx as (found & h1 & Hdet & Hx).
  destruct (triple_run _ _ _ _ _ _ (detectPhysicalGateway_triple (fun _ => True) (fun _ _ _ => I) _ _) Hdet) as (l1 & -> & _ & Hgw).
  destruct found as [[gw idx]|]; cbn [bind ret] in Hx; unfold bind, ret in Hx; [|by left; injection Hx].
  pose proof (Hgw _ _ eq_refl) as Hg16. destruct (bool_decide (To4 gw = None)); [left; by injection Hx|]. right.
  assert (is_Some (To16 (d_serverPublicIP d))) as Hp16.
  { destruct (dv_public _ Hok) as [Hp|]; [by rewrite Hp in Hv|done]. }
  change (addRouteWithFallback (set_gateway gw idx d)) with (addRouteWithFallback d) in Hx.
  destruct (addRouteWithFallback d (d_serverPublicIP d) zeroMask gw 1 (h ++ l1)) as [[[]|e|] h2] eqn:Ea; [|done..].
  injection Hx as <- <- <-. unfold addRouteWithFallback in Ea. apply bind_Ok in Ea as (ok & h3 & E1 & Ea).
  rewrite addRoute_run in E1 by done. injection E1 as _ <-.
  assert (∃ l2, h2 = ((h ++ l1) ++ [CreateIpForwardEntry2 (api_row d (d_serverPublicIP d) zeroMask gw)]) ++ l2) as [l2 ->].
  { revert Ea. unfold addRouteNetsh, addRouteRouteCmd, run_cmd, bind, call, ret.
    destruct ok; [intros [= <-]; exists []; by rewrite app_nil_r|].
    match goal with |- context [if ?x then _ else _] => destruct x end; intros [= <-]; [by eexists|].
    eexists. rewrite <- app_assoc. reflexivity. }
  exists gw, idx, l1, l2. split; [done|]. by rewrite <- !app_assoc.
Qed.
End configured.

(** ** What the theorems say *)

Definition rule_added (c : WinCall) : option (list byte) :=
  match c with RunCmd (FirewallAddApp r _ _ | FirewallAddPort r _ _) => Some r | _ => None end.
Definition rule_deleted (c : WinCall) : option (list byte) :=
  match c with RunCmd (FirewallDelete r) => Some r | _ => None end.

Section theorems.
Context `{Answers WinCall WinAnswer}.

(** Creating a device never leaks one and never panics, whatever the system refuses:
    New returns a device that is open, or an error, having closed what it created;
    only a device it returns has its routes repaired. *)
Theorem win_New_opens_or_cleans_up cfg h :
  length (dc_SubnetMask cfg) = 4%nat → nil_or_ip (dc_ServerPublicIP cfg) →
  let create := CreateTUN (str "GameTunnel") (dc_MTU (with_default_MTU cfg)) in
  match Device_New cfg h with
  | (Ok d, h') => ∃ l, h' = h ++ create :: l ∧ TunClose ∉ l ∧ d_maintained d = true ∧
      To4 (dc_VirtualIP cfg) = Some (d_virtualIP d) ∧ d_subnetMask d = dc_SubnetMask cfg
  | (Err e, h') => (check_config cfg = Some e ∧ h' = h) ∨ (e = ErrCreate ∧ h' = h ++ [create]) ∨
      (∃ l, h' = h ++ create :: l ++ [TunClose] ∧ TunClose ∉ l)
  | (Panic, _) => False
  end.
Proof.
  intros Hm Hpub create.
  assert (check_config (with_default_MTU cfg) = check_config cfg ∧ dc_SubnetMask (with_default_MTU cfg) = dc_SubnetMask cfg ∧
    dc_VirtualIP (with_default_MTU cfg) = dc_VirtualIP cfg ∧ dc_ServerPublicIP (with_default_MTU cfg) = dc_ServerPublicIP cfg)
    as (Hc & Hmask & Hip & Hp).
  { unfold with_default_MTU. destruct (dc_MTU cfg <=? 0); by split_and!. }
  unfold Device_New. rewrite Hc. destruct (check_config cfg) as [e|] eqn:Echeck; [by left|].
  assert (is_Some (To4 (dc_VirtualIP cfg))) as [v Hv].
  { unfold check_config in Echeck. destruct (validateConfig cfg); [done|]. destruct (To4 (dc_VirtualIP cfg)); [by eexists|done]. }
  fold create. unfold call, bind at 1. destruct (answer h create); cbn [negb]; [|right; left; done].
  unfold bind at 1. destruct (answer (h ++ [create]) TunName) as [name|].
  2:{ right; right. exists [TunName]. unfold close_err, bind, call, fail. rewrite <- !app_assoc. split; [done|]. set_solver. }
  set (d := mkDevice _ _ _ _ _ _ _ _ _ _).
  assert (device_ok d) as Hd by (split; cbn; [rewrite Hip, Hv; by eapply To4_length|by rewrite Hmask|by rewrite Hp|by left]).
  destruct (configure_triple d Hd ((h ++ [create]) ++ [TunName])) as (l & Hl & Hno & HQ).
  assert (TunClose ∉ TunName :: l) as Hno'.
  { rewrite not_elem_of_cons. split; [done|]. intros Hin. by eapply Forall_forall in Hno. }
  destruct (configure d _) as [[d'|e|] h']; cbn [fst snd] in Hl, HQ; [|..|done]; subst h'.
  - destruct HQ as (Hs & Hmaint). exists (TunName :: l). rewrite <- !app_assoc. split_and!; [done|done|done|..].
    + destruct Hs as (_ & -> & _). cbn. by rewrite Hip, Hv.
    + destruct Hs as (_ & _ & -> & _). done.
  - right; right. exists (TunName :: l). unfold close_err, bind, call, fail. rewrite <- !app_assoc. by split.
Qed.

(** For a server with an IPv4 address every route the configuration adds names the
    tunnel's own adapter, the exclusion route included, which is added with the
    gateway of the physical network but on the tunnel: what the client sends to
    the server is routed into the tunnel it is to carry. *)
Theorem exclusion_route_on_tunnel d h d' l :
  device_ok d → is_Some (To4 (d_serverPublicIP d)) → configure d h = (Ok d', h ++ l) →
  Forall (on_tunnel d') l ∧
  (d_physicalGateway d' ≠ d_physicalGateway d →
     CreateIpForwardEntry2 (api_row d' (d_serverPublicIP d) zeroMask (d_physicalGateway d')) ∈ l).
Proof.
  intros Hok [v Hv] Hc. apply configure_Ok in Hc as (idx & luid & h0 & l1 & Hcl & Hl1 & Hc); [|done].
  pose proof (on_adapter_ok d idx luid Hok) as Hok1. set (d1 := on_adapter d idx luid) in *.
  assert (∃ l0, h0 = h ++ l0 ∧ Forall (on_tunnel d') l0) as (l0 & -> & Hl0).
  { destruct (triple_run (fun c => match c with DeleteIpForwardEntry2 _ | RunCmd (NetshDelRoute6 _ _) => True | _ => route_call c = false end)
      _ _ _ _ _ (CleanupRoutes_triple _ d Hok (fun _ _ _ => I) (fun _ _ => I)) Hcl) as (l0 & -> & Hl0 & _).
    exists l0. split; [done|]. eapply Forall_impl; [done|]. intros c. destruct c as [| | | | | | | | | | | | |[]]; done. }
  assert (same_adapter d1 d') as Hs.
  { by destruct (triple_run _ _ _ _ _ _ (configure_adapter_triple (fun _ => True) (fun _ _ _ => I) d1 Hok1
      (fun _ _ _ _ _ => I) (fun _ _ _ => I) (fun _ _ _ _ => I) (fun _ _ _ => I)) Hc) as (_ & _ & _ & _ & Hs & _). }
  split.
  - assert (∀ c, route_call c = false → on_tunnel d' c) as HP by (intros c; by destruct c as [| | | | | | | | | | | | |[]]).
    destruct (triple_run _ _ _ _ _ _ (configure_adapter_triple (on_tunnel d') (fun c Hn _ => HP c Hn) d1 Hok1
      (fun _ _ _ _ Hin => ways_on_tunnel _ _ _ _ _ _ Hs Hin) (fun _ _ _ => I) (fun _ _ _ Hin => ways_on_tunnel _ _ _ _ _ _ Hs Hin)
      (fun _ _ Hn => ltac:(exfalso; change (To4 (d_serverPublicIP d) = None) in Hn; congruence))) Hc) as (l2 & E & Hl2 & _).
    rewrite <- !app_assoc in E. apply app_inv_head in E as ->. rewrite !Forall_app. split_and!; [done| |done].
    by eapply Forall_impl.
  - intros Hgw. unfold configure_adapter in Hc.
    apply bind_Ok in Hc as ([] & h2 & E2 & Hc). apply bind_Ok in Hc as ([] & h3 & E3 & Hc).
    destruct (triple_run _ _ _ _ _ _ (configure_interface_triple (fun _ => True) (fun _ _ _ => I) d1) E2) as (l2 & -> & _).
    destruct (triple_run _ _ _ _ _ _ (add_routes_triple (fun _ => True) (fun _ _ _ => I) d1 Hok1 (fun _ _ _ _ _ => I) (fun _ _ _ => I)) E3) as (l3 & -> & _).
    apply bind_Ok in Hc as ([b d2] & h4 & E4 & Hc). unfold run_cmd, bind, call, ret in Hc. injection Hc as <- El.
    assert (exclude_server d1 (((h ++ l0) ++ l1) ++ l2 ++ l3) = (Ok (b, d2), h4)) as Ex.
    { rewrite app_assoc, <- E4. destruct (d_serverPublicIP d1) eqn:Ep; [|done].
      change (d_serverPublicIP d = []) in Ep. by rewrite Ep in Hv. }
    apply exclude_run in Ex as [->|(gw & i & m1 & m2 & -> & ->)]; [by destruct Hgw| |done|by eexists].
    revert El. rewrite <- !app_assoc. intros El. apply app_inv_head in El. rewrite <- El.
    change (d_physicalGateway _) with gw. change (api_row _ _ zeroMask gw) with (api_row d1 (d_serverPublicIP d1) zeroMask gw).
    rewrite !elem_of_app, elem_of_cons. auto 10.
Qed.

Definition restored (d : Device) : list IP := [and_mask (d_virtualIP d) (d_subnetMask d); bcast16; device_bcast d].

Lemma restored_specs d dest mask : (dest, mask) ∈ take 3 (route_specs d) → sock_of dest ∈ map sock_of (restored d).
Proof.
  intros Hin. apply list_elem_of_fmap_2. unfold route_specs, restored in *. cbn [take] in Hin.
  rewrite !elem_of_cons in Hin. rewrite !elem_of_cons.
  destruct Hin as [[= -> ->]|[[= -> ->]|[[= -> ->]|?%elem_of_nil]]]; tauto.
Qed.

Lemma ways_no_delete d dest mask nh row : DeleteIpForwardEntry2 row ∉ ways d dest mask nh.
Proof. unfold ways. rewrite !not_elem_of_cons. split_and!; try done. apply not_elem_of_nil. Qed.

(** The clean-up of routes a crashed run left behind misses them: it comes before the
    adapter is looked up and names no adapter, so that of the routes on the
    adapter only those of the network and the two broadcasts are ever deleted,
    neither that of mDNS nor the exclusion route. *)
Theorem stale_routes_survive cfg h d h' :
  length (dc_SubnetMask cfg) = 4%nat → nil_or_ip (dc_ServerPublicIP cfg) →
  Device_New cfg h = (Ok d, h') → d_luid d ≠ 0 →
  ∃ l, h' = h ++ l ∧ ∀ row, DeleteIpForwardEntry2 row ∈ l → fr_luid row = d_luid d →
    fr_prefix row ∈ map sock_of (restored d).
Proof.
  intros Hm Hpub Hn Hl. unfold Device_New in Hn.
  destruct (check_config (with_default_MTU cfg)) as [e|] eqn:Echeck; [done|].
  apply bind_Ok in Hn as (ok & h1 & E1 & Hn). unfold call in E1. injection E1 as _ <-.
  destruct (negb ok); [done|]. apply bind_Ok in Hn as (name & h1 & E1 & Hn). unfold call in E1. injection E1 as _ <-.
  destruct name as [name|]; [|done].
  set (d0 := mkDevice _ _ _ _ _ _ _ _ _ _) in Hn. set (hn := (h ++ _) ++ _) in Hn.
  destruct (configure d0 hn) as [[d'|e|] h2] eqn:Ec; [|done..]. injection Hn as -> ->.
  assert (dc_SubnetMask (with_default_MTU cfg) = dc_SubnetMask cfg ∧ dc_ServerPublicIP (with_default_MTU cfg) = dc_ServerPublicIP cfg)
    as [Em Ep] by (unfold with_default_MTU; by destruct (_ <=? _)).
  assert (device_ok d0) as Hok.
  { split; cbn; [|by rewrite Em|by rewrite Ep|by left]. unfold check_config in Echeck.
    destruct (validateConfig _); [done|]. destruct (To4 (dc_VirtualIP _)) eqn:Ev; [|done]. by eapply To4_length. }
  apply configure_Ok in Ec as (idx & luid & h0 & l1 & Hcl & Hl1 & Hc); [|done].
  pose proof (on_adapter_ok d0 idx luid Hok) as Hok1. set (d1 := on_adapter d0 idx luid) in *.
  destruct (triple_run (fun c => match c with DeleteIpForwardEntry2 row => fr_luid row = 0 | _ => True end)
    _ _ _ _ _ (CleanupRoutes_triple _ d0 Hok (fun _ _ _ => eq_refl) (fun _ _ => I)) Hcl) as (l0 & -> & Hl0 & _).
  set (P := fun c => ∀ row, c = DeleteIpForwardEntry2 row → fr_prefix row ∈ map sock_of (restored d1)).
  assert (∀ c, route_call c = false → c ≠ TunClose → P c) as HP by (intros c Hr _ row ->; done).
  assert (∀ dest mask nh c, c ∈ ways d1 dest mask nh → P c) as Hw.
  { intros dest mask nh c Hc' row ->. by apply ways_no_delete in Hc'. }
  destruct (triple_run P _ _ _ _ _ (configure_adapter_triple P HP d1 Hok1 (fun _ _ _ _ Hc' => Hw _ _ _ _ Hc')
    (fun dest mask Hin row E => ltac:(injection E as <-; by eapply restored_specs)) (fun _ _ _ Hc' => Hw _ _ _ _ Hc')
    (fun _ _ _ row E => ltac:(discriminate))) Hc) as (l2 & -> & Hl2 & _ & (_ & Hvip & Hmask & _) & _).
  exists ((([CreateTUN (str "GameTunnel") (dc_MTU (with_default_MTU cfg))] ++ [TunName]) ++ l0) ++ l1 ++ l2).
  split; [unfold hn; by rewrite <- !app_assoc|]. intros row Hin Hrow.
  unfold restored, device_bcast. rewrite Hvip, Hmask.
  rewrite !elem_of_app in Hin. destruct Hin as [[[Hin|Hin]|Hin]|[Hin|Hin]]; [set_solver..| | |].
  - rewrite Forall_forall in Hl0. by apply Hl0 in Hin; rewrite Hin in Hrow.
  - rewrite Forall_forall in Hl1. by apply Hl1 in Hin.
  - rewrite Forall_forall in Hl2. by apply (Hl2 _ Hin).
Qed.

(** The rows of a table whose next hops have the family of their prefix, as the
    forwarding table of the system has them. *)
Definition same_families (rows : list ForwardRow) : Prop :=
  Forall (fun row => sa_Family (fr_nexthop row) = sa_Family (fr_prefix row)) rows.

Lemma scan_rows_v4 name rows : same_families rows →
  triple (E:=dev_err) (fun c => route_call c = false) (scan_rows AF_INET name rows)
    (fun r => ∀ gw idx, r = Some (gw, idx) → is_Some (To4 gw)).
Proof.
  induction 1 as [|row rows Hfam _ IH]; cbn [scan_rows]; [by apply triple_ret|].
  destruct (Z.eqb_spec (sa_Family (fr_prefix row)) AF_INET) as [Hp|]; cbn [negb]; [|done]. destruct (negb _); [done|].
  apply triple_seq; [destruct (negb _); [by apply findAdapterNameByIndex_triple|by apply triple_ret]|].
  intros name'. destruct (bool_decide _); [done|]. destruct (_ || _); [done|].
  apply triple_ret. intros gw idx [= <- <-]. unfold sockaddrInetToIP. rewrite Hfam, Hp. by eexists.
Qed.

(** The fallback to an IPv4 gateway for a server with an IPv6 address cannot work: any
    gateway it finds is refused by the check of the family that follows, so no
    exclusion route is added when there is no IPv6 default route. *)
Theorem ipv6_fallback_is_dead d h h1 :
  (∀ h rows, answer (R:=WinAnswer) h GetIpForwardTable2 = Some rows → same_families rows) →
  To4 (d_serverPublicIP d) = None → detectPhysicalGateway false (d_name d) h = (Ok None, h1) →
  ∃ b l, exclude_server d h = (Ok (b, d), h1 ++ l) ∧ Forall (fun c => route_call c = false) l.
Proof.
  intros Hfam H6 Hdet. unfold exclude_server. rewrite H6. rewrite (bool_decide_eq_true_2 (None = None)) by done. cbn [negb andb].
  unfold bind at 1. rewrite Hdet. unfold bind at 1.
  assert (triple (E:=dev_err) (fun c => route_call c = false) (detectPhysicalGateway true (d_name d))
    (fun r => ∀ gw idx, r = Some (gw, idx) → is_Some (To4 gw))) as Ht.
  { unfold detectPhysicalGateway. intros h2. unfold bind, call.
    destruct (answer h2 GetIpForwardTable2) as [rows|] eqn:Er.
    - destruct (scan_rows_v4 (d_name d) rows (Hfam _ _ Er) (h2 ++ [GetIpForwardTable2])) as (l & Hl & HP & HQ).
      exists (GetIpForwardTable2 :: l). split_and!; [by rewrite Hl, <- app_assoc|by constructor|done].
    - exists [GetIpForwardTable2]. split_and!; [done|by repeat constructor|done]. }
  destruct (Ht h1) as (l & Hl & HP & HQ). destruct (detectPhysicalGateway true (d_name d) h1) as [[found|e|] h2] eqn:Ed; cbn in Hl, HQ.
  - subst h2. destruct found as [[gw idx]|]; [|by exists false, l].
    rewrite (bool_decide_eq_true_2 (is_Some (To4 gw))) by by eapply HQ. by exists true, l.
  - exfalso. revert Ed. unfold detectPhysicalGateway, bind, call. destruct (answer h1 GetIpForwardTable2) as [rows|]; [|done].
    clear. generalize (h1 ++ [GetIpForwardTable2]). induction rows as [|row rows IH]; intros h; cbn [scan_rows]; [done|].
    destruct (negb _); [apply IH|]. destruct (negb (fr_len row =? 0)); [apply IH|]. unfold bind.
    destruct (negb (fr_index row =? 0)); cbn [ret findAdapterNameByIndex]; unfold findAdapterNameByIndex, bind, call, ret;
      repeat case_match; try apply IH; done.
  - done.
Qed.

(** The route to the broadcast address of the network, in the configuration and in
    every repair, is a destination with host bits outside its mask, which
    [route add] refuses: (DEST & MASK) must be DEST. *)
Theorem broadcast_route_malformed d h :
  device_ok d → d_subnetMask d ≠ [xff; xff; xff; xff] → d_maintained d = true →
  ∃ l1 l2, snd (maintenanceTick d h) =
    h ++ l1 ++ RunCmd (RouteAdd (device_bcast d) (d_subnetMask d) (d_virtualIP d) 1 (d_ifIndex d)) :: l2 ∧
  and_mask (device_bcast d) (d_subnetMask d) ≠ device_bcast d.
Proof.
  intros Hok Hmask Hmt. pose proof Hok as [Hi Hm _ _].
  exists [RunCmd (RouteAdd bcast16 zeroMask (d_virtualIP d) 1 (d_ifIndex d))],
    [RunCmd (RouteAdd mdns16 zeroMask (d_virtualIP d) 1 (d_ifIndex d))]. split.
  - unfold maintenanceTick. rewrite Hmt. unfold repairRoutes, addRouteRouteCmd, run_cmd, bind, call, lift, ret.
    rewrite device_broadcast_bcast by done. cbn [snd]. by rewrite <- !app_assoc.
  - unfold device_bcast. rewrite broadcast_masked. intros Heq. apply Hmask. clear Hmask Hmt Hok.
    revert Heq Hi Hm. generalize (d_virtualIP d), (d_subnetMask d). intros ip mask.
    destruct ip as [|a [|b [|c [|e [|]]]]]; try discriminate. destruct mask as [|m0 [|m1 [|m2 [|m3 [|]]]]]; try discriminate.
    cbn. intros [= H0 H1 H2 H3] _ _. repeat f_equal; by eapply full_mask.
Qed.

(** The firewall rules do not outlive the client: whatever the system answers, the
    clean-up deletes every rule the set-up added, and the set-up deletes those
    of a crashed run before it adds its own. *)
Theorem firewall_rules_removed h h0 :
  ∃ b l l0, SetupFirewall h = (Ok b, h ++ Executable :: l) ∧ firewall_cleanup b h0 = (Ok tt, h0 ++ l0) ∧
    omap rule_added l ⊆ omap rule_deleted l0 ∧
    (omap rule_added l ≠ [] → ∃ l2, l = firewall_deletes ++ l2).
Proof.
  unfold SetupFirewall, bind, call. destruct (answer h Executable) as [exe|].
  - exists true, (firewall_deletes ++ RunCmd (FirewallAddApp firewallRuleNameApp (str "in") exe)
      :: RunCmd (FirewallAddApp firewallRuleNameAppOut (str "out") exe)
      :: map (fun '(port, proto) => RunCmd (FirewallAddPort firewallRuleNameGameLAN proto port)) commonLANPorts), firewall_deletes.
    unfold try_calls, ret. split_and!; [by rewrite <- !app_assoc|done| |intros _; by eexists].
    intros r. rewrite !list_elem_of_omap. intros (c & Hc & Hr).
    assert (r ∈ [firewallRuleNameApp; firewallRuleNameAppOut; firewallRuleNameGameLAN]) as Hin.
    { unfold firewall_deletes, commonLANPorts in Hc. cbn [map app] in Hc. rewrite !elem_of_cons in Hc.
      destruct_or?; subst; cbn in Hr; simplify_eq; try (by apply elem_of_nil in Hc); rewrite !elem_of_cons; tauto. }
    exists (RunCmd (FirewallDelete r)). split; [|done]. unfold firewall_deletes. by apply (list_elem_of_fmap_2 (fun r => RunCmd (FirewallDelete r))).
  - exists false, [], []. rewrite !app_nil_r. by split_and!.
Qed.
End theorems.

(** *** Witnesses *)

(** A system with a network card, adapter 7, whose gateway is 192.168.1.1, and the
    tunnel, adapter 12. *)
Definition ex_default_route : ForwardRow :=
  mkRow 1007 7 (mkSock AF_INET [0; 0; 0; 0; 0; 0]) 0 (sock_of [xc0; xa8; x01; x01]) 25.
Definition ex_win : Answers WinCall WinAnswer := fun _ c =>
  match c with
  | TunName => Some (str "GameTunnel")
  | Executable => None
  | GetAdaptersAddresses => (0, [mkAdapter 7 (str "Ethernet") 1 6; mkAdapter 12 (str "GameTunnel") 1 53])
  | ConvertInterfaceIndexToLuid idx => Some (1000 + idx)
  | GetIpInterfaceEntry _ _ => Some (0, 1)
  | GetIpForwardTable2 => Some [ex_default_route]
  | DeleteIpForwardEntry2 _ => false
  | CreateTUN _ _ | TunClose | CreateUnicastIpAddressEntry _ _ _ _ | DeleteUnicastIpAddressEntry _ _ _ | SetIpInterfaceEntry _ _ _ | CreateIpForwardEntry2 _ | RunCmd _ => true
  end.
Definition ex_lost : Answers WinCall WinAnswer := fun h c =>
  match c as c return WinAnswer c with GetAdaptersAddresses => (111, []) | c => ex_win h c end.

Definition ex_public : IP := IPv4 xcb x00 x71 x09.
Definition ex_config (public : IP) : DeviceConfig :=
  mkDeviceConfig [x0a; x0a; x00; x02] [xff; xff; xff; x00] [x0a; x0a; x00; x01] public 0.
Definition ex_new (public : IP) : Device :=
  mkDevice (str "GameTunnel") [x0a; x0a; x00; x02] [xff; xff; xff; x00] public 1400 0 0 [] 0 false.
Definition ex_up : Device :=
  mkDevice (str "GameTunnel") [x0a; x0a; x00; x02] [xff; xff; xff; x00] ex_public 1400 12 1012 (IPv4 xc0 xa8 x01 x01) 7 true.
Definition ex_calls : list WinCall := snd (configure (H:=ex_win) (ex_new ex_public) []).

Lemma ex_new_ok public : nil_or_ip public → device_ok (ex_new public).
Proof. intros Hp. split; [done|done|done|by left]. Qed.
Lemma ex_up_run : configure (H:=ex_win) (ex_new ex_public) [] = (Ok ex_up, [] ++ ex_calls).
Proof. vm_compute. reflexivity. Qed.

Lemma sockaddr_roundtrip_witness : To16 [x0a; x0a; x00; x02] = Some (sockaddrInetToIP (mkSock AF_INET [0x02000a0a; 0; 0; 0; 0; 0])).
Proof. apply (proj2 (sockaddr_roundtrip [x0a; x0a; x00; x02])). vm_compute. reflexivity. Defined.

(** The adapter is never listed: the device is closed again. *)
Lemma win_New_opens_or_cleans_up_witness :
  ∃ l, Device_New (H:=ex_lost) (ex_config []) [] = (Err ErrFindAdapter, CreateTUN (str "GameTunnel") 1400 :: l ++ [TunClose]) ∧ TunClose ∉ l.
Proof.
  pose proof (win_New_opens_or_cleans_up (H:=ex_lost) (ex_config []) [] eq_refl (or_introl eq_refl)) as Hn.
  assert (∃ h, Device_New (H:=ex_lost) (ex_config []) [] = (Err ErrFindAdapter, CreateTUN (str "GameTunnel") 1400 :: TunName :: h)) as [h Hh]
    by (eexists; vm_compute; reflexivity).
  rewrite Hh in Hn |- *. destruct Hn as [[Hc _]|[[Hc _]|(l & Hl & Hno)]]; [discriminate..|].
  exists l. split; [by rewrite Hl|done].
Defined.

(** The route to the server, through the gateway of adapter 7, is on adapter 12. *)
Lemma exclusion_route_on_tunnel_witness :
  Forall (on_tunnel ex_up) ex_calls ∧
  CreateIpForwardEntry2 (mkRow 1012 0 (sock_of ex_public) 32 (sock_of [xc0; xa8; x01; x01]) 1) ∈ ex_calls.
Proof.
  destruct (exclusion_route_on_tunnel (H:=ex_win) (ex_new ex_public) [] ex_up ex_calls
    (ex_new_ok ex_public (or_intror (ex_intro _ ex_public eq_refl))) (ex_intro _ _ eq_refl) ex_up_run) as [Hall Hex].
  split; [exact Hall|]. apply Hex. discriminate.
Defined.

Lemma stale_routes_survive_witness :
  ∃ d h', Device_New (H:=ex_win) (ex_config []) [] = (Ok d, h') ∧ ∃ l, h' = [] ++ l ∧
    ∀ row, DeleteIpForwardEntry2 row ∈ l → fr_luid row = d_luid d → fr_prefix row ∈ map sock_of (restored d).
Proof.
  assert (∃ h', Device_New (H:=ex_win) (ex_config []) [] =
    (Ok (mkDevice (str "GameTunnel") [x0a; x0a; x00; x02] [xff; xff; xff; x00] [] 1400 12 1012 [] 0 true), h')) as [h' Hn]
    by (eexists; vm_compute; reflexivity).
  eexists _, h'. split; [exact Hn|].
  apply (stale_routes_survive (H:=ex_win) (ex_config []) [] _ h' eq_refl (or_introl eq_refl) Hn). discriminate.
Defined.

(** A server with the address 2001:db8::9, on a host without IPv6. *)
Definition ex_public6 : IP := [x20; x01; x0d; xb8; x00; x00; x00; x00; x00; x00; x00; x00; x00; x00; x00; x09].
Lemma ipv6_fallback_is_dead_witness :
  ∃ b l, exclude_server (H:=ex_win) (ex_new ex_public6) [] = (Ok (b, ex_new ex_public6), [GetIpForwardTable2] ++ l) ∧
    Forall (fun c => route_call c = false) l.
Proof.
  apply (ipv6_fallback_is_dead (H:=ex_win) (ex_new ex_public6) [] [GetIpForwardTable2]).
  - intros h rows Hr. injection Hr as <-. repeat constructor.
  - reflexivity.
  - reflexivity.
Defined.

Lemma broadcast_route_malformed_witness :
  and_mask (device_bcast ex_up) (d_subnetMask ex_up) ≠ device_bcast ex_up.
Proof.
  destruct (broadcast_route_malformed (H:=ex_win) ex_up []) as (_ & _ & _ & Hne); [|discriminate|reflexivity|exact Hne].
  split; [done|done|right; by eexists|right; by eexists].
Defined.
