(* ===== verification/NetIO.v ===== *)
(** * NetIO: setting up sockets

    What src/internal/netutil asks of the operating system when a connection is made:
    the dial, listener and options of tcptransport.go, and the buffers of
    socketbuf_linux.go and socketbuf_windows.go.  Connections are numbers; the bytes
    a connection will deliver are a stream (NetUtil). *)

From S2P Require Import Prelude GoNet Protocol NetUtil RateLimit Float64 Bandwidth TunCommon.

Inductive SockOpt := SO_RCVBUF | SO_SNDBUF.

Inductive NetCall :=
| DialTimeout (addr : list byte) (timeout : Z)
| ListenTCP (addr : list byte)
| AcceptTCP (listener : nat)
| SetNoDelay (conn : nat) | SetKeepAlive (conn : nat) | SetKeepAlivePeriod (conn : nat) (period : Z)
| CloseListener (listener : nat)
| SyscallConn (conn : nat) | Control (conn : nat)
| Setsockopt (conn : nat) (opt : SockOpt) (size : Z).
(** A connection, whether it is a *net.TCPConn, what it will deliver and how many bytes it
    will take; a listener;
    whether a call succeeded. *)
Definition NetAnswer (c : NetCall) : Type :=
  match c with
  | DialTimeout _ _ | AcceptTCP _ => option (nat * bool * (list byte * option nat))
  | ListenTCP _ => option nat
  | _ => bool
  end.

Inductive net_err := ErrDial | ErrListen | ErrAccept | ErrSyscallConn | ErrControl | ErrSetsockopt (opt : SockOpt).

Section netio.
Context `{Answers NetCall NetAnswer}.
Abbreviation Net := (Sys NetCall net_err).
Definition ask_net (c : NetCall) : Net (NetAnswer c) := call c.

(** configureTCP: failures are logged only. *)
Definition configureTCP (conn : nat) (is_tcp : bool) : Net unit :=
  if negb is_tcp then ret tt else
  let* _ := try_call (SetNoDelay conn) in
  let* _ := try_call (SetKeepAlive conn) in
  try_call (SetKeepAlivePeriod conn (30 * Second)).

Definition NewTCPTransport (conn : list byte * option nat) : TCPTransport := mkTCP [] (fst conn) false (snd conn).

Definition DialTCP (addr : list byte) (timeout : Z) : Net (nat * TCPTransport) :=
  let* r := ask_net (DialTimeout addr timeout) in
  match r with
  | None => fail ErrDial
  | Some (conn, is_tcp, stream) => let* _ := configureTCP conn is_tcp in ret (conn, NewTCPTransport stream)
  end.

Definition NewTCPListener (addr : list byte) : Net nat :=
  let* r := ask_net (ListenTCP addr) in
  match r with None => fail ErrListen | Some ln => ret ln end.

(** TCPListener.Accept *)
Definition Accept (ln : nat) : Net (nat * TCPTransport) :=
  let* r := ask_net (AcceptTCP ln) in
  match r with
  | None => fail ErrAccept
  | Some (conn, is_tcp, stream) => let* _ := configureTCP conn is_tcp in ret (conn, NewTCPTransport stream)
  end.

(** TCPListener.Close *)
Definition Listener_Close (ln : nat) : Net bool := ask_net (CloseListener ln).

(** The buffers of the UDP socket. *)
Definition RcvBufSize : Z := 8 * 1024 * 1024.
Definition SndBufSize : Z := 4 * 1024 * 1024.

(** SetSocketBuffers: the second size is not set when the first cannot be. *)
Definition SetSocketBuffers (conn : nat) : Net unit :=
  let* raw := ask_net (SyscallConn conn) in
  if negb raw then fail ErrSyscallConn else
  let* ok := ask_net (Control conn) in
  if negb ok then fail ErrControl else
  let* rcv := ask_net (Setsockopt conn SO_RCVBUF RcvBufSize) in
  if negb rcv then fail (ErrSetsockopt SO_RCVBUF) else
  let* snd := ask_net (Setsockopt conn SO_SNDBUF SndBufSize) in
  if negb snd then fail (ErrSetsockopt SO_SNDBUF) else ret tt.
Definition SetSocketBuffers_windows := SetSocketBuffers.

(** The one of systems that are neither Linux nor Windows. *)
Definition SetSocketBuffers_other (conn : nat) : Net unit := ret tt.

(** ** Facts *)

(** The options of a TCP connection. *)
Definition tcp_options (conn : nat) : list NetCall := [SetNoDelay conn; SetKeepAlive conn; SetKeepAlivePeriod conn (30 * Second)].

Lemma configureTCP_issues conn is_tcp : issues (configureTCP conn is_tcp) (if is_tcp then tcp_options conn else []) tt.
Proof.
  destruct is_tcp; [|apply issues_ret]. unfold configureTCP, tcp_options. cbn [negb].
  apply (issues_bind _ _ [_] tt [_; _]); [apply issues_try|]. apply (issues_bind _ _ [_] tt [_]); apply issues_try.
Qed.

(** Every transport, dialled or accepted, is open, has sent nothing, will deliver what
    its connection delivers, and its options were asked for before it was handed
    out, whatever else the system refuses. *)
Theorem transports_configured (dialled : bool) addr timeout ln h :
  let '(r, h') := if dialled then DialTCP addr timeout h else Accept ln h in
  match r with
  | Ok (conn, t) => ∃ is_tcp incoming room, t = mkTCP [] incoming false room ∧
      h' = h ++ (if dialled then DialTimeout addr timeout else AcceptTCP ln) :: if is_tcp : bool then tcp_options conn else []
  | Err e => h' = h ++ [if dialled then DialTimeout addr timeout else AcceptTCP ln]
  | Panic => False
  end.
Proof.
  destruct dialled; unfold DialTCP, Accept, bind at 1, ask_net, call.
  - destruct (answer h (DialTimeout addr timeout)) as [[[conn is_tcp] [incoming room]]|]; [|done].
    rewrite (bind_issues _ _ _ _ _ (configureTCP_issues conn is_tcp)). cbn. exists is_tcp, incoming, room. split; [done|].
    rewrite <- app_assoc. done.
  - destruct (answer h (AcceptTCP ln)) as [[[conn is_tcp] [incoming room]]|]; [|done].
    rewrite (bind_issues _ _ _ _ _ (configureTCP_issues conn is_tcp)). cbn. exists is_tcp, incoming, room. split; [done|].
    rewrite <- app_assoc. done.
Qed.

(** SetSocketBuffers succeeds exactly when both sizes are set. *)
Theorem SetSocketBuffers_spec conn h :
  fst (SetSocketBuffers conn h) = Ok tt ↔
  answer h (SyscallConn conn) = true ∧ answer (h ++ [SyscallConn conn]) (Control conn) = true ∧
  answer (h ++ [SyscallConn conn; Control conn]) (Setsockopt conn SO_RCVBUF RcvBufSize) = true ∧
  answer (h ++ [SyscallConn conn; Control conn; Setsockopt conn SO_RCVBUF RcvBufSize]) (Setsockopt conn SO_SNDBUF SndBufSize) = true.
Proof.
  unfold SetSocketBuffers, bind, ask_net, call, fail, ret.
  destruct (answer h _); cbn [negb]; [|split; [done|by intros (? & _)]]. rewrite <- ?app_assoc. cbn [app].
  destruct (answer (h ++ [_]) _); cbn [negb]; [|split; [done|by intros (_ & ? & _)]]. rewrite <- ?app_assoc. cbn [app].
  destruct (answer (h ++ [_; _]) _); cbn [negb]; [|split; [done|by intros (_ & _ & ? & _)]]. rewrite <- ?app_assoc. cbn [app].
  destruct (answer (h ++ [_; _; _]) _); cbn [negb]; [by split|split; [done|by intros (_ & _ & _ & ?)]].
Qed.
End netio.
