(* ===== verification/Paths.v ===== *)
(** * Paths: directories, log files and crash logs

    src/internal/paths, src/internal/logfile, src/internal/crashlog and the log file
    of cmd/server/main.go.  Paths are those of Unix; environment variables are an
    argument.  What the operating system is asked is a history of calls (TunCommon). *)

From S2P Require Import Prelude GoNet TunCommon.

(** ** path/filepath *)

Definition c_slash : byte := "/"%byte.

(** The parts of a path between its slashes. *)
Fixpoint split_slash (s cur : list byte) : list (list byte) :=
  match s with
  | [] => [cur]
  | b :: s => if bool_decide (b = c_slash) then cur :: split_slash s [] else split_slash s (cur ++ [b])
  end.

Fixpoint join_slash (l : list (list byte)) : list byte :=
  match l with
  | [] => []
  | [e] => e
  | e :: l => e ++ [c_slash] ++ join_slash l
  end.

(** filepath.Clean, one part: [acc] are the parts kept, the last one first. *)
Definition clean_part (rooted : bool) (acc : list (list byte)) (e : list byte) : list (list byte) :=
  if bool_decide (e = []) || bool_decide (e = str ".") then acc
  else if bool_decide (e = str "..") then
    match acc with
    | a :: rest => if bool_decide (a = str "..") then e :: acc else rest
    | [] => if rooted then [] else [e]
    end
  else e :: acc.

Definition is_rooted (p : list byte) : bool := bool_decide (head p = Some c_slash).

Definition Clean (p : list byte) : list byte :=
  let rooted := is_rooted p in
  let parts := reverse (foldl (clean_part rooted) [] (split_slash p [])) in
  match (if rooted then [c_slash] else []) ++ join_slash parts with
  | [] => str "."
  | r => r
  end.

Definition Join (elems : list (list byte)) : list byte :=
  match list_find (fun e => e ≠ []) elems with
  | Some (i, _) => Clean (join_slash (drop i elems))
  | None => []
  end.

Definition Dir (p : list byte) : list byte :=
  Clean (match last_index_byte p c_slash with Some i => take (S i) p | None => [] end).

(** ** Calls *)

Inductive OsCall :=
| MkdirAll (dir : list byte)
| Stat (path : list byte)                   (* the size *)
| Remove (path : list byte)
| Rename (path to : list byte)
| OpenAppend (path : list byte)
| SetOutput (file : option (list byte))     (* of the logger: a file and the error output, or that alone *)
| WriteCrash (path : option (list byte))    (* the panic and the stack; without a path, to the error output *)
| ExecutablePath.
Definition OsAnswer (c : OsCall) : Type :=
  match c with
  | MkdirAll _ | Rename _ _ | OpenAppend _ => bool
  | Stat _ => option Z
  | ExecutablePath => option (list byte)
  | _ => unit
  end.

Section paths.
Context `{Answers OsCall OsAnswer} {E : Type}.
Abbreviation Os := (Sys OsCall E).
Definition ask_os (c : OsCall) : Os (OsAnswer c) := call c.

(** ** paths.go *)

Definition AppDataDir (getenv : list byte → list byte) : list byte :=
  if negb (bool_decide (getenv (str "APPDATA") = [])) then getenv (str "APPDATA")
  else if negb (bool_decide (getenv (str "USERPROFILE") = [])) then
    Join [getenv (str "USERPROFILE"); str "AppData"; str "Roaming"]
  else if negb (bool_decide (getenv (str "HOME") = [])) then getenv (str "HOME")
  else str ".".

Definition GameTunnelDir (getenv : list byte → list byte) : Os (list byte) :=
  let dir := Join [AppDataDir getenv; str "GameTunnel"] in
  let* ok := ask_os (MkdirAll dir) in
  ret (if ok then dir else str ".").

(** os.ExecutablePath *)
Definition ExeFile : Os (option (list byte)) := ask_os ExecutablePath.
Definition ExeDir : Os (list byte) :=
  let* exe := ExeFile in
  ret (match exe with Some exe => Dir exe | None => str "." end).

(** ** logfile.go *)

Definition maxLogSize : Z := 1 * 1024 * 1024.

(** Setup; the result is the file the log goes to, [None] for the error output. *)
Definition Setup (getenv : list byte → list byte) (path : list byte) : Os (option (list byte)) :=
  let* path := (match path with
                | [] => let* logDir := GameTunnelDir getenv in ret (Join [logDir; str "gametunnel.log"])
                | _ => ret path
                end) in
  let* ok := ask_os (MkdirAll (Dir path)) in
  if negb ok then let* _ := ask_os (SetOutput None) in ret None else
  let logBackup := path ++ str ".1" in
  let* info := ask_os (Stat path) in
  let* _ := (match info with
             | Some size =>
                 if maxLogSize <? size then let* _ := ask_os (Remove logBackup) in try_call (Rename path logBackup)
                 else ret tt
             | None => ret tt
             end) in
  let* ok := ask_os (OpenAppend path) in
  if negb ok then let* _ := ask_os (SetOutput None) in ret None else
  let* _ := ask_os (SetOutput (Some path)) in ret (Some path).

(** ** The log file of the server (cmd/server/main.go) *)

(** setupServerLog: whether it succeeded. *)
Definition setupServerLog (path : list byte) : Os bool :=
  let dir := Dir path in
  let* made := (match dir with [] => ret true | _ => ask_os (MkdirAll dir) end) in
  if negb made then ret false else
  let backup := path ++ str ".1" in
  let* info := ask_os (Stat path) in
  let* _ := (match info with
             | Some size =>
                 if maxLogSize <? size then let* _ := ask_os (Remove backup) in try_call (Rename path backup)
                 else ret tt
             | None => ret tt
             end) in
  let* ok := ask_os (OpenAppend path) in
  if negb ok then ret false else let* _ := ask_os (SetOutput (Some path)) in ret true.

(** ** Crash logs *)

(** What a deferred handler does about the panic of main; the status the program ends
    with, if the handler ends it. *)
Definition WriteCrashLog (windows : bool) (getenv : list byte → list byte) (panicked : bool) : Os (option Z) :=
  if negb panicked then ret None else
  let* logDir := GameTunnelDir getenv in
  let* _ := try_call (MkdirAll logDir) in
  let path := Join [logDir; str "crash.log"] in
  let* ok := ask_os (OpenAppend path) in
  if windows then
    if negb ok then ret None else let* _ := ask_os (WriteCrash (Some path)) in ret None
  else
    let* _ := (if ok then ask_os (WriteCrash (Some path)) else ret tt) in
    let* _ := ask_os (WriteCrash None) in ret (Some 1).

Definition WriteCrashLog_windows := WriteCrashLog true.

(** writeCrashLog of cmd/client/main_other.go *)
Definition writeCrashLog (panicked : bool) : Os (option Z) :=
  if negb panicked then ret None else let* _ := ask_os (WriteCrash None) in ret (Some 1).
End paths.

(** ** A disk *)

(** The sizes of the files; every call that can succeed does. *)
Abbreviation Disk := (gmap (list byte) Z).

Definition disk_do (c : OsCall) (d : Disk) : OsAnswer c * Disk :=
  match c with
  | MkdirAll _ => (true, d)
  | Stat p => (d !! p, d)
  | Remove p => (tt, delete p d)
  | Rename p q => match d !! p with Some n => (true, <[q := n]> (delete p d)) | None => (false, d) end
  | OpenAppend p => (true, match d !! p with Some _ => d | None => <[p := 0]> d end)
  | SetOutput _ | WriteCrash _ => (tt, d)
  | ExecutablePath => (None, d)
  end.
Definition disk_after (d : Disk) (h : list OsCall) : Disk := foldl (fun d c => snd (disk_do c d)) d h.
Definition on_disk (d : Disk) : Answers OsCall OsAnswer := fun h c => fst (disk_do c (disk_after d h)).

(** ** Facts *)

(** The guard of setupServerLog always holds: no path has an empty directory. *)
Lemma Clean_not_empty p : Clean p ≠ [].
Proof. unfold Clean. by destruct (_ ++ _). Qed.
Lemma Dir_not_empty p : Dir p ≠ [].
Proof. apply Clean_not_empty. Qed.

Definition no_env : list byte → list byte := fun _ => [].

(** The disk after a log file is set up. *)
Definition rotated (path : list byte) (d : Disk) : Disk :=
  match d !! path with
  | Some n => if maxLogSize <? n then <[path := 0]> (<[path ++ str ".1" := n]> (delete path d)) else d
  | None => <[path := 0]> d
  end.

Lemma backup_apart (path : list byte) : path ++ str ".1" ≠ path.
Proof. intros E%(f_equal length). rewrite length_app in E. cbn in E. lia. Qed.

Lemma run_bind {C E A B} (m : Sys C E A) (f : A → Sys C E B) a h h1 : m h = (Ok a, h1) → bind m f h = f a h1.
Proof. intros Hm. unfold bind. by rewrite Hm. Qed.

Lemma disk_after_app d h c : disk_after d (h ++ [c]) = snd (disk_do c (disk_after d h)).
Proof. unfold disk_after. by rewrite foldl_app. Qed.

Ltac os_step :=
  match goal with |- context [@bind ?C ?E ?A ?B (@ask_os (on_disk ?d) ?E' ?c) ?f ?h] =>
    change (@bind C E A B (@ask_os (on_disk d) E' c) f h) with (f (fst (disk_do c (disk_after d h))) (h ++ [c])) end;
  rewrite ?disk_after_app; cbn [disk_do fst snd negb app].

(** Both ways to set up a log rotate the same: a file of more than 1 MiB becomes the
    backup, the old backup goes, and every start begins with at most 1 MiB in the log
    file. *)
Theorem log_rotates {E} getenv path d : path ≠ [] →
  ∃ h, @Setup (on_disk d) E getenv path [] = (Ok (Some path), h) ∧
    @setupServerLog (on_disk d) E path [] = (Ok true, h) ∧
    disk_after d h = rotated path d ∧ ∃ n, rotated path d !! path = Some n ∧ n ≤ maxLogSize.
Proof.
  intros Hp. assert (∃ n, rotated path d !! path = Some n ∧ n ≤ maxLogSize) as Hn.
  { unfold rotated. destruct (d !! path) as [n|] eqn:Ed; [destruct (Z.ltb_spec maxLogSize n)|];
      rewrite ?lookup_insert_eq, ?Ed; (eexists; split; [reflexivity|unfold maxLogSize in *; lia]). }
  destruct path as [|b p]; [by destruct Hp|]. unfold Setup. erewrite run_bind by reflexivity.
  set (path := b :: p) in *. clearbody path.
  unfold setupServerLog. pose proof (Dir_not_empty path) as Hdir. destruct (Dir path) as [|b' dir] eqn:Edir; [by destruct Hdir|].
  set (rot := match d !! path with
              | Some n => if maxLogSize <? n then [Remove (path ++ str ".1"); Rename path (path ++ str ".1")] else []
              | None => [] end).
  exists ([MkdirAll (b' :: dir); Stat path] ++ rot ++ [OpenAppend path; SetOutput (Some path)]). split_and!; [..|exact Hn].
  1-2: do 2 os_step; change (disk_after d [MkdirAll _]) with d; unfold rot;
    destruct (d !! path) as [n|]; [destruct (maxLogSize <? n)|]; erewrite run_bind by reflexivity; by do 2 os_step.
  unfold rot, rotated. clear Hn rot. destruct (d !! path) as [n|] eqn:Ed; [destruct (maxLogSize <? n) eqn:El|]; cbn; try by rewrite Ed.
  rewrite (lookup_delete_ne d) by (by apply backup_apart). rewrite Ed. cbn.
  rewrite lookup_insert_ne, lookup_delete_eq by apply backup_apart. by rewrite delete_delete, insert_delete_eq.
Qed.

(** Whatever the system answers, setting up a log removes, renames and opens only the
    log file and its backup. *)
Definition log_call (path : list byte) (c : OsCall) : Prop :=
  match c with
  | Remove p => p = path ++ str ".1"
  | Rename p q => p = path ∧ q = path ++ str ".1"
  | OpenAppend p => p = path
  | WriteCrash _ | ExecutablePath => False
  | _ => True
  end.

Section touches.
Context `{Answers OsCall OsAnswer} {E : Type}.

Lemma triple_os P c (Q : OsAnswer c → Prop) : P c → (∀ r, Q r) → triple P (ask_os (E:=E) c) Q.
Proof. apply triple_call. Qed.

Theorem Setup_touches getenv path : path ≠ [] →
  triple (log_call path) (Setup (E:=E) getenv path) (fun r => r = None ∨ r = Some path).
Proof.
  intros Hp. destruct path as [|b p]; [by destruct Hp|]. unfold Setup.
  apply (triple_bind _ _ _ (eq (b :: p))); [by apply triple_ret|]. intros ? <-. set (path := b :: p).
  apply (triple_bind _ _ _ (fun _ => True)); [by apply (triple_os _ (MkdirAll _))|]. intros [] _; cbn [negb].
  2: { apply (triple_bind _ _ _ (fun _ => True)); [by apply (triple_os _ (SetOutput _))|]. intros _ _. apply triple_ret. by left. }
  apply (triple_bind _ _ _ (fun _ => True)); [by apply (triple_os _ (Stat _))|]. intros info _.
  apply (triple_bind _ _ _ (fun _ => True)).
  { destruct info as [n|]; [destruct (maxLogSize <? n)|]; [|by apply triple_ret..].
    apply (triple_bind _ _ _ (fun _ => True)); [by apply (triple_os _ (Remove _))|]. intros _ _. by apply triple_try. }
  intros _ _. apply (triple_bind _ _ _ (fun _ => True)); [by apply (triple_os _ (OpenAppend _))|]. intros [] _; cbn [negb];
    (apply (triple_bind _ _ _ (fun _ => True)); [by apply (triple_os _ (SetOutput _))|]; intros _ _; apply triple_ret; auto).
Qed.
End touches.

(** *** Examples *)

Example Clean_ex : map Clean [str "a//b/./c/"; str "/../a"; str "a/../../b"; str ""; str "/"]
  = [str "a/b/c"; str "/a"; str "../b"; str "."; str "/"].
Proof. reflexivity. Qed.
Example Dir_ex : map Dir [str "/var/log/gt.log"; str "gt.log"] = [str "/var/log"; str "."].
Proof. reflexivity. Qed.

(** A log file of 2 MiB, and an old backup. *)
Definition ex_disk : Disk := {[ str "gt.log" := 2097152; str "gt.log.1" := 3000000 ]}.

Lemma log_rotates_witness :
  ∃ h, @Setup (on_disk ex_disk) unit no_env (str "gt.log") [] = (Ok (Some (str "gt.log")), h) ∧
    disk_after ex_disk h !! str "gt.log" = Some 0 ∧ disk_after ex_disk h !! str "gt.log.1" = Some 2097152.
Proof.
  destruct (log_rotates (E:=unit) no_env (str "gt.log") ex_disk) as (h & H1 & _ & H2 & _); [done|]. exists h. split; [exact H1|].
  rewrite H2. split; vm_compute; reflexivity.
Defined.

Lemma Setup_touches_witness :
  triple (log_call (str "gt.log")) (@Setup (on_disk ex_disk) unit no_env (str "gt.log")) (fun r => r = None ∨ r = Some (str "gt.log")).
Proof. apply (@Setup_touches (on_disk ex_disk) unit no_env (str "gt.log")). done. Defined.
