(* ===== verification/Startup.v ===== *)
(** * Startup: the server program, from its flags to Run

    main of src/cmd/server/main.go and what server.New asks of the operating system
    (server.go, subnet.go, persist.go, status.go).  The flags are a record; log.Fatalf
    is an error, after which no deferred call runs. *)

From S2P Require Import Prelude GoNet Crc32 Protocol Messages MessagesData MessagesPeer NetUtil RateLimit Float64 Bandwidth SendQueue Sha256 Auth I18n Client Room RoomHandlers RoomIP RoomInv RoomSafe RoomExample RoomSpec Persist Subnet Server ServerExample ServerSpec TunCommon Paths.

(** ** net.ParseCIDR *)

(** A decimal below 0xFFFFFF, to the end of the string. *)
Definition dtoi (s : list byte) : option Z :=
  match s with
  | [] => None
  | _ => n ← digits_val s 0; if n <? 16777215 then Some n else None
  end.

(** The address and its network. *)
Definition ParseCIDR (s : list byte) : option (IP * IPNet) :=
  i ← index_byte s (ch 47);
  let addr := take i s in
  '(ip, zone) ← ParseAddr addr;
  if negb (bool_decide (zone = [])) then None else
  n ← dtoi (drop (S i) s);
  let size := match addr_family addr with Some true => 4%nat | _ => 16%nat end in
  if 8 * Z.of_nat size <? n then None else
  let m := CIDRMask n size in
  Some (ip, mkIPNet (IP_Mask ip m) m).

(** ** Flags *)

Record Flags := mkFlags {
  fl_addr : list byte; fl_subnet : list byte; fl_max : Z; fl_password : list byte;
  fl_statusAddr : list byte; fl_statusToken : list byte; fl_maxPerIP : Z; fl_stateDir : list byte;
  fl_rooms : bool; fl_maxRooms : Z; fl_bandwidth : Z; fl_tcpAddr : list byte; fl_lang : list byte;
  fl_verbose : bool; fl_logFile : list byte; fl_pprofAddr : list byte; fl_version : bool }.

Definition default_flags : Flags :=
  mkFlags (str ":4700") (str "10.10.0.0/24") 10 [] [] [] 3 [] false 64 0 [] (str "zh") false [] [] false.

(** The Config main passes to New. *)
Definition server_config (f : Flags) (subnet : IPNet) : Config :=
  mkConfig subnet (fl_max f) (fl_password f) (fl_maxPerIP f) (negb (bool_decide (fl_stateDir f = [])))
    (fl_rooms f) (fl_bandwidth f) (fl_maxRooms f).

(** ** Calls *)

(** A network interface: whether it is up and the loopback, and its addresses, unless
    they cannot be read; [None] for an address that is no network. *)
Record Iface := mkIface { if_up : bool; if_loopback : bool; if_addrs : option (list (option IPNet)) }.

(** What ReadFile and json.Unmarshal make of the state file. *)
Inductive StateRead := StateMissing | StateUnreadable | StateMalformed | StateRead_ok (st : RoomState).

Inductive MainCall :=
| McOs (c : OsCall)
| PrintVersion | SetLang (l : Lang) | WarnPassword (n : nat) | Banner
| Acquire (name : list byte)                          (* singleinstance.Acquire *)
| ListenUDP (network : list byte) (addr : UDPAddr)
| SetSocketBuffers | CloseUDP
| Interfaces                                          (* net.Interfaces and Addrs *)
| ReadState | WarnState
| ListenTCP (addr : list byte) | ListenPprof (addr : list byte) | ServePprof
| NotifySignals
| ListenStatus (addr : list byte)
| RunServer (s : Server)                              (* until Run returns *)
| Cancel | ReleaseLock | CloseLog.
Definition MainAnswer (c : MainCall) : Type :=
  match c with
  | Acquire _ | ListenUDP _ _ | ListenTCP _ | ListenPprof _ => bool
  | Interfaces => option (list Iface)
  | ReadState => StateRead
  | _ => unit
  end.

Inductive start_err := FatalLog | FatalInstance | FatalSubnet | FatalStart | FatalPprof.
Inductive outcome := ShowedVersion | Served (s : Server).

(** Calls of Paths made by main. *)
Definition os_call (c : MainCall) : option OsCall := match c with McOs c => Some c | _ => None end.
Definition on_os {A} (m : Sys OsCall start_err A) : Sys MainCall start_err A := embed McOs os_call id m.

Section main.
Context `{Env} `{NetResolver} `{Answers OsCall OsAnswer} `{Answers MainCall MainAnswer}.
Abbreviation Main := (Sys MainCall start_err).
Definition ask_main (c : MainCall) : Main (MainAnswer c) := call c.

(** getLocalSubnets *)
Definition local_nets (i : Iface) : list IPNet :=
  if negb (if_up i) || if_loopback i then [] else
  List.filter (fun n => (length (net_Mask n) =? 4)%nat && match simpleMaskLength (net_Mask n) with Some ones => 24 <=? ones | None => false end)
    (omap id (default [] (if_addrs i))).
Definition getLocalSubnets : Main (list IPNet) :=
  let* ifaces := ask_main Interfaces in
  ret (concat (map local_nets (default [] ifaces))).

(** loadState, up to the checks of the contents: the state, if there is one. *)
Definition readState : Main (option RoomState) :=
  let* r := ask_main ReadState in
  match r with
  | StateRead_ok st => ret (Some st)
  | StateMissing => ret None
  | StateUnreadable | StateMalformed => let* _ := ask_main WarnState in ret None
  end.

(** The socket of the server: without a host it is dual-stack. *)
Definition udp_network (a : UDPAddr) : list byte * UDPAddr :=
  match ua_IP a with
  | [] => (str "udp", mkUDPAddr (zeros 16) (ua_Port a) (ua_Zone a))
  | ip => (match To4 ip with None => str "udp6" | Some _ => str "udp" end, a)
  end.

(** The TCP listener of New, if it is asked for and can listen. *)
Definition tcp_listener (tcpAddr : list byte) : Main bool :=
  match tcpAddr with [] => ret false | _ => ask_main (ListenTCP tcpAddr) end.

(** server.New with its sockets. *)
Definition server_New (addr tcpAddr : list byte) (cfg : Config) : Main Server :=
  match ResolveUDPAddr addr with
  | None => fail FatalStart
  | Some a =>
      let '(network, a) := udp_network a in
      let* ok := ask_main (ListenUDP network a) in
      if negb ok then fail FatalStart else
      if negb (bool_decide (net_Mask (cf_Subnet cfg) = mask24)) then let* _ := ask_main CloseUDP in fail FatalStart else
      let* _ := ask_main SetSocketBuffers in
      let* locals := getLocalSubnets in
      match New cfg locals None with
      | None => let* _ := ask_main CloseUDP in fail FatalStart
      | Some _ =>
          let* file := (if cf_StateDir cfg && negb (cf_MultiRoom cfg) then readState else ret None) in
          let* _ := tcp_listener tcpAddr in
          match New cfg locals file with Some s => ret s | None => fail FatalStart end
      end
  end.

(** The address of the status page, as startStatusServer completes it. *)
Definition status_listen_addr (addr : list byte) : list byte := if has_byte addr c_colon then addr else c_colon :: addr.

(** main up to the signal handler: whether there is a log file, and the server. *)
Definition server_start (f : Flags) : Main (bool * Server) :=
  let* _ := ask_main (SetLang (ParseLang (fl_lang f))) in
  let* log := (match fl_logFile f with
               | [] => ret false
               | path => let* ok := on_os (setupServerLog path) in if negb ok then fail FatalLog else ret true
               end) in
  let* ok := ask_main (Acquire (str "GameTunnel-Server")) in
  if negb ok then fail FatalInstance else
  match ParseCIDR (fl_subnet f) with
  | None => fail FatalSubnet
  | Some (_, subnet) =>
      let* _ := (match snd (CheckPasswordStrength (fl_password f)) with 0%nat => ret tt | n => ask_main (WarnPassword n) end) in
      let* s := server_New (fl_addr f) (fl_tcpAddr f) (server_config f subnet) in
      let* _ := (match fl_pprofAddr f with
                 | [] => ret tt
                 | a => let* ok := ask_main (ListenPprof a) in if negb ok then fail FatalPprof else ask_main ServePprof
                 end) in
      ret (log, s)
  end.

(** Run starts the status page and serves; then the deferred calls, the last first. *)
Definition server_main (f : Flags) : Main outcome :=
  if fl_version f then let* _ := ask_main PrintVersion in ret ShowedVersion else
  let* r := server_start f in
  let* _ := ask_main NotifySignals in
  let* _ := ask_main Banner in
  let* _ := (match fl_statusAddr f with [] => ret tt | a => ask_main (ListenStatus (status_listen_addr a)) end) in
  let* _ := ask_main (RunServer (snd r)) in
  let* _ := try_calls ([Cancel; ReleaseLock] ++ if fst r then [CloseLog] else []) in
  ret (Served (snd r)).
End main.

(** ** Facts *)

(** The calls of a start that has not come to Run. *)
Definition start_call (c : MainCall) : Prop :=
  match c with NotifySignals | RunServer _ | Cancel | ReleaseLock | CloseLog => False | _ => True end.

Section facts.
Context `{Env} `{NetResolver} `{Answers OsCall OsAnswer} `{Answers MainCall MainAnswer}.

Lemma triple_main P c (Q : MainAnswer c → Prop) : P c → (∀ r, Q r) → triple P (ask_main c) Q.
Proof. apply triple_call. Qed.

(** A call whose answer does not matter. *)
Lemma triple_then {A} P c (f : MainAnswer c → Sys MainCall start_err A) Q :
  P c → (∀ r, triple P (f r) Q) → triple P (bind (ask_main c) f) Q.
Proof. intros HP Hf. apply (triple_bind _ _ _ (fun _ => True)); [by apply triple_main|by intros r _]. Qed.

Lemma server_log_triple P path : (∀ c, P (McOs c)) → triple P (on_os (setupServerLog path)) (fun _ => True).
Proof.
  intros HP. apply (triple_embed _ _ _ (fun _ => True)); [|by intros c _]. unfold setupServerLog.
  apply (triple_bind _ _ _ (fun _ => True)).
  { destruct (Dir path); [by apply triple_ret|]. by apply (triple_os _ (MkdirAll _)). }
  intros [] _; cbn [negb]; [|by apply triple_ret].
  apply (triple_bind _ _ _ (fun _ => True)); [by apply (triple_os _ (Stat _))|]. intros info _.
  apply (triple_bind _ _ _ (fun _ => True)).
  { destruct info as [n|]; [destruct (maxLogSize <? n)|]; [|by apply triple_ret..].
    apply (triple_bind _ _ _ (fun _ => True)); [by apply (triple_os _ (Remove _))|]. intros _ _. by apply triple_try. }
  intros _ _. apply (triple_bind _ _ _ (fun _ => True)); [by apply (triple_os _ (OpenAppend _))|]. intros [] _; cbn [negb]; [|by apply triple_ret].
  apply (triple_bind _ _ _ (fun _ => True)); [by apply (triple_os _ (SetOutput _))|]. intros _ _. by apply triple_ret.
Qed.

Lemma server_New_triple addr tcpAddr cfg :
  triple start_call (server_New addr tcpAddr cfg) (fun s => ∃ locals file, New cfg locals file = Some s).
Proof.
  unfold server_New. destruct (ResolveUDPAddr addr) as [a|]; [|apply triple_fail].
  destruct (udp_network a) as [network a'].
  apply (triple_then _ (ListenUDP _ _)); [done|]. intros []; cbn [negb]; [|apply triple_fail].
  case_bool_decide; cbn [negb]; [|apply (triple_then _ CloseUDP); [done|]; intros _; apply triple_fail].
  apply (triple_then _ SetSocketBuffers); [done|]. intros _.
  apply (triple_bind _ _ _ (fun _ => True)).
  { unfold getLocalSubnets. apply (triple_then _ Interfaces); [done|]. intros ifs. by apply triple_ret. }
  intros locals _. destruct (New cfg locals None) as [s0|]; [|apply (triple_then _ CloseUDP); [done|]; intros _; apply triple_fail].
  apply (triple_bind _ _ _ (fun _ => True)).
  { destruct (_ && _); [|by apply triple_ret]. unfold readState. apply (triple_then _ ReadState); [done|].
    intros []; try by apply triple_ret. all: apply (triple_then _ WarnState); [done|]; intros _; by apply triple_ret. }
  intros file _. apply (triple_bind _ _ _ (fun _ => True)).
  { unfold tcp_listener. destruct tcpAddr; [by apply triple_ret|]. by apply (triple_main _ (ListenTCP _)). }
  intros _ _. destruct (New cfg locals file) as [s|] eqn:En; [|apply triple_fail]. apply triple_ret. by exists locals, file.
Qed.

Lemma server_start_triple f :
  triple start_call (server_start f) (fun '(log, s) =>
    log = match fl_logFile f with [] => false | _ => true end ∧
    ∃ ip subnet locals file, ParseCIDR (fl_subnet f) = Some (ip, subnet) ∧ New (server_config f subnet) locals file = Some s).
Proof.
  unfold server_start. apply (triple_then _ (SetLang _)); [done|]. intros _.
  apply (triple_bind _ _ _ (fun log => log = match fl_logFile f with [] => false | _ => true end)).
  { destruct (fl_logFile f) as [|b p]; [by apply triple_ret|].
    apply (triple_bind _ _ _ (fun _ => True)); [by apply server_log_triple|]. intros [] _; cbn [negb]; [|apply triple_fail].
    by apply triple_ret. }
  intros log Hlog. apply (triple_then _ (Acquire _)); [done|]. intros []; cbn [negb]; [|apply triple_fail].
  destruct (ParseCIDR (fl_subnet f)) as [[ip subnet]|] eqn:Ec; [|apply triple_fail].
  apply (triple_bind _ _ _ (fun _ => True)).
  { destruct (snd _); [by apply triple_ret|]. by apply (triple_main _ (WarnPassword _)). }
  intros _ _. apply (triple_bind _ _ _ _ _ (server_New_triple _ _ _)). intros s (locals & file & Hn).
  apply (triple_bind _ _ _ (fun _ => True)).
  { destruct (fl_pprofAddr f); [by apply triple_ret|]. apply (triple_then _ (ListenPprof _)); [done|].
    intros []; cbn [negb]; [|apply triple_fail]. by apply (triple_main _ ServePprof). }
  intros _ _. apply triple_ret. split; [done|]. by exists ip, subnet, locals, file.
Qed.

(** C32: The server main runs is what New makes of the configuration of the flags, so the
    invariants of reachable servers hold from its first moment; Run is called once,
    after the signal handler is in place, and the lock and the log are released only
    after it.  A start that fails, with whatever answers of the system, serves nothing
    and releases nothing. *)
Theorem server_main_serves f h : fl_version f = false →
  ∃ l, Forall start_call l ∧
    ((∃ e, server_main f h = (Err e, h ++ l)) ∨
     ∃ ip subnet s locals file,
       ParseCIDR (fl_subnet f) = Some (ip, subnet) ∧ New (server_config f subnet) locals file = Some s ∧
       server_main f h = (Ok (Served s), h ++ l ++ [NotifySignals; Banner]
         ++ (match fl_statusAddr f with [] => [] | a => [ListenStatus (status_listen_addr a)] end)
         ++ [RunServer s; Cancel; ReleaseLock] ++ (match fl_logFile f with [] => [] | _ => [CloseLog] end))).
Proof.
  intros Hv. destruct (server_start_triple f h) as (l & Hl & HP & HQ). exists l. split; [done|].
  destruct (server_start f h) as [[[log s]|e|] h1] eqn:Es; cbn in Hl, HQ; [right|left|done].
  - destruct HQ as (-> & ip & subnet & locals & file & Hc & Hn). exists ip, subnet, s, locals, file. split_and!; [done..|].
    unfold server_main. rewrite Hv, (run_bind _ _ _ _ _ Es). subst h1. unfold bind, ask_main, call, try_calls, ret. cbn [fst snd].
    destruct (fl_statusAddr f), (fl_logFile f); by rewrite <- ?app_assoc.
  - exists e. unfold server_main. rewrite Hv. unfold bind at 1. by rewrite Es, Hl.
Qed.

(** While another server holds the lock, a second one opens no socket. *)
Theorem second_server_refused f h : fl_version f = false →
  (∀ h, answer h (Acquire (str "GameTunnel-Server")) = false) →
  ∃ e l, server_main f h = (Err e, h ++ l) ∧
    Forall (fun c => match c with McOs _ | SetLang _ | Acquire _ => True | _ => False end) l.
Proof.
  intros Hv Ha. unfold server_main. rewrite Hv.
  assert (∃ e l, server_start f h = (Err e, h ++ l) ∧
    Forall (fun c => match c with McOs _ | SetLang _ | Acquire _ => True | _ => False end) l) as (e & l & E & Hl).
  2: { exists e, l. split; [|done]. unfold bind at 1. by rewrite E. }
  unfold server_start, bind at 1, ask_main at 1, call. set (m := match fl_logFile f with [] => _ | _ => _ end).
  assert (triple (fun c => match c with McOs _ | SetLang _ | Acquire _ => True | _ => False end) m (fun _ => True)) as Hm.
  { unfold m. destruct (fl_logFile f); [by apply triple_ret|]. apply (triple_bind _ _ _ (fun _ => True)); [by apply server_log_triple|].
    intros [] _; cbn [negb]; [by apply triple_ret|apply triple_fail]. }
  destruct (Hm (h ++ [SetLang (ParseLang (fl_lang f))])) as (l & Hl & HP & HQ). unfold bind at 1.
  destruct (m _) as [[log|e|] h1]; cbn in Hl, HQ; subst h1; [|exists e|done].
  - exists FatalInstance. unfold bind at 1, ask_main at 1, call. rewrite Ha. cbn [negb]. unfold fail.
    eexists. rewrite <- !app_assoc. split; [reflexivity|]. apply Forall_app. split; [by repeat constructor|].
    apply Forall_app. split; [done|]. by repeat constructor.
  - eexists. rewrite <- app_assoc. split; [reflexivity|]. by constructor.
Qed.
End facts.

(** ** Networks *)

Lemma length_CIDRMask n k : length (CIDRMask n k) = k.
Proof. revert n. induction k as [|k IH]; intros n; cbn; [done|]. destruct (8 <=? n); cbn; by rewrite IH. Qed.

Lemma IP_Mask_v4 a b c d m : length m = 4%nat → IP_Mask (IPv4 a b c d) m = and_mask [a; b; c; d] m.
Proof. intros Hm. unfold IP_Mask. rewrite Hm. cbn. by rewrite Hm. Qed.

Lemma dtoi_itoa n : 0 ≤ n < 16777215 → dtoi (itoa n) = Some n.
Proof.
  intros Hn. destruct (itoa_nonneg n) as (Hv & _ & Hne); [lia|]. unfold dtoi.
  destruct (itoa n) as [|b l]; [done|]. rewrite Hv. cbn. destruct (Z.ltb_spec n 16777215); [done|lia].
Qed.

(** Every dotted network that can be written is read as it is meant: the address, and
    the network with the host bits cleared. *)
Theorem ParseCIDR_v4 a b c d n : 0 ≤ n ≤ 32 →
  ParseCIDR (v4_string [a; b; c; d] ++ str "/" ++ itoa n)
  = Some (IPv4 a b c d, mkIPNet (and_mask [a; b; c; d] (CIDRMask n 4)) (CIDRMask n 4)).
Proof.
  intros Hn. unfold ParseCIDR. change (str "/" ++ itoa n) with (ch 47 :: itoa n).
  rewrite index_byte_app by (by apply v4_string_no). cbn [mbind option_bind].
  rewrite take_app_length, ParseAddr_v4_string. cbn [mbind option_bind].
  rewrite bool_decide_eq_true_2 by done. cbn [negb].
  rewrite cons_middle, app_assoc, drop_app_length' by (rewrite length_app; cbn; lia).
  rewrite dtoi_itoa by lia. cbn [mbind option_bind]. rewrite addr_family_v4.
  destruct (Z.ltb_spec (8 * Z.of_nat 4) n); [lia|]. by rewrite IP_Mask_v4 by apply length_CIDRMask.
Qed.

(** *** Witnesses *)

(** A machine where every call succeeds, without a state file. *)
#[export] Instance ex_main : Answers MainCall MainAnswer := fun _ c =>
  match c as c return MainAnswer c with
  | Acquire _ | ListenUDP _ _ | ListenTCP _ | ListenPprof _ => true
  | Interfaces => Some [mkIface true false (Some [Some (mkIPNet [xc0; xa8; x01; x05] mask24)])]
  | ReadState => StateMissing
  | _ => tt
  end.
(** ... and one where another server runs. *)
Definition ex_taken : Answers MainCall MainAnswer := fun h c =>
  match c as c return MainAnswer c with Acquire _ => false | c => ex_main h c end.
Definition ex_flags : Flags :=
  mkFlags (str ":4700") (str "10.20.30.0/24") 4 (str "pw") (str "4701") [] 3 [] false 64 0 [] (str "en") false (str "gt.log") [] false.

Lemma server_main_serves_witness :
  ∃ s h', @server_main (ex_env 0 x00) no_resolver (on_disk ex_disk) ex_main ex_flags [] = (Ok (Served s), h') ∧
    ListenStatus (str ":4701") ∈ h' ∧ CloseLog ∈ h'.
Proof.
  destruct (@server_main_serves (ex_env 0 x00) no_resolver (on_disk ex_disk) ex_main ex_flags [] eq_refl)
    as (l & Hl & [[e He]|(ip & subnet & s & locals & file & Hc & Hn & Hm)]).
  - exfalso. assert (match fst (@server_main (ex_env 0 x00) no_resolver (on_disk ex_disk) ex_main ex_flags []) with
                     | Err _ => false | _ => true end = true) as Hok by (vm_compute; reflexivity).
    rewrite He in Hok. discriminate Hok.
  - exists s. eexists. split; [exact Hm|]. rewrite !elem_of_app. split; [right; right; right; left; left|].
    right. right. right. right. right. left.
Defined.

Lemma second_server_refused_witness :
  ∃ e l, @server_main (ex_env 0 x00) no_resolver (on_disk ex_disk) ex_taken default_flags [] = (Err e, l) ∧
    Forall (fun c => match c with McOs _ | SetLang _ | Acquire _ => True | _ => False end) l.
Proof.
  destruct (@second_server_refused (ex_env 0 x00) no_resolver (on_disk ex_disk) ex_taken default_flags [] eq_refl) as (e & l & H1 & H2);
    [done|]. by exists e, l.
Defined.

(** The network of the default flags. *)
Lemma ParseCIDR_v4_witness :
  ParseCIDR (fl_subnet default_flags) = Some (IPv4 x0a x0a x00 x00, mkIPNet [x0a; x0a; x00; x00] mask24).
Proof. exact (ParseCIDR_v4 x0a x0a x00 x00 24 ltac:(lia)). Defined.
