(* ===== verification/ClientMain.v ===== *)
(** * ClientMain: the client program

    src/cmd/client: main of main_windows.go and main_other.go, the firewall set-up of
    platform_windows.go and platform_other.go, and run of run.go.  os.Exit and
    log.Fatalf are errors, after which no deferred call runs; the connection between
    Connect and Disconnect is App.v. *)

From S2P Require Import Prelude GoNet Auth I18n ClientConfig TunCommon TunWindows Paths.

Inductive ClientCall :=
| CcOs (c : OsCall)
| CcWin (c : WinCall)                       (* of the firewall set-up *)
| IsElevated | Elevate                      (* the administrator's rights on Windows *)
| Acquire (name : list byte)
| LoadFile                                  (* the configuration: the host name and the file *)
| SetLang (l : Lang) | WarnPassword (n : nat) | NoServer
| ListenPprof (addr : list byte) | ServePprof | ClosePprof
| AppConnect (cfg : Config) (excluded : IP) (* Connect, with the address the factory excludes *)
| WaitSignal | AppDisconnect
| CloseLog.
Definition ClientAnswer (c : ClientCall) : Type :=
  match c with
  | IsElevated | Elevate | Acquire _ | ListenPprof _ => bool
  | LoadFile => list byte * option (list byte)
  | _ => unit
  end.

(** The exits: the status, or log.Fatalf. *)
Inductive client_exit := Exit (status : Z) | FatalPprof.

Definition cc_os (c : ClientCall) : option OsCall := match c with CcOs c => Some c | _ => None end.
Definition cc_win (c : ClientCall) : option WinCall := match c with CcWin c => Some c | _ => None end.

Section client.
Context `{Answers OsCall OsAnswer} `{Answers WinCall WinAnswer} `{Answers ClientCall ClientAnswer}.
Abbreviation Cmd := (Sys ClientCall client_exit).
Definition ask_client (c : ClientCall) : Cmd (ClientAnswer c) := call c.

Definition on_os {A} (m : Sys OsCall client_exit A) : Cmd A := embed CcOs cc_os id m.
Definition on_win {A} (m : Sys WinCall dev_err A) : Cmd A := embed CcWin cc_win (fun _ => Exit 2) m.

(** setupFirewallPlatform: whether the clean-up it returns does anything. *)
Definition setupFirewallPlatform (windows : bool) : Cmd bool := if windows then on_win SetupFirewall else ret false.

(** run *)
Definition run (windows : bool) (getenv : list byte → list byte) (cfg : Config) (excluded : IP) : Cmd unit :=
  let* logFile := on_os (Setup getenv (cc_LogFile cfg)) in
  let* active := setupFirewallPlatform windows in
  let deferred : Cmd unit :=
    let* _ := on_win (firewall_cleanup active) in
    match logFile with Some _ => try_call CloseLog | None => ret tt end in
  let* _ := (match snd (CheckPasswordStrength (cc_RoomPassword cfg)) with 0%nat => ret tt | n => ask_client (WarnPassword n) end) in
  match cc_ServerAddr cfg with
  | [] => let* _ := ask_client NoServer in deferred
  | _ =>
      let* _ := (match cc_PprofAddr cfg with
                 | [] => ret tt
                 | a => let* ok := ask_client (ListenPprof a) in if negb ok then fail FatalPprof else ask_client ServePprof
                 end) in
      let* _ := ask_client (AppConnect cfg excluded) in
      let* _ := ask_client WaitSignal in
      let* _ := (match cc_PprofAddr cfg with [] => ret tt | _ => ask_client ClosePprof end) in
      let* _ := ask_client AppDisconnect in
      deferred
  end.

(** requestAdmin *)
Definition requestAdmin : Cmd unit :=
  let* elevated := ask_client IsElevated in
  if elevated then ret tt else
  let* exe := on_os ExeFile in
  match exe with
  | None => ret tt
  | Some _ => let* ok := ask_client Elevate in fail (Exit (if ok then 0 else 1))
  end.

(** main of Windows; without [windows], that of main_other.go. *)
Definition main (windows : bool) (getenv : list byte → list byte) : Cmd unit :=
  let* _ := (if windows then requestAdmin else ret tt) in
  let* ok := ask_client (Acquire (str "GameTunnel-Client")) in
  if negb ok then fail (Exit 0) else
  let* r := ask_client LoadFile in
  let cfg := LoadConfig (fst r) (snd r) in
  let* _ := (match cc_Lang cfg with [] => ret tt | l => ask_client (SetLang (ParseLang l)) end) in
  run windows getenv cfg (parseHostIP (cc_ServerAddr cfg)).
Definition main_other := main false.
End client.

(** ** Facts *)

(** The firewall rules that calls add and delete. *)
Definition added (l : list ClientCall) : list (list byte) := omap rule_added (omap cc_win l).
Definition deleted (l : list ClientCall) : list (list byte) := omap rule_deleted (omap cc_win l).

Lemma added_app l1 l2 : added (l1 ++ l2) = added l1 ++ added l2.
Proof. unfold added. by rewrite !omap_app. Qed.
Lemma deleted_app l1 l2 : deleted (l1 ++ l2) = deleted l1 ++ deleted l2.
Proof. unfold deleted. by rewrite !omap_app. Qed.
Lemma cc_win_win l : omap cc_win (map CcWin l) = l.
Proof. induction l as [|c l IH]; [done|]. cbn. by rewrite IH. Qed.
Lemma cc_win_os l : omap cc_win (map CcOs l) = [].
Proof. by induction l. Qed.

Section facts.
Context `{Answers OsCall OsAnswer} `{Answers WinCall WinAnswer} `{Answers ClientCall ClientAnswer}.

Ltac returning := repeat first
  [ apply returns_ret | apply returns_try | apply (returns_call (R:=OsAnswer)) | apply returns_bind; [|intros ?]
  | progress (match goal with |- context [match ?x with _ => _ end] => destruct x end)
  | progress (match goal with |- context [if ?b then _ else _] => destruct b end) ].

(** Setting up the log always returns. *)
Lemma Setup_returns {E} getenv path : returns (Setup (E:=E) getenv path).
Proof. unfold Setup, GameTunnelDir. returning. Qed.

Lemma on_os_run {A} (m : Sys OsCall client_exit A) h : returns m → ∃ r l, on_os m h = (Ok r, h ++ map CcOs l).
Proof. intros Hm. destruct (Hm (omap cc_os h)) as (r & l & E). exists r, l. by apply embed_ok. Qed.

(** The set-up of the firewall, and the clean-up it returns. *)
Lemma firewall_run windows h : ∃ b l, setupFirewallPlatform windows h = (Ok b, h ++ map CcWin l) ∧
  ∀ h0, ∃ l0, on_win (firewall_cleanup b) h0 = (Ok tt, h0 ++ map CcWin l0) ∧
    omap rule_added l ⊆ omap rule_deleted l0 ∧ omap rule_added l0 = [].
Proof.
  assert (∀ b h0, ∃ l0, on_win (firewall_cleanup b) h0 = (Ok tt, h0 ++ map CcWin l0) ∧ firewall_cleanup b (omap cc_win h0) = (Ok tt, omap cc_win h0 ++ l0) ∧
    omap rule_added l0 = []) as Hclean.
  { intros [] h0.
    - exists firewall_deletes. split_and!; [by apply embed_ok|done|done].
    - exists []. split_and!; [apply embed_ok|..]; cbn; rewrite ?app_nil_r; done. }
  destruct windows.
  - destruct (firewall_rules_removed (omap cc_win h) []) as (b & l & _ & E & _). exists b, (Executable :: l).
    split; [by apply embed_ok|]. intros h0. destruct (Hclean b h0) as (l0 & E0 & E0' & Ha). exists l0. split_and!; [done| |done].
    destruct (firewall_rules_removed (omap cc_win h) (omap cc_win h0)) as (b' & l' & l0' & E' & E1 & Hsub & _).
    rewrite E in E'. injection E' as <- E3. apply app_inv_head in E3. injection E3 as <-. rewrite E0' in E1.
    injection E1 as E1. apply app_inv_head in E1 as <-. done.
  - exists false, []. cbn. rewrite app_nil_r. split; [done|]. intros h0. destruct (Hclean false h0) as (l0 & E0 & _ & Ha).
    exists l0. split_and!; [done|apply list_subseteq_nil|done].
Qed.

(** The calls of run between the set-up and the deferred clean-up. *)
Definition run_calls (cfg : Config) (excluded : IP) : list ClientCall :=
  (match snd (CheckPasswordStrength (cc_RoomPassword cfg)) with 0%nat => [] | n => [WarnPassword n] end)
  ++ match cc_ServerAddr cfg with
     | [] => [NoServer]
     | _ => (match cc_PprofAddr cfg with [] => [] | a => [ListenPprof a; ServePprof] end)
            ++ [AppConnect cfg excluded; WaitSignal]
            ++ (match cc_PprofAddr cfg with [] => [] | _ => [ClosePprof] end) ++ [AppDisconnect]
     end.

(** When run returns - there is no server to connect to, or a signal came - it has
    deleted every firewall rule it added, after it disconnected what it connected. *)
Theorem run_cleans_up windows getenv cfg excluded h :
  (cc_PprofAddr cfg = [] ∨ ∀ h, answer h (ListenPprof (cc_PprofAddr cfg)) = true) →
  ∃ l1 l2, run windows getenv cfg excluded h = (Ok tt, h ++ l1 ++ run_calls cfg excluded ++ l2) ∧
    added l1 ⊆ deleted l2 ∧ added l2 = [].
Proof.
  intros Hp. unfold run. destruct (on_os_run _ h (Setup_returns getenv (cc_LogFile cfg))) as (r & l & E1).
  rewrite (run_bind _ _ _ _ _ E1). destruct (firewall_run windows (h ++ map CcOs l)) as (b & lf & E2 & Hc).
  rewrite (run_bind _ _ _ _ _ E2). cbv zeta. set (h2 := (h ++ map CcOs l) ++ map CcWin lf).
  set (last := match r with Some _ => [CloseLog] | None => [] end).
  assert (∀ h0, ∃ l0, (let* _ := on_win (firewall_cleanup b) in match r with Some _ => try_call CloseLog | None => ret tt end) h0
    = (Ok tt, h0 ++ map CcWin l0 ++ last) ∧ omap rule_added lf ⊆ omap rule_deleted l0 ∧ omap rule_added l0 = []) as Hd.
  { intros h0. destruct (Hc h0) as (l0 & E0 & ? & ?). exists l0. split; [|done]. rewrite (run_bind _ _ _ _ _ E0).
    unfold last, try_call, ret. destruct r; by rewrite ?app_nil_r, <- ?app_assoc. }
  destruct (Hd (h2 ++ run_calls cfg excluded)) as (l0 & E0 & Hsub & Hno).
  exists (map CcOs l ++ map CcWin lf), (map CcWin l0 ++ last). split.
  2: { rewrite !added_app, deleted_app. unfold added, deleted. rewrite !cc_win_os, !cc_win_win. cbn [omap list_omap app].
       rewrite Hno. unfold last.
       assert (omap cc_win (match r with Some _ => [CloseLog] | None => [] end) = []) as -> by by destruct r.
       split; [|done]. cbn. by rewrite app_nil_r. }
  set (d := bind (on_win (firewall_cleanup b)) _) in *. clearbody d. clear E1 E2 Hc Hd.
  transitivity (d (h2 ++ run_calls cfg excluded)); [|rewrite E0; unfold h2; by rewrite <- !app_assoc].
  clear E0. clearbody h2. unfold run_calls, bind, ask_client, call, ret.
  destruct (snd _), (cc_ServerAddr cfg), (cc_PprofAddr cfg) as [|b1 a]; cbn; rewrite ?app_nil_r, <- ?app_assoc; try done;
    (destruct Hp as [|Hp]; [done|]); rewrite Hp; cbn; by rewrite <- !app_assoc.
Qed.

(** Giving up because the profiler cannot listen skips the clean-up: the rules stay in
    the firewall. *)
Theorem pprof_failure_leaves_rules getenv cfg excluded h :
  cc_ServerAddr cfg ≠ [] → cc_PprofAddr cfg ≠ [] →
  (∀ h, answer h (ListenPprof (cc_PprofAddr cfg)) = false) → (∀ h, is_Some (answer h Executable)) →
  ∃ l1 l2, run true getenv cfg excluded h = (Err FatalPprof, h ++ l1 ++ l2) ∧
    firewallRuleNameGameLAN ∈ added l2 ∧ deleted l2 = [].
Proof.
  intros Hs Hp Hl Hx. unfold run. destruct (on_os_run _ h (Setup_returns getenv (cc_LogFile cfg))) as (r & l & E1).
  rewrite (run_bind _ _ _ _ _ E1). cbn [setupFirewallPlatform]. set (h1 := h ++ map CcOs l).
  destruct (Hx (omap cc_win h1)) as [exe Hexe].
  set (adds := [RunCmd (FirewallAddApp firewallRuleNameApp (str "in") exe);
    RunCmd (FirewallAddApp firewallRuleNameAppOut (str "out") exe)]
    ++ map (fun '(port, proto) => RunCmd (FirewallAddPort firewallRuleNameGameLAN proto port)) commonLANPorts).
  assert (on_win SetupFirewall h1 = (Ok true, h1 ++ map CcWin (Executable :: firewall_deletes ++ adds))) as E2.
  { apply embed_ok. unfold SetupFirewall, bind, call, try_calls, ret, adds. rewrite Hexe. by rewrite <- !app_assoc. }
  rewrite (run_bind _ _ _ _ _ E2). cbv zeta.
  set (warn := match snd (CheckPasswordStrength (cc_RoomPassword cfg)) with 0%nat => [] | n => [WarnPassword n] end).
  exists (map CcOs l ++ map CcWin (Executable :: firewall_deletes)), (map CcWin adds ++ warn ++ [ListenPprof (cc_PprofAddr cfg)]).
  assert (omap cc_win (warn ++ [ListenPprof (cc_PprofAddr cfg)]) = []) as Hw by (unfold warn; by destruct (snd _)).
  split_and!.
  - unfold warn. clear E1 E2 Hw warn. unfold bind, ask_client, call, ret, fail.
    replace (h ++ _ ++ _) with ((h1 ++ map CcWin (Executable :: firewall_deletes ++ adds)) ++
      (match snd (CheckPasswordStrength (cc_RoomPassword cfg)) with 0%nat => [] | n => [WarnPassword n] end)
      ++ [ListenPprof (cc_PprofAddr cfg)]) by (unfold h1; cbn [map]; rewrite !map_app; cbn; by rewrite <- !app_assoc).
    generalize (h1 ++ map CcWin (Executable :: firewall_deletes ++ adds)). intros h2.
    destruct (snd _), (cc_ServerAddr cfg), (cc_PprofAddr cfg) as [|b1 a]; try done; rewrite Hl; cbn; by rewrite <- ?app_assoc.
  - unfold added. rewrite omap_app, Hw, app_nil_r, cc_win_win. unfold adds. cbn. set_solver.
  - unfold deleted. rewrite omap_app, Hw, app_nil_r, cc_win_win. done.
Qed.

(** The second client exits at once, with status 0, and changes nothing. *)
Theorem second_client_exits windows getenv h :
  (∀ h, answer h (Acquire (str "GameTunnel-Client")) = false) → (windows = true → ∀ h, answer h IsElevated = true) →
  ∃ l, main windows getenv h = (Err (Exit 0), h ++ l) ∧ l ⊆ [IsElevated; Acquire (str "GameTunnel-Client")].
Proof.
  intros Ha He. unfold main. set (pre := if windows then [IsElevated] else []).
  assert ((if windows then requestAdmin else ret tt) h = (Ok tt, h ++ pre)) as E1.
  { unfold pre. destruct windows; [|unfold ret; by rewrite app_nil_r]. unfold requestAdmin, bind, ask_client, call. by rewrite He. }
  exists (pre ++ [Acquire (str "GameTunnel-Client")]). rewrite (run_bind _ _ _ _ _ E1). unfold bind, ask_client, call.
  rewrite Ha. cbn. split; [by rewrite <- app_assoc|]. unfold pre. destruct windows; set_solver.
Qed.
End facts.

(** *** Witnesses *)

(** A machine where the profiler's address is free, and one where it is taken. *)
Definition ex_client (pprof : bool) : Answers ClientCall ClientAnswer := fun _ c =>
  match c as c return ClientAnswer c with
  | IsElevated | Elevate | Acquire _ => true
  | ListenPprof _ => pprof
  | LoadFile => (str "pc", None)
  | _ => tt
  end.
Definition ex_cfg : Config :=
  mkConfig (str "10.0.0.1:4700") (str "alice") (str "lan") (str "secret") (str "en") 1420 (str "gt.log") false (str "localhost:6060").
(** Windows with the program at a known path. *)
Definition ex_firewall : Answers WinCall WinAnswer := fun h c =>
  match c as c return WinAnswer c with Executable => Some (str "C:/gt.exe") | c => ex_win h c end.

Lemma run_cleans_up_witness :
  ∃ l1 l2, @run (on_disk ex_disk) ex_firewall (ex_client true) true no_env ex_cfg (parseHostIP (cc_ServerAddr ex_cfg)) []
    = (Ok tt, l1 ++ run_calls ex_cfg (IPv4 x0a x00 x00 x01) ++ l2) ∧ added l1 ⊆ deleted l2 ∧ added l2 = [].
Proof.
  apply (@run_cleans_up (on_disk ex_disk) ex_firewall (ex_client true) true no_env ex_cfg (IPv4 x0a x00 x00 x01) []).
  right. intros h. reflexivity.
Defined.

Lemma pprof_failure_leaves_rules_witness :
  ∃ l1 l2, @run (on_disk ex_disk) ex_firewall (ex_client false) true no_env ex_cfg [] [] = (Err FatalPprof, l1 ++ l2) ∧
    firewallRuleNameGameLAN ∈ added l2 ∧ deleted l2 = [].
Proof.
  apply (@pprof_failure_leaves_rules (on_disk ex_disk) ex_firewall (ex_client false) no_env ex_cfg [] []); try discriminate.
  - intros h. reflexivity.
  - intros h. by eexists.
Defined.
