(* ===== verification/App.v ===== *)
(** * App: the connection manager of the client

    src/internal/client/app.go: the state a user interface sees, and the loop that
    connects, waits and connects again.  Each step runs under the lock of App.  A
    context is a number that may be cancelled; an error is what errors.As can see of
    it; the body of Tunnel.Connect is a round of the loop, given by its outcome. *)

From S2P Require Import Prelude GoNet Crc32 Protocol Messages MessagesData MessagesPeer NetUtil Float64 Bandwidth GoTime SendQueue Auth Cipher I18n Client Room Server Route NatProbe ClientLimit Tunnel TunnelReg ClientConfig.

(** ** Errors *)

(** A value of Go's error interface: text, text around another error (verb %w), or
    the typed error of the protocol package. *)
Inductive GoErr :=
| ErrorText (msg : list byte)
| ErrorWrap (msg : list byte) (e : GoErr)
| ErrorDisconnect (e : DisconnectError).

(** [err.Error()]. *)
Definition error_text (e : GoErr) : list byte :=
  match e with ErrorText m | ErrorWrap m _ => m | ErrorDisconnect d => de_Message d end.

(** [errors.As] for a DisconnectError. *)
Fixpoint errors_As (e : GoErr) : option DisconnectError :=
  match e with
  | ErrorText _ => None
  | ErrorWrap _ e => errors_As e
  | ErrorDisconnect d => Some d
  end.

(** What Tunnel.Connect returns for a failed registration: registerWithFallback
    formats both errors into one text. *)
Definition Connect_error (text : reg_err → list byte) (e : reg_err) : GoErr := ErrorText (text e).

(** ** State *)

(** New *)
Definition New (now : Z) (cfg : Config) : Tunnel :=
  mkTunnel (mkSession [] [] None [] None (zeros 16) 0 (cc_PlayerName cfg) (cc_RoomID cfg) (cc_RoomPassword cfg))
    (mkCrypto None None None) None None ∅ None [] [] [] None
    (Some (newClientSendLimiter now (50 * 1024 * 1024 / 8) (512 * 1024))) 0 0 0 false false false [] [].

Record App := mkApp {
  a_Cfg : Config; a_Tunnel : Tunnel; a_Connecting : bool; a_ConnectGen : Z; a_LastErr : list byte;
  a_Connected : bool; a_VirtualIP : IP; a_SubnetMask : list byte; a_ServerIP : IP; a_PeerCount : nat;
  a_Uptime : option Z; a_Ctx : nat; a_cancelled : gset nat }.

(** NewApp *)
Definition NewApp (now : Z) (cfg : Config) : App :=
  mkApp cfg (New now cfg) false 0 [] false [] [] [] 0 None 0 ∅.

Definition set_connecting b a := mkApp (a_Cfg a) (a_Tunnel a) b (a_ConnectGen a) (a_LastErr a) (a_Connected a) (a_VirtualIP a) (a_SubnetMask a) (a_ServerIP a) (a_PeerCount a) (a_Uptime a) (a_Ctx a) (a_cancelled a).
Definition set_failed err a := mkApp (a_Cfg a) (a_Tunnel a) (a_Connecting a) (a_ConnectGen a) err false (a_VirtualIP a) (a_SubnetMask a) (a_ServerIP a) (a_PeerCount a) (a_Uptime a) (a_Ctx a) (a_cancelled a).

(** App.Connect: the new state and whether a connection loop is started.  The old
    tunnel is disconnected and the configuration saved in between. *)
Definition App_Connect (now : Z) (cfg : Config) (a : App) : App * bool :=
  if a_Connecting a then (a, false)
  else
    (mkApp cfg (New now cfg) true (a_ConnectGen a + 1) [] (a_Connected a) (a_VirtualIP a) (a_SubnetMask a) (a_ServerIP a)
       (a_PeerCount a) (a_Uptime a) (S (a_Ctx a)) ({[a_Ctx a]} ∪ a_cancelled a), true).

(** App.Disconnect *)
Definition App_Disconnect (a : App) : App :=
  mkApp (a_Cfg a) (a_Tunnel a) false (a_ConnectGen a) (a_LastErr a) false (a_VirtualIP a) (a_SubnetMask a) (a_ServerIP a)
    0 (a_Uptime a) (S (a_Ctx a)) ({[a_Ctx a]} ∪ a_cancelled a).

(** One tick of statusLoop. *)
Definition statusTick (now : Z) (ts : TunnelStatus) (a : App) : App :=
  if st_Connected ts then
    let first := negb (a_Connected a) in
    mkApp (a_Cfg a) (a_Tunnel a) (a_Connecting a) (a_ConnectGen a) (if first then [] else a_LastErr a) true
      (st_VirtualIP ts) (st_SubnetMask ts) (st_ServerIP ts) (st_PeerCount ts)
      (if first then Some now else a_Uptime a) (a_Ctx a) (a_cancelled a)
  else if a_Connected a then
    mkApp (a_Cfg a) (a_Tunnel a) (a_Connecting a) (a_ConnectGen a) (a_LastErr a) false (a_VirtualIP a) (a_SubnetMask a)
      (a_ServerIP a) 0 (a_Uptime a) (a_Ctx a) (a_cancelled a)
  else a.

(** ** The connection loop *)

Definition fastRetries : Z := 3.

(** The variables of the loop; the configuration, context and generation are read
    once. *)
Record Loop := mkLoop { lp_gen : Z; lp_ctx : nat; lp_attempt : Z; lp_bo : backoffState }.

Definition fresh_backoff : backoffState := mkBackoff 0 0.

(** connectLoop up to the loop; [None] when it returns, before the deferred reset of
    [Connecting] is installed. *)
Definition connectLoop_start (a : App) : option Loop :=
  match ValidateServerAddr (cc_ServerAddr (a_Cfg a)) with
  | Some _ => None
  | None => Some (mkLoop (a_ConnectGen a) (a_Ctx a) 0 fresh_backoff)
  end.

(** The deferred reset. *)
Definition connectLoop_end (l : Loop) (a : App) : App :=
  if a_ConnectGen a =? lp_gen l then set_connecting false a else a.

(** One round: whether the network is available, whether the context is cancelled by
    the end of the attempt, whether the tunnel was kicked for good, the error
    of Connect, and the answer of OnConnFailed (true when it is not set). *)
Record Round := mkRound {
  rd_network : bool; rd_cancelled : bool; rd_kicked : bool; rd_err : option GoErr; rd_retry : bool }.

Section loop.
Context `{Rand}.

(** The waits before an attempt; [None] when the loop gives up. *)
Definition loop_waits (network : bool) (l : Loop) : option (list Z * Loop) :=
  if 0 <? lp_attempt l then
    let wasConnected := lp_attempt l <=? fastRetries in
    let '(delay, bo) := nextDelay (lp_bo l) wasConnected in
    if delay <? 0 then None
    else
      let waits := if (fastRetries <? lp_attempt l) && negb network then [5 * Second; delay] else [delay] in
      Some (waits, mkLoop (lp_gen l) (lp_ctx l) (lp_attempt l) bo)
  else Some ([], l).

(** After an attempt: the state, and the loop unless it returns. *)
Definition loop_after (rd : Round) (l : Loop) (a : App) : App * option Loop :=
  if rd_cancelled rd then (a, None)
  else if rd_kicked rd then (set_failed (str "kicked by server (non-recoverable)") a, None)
  else match rd_err rd with
  | Some e =>
      let a := set_failed (error_text e) a in
      if match errors_As e with Some de => IsFatal de | None => false end then (a, None)
      else if (fastRetries <=? lp_attempt l + 1) && negb (rd_retry rd) then (a, None)
      else (a, Some (mkLoop (lp_gen l) (lp_ctx l) (lp_attempt l + 1) fresh_backoff))
  | None => (set_failed [] a, Some (mkLoop (lp_gen l) (lp_ctx l) 0 fresh_backoff))
  end.

(** The loop over its rounds: the waits of each, the state, and the loop when it
    goes on. *)
Fixpoint connectLoop (rounds : list Round) (l : Loop) (a : App) : list (list Z) * App * option Loop :=
  match rounds with
  | [] => ([], a, Some l)
  | rd :: rounds =>
      match loop_waits (rd_network rd) l with
      | None => ([], connectLoop_end l a, None)
      | Some (waits, l) =>
          match loop_after rd l a with
          | (a, None) => ([waits], connectLoop_end l a, None)
          | (a, Some l) => let '(ws, a, r) := connectLoop rounds l a in (waits :: ws, a, r)
          end
      end
  end.
End loop.

(** ** Display *)

(** [fmt] verb %02d. *)
Definition two_digits (n : Z) : list byte :=
  if (0 <=? n) && (n <? 10) then "0"%byte :: itoa n else itoa n.

(** FormatDuration *)
Definition FormatDuration (d : Z) : list byte :=
  let d := Duration_Round d Second in
  let h := int_Hours d in
  let m := Z.rem (int_Minutes d) 60 in
  let s := Z.rem (int_Seconds d) 60 in
  if 0 <? h then two_digits h ++ [c_colon] ++ two_digits m ++ [c_colon] ++ two_digits s
  else two_digits m ++ [c_colon] ++ two_digits s.

(** The fields of StatusResponse that are ever set: AvgRTT and LossRate are not. *)
Record StatusResponse := mkResponse {
  sr_Connected : bool; sr_Connecting : bool; sr_LastError : list byte; sr_VirtualIP : list byte;
  sr_Subnet : list byte; sr_ServerIP : list byte; sr_PeerCount : nat; sr_Uptime : list byte;
  sr_PlayerName : list byte; sr_RoomID : list byte; sr_ServerAddr : list byte;
  sr_ServerVersion : list byte; sr_UpgradeAvailable : bool; sr_UpgradeMessage : option (list byte * list byte);
  sr_P2PPeers : nat; sr_RelayPeers : nat }.

(** App.GetStatus, with the status of the tunnel; the upgrade message is given by the
    two versions it is formatted with. *)
Definition GetStatus (now : Z) (ts : TunnelStatus) (a : App) : StatusResponse :=
  let st vip subnet sip uptime ver up msg p2p relay :=
    mkResponse (a_Connected a) (a_Connecting a) (a_LastErr a) vip subnet sip (a_PeerCount a) uptime
      (cc_PlayerName (a_Cfg a)) (cc_RoomID (a_Cfg a)) (cc_ServerAddr (a_Cfg a)) ver up msg p2p relay in
  if a_Connected a then
    let subnet := match a_SubnetMask a with
                  | [] => []
                  | mask => IP_String (IP_Mask (a_VirtualIP a) mask) ++ str "/" ++ itoa (Mask_ones mask)
                  end in
    let uptime := match a_Uptime a with Some t => FormatDuration (now - t) | None => [] end in
    let v := st_ServerVersion ts in
    let known := 0 <? v in
    let newer := known && (AppVersion <? v) in
    st (IP_String (a_VirtualIP a)) subnet (IP_String (a_ServerIP a)) uptime
      (if known then FormatVersion v else []) newer
      (if newer then Some (FormatVersion AppVersion, FormatVersion v) else None)
      (st_P2PPeers ts) (st_RelayPeers ts)
  else st [] [] [] [] [] false None 0%nat 0%nat.

(** ** Facts *)

Section facts.
Context `{Rand}.

Lemma fresh_delay wasConnected :
  let d := fst (nextDelay fresh_backoff wasConnected) in 400 * Millisecond ≤ d < 2400 * Millisecond.
Proof.
  assert (∀ m, 0 < m → - m ≤ jitter m < m) as Hj by apply jitter_range.
  destruct wasConnected; cbv zeta; unfold Millisecond in *.
  - change (fst (nextDelay fresh_backoff true)) with (500 * 1000000 + jitter (100 * 1000000)).
    specialize (Hj (100 * 1000000) ltac:(done)). lia.
  - change (fst (nextDelay fresh_backoff false)) with (2000000000 + jitter 400000000).
    specialize (Hj 400000000 ltac:(done)). lia.
Qed.

Lemma loop_waits_fresh network l :
  lp_bo l = fresh_backoff →
  ∃ ws l1, loop_waits network l = Some (ws, l1) ∧ Forall (fun w => w = 5 * Second ∨ w < 2400 * Millisecond) ws ∧
    lp_attempt l1 = lp_attempt l ∧ lp_gen l1 = lp_gen l ∧ lp_ctx l1 = lp_ctx l.
Proof.
  intros Hb. unfold loop_waits. destruct (0 <? lp_attempt l); [|by exists [], l; split_and!].
  rewrite Hb. pose proof (fresh_delay (lp_attempt l <=? fastRetries)) as Hd.
  destruct (nextDelay fresh_backoff _) as [d bo]. cbn [fst] in Hd. cbv zeta in Hd. unfold Millisecond in *.
  destruct (Z.ltb_spec d 0); [lia|]. eexists _, _. split; [reflexivity|]. split; [|done].
  destruct (_ && _); repeat (apply Forall_cons_2; [first [by left|right; lia]|]); apply Forall_nil_2.
Qed.

(** A round in which the server refuses the registration, or does not answer. *)
Definition registration_fails (text : reg_err → list byte) (rd : Round) : Prop :=
  rd_cancelled rd = false ∧ rd_kicked rd = false ∧ rd_retry rd = true ∧
  ∃ e, rd_err rd = Some (Connect_error text e).

(** A client whose registration is refused - for a wrong password, say, or an
    incompatible version - never stops, and never slows down.  The error is a
    text by the time the loop looks for a fatal one, and the backoff starts anew
    after each failure: after any number of refusals the loop goes on, with
    waits below 2.4 seconds (and 5 seconds for a network that is down). *)
Theorem refused_login_retried text rounds l a :
  lp_bo l = fresh_backoff → Forall (registration_fails text) rounds →
  ∃ ws a' l', connectLoop rounds l a = (ws, a', Some l') ∧ length ws = length rounds ∧
    Forall (Forall (fun w => w = 5 * Second ∨ w < 2400 * Millisecond)) ws ∧
    lp_attempt l' = lp_attempt l + Z.of_nat (length rounds).
Proof.
  intros Hb Hall. revert l a Hb. induction Hall as [|rd rounds (Hc & Hk & Hr & e & He) _ IH]; intros l a Hb.
  - exists [], a, l. split_and!; try done. cbn. lia.
  - cbn [connectLoop]. destruct (loop_waits_fresh (rd_network rd) l Hb) as (ws & l1 & -> & Hws & Ha & _ & _).
    unfold loop_after. rewrite Hc, Hk, He. cbn [Connect_error errors_As]. rewrite Hr, andb_false_r.
    set (l2 := mkLoop _ _ _ _). destruct (IH l2 (set_failed (error_text (Connect_error text e)) a) eq_refl)
      as (wss & a' & l' & E & Hlen & Hall & Hatt).
    exists (ws :: wss), a', l'. rewrite E. split; [done|]. split; [cbn; lia|]. split; [by constructor|].
    rewrite Hatt. cbn [lp_attempt length]. unfold l2. cbn [lp_attempt]. lia.
Qed.

(** Connecting to an address that is not valid blocks the connection manager: the
    loop returns without an error to show and without resetting [Connecting], so every
    later Connect, with whatever configuration, does nothing, until Disconnect. *)
Theorem invalid_address_blocks_connect now cfg a :
  a_Connecting a = false → ValidateServerAddr (cc_ServerAddr cfg) ≠ None →
  let a1 := fst (App_Connect now cfg a) in
  connectLoop_start a1 = None ∧ a_Connecting a1 = true ∧ a_LastErr a1 = [] ∧
  (∀ now' cfg', App_Connect now' cfg' a1 = (a1, false)) ∧
  (∀ now' cfg', snd (App_Connect now' cfg' (App_Disconnect a1)) = true).
Proof.
  intros Hc Hv. unfold App_Connect. rewrite Hc. cbn. unfold connectLoop_start. cbn.
  destruct (ValidateServerAddr (cc_ServerAddr cfg)); [|done]. by split_and!.
Qed.
End facts.

(** FormatDuration shows a clock: integer hours, minutes and seconds of the duration
    rounded to seconds, whatever the float64 quotients round to. *)
Theorem FormatDuration_spec d :
  0 ≤ d < 2 ^ 60 →
  FormatDuration d =
    let s := (d + Second / 2) / Second in
    if s <? 3600 then two_digits (s / 60) ++ [c_colon] ++ two_digits (s mod 60)
    else two_digits (s / 3600) ++ [c_colon] ++ two_digits (s / 60 mod 60) ++ [c_colon] ++ two_digits (s mod 60).
Proof.
  intros Hd. unfold FormatDuration. rewrite Duration_Round_seconds by lia. cbv zeta.
  set (s := (d + Second / 2) / Second).
  assert (0 ≤ s < 2 ^ 32) as Hs.
  { unfold s. assert (Second = 1000000000) as -> by reflexivity. change (1000000000 / 2) with 500000000.
    split; [apply Z.div_pos; lia|apply Z.div_lt_upper_bound; lia]. }
  destruct (int_units s Hs) as (-> & -> & ->).
  pose proof (Z.div_pos s 3600 ltac:(lia) ltac:(lia)). pose proof (Z.div_pos s 60 ltac:(lia) ltac:(lia)).
  pose proof (Z.div_mod s 3600 ltac:(lia)). pose proof (Z.mod_pos_bound s 3600 ltac:(lia)).
  pose proof (Z.div_mod s 60 ltac:(lia)). pose proof (Z.mod_pos_bound s 60 ltac:(lia)).
  rewrite !Z.rem_mod_nonneg by lia.
  destruct (Z.ltb_spec 0 (s / 3600)), (Z.ltb_spec s 3600); try lia; [done|].
  by rewrite (Z.mod_small (s / 60)) by lia.
Qed.

(** The status after the tunnel came up: from the first tick that finds it connected
    at [t0], through any ticks that find it connected, the user sees the address,
    the network and the gateway of the last tick and a clock that started at
    [t0], and no error. *)
Theorem status_follows_tunnel a t0 ts0 ticks now ts cur :
  a_Connected a = false → st_Connected ts0 = true → Forall (fun '(_, ts) => st_Connected ts = true) ticks →
  ts = List.last (map snd ticks) ts0 → 0 < st_ServerVersion cur →
  let a' := foldl (fun a '(t, ts) => statusTick t ts a) (statusTick t0 ts0 a) ticks in
  let r := GetStatus now cur a' in
  sr_Connected r = true ∧ sr_LastError r = [] ∧ sr_VirtualIP r = IP_String (st_VirtualIP ts) ∧
  sr_ServerIP r = IP_String (st_ServerIP ts) ∧ sr_PeerCount r = st_PeerCount ts ∧
  sr_Uptime r = FormatDuration (now - t0) ∧
  sr_UpgradeAvailable r = (AppVersion <? st_ServerVersion cur).
Proof.
  intros Ha H0 Hall -> Hv a' r.
  assert (a_Connected a' = true ∧ a_LastErr a' = [] ∧ a_Uptime a' = Some t0 ∧
    (let ts := List.last (map snd ticks) ts0 in
     a_VirtualIP a' = st_VirtualIP ts ∧ a_ServerIP a' = st_ServerIP ts ∧ a_PeerCount a' = st_PeerCount ts))
    as (E1 & E2 & E3 & E4 & E5 & E6).
  { unfold a'. clear a' r. induction ticks as [|[t1 ts1] ticks IH] using rev_ind.
    - cbn. unfold statusTick. rewrite H0, Ha. by split_and!.
    - apply Forall_app in Hall as [Hall [H1 _]%Forall_cons_1]. specialize (IH Hall).
      rewrite foldl_snoc, map_app. cbn [map snd]. rewrite last_last. set (b := foldl _ _ ticks) in *.
      destruct IH as (E1 & E2 & E3 & _). unfold statusTick. rewrite H1, E1, E2, E3. by split_and!. }
  unfold r, GetStatus. rewrite E1, E3. cbn beta iota zeta. cbn [sr_Connected sr_LastError sr_VirtualIP sr_ServerIP sr_PeerCount sr_Uptime sr_UpgradeAvailable].
  rewrite E2, E4, E5, E6.
  destruct (Z.ltb_spec 0 (st_ServerVersion cur)); [|lia]. by split_and!.
Qed.

(** *** Witnesses *)

Definition ex_refused : Round := mkRound true false false (Some (Connect_error (fun _ => str "refused") (RegRejected []))) true.
Lemma refused_login_retried_witness :
  ∃ ws a' l', @connectLoop ClientLimit.ex_rand (replicate 100 ex_refused) (mkLoop 1 1 0 fresh_backoff)
      (NewApp 0 (DefaultConfig (str "pc"))) = (ws, a', Some l') ∧ lp_attempt l' = 100.
Proof.
  destruct (@refused_login_retried ClientLimit.ex_rand (fun _ => str "refused") (replicate 100 ex_refused)
    (mkLoop 1 1 0 fresh_backoff) (NewApp 0 (DefaultConfig (str "pc")))) as (ws & a' & l' & E & _ & _ & Ha).
  - reflexivity.
  - apply Forall_replicate. repeat split. by exists (RegRejected []).
  - exists ws, a', l'. split; [exact E|]. rewrite Ha. reflexivity.
Defined.

Lemma invalid_address_blocks_connect_witness :
  a_Connecting (fst (App_Connect 0 (DefaultConfig (str "pc")) (NewApp 0 (DefaultConfig (str "pc"))))) = true.
Proof. apply (invalid_address_blocks_connect 0 (DefaultConfig (str "pc")) (NewApp 0 (DefaultConfig (str "pc")))); done. Defined.

Lemma FormatDuration_spec_witness : FormatDuration (3725 * Second) = str "01:02:05".
Proof. rewrite FormatDuration_spec by (vm_compute; split; congruence). reflexivity. Defined.

Definition ex_up : TunnelStatus :=
  mkStatus true [x0a; x0a; x00; x02] [xff; xff; xff; x00] [x0a; x0a; x00; x01] 1 0x0107 1 0 x00 [] 0.
Lemma status_follows_tunnel_witness :
  sr_Uptime (GetStatus (65 * Second) ex_up (statusTick 0 ex_up (NewApp 0 (DefaultConfig (str "pc"))))) = str "01:05".
Proof.
  destruct (status_follows_tunnel (NewApp 0 (DefaultConfig (str "pc"))) 0 ex_up [] (65 * Second) ex_up ex_up)
    as (_ & _ & _ & _ & _ & E & _); [reflexivity|reflexivity|apply Forall_nil_2|reflexivity|reflexivity|].
  etransitivity; [exact E|]. reflexivity.
Defined.
