(* ===== verification/RunLoops.v ===== *)
(** * RunLoops: the goroutines of a client

    Tunnel.startRelayLoops, stopPreviousRun and what Connect, Disconnect, CloseTUN do
    to them (src/internal/client/tunnel.go), with the control flow of the goroutines'
    own bodies: the selects of sendLoop, tunWorker, keepaliveLoop with tryRebind and
    the ticker loops, the two readers with their error counters (tunnel.go,
    keepalive.go, rebind.go, peer.go, holepunch.go, p2p_keepalive.go, recv.go).  A run
    is the set of goroutines one Connect starts; those of an earlier run may be left
    when the next one starts.  Sockets and devices are numbers, channels their
    lengths; a move is one step of one goroutine, a timer, a call or a packet. *)

From S2P Require Import Prelude Tunnel TunnelLife.

Inductive Loop :=
| SendLoop | FromServer | FromTUN | TunWorker (i : nat)
| KeepaliveLoop | PeerDiscoveryLoop | StalePeerCleanupLoop | HolePunchRetryLoop | P2PKeepaliveLoop.
#[export] Instance Loop_eq_dec : EqDecision Loop.
Proof. solve_decision. Defined.

Definition tunWorkers : nat := 4.

(** The goroutines of startRelayLoops, in their order. *)
Definition all_loops : list Loop :=
  [SendLoop; FromServer; FromTUN] ++ map TunWorker (seq 0 tunWorkers)
  ++ [KeepaliveLoop; PeerDiscoveryLoop; StalePeerCleanupLoop; HolePunchRetryLoop; P2PKeepaliveLoop].

(** ** The bodies *)

(** Where a goroutine is in its body: at a statement that can wait, or looks at the
    context.  The readers carry their consecutive errors. *)
Inductive Loc :=
| AtSelect             (* the select at the head of its loop *)
| InRebind             (* keepaliveLoop: the select of tryRebind *)
| DrainCtrl            (* sendLoop, cancelled: the control packets *)
| DrainData            (* ... then all packets until the timer *)
| AtCheck (errs : nat) (* a reader: the look at the context before the read *)
| InRead (errs : nat)
| ReadFailed (errs : nat)  (* the look at the context after a failed read *)
| Backoff (errs : nat).    (* time.Sleep(errorBackoff) *)

(** What keepaliveLoop finds on a tick. *)
Inductive ServerSeen :=
| Answering            (* a packet came from the server in time *)
| NoRequest            (* silent; tryRebind has no address or key to ask with *)
| Asks.                (* silent; tryRebind sends its request *)

(** The alternative a goroutine takes at its place. *)
Inductive Act :=
| ActDone                        (* case <-ctx.Done() *)
| ActTick (n : nat) (seen : ServerSeen)   (* case <-ticker.C; [n] packets are due *)
| ActCtrl | ActSend              (* a job of ctrlCh, of sendCh *)
| ActTun (sent : bool)           (* a job of tunCh; whether the limiter lets its packet pass *)
| ActAck                         (* a job of rebindAckCh *)
| ActTimer | ActDefault | ActWake
| ActLook                        (* the non-blocking look at the context *)
| ActPacket (n : nat) (ack : option bool) (kick : bool)  (* the read returns a packet, or [n] *)
| ActError | ActClosed.          (* it fails; it fails because the file is closed *)

(** The channels of the tunnel, which all runs share. *)
Record Chans := mkChans { ch_ctrl : nat; ch_send : nat; ch_tun : nat; ch_ack : option bool }.

(** [n] non-blocking sends to a channel of [len] jobs. *)
Definition offer (size : Z) (n len : nat) : nat := (len + n `min` (Z.to_nat size - len))%nat.
Definition offer_ctrl (n : nat) (c : Chans) : Chans := mkChans (offer ctrlChanSize n (ch_ctrl c)) (ch_send c) (ch_tun c) (ch_ack c).
Definition offer_send (n : nat) (c : Chans) : Chans := mkChans (ch_ctrl c) (offer sendChanSize n (ch_send c)) (ch_tun c) (ch_ack c).
Definition offer_jobs (n : nat) (c : Chans) : Chans := mkChans (ch_ctrl c) (ch_send c) (offer tunChanSize n (ch_tun c)) (ch_ack c).
Definition with_ack (a : option bool) (c : Chans) : Chans := mkChans (ch_ctrl c) (ch_send c) (ch_tun c) a.

(** drainBatch after one job: what the batch leaves. *)
Definition batch_rest (c : Chans) : Chans :=
  let n := ((batchSize - 1) `min` ch_ctrl c)%nat in
  mkChans (ch_ctrl c - n) (ch_send c - (batchSize - 1 - n) `min` ch_send c)%nat (ch_tun c) (ch_ack c).

Inductive Next := Goto (at_ : Loc) | Return.

Section bodies.
(** The goroutine's context, whether the file it reads is open, its ticker's channel. *)
Context (cancelled open tick : bool).

Definition Step : Type := option (Next * Chans).
Definition go (l : Loc) (c : Chans) : Step := Some (Goto l, c).
Definition ret (c : Chans) : Step := Some (Return, c).

(** [if] that has no alternative when the condition fails *)
Definition when (b : bool) (s : Step) : Step := if b then s else None.

(** Tunnel.tunWorker *)
Definition tunWorker_body (a : Act) (l : Loc) (c : Chans) : Step :=
  match a, l with
  | ActDone, AtSelect => when cancelled (ret c)
  | ActTun sent, AtSelect =>
      match ch_tun c with
      | O => None
      | S k => go AtSelect (offer_send (if sent then 1 else 0) (mkChans (ch_ctrl c) (ch_send c) k (ch_ack c)))
      end
  | _, _ => None
  end.

(** Tunnel.sendLoop *)
Definition sendLoop_body (a : Act) (l : Loc) (c : Chans) : Step :=
  let take_ctrl (k : Chans → Step) := match ch_ctrl c with O => None | S n => k (mkChans n (ch_send c) (ch_tun c) (ch_ack c)) end in
  let take_send (k : Chans → Step) := match ch_send c with O => None | S n => k (mkChans (ch_ctrl c) n (ch_tun c) (ch_ack c)) end in
  match a, l with
  | ActDone, AtSelect => when cancelled (go DrainCtrl c)
  | ActCtrl, AtSelect => take_ctrl (fun c => go AtSelect (batch_rest c))
  | ActSend, AtSelect => take_send (fun c => go AtSelect (batch_rest c))
  | ActCtrl, DrainCtrl => take_ctrl (go DrainCtrl)
  | ActTimer, DrainCtrl => ret c
  | ActDefault, DrainCtrl => when (ch_ctrl c =? 0)%nat (go DrainData c)
  | ActSend, DrainData => take_send (go DrainData)
  | ActCtrl, DrainData => take_ctrl (go DrainData)
  | ActTimer, DrainData => ret c
  | _, _ => None
  end.

(** Tunnel.keepaliveLoop, with Tunnel.tryRebind *)
Definition keepaliveLoop_body (a : Act) (l : Loc) (c : Chans) : Step :=
  match a, l with
  | ActDone, AtSelect => when cancelled (ret c)
  | ActTick _ seen, AtSelect =>
      let c := offer_ctrl 1 c in
      when tick match seen with
      | Answering => go AtSelect c
      | NoRequest => ret c
      | Asks => go InRebind (with_ack None (offer_ctrl 1 c))
      end
  | ActAck, InRebind =>
      match ch_ack c with
      | None => None
      | Some true => go AtSelect (with_ack None c)
      | Some false => ret (with_ack None c)
      end
  | ActTimer, InRebind => ret c
  | _, _ => None
  end.

(** loop of a ticker that sends [due] packets on each tick *)
Definition ticker_body (due : nat) (a : Act) (l : Loc) (c : Chans) : Step :=
  match a, l with
  | ActDone, AtSelect => when cancelled (ret c)
  | ActTick _ _, AtSelect => when tick (go AtSelect (offer_ctrl due c))
  | _, _ => None
  end.

(** The packets of a tick that sends as many as there are peers to tell. *)
Definition due_of (a : Act) : nat := match a with ActTick n _ => n | _ => 0 end.

Definition peerDiscoveryLoop_body (a : Act) := ticker_body 1 a.
Definition stalePeerCleanupLoop_body (a : Act) := ticker_body 0 a.
Definition holePunchRetryLoop_body (a : Act) := ticker_body (due_of a) a.
Definition p2pKeepaliveLoop_body (a : Act) := ticker_body (due_of a) a.

(** The loop of both readers: the context, the read, the errors in a row. *)
Definition reader_body (deliver : nat → option bool → Chans → Chans) (a : Act) (l : Loc) (c : Chans) : Step :=
  match a, l with
  | ActLook, AtCheck e => if cancelled then ret c else go (InRead e) c
  | ActPacket n ack _, InRead e => when open (go (AtCheck 0) (deliver n ack c))
  | ActError, InRead e => when open (go (ReadFailed e) c)
  | ActClosed, InRead e => when (negb open) (go (ReadFailed e) c)
  | ActLook, ReadFailed e =>
      if cancelled then ret c
      else if maxConsecutiveErrors <? Z.of_nat (S e) then ret c
      else go (Backoff (S e)) c
  | ActWake, Backoff e => go (AtCheck e) c
  | _, _ => None
  end.

(** Tunnel.receiveFromServer: what a packet makes the client answer, and an answer of
    the server to a rebind request if none waits. *)
Definition receiveFromServer_body : Act → Loc → Chans → Step :=
  reader_body (fun n ack c =>
    let c := offer_ctrl n c in
    match ack, ch_ack c with Some ok, None => with_ack (Some ok) c | _, _ => c end).

(** Tunnel.receiveFromTUN, receiveFromTUNSingle *)
Definition receiveFromTUN_body : Act → Loc → Chans → Step := reader_body (fun n _ c => offer_jobs n c).

Definition body (l : Loop) : Act → Loc → Chans → Step :=
  match l with
  | SendLoop => sendLoop_body
  | FromServer => receiveFromServer_body
  | FromTUN => receiveFromTUN_body
  | TunWorker _ => tunWorker_body
  | KeepaliveLoop => keepaliveLoop_body
  | PeerDiscoveryLoop => peerDiscoveryLoop_body
  | StalePeerCleanupLoop => stalePeerCleanupLoop_body
  | HolePunchRetryLoop => holePunchRetryLoop_body
  | P2PKeepaliveLoop => p2pKeepaliveLoop_body
  end.
End bodies.

(** Where its body begins, and whether it has a ticker. *)
Definition start_at (l : Loop) : Loc := match l with FromServer | FromTUN => AtCheck 0 | _ => AtSelect end.
Definition has_ticker (l : Loop) : bool :=
  match l with KeepaliveLoop | PeerDiscoveryLoop | StalePeerCleanupLoop | HolePunchRetryLoop | P2PKeepaliveLoop => true | _ => false end.

(** The lengths are those of the channels of Tunnel.v. *)
Definition chans_of (t : Tunnel) : Chans := mkChans (length (ctrlCh t)) (length (sendCh t)) (length (tunCh t)) (rebindAckCh t).

Lemma batch_rest_drainBatch job t : chans_of (snd (drainBatch [job] t)) = batch_rest (chans_of t).
Proof.
  unfold chans_of, batch_rest, drainBatch, batchSize. cbn [snd ctrlCh sendCh tunCh rebindAckCh set_ctrlCh set_sendCh ch_ctrl ch_send ch_tun ch_ack].
  f_equal; rewrite ?length_app, ?length_drop, ?length_app, ?length_take; cbn [length]; lia.
Qed.

Lemma offer_ctrl_sendCtrl data a t : chans_of (sendCtrl data a t) = offer_ctrl 1 (chans_of t).
Proof.
  unfold chans_of, sendCtrl, offer_ctrl, offer. destruct (Z.ltb_spec (Z.of_nat (length (ctrlCh t))) ctrlChanSize);
    cbn [chans_of ctrlCh sendCh tunCh rebindAckCh set_ctrlCh add_error ch_ctrl ch_send ch_tun ch_ack length]; f_equal; rewrite ?length_app; cbn [length]; lia.
Qed.

(** ** Runs *)

(** A goroutine: its loop, its place, whether a tick waits in its ticker's channel. *)
Record Gor := mkGor { go_loop : Loop; go_at : Loc; go_tick : bool }.
Definition start_gor (l : Loop) : Gor := mkGor l (start_at l) false.

(** A run: its socket and device, whether its context is cancelled, the goroutines
    that have not returned.  [runDone] is closed when there are none. *)
Record Run := mkRun { rn_conn : nat; rn_dev : nat; rn_cancelled : bool; rn_live : list Gor }.

(** Where Connect is. *)
Inductive ConnectState :=
| NotConnecting
| Stopping      (* stopPreviousRun waits for runDone or its timer *)
| Dialling      (* dialServer, the registration, ensureTUN *)
| Relaying      (* startRelayLoops waits for the context *)
| Waiting.      (* ... for runDone or its timer *)

(** The runs, the newest first; the open socket, the open device; the channels. *)
Record Runs := mkRuns { rs_runs : list Run; rs_state : ConnectState; rs_conn : option nat; rs_dev : option nat; rs_next : nat; rs_chans : Chans }.

Definition new_runs : Runs := mkRuns [] NotConnecting None None 0 (mkChans 0 0 0 None).

Definition cancel_run (r : Run) : Run := mkRun (rn_conn r) (rn_dev r) true (rn_live r).
Definition with_live (v : list Gor) (r : Run) : Run := mkRun (rn_conn r) (rn_dev r) (rn_cancelled r) v.
(** The [i]-th goroutine of a run returns: onGoroutineExit cancels the run. *)
Definition exit_loop (i : nat) (r : Run) : Run := mkRun (rn_conn r) (rn_dev r) true (delete i (rn_live r)).
Definition move_gor (i : nat) (x : Gor) (r : Run) : Run := with_live (<[i := x]> (rn_live r)) r.

Definition with_runs v w := mkRuns v (rs_state w) (rs_conn w) (rs_dev w) (rs_next w) (rs_chans w).
Definition with_state v w := mkRuns (rs_runs w) v (rs_conn w) (rs_dev w) (rs_next w) (rs_chans w).
Definition with_conn v w := mkRuns (rs_runs w) (rs_state w) v (rs_dev w) (rs_next w) (rs_chans w).
Definition with_dev v w := mkRuns (rs_runs w) (rs_state w) (rs_conn w) v (rs_next w) (rs_chans w).
Definition with_chans v w := mkRuns (rs_runs w) (rs_state w) (rs_conn w) (rs_dev w) (rs_next w) v.

Definition cancel_newest (w : Runs) : Runs :=
  with_runs (match rs_runs w with [] => [] | r :: rs => cancel_run r :: rs end) w.

(** Whether the file that the goroutine reads is open. *)
Definition reads_open (w : Runs) (r : Run) (l : Loop) : bool :=
  match l with
  | FromServer => bool_decide (rs_conn w = Some (rn_conn r))
  | FromTUN => bool_decide (rs_dev w = Some (rn_dev r))
  | _ => false
  end.

Definition ended (r : Run) : bool := bool_decide (rn_live r = []).

Inductive LoopMove :=
| LmConnect                                 (* Connect is called: stopPreviousRun cancels *)
| LmStopped | LmStopTimeout
| LmDial (device : bool)                    (* a session: a new socket, a new device if [device] *)
| LmDialFails                               (* no session; the socket is closed *)
| LmCancel                                  (* the caller's context, or Disconnect *)
| LmDone | LmEnd | LmEndTimeout
| LmGo (g i : nat) (a : Act)                (* the [i]-th goroutine of run [g] *)
| LmTicker (g i : nat)                      (* its ticker fires *)
| LmDisconnect | LmCloseTUN.

(** Tunnel.stopPreviousRun: after 5 s it closes the socket and goes on. *)
Definition stopPreviousRun_step (m : LoopMove) (w : Runs) : option Runs :=
  match m, rs_state w with
  | LmConnect, NotConnecting =>
      Some (with_state (match rs_runs w with [] => Dialling | _ => Stopping end) (cancel_newest w))
  | LmStopped, Stopping =>
      match rs_runs w with
      | r :: _ => if ended r then Some (with_state Dialling w) else None
      | [] => None
      end
  | LmStopTimeout, Stopping => Some (with_state Dialling (with_conn None w))
  | _, _ => None
  end.

(** The rest of Connect up to the relay loops: it starts them, or fails. *)
Definition dial_step (m : LoopMove) (w : Runs) : option Runs :=
  match m, rs_state w with
  | LmDial device, Dialling =>
      let n := rs_next w in
      match (if device then Some (S n) else rs_dev w) with
      | Some d => Some (mkRuns (mkRun n d false (map start_gor all_loops) :: rs_runs w) Relaying (Some n) (Some d) (S (S n)) (rs_chans w))
      | None => None
      end
  | LmDialFails, Dialling => Some (with_state NotConnecting (with_conn None w))
  | _, _ => None
  end.

(** Tunnel.startRelayLoops, from the wait for the context on. *)
Definition startRelayLoops_step (m : LoopMove) (w : Runs) : option Runs :=
  match m, rs_state w with
  | LmDone, Relaying =>
      match rs_runs w with
      | r :: _ => if rn_cancelled r then Some (with_state Waiting w) else None
      | [] => None
      end
  | LmEnd, Waiting =>
      match rs_runs w with
      | r :: _ => if ended r then Some (with_state NotConnecting w) else None
      | [] => None
      end
  | LmEndTimeout, Waiting => Some (with_state NotConnecting w)
  | _, _ => None
  end.

(** Whether a packet of the server makes the client close the socket (handleServerData). *)
Definition kicks (l : Loop) (a : Act) : bool := match l, a with FromServer, ActPacket _ _ k => k | _, _ => false end.
Definition is_tick (a : Act) : bool := match a with ActTick _ _ => true | _ => false end.

(** A goroutine makes one step of its body, or its ticker fires. *)
Definition goroutine_step (m : LoopMove) (w : Runs) : option Runs :=
  match m with
  | LmGo g i a =>
      r ← rs_runs w !! g; x ← rn_live r !! i;
      '(next, c) ← body (rn_cancelled r) (reads_open w r (go_loop x)) (go_tick x) (go_loop x) a (go_at x) (rs_chans w);
      let f := match next with
               | Goto l => move_gor i (mkGor (go_loop x) l (go_tick x && negb (is_tick a)))
               | Return => exit_loop i
               end in
      let w := with_chans c (with_runs (alter f g (rs_runs w)) w) in
      Some (if kicks (go_loop x) a then with_conn None w else w)
  | LmTicker g i =>
      r ← rs_runs w !! g; x ← rn_live r !! i;
      if has_ticker (go_loop x) && negb (go_tick x)
      then Some (with_runs (alter (move_gor i (mkGor (go_loop x) (go_at x) true)) g (rs_runs w)) w) else None
  | _ => None
  end.

(** The move, when it is possible. *)
Definition loop_step (m : LoopMove) (w : Runs) : option Runs :=
  match m with
  | LmConnect | LmStopped | LmStopTimeout => stopPreviousRun_step m w
  | LmDial _ | LmDialFails => dial_step m w
  | LmCancel => Some (cancel_newest w)
  | LmDone | LmEnd | LmEndTimeout => startRelayLoops_step m w
  | LmGo _ _ _ | LmTicker _ _ => goroutine_step m w
  | LmDisconnect => Some (with_conn None (cancel_newest w))
  | LmCloseTUN => Some (with_dev None w)
  end.

Definition rstep (w w' : Runs) : Prop := ∃ m, loop_step m w = Some w'.
Definition rreach (w : Runs) : Prop := rtc rstep new_runs w.

(** ** The invariant *)

(** The places of a body. *)
Definition at_ok (l : Loop) (p : Loc) : bool :=
  match l, p with
  | (FromServer | FromTUN), (AtCheck _ | InRead _ | ReadFailed _ | Backoff _) => true
  | (FromServer | FromTUN), _ => false
  | SendLoop, (DrainCtrl | DrainData) | KeepaliveLoop, InRebind | _, AtSelect => true
  | _, _ => false
  end.
Definition gor_ok (x : Gor) : Prop := at_ok (go_loop x) (go_at x) = true.

(** All runs but the newest are cancelled, and it too unless Connect relays; the
    sockets and devices are of numbers given out, every run has a socket of its own,
    a run that is not cancelled has all its goroutines, and each is at a place of its
    body. *)
Record runs_ok (w : Runs) : Prop := {
  ro_old : ∀ r, r ∈ tail (rs_runs w) → rn_cancelled r = true;
  ro_newest : rs_state w ≠ Relaying → ∀ r, r ∈ rs_runs w → rn_cancelled r = true;
  ro_some : rs_state w ≠ NotConnecting → rs_state w ≠ Dialling → rs_runs w ≠ [];
  ro_whole : ∀ r, r ∈ rs_runs w → rn_cancelled r = false → map go_loop (rn_live r) = all_loops;
  ro_at : ∀ r, r ∈ rs_runs w → Forall gor_ok (rn_live r);
  ro_below : ∀ r, r ∈ rs_runs w → (rn_conn r < rs_next w)%nat;
  ro_apart : NoDup (map rn_conn (rs_runs w)) }.

Lemma alter_forall {A} (f : A → A) (P : A → Prop) g (l : list A) :
  (∀ x, l !! g = Some x → P x → P (f x)) → (∀ x, x ∈ l → P x) → ∀ x, x ∈ alter f g l → P x.
Proof.
  intros Hf Hl x Hx. apply list_elem_of_lookup in Hx as [i Hi]. destruct (decide (i = g)) as [->|Hne].
  - rewrite list_lookup_alter_eq in Hi. apply fmap_Some in Hi as (y & Hy & ->). apply Hf; [done|].
    apply Hl. by eapply list_elem_of_lookup_2.
  - rewrite list_lookup_alter_ne in Hi by done. apply list_elem_of_lookup_2 in Hi. auto.
Qed.

Lemma tail_alter {A} (f : A → A) g (l : list A) : tail (alter f (S g) l) = alter f g (tail l).
Proof. by destruct l. Qed.

Lemma map_alter_same {A B} (h : A → B) (f : A → A) g (l : list A) : (∀ x, h (f x) = h x) → map h (alter f g l) = map h l.
Proof. intros Hf. revert g. induction l as [|x l IH]; intros [|g]; cbn; [done..| |]; f_equal; [apply Hf|apply IH]. Qed.

(** A change of one run that keeps its socket, its cancellation and its invariant. *)
Record keeps_run (f : Run → Run) (r : Run) : Prop := {
  kr_cancelled : rn_cancelled r = true → rn_cancelled (f r) = true;
  kr_live : rn_cancelled (f r) = false → map go_loop (rn_live (f r)) = map go_loop (rn_live r);
  kr_at : Forall gor_ok (rn_live r) → Forall gor_ok (rn_live (f r)) }.

Lemma ok_alter f g w : runs_ok w → (∀ r, rn_conn (f r) = rn_conn r) → (∀ r, rs_runs w !! g = Some r → keeps_run f r) →
  runs_ok (with_runs (alter f g (rs_runs w)) w).
Proof.
  intros [H1 H2 H3 H4 H5 H6 H7] Hc Hk. split; cbn.
  - destruct g as [|g]; [by destruct (rs_runs w)|]. rewrite tail_alter. apply (alter_forall _ (fun r => rn_cancelled r = true)); [|done].
    intros r Hr. apply kr_cancelled, Hk. by destruct (rs_runs w).
  - intros Hs. apply (alter_forall _ (fun r => rn_cancelled r = true)); [|by apply H2]. intros r Hr. by apply kr_cancelled, Hk.
  - intros Ha Hb. specialize (H3 Ha Hb). by destruct (rs_runs w), g.
  - apply (alter_forall _ (fun r => rn_cancelled r = false → map go_loop (rn_live r) = all_loops)); [|exact H4].
    intros r Hr IH Hf. rewrite (kr_live f r (Hk r Hr) Hf). apply IH. destruct (rn_cancelled r) eqn:E; [|done].
    by rewrite (kr_cancelled f r (Hk r Hr) E) in Hf.
  - apply (alter_forall _ (fun r => Forall gor_ok (rn_live r))); [|exact H5]. intros r Hr. by apply kr_at, Hk.
  - apply (alter_forall _ (fun r => (rn_conn r < rs_next w)%nat)); [|exact H6]. intros r _. by rewrite Hc.
  - by rewrite map_alter_same.
Qed.

Lemma ok_cancel w : runs_ok w → runs_ok (cancel_newest w).
Proof.
  intros [H1 H2 H3 H4 H5 H6 H7]. split; cbn; destruct (rs_runs w) as [|r rs] eqn:E; cbn in *; try done.
  - intros _ r' [->|Hr]%elem_of_cons; [done|by apply H1].
  - intros r' [->|Hr]%elem_of_cons; [done|]. intros Hc. by rewrite (H1 _ Hr) in Hc.
  - intros r' [->|Hr]%elem_of_cons; [cbn; apply H5; left|apply H5; by right].
  - intros r' [->|Hr]%elem_of_cons; [cbn; apply H6; left|apply H6; by right].
Qed.

(** The newest run is cancelled when Connect leaves the relay loops. *)
Lemma ok_state s w : runs_ok w → s ≠ Relaying → (∀ r rs, rs_runs w = r :: rs → rn_cancelled r = true) →
  (s ≠ NotConnecting → s ≠ Dialling → rs_runs w ≠ []) → runs_ok (with_state s w).
Proof.
  intros [H1 H2 H3 H4 H5 H6 H7] Hs Hc Hn. split; cbn; try done.
  intros _ r Hr. destruct (rs_runs w) as [|r0 rs] eqn:E; [by apply elem_of_nil in Hr|].
  apply elem_of_cons in Hr as [->|Hr]; [by eapply Hc|by apply H1].
Qed.

Lemma ok_sockets c d ch w : runs_ok w → runs_ok (mkRuns (rs_runs w) (rs_state w) c d (rs_next w) ch).
Proof. by intros [? ? ? ? ? ? ?]. Qed.

Lemma body_at_ok cancelled open tick l a p c p' c' :
  at_ok l p = true → body cancelled open tick l a p c = Some (Goto p', c') → at_ok l p' = true.
Proof.
  intros Hp. destruct l, a, p; try done; cbn; unfold sendLoop_body, reader_body, when, go, ret; cbn;
    repeat case_match; intros; by simplify_eq.
Qed.

Lemma keeps_exit i r : keeps_run (exit_loop i) r.
Proof. split; cbn; [done..|]. intros Hr. by apply Forall_delete. Qed.

Lemma keeps_move i x l t r : rn_live r !! i = Some x → (gor_ok x → at_ok (go_loop x) l = true) →
  keeps_run (move_gor i (mkGor (go_loop x) l t)) r.
Proof.
  intros Hx Hl. split; cbn; [done|..].
  - intros _. rewrite list_fmap_insert. apply list_insert_id. by rewrite list_lookup_fmap, Hx.
  - intros Hr. apply Forall_insert; [done|]. apply Hl. by eapply Forall_lookup_1 in Hr.
Qed.

Lemma ok_goroutine m w w' : runs_ok w → goroutine_step m w = Some w' → runs_ok w'.
Proof.
  intros Hok. destruct m as [| | | | | | | | |g i a|g i| |]; try done; cbn; intros (r & Hr & (x & Hx & Hm)%bind_Some)%bind_Some.
  - apply bind_Some in Hm as ([next c] & Hb & [= <-]).
    match goal with |- runs_ok (if _ then with_conn None ?v else _) => assert (runs_ok v) as Hv end.
    { apply (ok_sockets (rs_conn w) (rs_dev w) c (with_runs _ w)). apply ok_alter; [done|by destruct next|].
      intros r0 Hr0. assert (r0 = r) as -> by congruence. destruct next as [l|]; [|apply keeps_exit].
      apply keeps_move; [done|]. intros Hx0. by eapply body_at_ok. }
    destruct (kicks _ _); [by apply (ok_sockets None)|exact Hv].
  - destruct (_ && _); [|done]. injection Hm as <-. apply ok_alter; [done..|]. intros r0 Hr0.
    assert (r0 = r) as -> by congruence. by apply keeps_move.
Qed.

Lemma ok_step m w w' : runs_ok w → loop_step m w = Some w' → runs_ok w'.
Proof.
  intros Hok. pose proof Hok as [H1 H2 H3 H4 H5 H6 H7]. destruct m; cbn [loop_step stopPreviousRun_step dial_step startRelayLoops_step].
  - destruct (rs_state w) eqn:Es; intros [= <-]. destruct (rs_runs w) as [|r rs] eqn:Er; (apply ok_state; [by apply ok_cancel|done|..]);
      cbn; rewrite Er; try done. by intros ? ? [= <- <-].
  - destruct (rs_state w) eqn:Es, (rs_runs w) as [|r rs] eqn:Er; try done. destruct (ended r); intros [= <-].
    apply ok_state; [done..| |done]. rewrite Er. intros ? ? [= <- <-]. apply H2; [done|left].
  - destruct (rs_state w) eqn:Es; intros [= <-]. apply (ok_state Dialling (with_conn None w)); [by apply ok_sockets|done| |done].
    cbn. intros r rs Er. apply H2; [done|]. rewrite Er. left.
  - destruct (rs_state w) eqn:Es; try done. set (o := if device then _ else _). destruct o as [d|]; intros [= <-]. split; cbn; try done.
    + apply H2. by rewrite ?Es.
    + intros r [->|Hr]%elem_of_cons; [done|auto].
    + intros r [->|Hr]%elem_of_cons; [by repeat constructor|auto].
    + intros r [->|Hr]%elem_of_cons; cbn; [lia|]. specialize (H6 _ Hr). lia.
    + constructor; [|done]. intros Hin. apply list_elem_of_fmap in Hin as (r & E & Hr). specialize (H6 _ Hr). lia.
  - destruct (rs_state w) eqn:Es; intros [= <-]. apply (ok_state NotConnecting (with_conn None w)); [by apply ok_sockets|done| |done].
    cbn. intros r rs Er. apply H2; [done|]. rewrite Er. left.
  - intros [= <-]. by apply ok_cancel.
  - destruct (rs_state w) eqn:Es, (rs_runs w) as [|r rs] eqn:Er; try done. destruct (rn_cancelled r) eqn:Ec; intros [= <-].
    apply ok_state; [done..| |by rewrite Er]. rewrite Er. by intros ? ? [= <- <-].
  - destruct (rs_state w) eqn:Es, (rs_runs w) as [|r rs] eqn:Er; try done. destruct (ended r); intros [= <-].
    apply ok_state; [done..| |done]. rewrite Er. intros ? ? [= <- <-]. apply H2; [done|left].
  - destruct (rs_state w) eqn:Es; intros [= <-]. apply ok_state; [done..| |done]. intros r rs Er. apply H2; [done|]. rewrite Er. left.
  - by apply ok_goroutine.
  - by apply ok_goroutine.
  - intros [= <-]. apply (ok_sockets None (rs_dev w) (rs_chans w) (cancel_newest w)). by apply ok_cancel.
  - intros [= <-]. by apply ok_sockets.
Qed.

Lemma rreach_ok w : rreach w → runs_ok w.
Proof.
  unfold rreach. intros Hr. assert (runs_ok new_runs) as H0 by (split; cbn; try done; try constructor; intros; exfalso; by eapply elem_of_nil).
  induction Hr as [|w w1 w2 [m Hm] _ IH]; [done|]. apply IH. by eapply ok_step.
Qed.

(** ** What a cancelled run leaves behind *)

(** The moves nothing has to come from outside for: no packet, no failure of a read of
    an open file, no call, no further tick. *)
Definition act_settles (a : Act) : bool := match a with ActPacket _ _ _ | ActError => false | _ => true end.
Definition settling (m : LoopMove) : bool :=
  match m with LmStopped | LmStopTimeout | LmDone | LmEnd | LmEndTimeout => true | LmGo _ _ a => act_settles a | _ => false end.
Definition settle (w w' : Runs) : Prop := ∃ m, settling m = true ∧ loop_step m w = Some w'.

(** The steps a goroutine can make at most before it waits; a tick that waits may
    bring as many packets as the channel holds. *)
Definition loc_weight (p : Loc) : nat :=
  match p with
  | AtSelect => 3 | InRebind => 4 | DrainCtrl => 2 | DrainData => 1
  | Backoff e => 4 * (11 - e) + 4 | AtCheck e => 4 * (11 - e) + 3
  | InRead e => 4 * (11 - e) + 2 | ReadFailed e => 4 * (11 - e) + 1
  end.
Definition tick_weight (tick : bool) : nat := if tick then 300 else 0.
Definition gor_weight (x : Gor) : nat := loc_weight (go_at x) + tick_weight (go_tick x).
Definition chans_weight (c : Chans) : nat := ch_ctrl c + ch_send c + 2 * ch_tun c.
Definition run_weight (r : Run) : nat := sum_list_with gor_weight (rn_live r).
Definition state_weight (s : ConnectState) : nat :=
  match s with Relaying => 2 | Waiting | Stopping => 1 | NotConnecting | Dialling => 0 end.
Definition weight (w : Runs) : nat :=
  sum_list_with run_weight (rs_runs w) + chans_weight (rs_chans w) + state_weight (rs_state w).

Lemma offer_ctrl_weight n c : (chans_weight (offer_ctrl n c) ≤ chans_weight c + n `min` 256)%nat.
Proof. unfold chans_weight. cbn. unfold offer, ctrlChanSize. lia. Qed.

Lemma offer_send_weight n c : (chans_weight (offer_send n c) ≤ chans_weight c + n)%nat.
Proof. unfold chans_weight. cbn. unfold offer. lia. Qed.
Lemma batch_rest_lighter c : (chans_weight (batch_rest c) ≤ chans_weight c)%nat.
Proof. unfold chans_weight. cbn. lia. Qed.

(** A step of a body makes the goroutine and the channels lighter together. *)
Lemma body_lighter cancelled open tick l a p c next c' :
  act_settles a = true → body cancelled open tick l a p c = Some (next, c') →
  (match next with Goto p' => loc_weight p' | Return => 0 end + tick_weight (tick && negb (is_tick a)) + chans_weight c'
   < loc_weight p + tick_weight tick + chans_weight c)%nat.
Proof.
  intros Ha. pose proof (offer_ctrl_weight (due_of a) c) as Hn. pose proof (offer_ctrl_weight 1 c) as H1.
  pose proof (offer_ctrl_weight 0 c) as H0. pose proof (offer_ctrl_weight 1 (offer_ctrl 1 c)) as H2.
  pose proof (offer_send_weight 1) as H3. pose proof (offer_send_weight 0) as H4. pose proof (batch_rest_lighter) as H5.
  destruct l, a; try done; destruct p; try done; unfold body, sendLoop_body, tunWorker_body, keepaliveLoop_body,
    peerDiscoveryLoop_body, stalePeerCleanupLoop_body, holePunchRetryLoop_body, p2pKeepaliveLoop_body, ticker_body,
    receiveFromServer_body, receiveFromTUN_body, reader_body, when, go, ret; cbn [due_of] in *;
    repeat case_match; intros; simplify_eq; cbn [is_tick negb andb loc_weight]; unfold maxConsecutiveErrors in *;
    rewrite ?andb_true_r, ?andb_false_r, ?Z.ltb_ge in *; cbn [tick_weight] in *; try lia.
  all: match goal with
    | |- context [batch_rest ?d] => specialize (H5 d)
    | |- context [offer_send _ ?d] => specialize (H3 d); specialize (H4 d)
    | _ => idtac end; unfold with_ack, chans_weight in *; cbn [ch_ctrl ch_send ch_tun] in *; lia.
Qed.

Lemma sum_list_with_lookup {A} (h : A → nat) l i x : l !! i = Some x → sum_list_with h l = (h x + sum_list_with h (delete i l))%nat.
Proof.
  revert i. induction l as [|y l IH]; intros [|i] Hi; [done..| |]; cbn in *; [by injection Hi as ->|].
  specialize (IH i Hi). unfold delete in *. lia.
Qed.
Lemma sum_list_with_insert {A} (h : A → nat) l i x y : l !! i = Some x → (sum_list_with h (<[i:=y]> l) + h x = h y + sum_list_with h l)%nat.
Proof.
  revert i. induction l as [|z l IH]; intros [|i] Hi; [done..| |]; cbn in *; [injection Hi as ->; lia|].
  specialize (IH i Hi). unfold insert in *. lia.
Qed.
Lemma sum_list_with_alter {A} (h : A → nat) f l i x : l !! i = Some x → (sum_list_with h (alter f i l) + h x = h (f x) + sum_list_with h l)%nat.
Proof.
  revert i. induction l as [|z l IH]; intros [|i] Hi; [done..| |]; cbn in *; [injection Hi as ->; lia|].
  specialize (IH i Hi). unfold alter in *. lia.
Qed.

(** A step of a goroutine, with what it makes of its run. *)
Lemma goroutine_lighter g i a w w' : act_settles a = true → goroutine_step (LmGo g i a) w = Some w' →
  rs_state w' = rs_state w ∧ (weight w' < weight w)%nat.
Proof.
  intros Ha. cbn. intros (r & Hr & (x & Hx & ([next c] & Hb & [= <-])%bind_Some)%bind_Some)%bind_Some.
  assert (kicks (go_loop x) a = false) as -> by (by destruct (go_loop x), a).
  split; [done|]. unfold weight. cbn [rs_runs rs_chans rs_state with_chans with_runs].
  set (f := match next with Goto _ => _ | Return => _ end).
  pose proof (sum_list_with_alter run_weight f _ _ _ Hr) as Hsum. pose proof (body_lighter _ _ _ _ _ _ _ _ _ Ha Hb) as Hlt.
  assert (run_weight (f r) + gor_weight x = match next with Goto p => loc_weight p | Return => 0 end
    + match next with Goto _ => tick_weight (go_tick x && negb (is_tick a)) | Return => 0 end + run_weight r)%nat as Hf.
  { subst f. unfold run_weight. destruct next as [p|]; cbn [rn_live move_gor with_live exit_loop].
    - by rewrite (sum_list_with_insert gor_weight _ _ _ _ Hx).
    - rewrite (sum_list_with_lookup gor_weight _ _ _ Hx). lia. }
  unfold gor_weight in Hf. destruct next; lia.
Qed.

Lemma settle_less w w' : settle w w' → (weight w' < weight w)%nat.
Proof.
  intros (m & Hm & Hs). destruct m as [| | | | | | | | |g i a| | |]; try done; [..|by eapply goroutine_lighter];
    cbn in Hs; destruct (rs_state w) eqn:Es; try done; repeat case_match; simplify_eq; unfold weight; cbn; rewrite Es; cbn; lia.
Qed.

Lemma settle_sn w : sn settle w.
Proof.
  remember (weight w) as n eqn:En. revert w En. induction (lt_wf n) as [n _ IH]. intros w ->.
  constructor. intros w' Hw'. eapply IH; [by apply settle_less|done].
Qed.

Lemma settle_reach w w' : rreach w → rtc settle w w' → rreach w'.
Proof.
  intros Hr Hs. unfold rreach in *. etrans; [exact Hr|]. eapply rtc_subrel; [|exact Hs]. intros x y (m & _ & Hm). by exists m.
Qed.

(** In a cancelled run every goroutine can go on, and in any run a reader can, unless
    it is in the read of an open file. *)
Lemma body_progress cancelled open tick l p c : at_ok l p = true → cancelled = true ∨ start_at l = AtCheck 0 →
  (∃ a, act_settles a = true ∧ is_Some (body cancelled open tick l a p c)) ∨
  open = true ∧ start_at l = AtCheck 0 ∧ ∃ e, p = InRead e.
Proof.
  intros Hp Hc. assert (start_at l = AtCheck 0 → ∀ deliver, (∃ a, act_settles a = true ∧
    is_Some (reader_body cancelled open deliver a p c)) ∨ open = true ∧ ∃ e, p = InRead e) as Hread.
  { intros Hl deliver. destruct p as [| | | |e|e|e|e]; try (by destruct l).
    - left. exists ActLook. cbn. by destruct cancelled.
    - destruct open; [right; split; [done|by exists e]|]. left. by exists ActClosed.
    - left. exists ActLook. cbn. destruct cancelled; [done|]. by case_match.
    - left. by exists ActWake. }
  destruct l; try (destruct (Hread eq_refl (fun n ack c => let c := offer_ctrl n c in
      match ack, ch_ack c with Some ok, None => with_ack (Some ok) c | _, _ => c end)) as [|[? ?]]; [by left|by right]);
    try (destruct (Hread eq_refl (fun n _ c => offer_jobs n c)) as [|[? ?]]; [by left|by right]);
    destruct Hc as [->|?]; try done; left; destruct p; try done; try (by exists ActDone); by exists ActTimer.
Qed.

(** What has settled: nothing moves any more by itself. *)
Lemma settled_stays w g i r x : nf settle w → rs_runs w !! g = Some r → rn_live r !! i = Some x → gor_ok x →
  rn_cancelled r = true ∨ start_at (go_loop x) = AtCheck 0 →
  reads_open w r (go_loop x) = true ∧ start_at (go_loop x) = AtCheck 0 ∧ ∃ e, go_at x = InRead e.
Proof.
  intros Hnf Hr Hx Hok Hc.
  destruct (body_progress (rn_cancelled r) (reads_open w r (go_loop x)) (go_tick x) (go_loop x) (go_at x) (rs_chans w) Hok Hc)
    as [(a & Ha & [[next c] Hb])|Hopen]; [|done].
  destruct Hnf. eexists _, (LmGo g i a). split; [done|]. cbn. rewrite Hr. cbn. rewrite Hx. cbn. rewrite Hb. by cbn.
Qed.

(** The readers of the socket and of the device, by the places that are left. *)
Lemma settled_reader w r x : nf settle w → runs_ok w → r ∈ rs_runs w → x ∈ rn_live r →
  rn_cancelled r = true ∨ start_at (go_loop x) = AtCheck 0 →
  (∃ e, go_at x = InRead e) ∧
  (go_loop x = FromServer ∧ rs_conn w = Some (rn_conn r) ∨ go_loop x = FromTUN ∧ rs_dev w = Some (rn_dev r)).
Proof.
  intros Hnf Hok Hr Hx Hc. pose proof (ro_at _ Hok _ Hr) as Hat. rewrite Forall_forall in Hat. specialize (Hat _ Hx).
  apply list_elem_of_lookup in Hr as [g Hg]. apply list_elem_of_lookup in Hx as [i Hi].
  destruct (settled_stays w g i r x Hnf Hg Hi Hat Hc) as (Ho & _ & He). split; [done|].
  unfold reads_open in Ho. destruct (go_loop x); try done; apply bool_decide_eq_true in Ho; auto.
Qed.

(** C31: The goroutines of the client end by themselves once their run is cancelled - by its
    caller, by Disconnect, because a new Connect came or because one of them returned:
    from every reachable state, and in any order of the steps of their bodies, of the
    sleeps and of the one-shot timers, only finitely many moves are possible without a
    packet, a failing read of an open file, a call or a further tick of a ticker; when
    none is left Connect does not wait for a cancelled run, what remains of cancelled
    runs is in a read - of the open socket, in one run at most, or of the open TUN
    device - and a run that is not cancelled has its socket and device open, so one
    that loses them, as when the server kicks the player, has ended too. *)
Theorem cancelled_runs_end w : rreach w →
  sn settle w ∧ ∀ w', rtc settle w w' → nf settle w' →
    (rs_state w' = NotConnecting ∨ rs_state w' = Dialling ∨
     rs_state w' = Relaying ∧ ∃ r rs, rs_runs w' = r :: rs ∧ rn_cancelled r = false) ∧
    (∀ r x, r ∈ rs_runs w' → rn_cancelled r = true → x ∈ rn_live r →
       (∃ e, go_at x = InRead e) ∧
       (go_loop x = FromServer ∧ rs_conn w' = Some (rn_conn r) ∨ go_loop x = FromTUN ∧ rs_dev w' = Some (rn_dev r))) ∧
    (∀ r1 r2, r1 ∈ rs_runs w' → r2 ∈ rs_runs w' → rn_cancelled r1 = true → rn_cancelled r2 = true →
      FromServer ∈ map go_loop (rn_live r1) → FromServer ∈ map go_loop (rn_live r2) → r1 = r2) ∧
    ∀ r, r ∈ rs_runs w' → rn_cancelled r = false → rs_conn w' = Some (rn_conn r) ∧ rs_dev w' = Some (rn_dev r).
Proof.
  intros Hr. split; [apply settle_sn|]. intros w' Hs Hnf. pose proof (rreach_ok _ (settle_reach _ _ Hr Hs)) as Hok.
  assert (∀ m, settling m = true → loop_step m w' = None) as Hno.
  { intros m Hm. destruct (loop_step m w') as [w2|] eqn:E; [|done]. destruct Hnf. by exists w2, m. }
  assert (∀ r, r ∈ rs_runs w' → rn_cancelled r = true → FromServer ∈ map go_loop (rn_live r) → rs_conn w' = Some (rn_conn r)) as Hsrv.
  { intros r Hin Hc (x & El & Hx)%list_elem_of_fmap.
    destruct (settled_reader w' r x Hnf Hok Hin Hx (or_introl Hc)) as [_ [[_ ?]|[E _]]]; [done|by rewrite <- El in E]. }
  split_and!.
  - specialize (Hno LmDone eq_refl) as HD. specialize (Hno LmStopTimeout eq_refl) as HS. specialize (Hno LmEndTimeout eq_refl) as HE.
    cbn in HD, HS, HE. destruct (rs_state w') eqn:E; try done; auto. right. right. split; [done|].
    destruct (rs_runs w') as [|r rs] eqn:Er; [by destruct (ro_some _ Hok); rewrite ?E|]. exists r, rs. split; [done|]. by destruct (rn_cancelled r).
  - intros r x Hin Hc Hx. apply settled_reader; auto.
  - intros r1 r2 H1 H2 C1 C2 L1 L2. pose proof (Hsrv _ H1 C1 L1) as E1. pose proof (Hsrv _ H2 C2 L2) as E2.
    rewrite E1 in E2. injection E2 as E. apply list_elem_of_lookup in H1 as [i Hi]. apply list_elem_of_lookup in H2 as [j Hj].
    assert (i = j) as ->; [|congruence]. apply (NoDup_lookup _ i j (rn_conn r1) (ro_apart _ Hok)); rewrite list_lookup_fmap;
      [by rewrite Hi|by rewrite Hj, E].
  - intros r Hin Hc. pose proof (ro_whole _ Hok r Hin Hc) as Hall.
    assert (∀ l, l ∈ all_loops → start_at l = AtCheck 0 → ∃ x, x ∈ rn_live r ∧ go_loop x = l ∧
      (l = FromServer ∧ rs_conn w' = Some (rn_conn r) ∨ l = FromTUN ∧ rs_dev w' = Some (rn_dev r))) as Hl.
    { intros l Hl Hst. rewrite <- Hall in Hl. apply list_elem_of_fmap in Hl as (x & -> & Hx). exists x.
      destruct (settled_reader w' r x Hnf Hok Hin Hx (or_intror Hst)) as [_ ?]. done. }
    destruct (Hl FromServer) as (_ & _ & _ & [[_ ?]|[? _]]); [by right; left|done| |done].
    destruct (Hl FromTUN) as (_ & _ & _ & [[? _]|[_ ?]]); [by right; right; left|done|done|done].
Qed.

(** ** Reconnecting on a silent device *)

Definition loop_moves (l : list LoopMove) (w : Runs) : option Runs := foldl (fun w m => w ≫= loop_step m) (Some w) l.

Lemma loop_moves_rtc l w w' : loop_moves l w = Some w' → rtc rstep w w'.
Proof.
  unfold loop_moves. revert w. induction l as [|m l IH]; intros w; cbn; [by intros [= <-]|]. intros Hl.
  destruct (loop_step m w) as [w1|] eqn:E; cbn in *; [eapply rtc_l; [by exists m|by apply IH]|].
  exfalso. clear -Hl. by induction l.
Qed.

(** The readers of the newest run begin their reads; the other goroutines see the
    cancellation. *)
Definition readers : list LoopMove := [LmGo 0 1 ActLook; LmGo 0 2 ActLook].
Definition leavers : list LoopMove :=
  [LmGo 0 0 ActDone; LmGo 0 0 ActDefault; LmGo 0 0 ActTimer] ++ replicate 9 (LmGo 0 2 ActDone).
(** A reconnect without traffic: both timers run down; the new session fails at once. *)
Definition silent_reconnect (device : bool) : list LoopMove :=
  [LmConnect] ++ (if device then [] else [LmStopTimeout; LmGo 0 0 ActClosed; LmGo 0 0 ActLook])
  ++ [LmDial device] ++ readers ++ [LmCancel; LmDone] ++ leavers ++ [LmEndTimeout].

Definition reading (l : Loop) : Gor := mkGor l (InRead 0) false.

(** Connect has returned: the reads of the last run, and one of the device of each
    earlier one. *)
Definition silent (k : nat) (w : Runs) : Prop := ∃ c d n rest,
  w = mkRuns (mkRun c d true [reading FromServer; reading FromTUN] :: rest) NotConnecting (Some c) (Some d) n (mkChans 0 0 0 None) ∧
  length rest = k ∧ Forall (fun r => ∃ c', r = mkRun c' d true [reading FromTUN]) rest.

Lemma silent_first : ∃ w, loop_moves (silent_reconnect true) new_runs = Some w ∧ silent 0 w.
Proof. eexists. split; [vm_compute; reflexivity|]. exists 0%nat, 1%nat, 2%nat, []. by split_and!. Qed.

Lemma silent_next k w : silent k w → ∃ w', loop_moves (silent_reconnect false) w = Some w' ∧ silent (S k) w'.
Proof.
  intros (c & d & n & rest & -> & <- & Hrest). eexists. split; [vm_compute; reflexivity|].
  exists n, d, (S (S n)), (mkRun c d true [reading FromTUN] :: rest). split_and!; [done..|]. constructor; [by eexists|done].
Qed.

Lemma silent_nf k w : silent k w → nf settle w.
Proof.
  intros (c & d & n & rest & -> & _ & Hrest). set (w := mkRuns _ _ _ _ _ _).
  assert (∀ r x, r ∈ rs_runs w → x ∈ rn_live r →
    (x = reading FromServer ∨ x = reading FromTUN) ∧ reads_open w r (go_loop x) = true) as Hread.
  { intros r x [->|Hr]%elem_of_cons Hl.
    - cbn in Hl. rewrite !elem_of_cons, elem_of_nil in Hl. destruct Hl as [->|[->|[]]]; (split; [auto|by apply bool_decide_eq_true]).
    - rewrite Forall_forall in Hrest. destruct (Hrest _ Hr) as [c' ->]. apply list_elem_of_singleton in Hl as ->.
      split; [auto|by apply bool_decide_eq_true]. }
  intros (w' & m & Hm & Hs). destruct m as [| | | | | | | | |g i a| | |]; try done. cbn in Hs.
  apply bind_Some in Hs as (r & Hg & (x & Hx & (nc & Hb & _)%bind_Some)%bind_Some).
  destruct (Hread r x) as [Hx' Ho]; [by eapply list_elem_of_lookup_2..|]. rewrite Ho in Hb.
  destruct Hx' as [-> | ->]; by destruct a.
Qed.

(** The goroutine that reads the TUN device stays in its read until a packet comes:
    every reconnect on a silent device waits for both timers and leaves one more
    behind, without bound. *)
Theorem reconnects_leave_readers n : ∃ w, rreach w ∧ rs_state w = NotConnecting ∧ nf settle w ∧
  length (rs_runs w) = S n ∧
  Forall (fun r => rn_cancelled r = true ∧ FromTUN ∈ map go_loop (rn_live r) ∧ rs_dev w = Some (rn_dev r)) (rs_runs w).
Proof.
  assert (∃ w, rreach w ∧ silent n w) as (w & Hr & Hw).
  { induction n as [|n (w & Hr & Hw)].
    - destruct silent_first as (w & Hm & Hw). exists w. split; [by eapply loop_moves_rtc|done].
    - destruct (silent_next n w Hw) as (w' & Hm & Hw'). exists w'. split; [|done]. unfold rreach in *. etrans; [exact Hr|by eapply loop_moves_rtc]. }
  exists w. split; [done|]. pose proof (silent_nf n w Hw) as Hnf. destruct Hw as (c & d & k & rest & -> & <- & Hrest).
  split_and!; [done..|]. constructor; [cbn; split_and!; [done|right; left|done]|].
  eapply Forall_impl; [exact Hrest|]. intros r [c' ->]. cbn. split_and!; [done|left|done].
Qed.

(** *** Witnesses *)

(** A session whose server is lost: on a tick keepaliveLoop finds it silent, asks to
    rebind in vain and returns, and sendLoop sees the cancellation. *)
Definition ex_lost : list LoopMove :=
  [LmConnect; LmDial true; LmTicker 0 7; LmGo 0 7 (ActTick 0 Asks); LmGo 0 0 ActCtrl; LmGo 0 7 ActTimer; LmDone; LmGo 0 0 ActDone].
Lemma ex_session_ok : is_Some (loop_moves ex_lost new_runs).
Proof. eexists. vm_compute. reflexivity. Qed.
Definition ex_session : Runs := is_Some_proj ex_session_ok.

Lemma ex_session_reach : rreach ex_session.
Proof. apply (loop_moves_rtc ex_lost). vm_compute. reflexivity. Qed.

Lemma cancelled_runs_end_witness :
  rs_state ex_session = Waiting ∧ sn settle ex_session ∧
  ∀ w', rtc settle ex_session w' → nf settle w' → rs_state w' ≠ Waiting.
Proof.
  destruct (cancelled_runs_end ex_session ex_session_reach) as [Hsn He]. split; [vm_compute; reflexivity|]. split; [exact Hsn|].
  intros w' Hs Hnf. destruct (He w' Hs Hnf) as [[E|[E|[E _]]] _]; rewrite E; discriminate.
Defined.
