(* ===== verification/SingleInstance.v ===== *)
(** * SingleInstance: one instance of a program

    src/internal/singleinstance/lock_unix.go: a lock file in the temporary directory,
    flock(2) on it, and the process id of the owner as its contents.  Every system
    call of Acquire is a step, for processes may run Acquire at the same time; the
    path and the open files are apart, because a file that is removed stays open. *)

From S2P Require Import Prelude.

(** Where a process is in Acquire. *)
Inductive Stage :=
| Opening                      (* about to open the lock file *)
| Opened (f : nat)
| Blocked (f : nat)            (* flock failed *)
| ReadPID (pid : nat)          (* the id readPIDFile found, 0 for none; the file is closed *)
| Removing                     (* processAlive said no *)
| Locked (f : nat)             (* flock succeeded; the id is not written *)
| Truncated (f : nat)
| Running (f : nat)            (* Acquire returned the lock *)
| Refused.                     (* Acquire returned an error *)
#[export] Instance Stage_eq_dec : EqDecision Stage.
Proof. solve_decision. Defined.

(** The path, the contents of the files, the owners of the locks, the processes that
    are alive. *)
Record World := mkWorld {
  w_path : option nat; w_content : gmap nat nat; w_lock : gmap nat nat; w_procs : gmap nat Stage; w_next : nat }.

Definition set_stage p st w := mkWorld (w_path w) (w_content w) (w_lock w) (<[p := st]> (w_procs w)) (w_next w).
Definition alive (p : nat) (w : World) : bool := bool_decide (is_Some (w_procs w !! p)).

(** os.OpenFile with O_CREATE *)
Definition open_file (p : nat) (w : World) : World :=
  match w_path w with
  | Some f => set_stage p (Opened f) w
  | None =>
      let f := w_next w in
      mkWorld (Some f) (<[f := 0%nat]> (w_content w)) (w_lock w) (<[p := Opened f]> (w_procs w)) (S f)
  end.

(** flock with LOCK_EX and LOCK_NB *)
Definition flock (p f : nat) (w : World) : World :=
  match w_lock w !! f with
  | None => mkWorld (w_path w) (w_content w) (<[f := p]> (w_lock w)) (<[p := Locked f]> (w_procs w)) (w_next w)
  | Some _ => set_stage p (Blocked f) w
  end.

(** readPIDFile, by the path, and the close of the file *)
Definition readPIDFile (p : nat) (w : World) : World :=
  set_stage p (ReadPID (match w_path w with Some f => default 0%nat (w_content w !! f) | None => 0%nat end)) w.

(** The decision about the owner the file names. *)
Definition check_owner (p pid : nat) (w : World) : World :=
  if (0 <? pid)%nat && negb (alive pid w) then set_stage p Removing w else set_stage p Refused w.

(** os.Remove, and Acquire again *)
Definition remove_file (p : nat) (w : World) : World :=
  mkWorld None (w_content w) (w_lock w) (<[p := Opening]> (w_procs w)) (w_next w).

(** writePIDFile *)
Definition truncate (p f : nat) (w : World) : World :=
  mkWorld (w_path w) (<[f := 0%nat]> (w_content w)) (w_lock w) (<[p := Truncated f]> (w_procs w)) (w_next w).
Definition write_pid (p f : nat) (w : World) : World :=
  mkWorld (w_path w) (<[f := p]> (w_content w)) (w_lock w) (<[p := Running f]> (w_procs w)) (w_next w).

(** The next step of Acquire in process [p]. *)
Definition acquire_step (p : nat) (w : World) : World :=
  match w_procs w !! p with
  | Some Opening => open_file p w
  | Some (Opened f) => flock p f w
  | Some (Blocked _) => readPIDFile p w
  | Some (ReadPID pid) => check_owner p pid w
  | Some Removing => remove_file p w
  | Some (Locked f) => truncate p f w
  | Some (Truncated f) => write_pid p f w
  | _ => w
  end.

Definition release (p : nat) (w : World) : gmap nat nat := filter (fun '(_, q) => q ≠ p) (w_lock w).

(** The end of a process, which closes its files. *)
Definition die (p : nat) (w : World) : World :=
  mkWorld (w_path w) (w_content w) (release p w) (delete p (w_procs w)) (w_next w).

(** Lock.Close, by the program or, once nothing refers to the lock, by the garbage
    collector, whose finalizer of a file closes it; the process goes on. *)
Definition Lock_Close (p : nat) (w : World) : World :=
  mkWorld (w_path w) (w_content w) (release p w) (w_procs w) (w_next w).

Inductive Event := Start (p : nat) | Step (p : nat) | Die (p : nat) | Collect (p : nat).

Definition run_event (w : World) (e : Event) : World :=
  match e with
  | Start p => if alive p w then w else set_stage p Opening w
  | Step p => acquire_step p w
  | Die p => die p w
  | Collect p => match w_procs w !! p with Some (Running _) => Lock_Close p w | _ => w end
  end.

Definition start : World := mkWorld None ∅ ∅ ∅ 1.
Definition run_events (l : list Event) : World := foldl run_event start l.

(** Processes that got the lock and live. *)
Definition instance (w : World) (p : nat) : Prop :=
  match w_procs w !! p with Some (Locked _ | Truncated _ | Running _) => True | _ => False end.

(** ** Facts *)

(** No process dies and no lock is collected; process ids are not 0. *)
Definition undisturbed (e : Event) : Prop := match e with Start p | Step p => (0 < p)%nat | Die _ | Collect _ => False end.

Definition stage_file (st : Stage) : option nat :=
  match st with Opened f | Blocked f | Locked f | Truncated f | Running f => Some f | _ => None end.
Definition holds (st : Stage) : option nat :=
  match st with Locked f | Truncated f | Running f => Some f | _ => None end.

(** The file is never removed: every process has the same file, and the holder of its
    lock is the one instance. *)
Record good (w : World) : Prop := {
  g_file : ∀ p st f, w_procs w !! p = Some st → stage_file st = Some f → w_path w = Some f;
  g_content : ∀ f pid, w_content w !! f = Some pid → (0 < pid)%nat → is_Some (w_procs w !! pid);
  g_holds : ∀ p st f, w_procs w !! p = Some st → holds st = Some f → w_lock w !! f = Some p;
  g_stale : ∀ p st, w_procs w !! p = Some st → st ≠ Removing ∧
    (∀ pid, st = ReadPID pid → (0 < pid)%nat → is_Some (w_procs w !! pid)) }.

Lemma lookup_set_stage (m : gmap nat Stage) p st q st' : <[p := st]> m !! q = Some st' →
  (q = p ∧ st' = st) ∨ (q ≠ p ∧ m !! q = Some st').
Proof. destruct (decide (q = p)) as [->|]; [rewrite lookup_insert_eq|rewrite lookup_insert_ne by congruence]; naive_solver. Qed.

Lemma is_Some_set_stage (m : gmap nat Stage) p st q : is_Some (m !! q) → is_Some (<[p := st]> m !! q).
Proof. intros Hq. destruct (decide (q = p)) as [->|]; [rewrite lookup_insert_eq; by eexists|by rewrite lookup_insert_ne by congruence]. Qed.

(** A step that moves [p] only, without a change of files or locks. *)
Lemma good_set_stage w p st : good w →
  (∀ f, stage_file st = Some f → w_path w = Some f) → (∀ f, holds st = Some f → w_lock w !! f = Some p) →
  st ≠ Removing → (∀ pid, st = ReadPID pid → (0 < pid)%nat → is_Some (w_procs w !! pid)) →
  good (set_stage p st w).
Proof.
  intros [H1 H2 H3 H4] Hf Hh Hr Hpid. split; cbn.
  - intros q st' f [[-> ->]|[_ Hq]]%lookup_set_stage; eauto.
  - intros f pid Hc Hp. apply is_Some_set_stage. eauto.
  - intros q st' f [[-> ->]|[_ Hq]]%lookup_set_stage; eauto.
  - intros q st' [[-> ->]|[_ Hq]]%lookup_set_stage.
    + split; [done|]. intros pid Hst Hp. apply is_Some_set_stage. eauto.
    + destruct (H4 q st' Hq) as [? Hs]. split; [done|]. intros pid Hst Hp. apply is_Some_set_stage. eauto.
Qed.

Lemma good_step w e : good w → undisturbed e → good (run_event w e).
Proof.
  intros Hg He. destruct e as [p|p| |]; try done; cbn [run_event undisturbed] in *.
  { destruct (alive p w); [done|]. apply good_set_stage; done. }
  unfold acquire_step. destruct (w_procs w !! p) as [st|] eqn:Est; [|done]. pose proof Hg as [H1 H2 H3 H4].
  destruct st as [|f|f|pid| |f|f|f|]; try done.
  - unfold open_file. destruct (w_path w) as [f|] eqn:Ep.
    + apply good_set_stage; try done. cbn. congruence.
    + split; cbn.
      * intros q st' f [[-> ->]|[_ Hq]]%lookup_set_stage; cbn; [by intros [= <-]|]. intros Hf. discriminate (H1 _ _ _ Hq Hf).
      * intros f pid [[-> <-]|[_ Hc]]%lookup_insert_Some; [lia|]. intros Hp. apply is_Some_set_stage. eauto.
      * intros q st' f [[-> ->]|[_ Hq]]%lookup_set_stage; [done|eauto].
      * intros q st' [[-> ->]|[_ Hq]]%lookup_set_stage; [done|]. destruct (H4 q st' Hq) as [? Hs].
        split; [done|]. intros pid Hst Hp. apply is_Some_set_stage. eauto.
  - pose proof (H1 _ _ _ Est eq_refl) as Ep. unfold flock. destruct (w_lock w !! f) as [q|] eqn:El.
    { apply good_set_stage; try done. cbn. congruence. }
    split; cbn.
    + intros q st' f' [[-> ->]|[_ Hq]]%lookup_set_stage; cbn; [intros [= <-]; done|eauto].
    + intros f' pid Hc Hp. apply is_Some_set_stage. eauto.
    + intros q st' f' [[-> ->]|[_ Hq]]%lookup_set_stage; cbn; [intros [= <-]; apply lookup_insert_eq|].
      intros Hh. pose proof (H3 _ _ _ Hq Hh) as Hl. rewrite lookup_insert_ne by congruence. done.
    + intros q st' [[-> ->]|[_ Hq]]%lookup_set_stage; [done|]. destruct (H4 q st' Hq) as [? Hs].
      split; [done|]. intros pid Hst Hp. apply is_Some_set_stage. eauto.
  - apply good_set_stage; try done. intros pid [= <-]. destruct (w_path w) as [f'|]; [|lia].
    destruct (w_content w !! f') eqn:Ec; cbn; [eauto|lia].
  - unfold check_owner. destruct (H4 _ _ Est) as [_ Hs].
    destruct (Nat.ltb_spec 0 pid) as [Hp|]; cbn [andb]; [|by apply good_set_stage].
    unfold alive. rewrite bool_decide_eq_true_2 by eauto. by apply good_set_stage.
  - by destruct (H4 _ _ Est).
  - pose proof (H1 _ _ _ Est eq_refl) as Ep. pose proof (H3 _ _ _ Est eq_refl) as El. split; cbn.
    + intros q st' f' [[-> ->]|[_ Hq]]%lookup_set_stage; cbn; [intros [= <-]; done|eauto].
    + intros f' pid [[-> <-]|[_ Hc]]%lookup_insert_Some; [lia|]. intros Hp. apply is_Some_set_stage. eauto.
    + intros q st' f' [[-> ->]|[_ Hq]]%lookup_set_stage; cbn; [intros [= <-]; done|eauto].
    + intros q st' [[-> ->]|[_ Hq]]%lookup_set_stage; [done|]. destruct (H4 q st' Hq) as [? Hs].
      split; [done|]. intros pid Hst Hp. apply is_Some_set_stage. eauto.
  - pose proof (H1 _ _ _ Est eq_refl) as Ep. pose proof (H3 _ _ _ Est eq_refl) as El. split; cbn.
    + intros q st' f' [[-> ->]|[_ Hq]]%lookup_set_stage; cbn; [intros [= <-]; done|eauto].
    + intros f' pid [[-> <-]|[_ Hc]]%lookup_insert_Some; intros Hp; [rewrite lookup_insert_eq; by eexists|].
      apply is_Some_set_stage. eauto.
    + intros q st' f' [[-> ->]|[_ Hq]]%lookup_set_stage; cbn; [intros [= <-]; done|eauto].
    + intros q st' [[-> ->]|[_ Hq]]%lookup_set_stage; [done|]. destruct (H4 q st' Hq) as [? Hs].
      split; [done|]. intros pid Hst Hp. apply is_Some_set_stage. eauto.
Qed.

Lemma good_run l : Forall undisturbed l → good (run_events l).
Proof.
  intros Hl. unfold run_events. assert (good start) as Hs by (split; cbn; intros; by simplify_map_eq).
  revert Hs Hl. generalize start. induction l as [|e l IH]; intros w Hw Hl; [done|].
  inversion Hl; subst. cbn. apply IH; [by apply good_step|done].
Qed.

(** C23: While no process dies and no lock is closed - by a program or by the garbage
    collector, which may take the lock a client drops - there is at most one instance,
    however the steps of the processes that start are interleaved. *)
Theorem one_instance l p q : Forall undisturbed l →
  instance (run_events l) p → instance (run_events l) q → p = q.
Proof.
  intros Hl%good_run. destruct Hl as [H1 _ H3 _]. unfold instance.
  destruct (w_procs (run_events l) !! p) as [sp|] eqn:Ep; [|done].
  destruct (w_procs (run_events l) !! q) as [sq|] eqn:Eq; [|done]. intros Hp Hq.
  assert (∃ f, stage_file sp = Some f ∧ holds sp = Some f) as (f & Hf & Hh) by (destruct sp; try done; by eexists).
  assert (∃ g, stage_file sq = Some g ∧ holds sq = Some g) as (g & Hg & Hk) by (destruct sq; try done; by eexists).
  pose proof (H1 _ _ _ Ep Hf). pose proof (H1 _ _ _ Eq Hg). pose proof (H3 _ _ _ Ep Hh). pose proof (H3 _ _ _ Eq Hk). congruence.
Qed.

(** The client drops the lock it acquired (main discards it), so the garbage collector
    may close it: from then on a second client starts, whenever it comes. *)
Theorem collected_lock_lets_another_in :
  let w := run_events (Start 1 :: replicate 4 (Step 1) ++ Collect 1 :: Start 2 :: replicate 2 (Step 2)) in
  instance w 1 ∧ instance w 2.
Proof. by vm_compute. Qed.

(** The path, the locks and the open files are of files that exist. *)
Record files_below (w : World) : Prop := {
  fb_path : ∀ f, w_path w = Some f → (f < w_next w)%nat;
  fb_lock : ∀ f p, w_lock w !! f = Some p → (f < w_next w)%nat;
  fb_stage : ∀ p st f, w_procs w !! p = Some st → stage_file st = Some f → (f < w_next w)%nat }.

(** A step that creates no file and opens none but the one at the path. *)
Lemma files_below_sub w w' : files_below w → w_next w' = w_next w →
  (∀ f, w_path w' = Some f → w_path w = Some f) →
  (∀ f p, w_lock w' !! f = Some p → w_lock w !! f = Some p ∨ (f < w_next w)%nat) →
  (∀ p st f, w_procs w' !! p = Some st → stage_file st = Some f →
     (∃ q st', w_procs w !! q = Some st' ∧ stage_file st' = Some f) ∨ w_path w = Some f) →
  files_below w'.
Proof.
  intros [H1 H2 H3] Hn Hp Hl Hs. split; rewrite Hn; eauto.
  - intros f p Hf. destruct (Hl f p Hf); eauto.
  - intros p st f Hst Hf. destruct (Hs p st f Hst Hf) as [(q & st' & Hq & Hf')|]; eauto.
Qed.

Lemma lookup_release p w f q : release p w !! f = Some q → w_lock w !! f = Some q.
Proof. by intros [? _]%map_lookup_filter_Some. Qed.

Lemma files_below_step w e : files_below w → files_below (run_event w e).
Proof.
  intros Hw. pose proof Hw as [H1 H2 H3].
  assert (∀ p st, (∀ f, stage_file st = Some f → (∃ st0, w_procs w !! p = Some st0 ∧ stage_file st0 = Some f) ∨ w_path w = Some f) →
    ∀ q st' f, <[p := st]> (w_procs w) !! q = Some st' → stage_file st' = Some f →
     (∃ q st', w_procs w !! q = Some st' ∧ stage_file st' = Some f) ∨ w_path w = Some f) as Hins.
  { intros p st Hf q st' f [[-> ->]|[_ Hq]]%lookup_set_stage Hs; [|eauto].
    destruct (Hf f Hs) as [(st0 & ? & ?)|]; eauto. }
  destruct e as [p|p|p|p]; cbn [run_event].
  - destruct (alive p w); [done|]. apply (files_below_sub w); cbn; eauto. by apply Hins.
  - unfold acquire_step. destruct (w_procs w !! p) as [st|] eqn:Est; [|done].
    destruct st as [|f|f|pid| |f|f|f|]; try done.
    + unfold open_file. destruct (w_path w) as [f|] eqn:Ep.
      { apply (files_below_sub w); cbn; rewrite ?Ep; eauto. apply Hins. cbn. naive_solver. }
      split; cbn; [intros f [= <-]; lia|intros f q Hf; apply H2 in Hf; lia|].
      intros q st f [[-> ->]|[_ Hq]]%lookup_set_stage; cbn; [intros [= <-]; lia|]. intros Hf. specialize (H3 _ _ _ Hq Hf). lia.
    + unfold flock. destruct (w_lock w !! f) eqn:El; apply (files_below_sub w); cbn; eauto; try (apply Hins; eauto).
      intros f' q [[-> _]|[_ ?]]%lookup_insert_Some; [right|left; done]. by eapply H3.
    + apply (files_below_sub w); cbn; eauto. by apply Hins.
    + unfold check_owner. destruct (_ && _); apply (files_below_sub w); cbn; eauto; by apply Hins.
    + apply (files_below_sub w); cbn; eauto; [done|by apply Hins].
    + apply (files_below_sub w); cbn; eauto. apply Hins; eauto.
    + apply (files_below_sub w); cbn; eauto. apply Hins; eauto.
  - apply (files_below_sub w); cbn; eauto.
    + intros f q Hf. left. by eapply lookup_release.
    + intros q st f [_ Hq]%lookup_delete_Some Hf. eauto.
  - destruct (w_procs w !! p) as [[]|]; try done. apply (files_below_sub w); cbn; eauto.
    intros f' q Hf. left. by eapply lookup_release.
Qed.

Lemma files_below_run l : files_below (run_events l).
Proof.
  unfold run_events. assert (files_below start) as Hs by (split; cbn; intros; by simplify_map_eq).
  revert Hs. generalize start. induction l as [|e l IH]; intros w Hw; [done|]. apply IH. by apply files_below_step.
Qed.

Lemma set_stage_twice p st st' w : set_stage p st (set_stage p st' w) = set_stage p st w.
Proof. unfold set_stage. cbn. by rewrite insert_insert_eq. Qed.

(** The step of a process whose stage is known. *)
Lemma step_at p st w : acquire_step p (set_stage p st w) =
  match st with
  | Opening => open_file p (set_stage p st w) | Opened f => flock p f (set_stage p st w)
  | Blocked _ => readPIDFile p (set_stage p st w) | ReadPID pid => check_owner p pid (set_stage p st w)
  | Removing => remove_file p (set_stage p st w) | Locked f => truncate p f (set_stage p st w)
  | Truncated f => write_pid p f (set_stage p st w) | _ => set_stage p st w
  end.
Proof. unfold acquire_step. cbn [set_stage w_procs]. by rewrite lookup_insert_eq. Qed.

Lemma open_step p f w : w_path w = Some f → acquire_step p (set_stage p Opening w) = set_stage p (Opened f) w.
Proof. intros Hp. rewrite step_at. unfold open_file. cbn [set_stage w_path]. rewrite Hp. apply set_stage_twice. Qed.

Lemma flock_step p f w : w_lock w !! f = None →
  acquire_step p (set_stage p (Opened f) w)
  = mkWorld (w_path w) (w_content w) (<[f := p]> (w_lock w)) (<[p := Locked f]> (w_procs w)) (w_next w).
Proof. intros Hl. rewrite step_at. unfold flock. cbn [set_stage w_lock w_path w_content w_procs w_next]. by rewrite Hl, insert_insert_eq. Qed.

(** A process that finds the file of the path unlocked has its lock after two steps. *)
Lemma takes_lock w p f :
  w_path w = Some f → w_lock w !! f = None → w_procs w !! p = None →
  foldl run_event w [Start p; Step p; Step p]
  = mkWorld (Some f) (w_content w) (<[f := p]> (w_lock w)) (<[p := Locked f]> (w_procs w)) (w_next w).
Proof.
  intros Hp Hl Hn. cbn [foldl run_event]. unfold alive. rewrite bool_decide_eq_false_2 by (rewrite Hn; by intros []).
  by rewrite (open_step p f), flock_step, Hp.
Qed.

(** One that finds it locked, with the id of a process that is not alive in it, locks a
    file of its own after seven. *)
Lemma takes_over w q f owner dead :
  w_path w = Some f → w_lock w !! f = Some owner → w_content w !! f = Some dead → (0 < dead)%nat →
  w_procs w !! dead = None → dead ≠ q → w_procs w !! q = None → w_lock w !! w_next w = None →
  foldl run_event w (Start q :: replicate 7 (Step q))
  = mkWorld (Some (w_next w)) (<[w_next w := 0%nat]> (w_content w)) (<[w_next w := q]> (w_lock w))
      (<[q := Locked (w_next w)]> (w_procs w)) (S (w_next w)).
Proof.
  intros Hp Hl Hc Hpos Hd Hne Hn Hfree. cbn [foldl replicate run_event]. unfold alive.
  rewrite bool_decide_eq_false_2 by (rewrite Hn; by intros []). rewrite (open_step q f) by done.
  assert (acquire_step q (set_stage q (Opened f) w) = set_stage q (Blocked f) w) as ->.
  { rewrite step_at. unfold flock. cbn [set_stage w_lock]. rewrite Hl. apply set_stage_twice. }
  assert (acquire_step q (set_stage q (Blocked f) w) = set_stage q (ReadPID dead) w) as ->.
  { rewrite step_at. unfold readPIDFile. cbn [set_stage w_path w_content]. rewrite Hp, Hc. apply set_stage_twice. }
  assert (acquire_step q (set_stage q (ReadPID dead) w) = set_stage q Removing w) as ->.
  { rewrite step_at. unfold check_owner, alive. cbn [set_stage w_procs]. rewrite (proj2 (Nat.ltb_lt _ _) Hpos).
    rewrite bool_decide_eq_false_2 by (rewrite lookup_insert_ne, Hd by done; by intros []). apply set_stage_twice. }
  rewrite (step_at q Removing). unfold remove_file. cbn [set_stage w_content w_lock w_procs w_next]. rewrite insert_insert_eq.
  change (mkWorld None (w_content w) (w_lock w) (<[q := Opening]> (w_procs w)) (w_next w))
    with (set_stage q Opening (mkWorld None (w_content w) (w_lock w) (w_procs w) (w_next w))).
  rewrite step_at. unfold open_file. cbn [set_stage w_path w_content w_lock w_procs w_next]. rewrite insert_insert_eq.
  set (w1 := mkWorld (Some (w_next w)) (<[w_next w := 0%nat]> (w_content w)) (w_lock w) (w_procs w) (S (w_next w))).
  change (mkWorld _ _ _ (<[q := Opened (w_next w)]> (w_procs w)) _) with (set_stage q (Opened (w_next w)) w1).
  by rewrite flock_step.
Qed.

(** C40: After a death, two instances can run.  Whenever the lock file at the path is
    unlocked and still names a process that has died, any two processes that start can
    both become instances: one has locked the file and not yet written its id, the other
    reads the id of the dead one, removes the file the lock is on, and locks another. *)
Theorem two_instances l f dead p q :
  let w := run_events l in
  w_path w = Some f → w_lock w !! f = None → w_content w !! f = Some dead → (0 < dead)%nat →
  w_procs w !! dead = None → w_procs w !! p = None → w_procs w !! q = None →
  p ≠ q → p ≠ dead → q ≠ dead →
  ∃ moves, Forall (fun e => e ∈ [Start p; Step p; Start q; Step q]) moves ∧
    instance (run_events (l ++ moves)) p ∧ instance (run_events (l ++ moves)) q.
Proof.
  intros w Hp Hl Hc Hpos Hd Hnp Hnq Hpq Hpd Hqd.
  exists ([Start p; Step p; Step p] ++ Start q :: replicate 7 (Step q)). split.
  { cbn. repeat constructor; set_solver. }
  unfold run_events. rewrite !foldl_app. fold (run_events l). fold w.
  rewrite (takes_lock w p f Hp Hl Hnp).
  pose proof (files_below_run l) as [Hb1 Hb2 _]. fold w in Hb1, Hb2.
  rewrite (takes_over _ q f p dead); cbn [w_path w_content w_lock w_procs w_next]; try done.
  - split; unfold instance; cbn [w_procs].
    + rewrite lookup_insert_ne, lookup_insert_eq by done. done.
    + by rewrite lookup_insert_eq.
  - apply lookup_insert_eq.
  - by rewrite lookup_insert_ne.
  - by rewrite lookup_insert_ne.
  - specialize (Hb1 f Hp). rewrite lookup_insert_ne by lia. destruct (w_lock w !! w_next w) as [o|] eqn:Eo; [|done].
    specialize (Hb2 _ _ Eo). lia.
Qed.

(** The lock file of an instance that has died, and the program started twice. *)
Definition ex_dead : list Event := Start 1 :: replicate 4 (Step 1) ++ [Die 1].

Lemma two_instances_witness : ∃ moves, instance (run_events (ex_dead ++ moves)) 2 ∧ instance (run_events (ex_dead ++ moves)) 3.
Proof.
  destruct (two_instances ex_dead 1 1 2 3) as (moves & _ & H); try (vm_compute; reflexivity); try lia.
  exists moves. exact H.
Defined.

(** Without a competitor Acquire succeeds in four steps, whatever happened before: when
    nobody holds the lock of the file at the path, left by a process that died or
    absent, a process that starts gets the lock. *)
Theorem acquire_succeeds l q :
  w_procs (run_events l) !! q = None → (∀ f, w_path (run_events l) = Some f → w_lock (run_events l) !! f = None) →
  instance (run_events (l ++ Start q :: replicate 4 (Step q))) q.
Proof.
  intros Hq Hl. pose proof (files_below_run l) as Hb. unfold run_events in *. rewrite foldl_app.
  set (w := foldl run_event start l) in *. clearbody w. cbn [replicate foldl run_event].
  unfold alive. rewrite Hq. rewrite bool_decide_eq_false_2 by (by intros [? ?]).
  unfold acquire_step at 4. cbn [w_procs set_stage]. rewrite lookup_insert_eq.
  assert (∃ f m c n, open_file q (set_stage q Opening w) = mkWorld (Some f) c (w_lock w) (<[q := Opened f]> m) n ∧ w_lock w !! f = None)
    as (f & m & c & n & -> & Hf).
  { unfold open_file. cbn [w_path w_content w_lock w_procs w_next set_stage]. destruct (w_path w) as [f|] eqn:Ep.
    - eexists f, _, _, _. unfold set_stage. cbn [w_path w_content w_lock w_procs w_next]. rewrite Ep. split; [reflexivity|]. by apply Hl.
    - eexists (w_next w), _, _, _. split; [reflexivity|]. apply eq_None_not_Some. intros [p Hp].
      apply (fb_lock _ Hb) in Hp. lia. }
  unfold acquire_step at 3. cbn [w_procs]. rewrite lookup_insert_eq. unfold flock. cbn [w_lock w_path w_content w_procs w_next].
  rewrite Hf. unfold acquire_step at 2. cbn [w_procs]. rewrite lookup_insert_eq.
  unfold acquire_step. unfold truncate. cbn [w_procs]. rewrite lookup_insert_eq. unfold write_pid, instance. cbn [w_procs].
  by rewrite lookup_insert_eq.
Qed.

(** *** Witnesses *)

(** Two processes started together, their steps interleaved: the sixth opened the file first,
    the fifth locked it. *)
Definition ex_together : list Event :=
  [Start 5; Start 6; Step 6; Step 5; Step 5; Step 6; Step 6; Step 6; Step 5; Step 5].

Lemma one_instance_witness :
  instance (run_events ex_together) 5 ∧ (∃ st, w_procs (run_events ex_together) !! 6%nat = Some st) ∧
  ¬ instance (run_events ex_together) 6.
Proof.
  assert (instance (run_events ex_together) 5) as H5 by (vm_compute; exact I).
  split; [exact H5|]. split; [eexists; vm_compute; reflexivity|].
  intros H6. discriminate (one_instance ex_together 5 6 ltac:(repeat constructor) H5 H6).
Defined.

Lemma acquire_succeeds_witness : instance (run_events (ex_dead ++ Start 2 :: replicate 4 (Step 2))) 2.
Proof.
  apply (acquire_succeeds ex_dead 2); [vm_compute; reflexivity|]. intros f Hf. vm_compute in Hf. injection Hf as <-.
  vm_compute. reflexivity.
Defined.

(** ** The named mutex of Windows (lock_windows.go)

    The kernel keeps the mutex while a process has a handle to it; processes that end
    lose theirs. *)

Module Mutex.

(** The processes with a handle, those that run as an instance, and whether
    [Close] released the mutex. *)
Record Kernel := mkKernel { mx_handles : gset nat; mx_running : gset nat; mx_owned : bool }.

Inductive MxEvent :=
| MxAcquire (p : nat) (err lastErr : bool)
    (* CreateMutex, its error, and whether GetLastError is ERROR_ALREADY_EXISTS *)
| MxClose (p : nat)                        (* Lock.Close: ReleaseMutex *)
| MxExit (p : nat).

(** Acquire: an error of CreateMutex leaves the handle it returned open. *)
Definition Acquire (p : nat) (err lastErr : bool) (k : Kernel) : Kernel :=
  if err then mkKernel ({[p]} ∪ mx_handles k) (mx_running k) (mx_owned k)
  else if lastErr then k
  else mkKernel ({[p]} ∪ mx_handles k) ({[p]} ∪ mx_running k) true.

(** Lock.Close: the handle stays open. *)
Definition Close (p : nat) (k : Kernel) : Kernel :=
  if bool_decide (p ∈ mx_running k) then mkKernel (mx_handles k) (mx_running k) false else k.

Definition mx_event (k : Kernel) (e : MxEvent) : Kernel :=
  match e with
  | MxAcquire p err lastErr => Acquire p err lastErr k
  | MxClose p => Close p k
  | MxExit p => mkKernel (mx_handles k ∖ {[p]}) (mx_running k ∖ {[p]}) (mx_owned k)
  end.
Definition mx_start : Kernel := mkKernel ∅ ∅ false.
Definition mx_events (l : list MxEvent) (k : Kernel) : Kernel := foldl mx_event k l.

(** What Windows documents: a mutex that exists is reported, by the error or by
    GetLastError. *)
Fixpoint reported (k : Kernel) (l : list MxEvent) : bool :=
  match l with
  | [] => true
  | e :: l =>
      match e with
      | MxAcquire _ err lastErr => bool_decide (mx_handles k = ∅) || err || lastErr
      | _ => true
      end && reported (mx_event k e) l
  end.

(** One instance at most, also when processes die: every instance has a handle. *)
Definition mx_ok (k : Kernel) : Prop :=
  mx_running k ⊆ mx_handles k ∧ ∀ p q, p ∈ mx_running k → q ∈ mx_running k → p = q.

Lemma mx_ok_event k e : mx_ok k → reported k [e] = true → mx_ok (mx_event k e).
Proof.
  intros [H1 H2] Hr. destruct e as [p err lastErr|p|p]; cbn in *; rewrite ?andb_true_r in Hr.
  - unfold Acquire. destruct err; [split; cbn; [set_solver|done]|]. destruct lastErr; [done|].
    rewrite !orb_false_r in Hr. apply bool_decide_eq_true in Hr. split; cbn; [set_solver|]. intros a b Ha Hb. set_solver.
  - unfold Close. case_bool_decide; [|done]. by split.
  - split; cbn; [set_solver|]. intros a b Ha Hb. set_solver.
Qed.

(** In any order of starts, ends and releases at most one instance runs, as long as
    Windows reports a mutex that exists. *)
Theorem mutex_one_instance l p q : reported mx_start l = true →
  p ∈ mx_running (mx_events l mx_start) → q ∈ mx_running (mx_events l mx_start) → p = q.
Proof.
  assert (∀ k, mx_ok k → reported k l = true → mx_ok (mx_events l k)) as Hl.
  { induction l as [|e l IH]; intros k Hk Hr; [done|]. cbn [reported] in Hr. apply andb_true_iff in Hr as [He Hr].
    cbn. apply IH; [|done]. apply mx_ok_event; [done|]. cbn. by rewrite He. }
  intros Hr. apply (Hl mx_start); [|done]. split; cbn; [done|]. intros ? ? Hx. set_solver.
Qed.

(** Close releases the mutex and keeps its handle: until the process ends nobody else
    can start. *)
Theorem closed_lock_blocks l p q err lastErr : reported mx_start (l ++ [MxClose p; MxAcquire q err lastErr]) = true →
  p ∈ mx_handles (mx_events l mx_start) →
  mx_running (mx_events (l ++ [MxClose p; MxAcquire q err lastErr]) mx_start) = mx_running (mx_events l mx_start).
Proof.
  assert (∀ k l', reported k (l ++ l') = true → reported (mx_events l k) l' = true) as Happ.
  { induction l as [|e l IH]; intros k l' Hr; [done|]. cbn [app reported] in Hr. apply andb_true_iff in Hr as [_ Hr]. by apply IH. }
  intros Hr%Happ Hp. unfold mx_events in *. rewrite foldl_app. set (k := foldl mx_event mx_start l) in *. cbn [foldl mx_event reported andb] in *.
  assert (mx_handles (Close p k) = mx_handles k ∧ mx_running (Close p k) = mx_running k) as [E1 E2]
    by (unfold Close; destruct (bool_decide (p ∈ mx_running k)); by split).
  rewrite E1, andb_true_r in Hr. rewrite bool_decide_eq_false_2 in Hr by set_solver. unfold Acquire.
  destruct err; [exact E2|]. destruct lastErr; [exact E2|]. discriminate Hr.
Qed.

Lemma mutex_one_instance_witness :
  let l := [MxAcquire 1 false false; MxAcquire 2 true true; MxExit 1; MxExit 2; MxAcquire 3 false false] in
  3%nat ∈ mx_running (mx_events l mx_start) ∧ 1%nat ∉ mx_running (mx_events l mx_start).
Proof.
  cbv zeta. set (l := [_; _; _; _; _]).
  assert (3%nat ∈ mx_running (mx_events l mx_start)) as H3 by (apply (bool_decide_unpack _); vm_compute; exact I).
  split; [exact H3|]. intros H1. discriminate (mutex_one_instance l 1 3 ltac:(vm_compute; reflexivity) H1 H3).
Defined.
End Mutex.
